(* ===== verification/_CoqProject ===== *)
-Q . S2P
Prelude.v
GoLib.v
Sdk.v
Requests.v
Fees.v
ItemQueue.v
TokenList.v
Signature.v
MoveFundQueue.v
Pools.v
Validators.v
JoltQueries.v
PubClient.v
Keysign.v
Goroutine.v
Threads.v
TxSend.v
Config.v
TssClient.v
SendPrograms.v
MoveFund.v
Inbound.v
Outbound.v
CosTx.v
Keygen.v
Storage.v
Tools.v
Processing.v
MintRound.v
PayoutRound.v
MoveRound.v
Flow.v
JoltClient.v
EventLoop.v
Wellformed.v
Lifecycle.v
Progress.v
PayProgress.v
BridgeThreads.v
ServiceRules.v
ServiceTypes.v
Following.v
DepositThreads.v
PayoutThreads.v
ServiceRest.v
FlightThreads.v
Alone.v
Intake.v
Ops.v
Startup.v
Restarts.v
