(* ===== verification/Prelude.v ===== *)
(** * Verification of the joltifychain-bridge: root of the development

    The bridge is one Go process per validator.  It watches the joltify chain
    and two public chains (Ethereum and BSC), turns deposits into requests,
    and pays each request on the other side with transactions that a group of
    validators signs by threshold signatures.  The development models that
    process under src/ down to its requests, queues, signing rounds and event
    loop; what the process calls and does not own is a parameter.

    ** Conventions

    A Go call that may fail or panic is an [outcome] ([Ret], [Fail] with the
    error's text, [Panic]); an operation on a state of type [S] is an [M S],
    that is [S -> S * outcome _], so that the state after an error or a panic
    is visible.  Integers of 64 bits are [Z] with [i64] and [u64] where the
    source's arithmetic may wrap, [big.Int] is [Z], byte slices are lists of
    [byte], strings are stdpp strings of ASCII characters.  [sync.Map] and Go
    maps are [gmap]; where the source ranges over one, the order is a choice
    of the class [GoRuntime] that only has to be a permutation.  The names are
    the source's; a handler is one definition with the source's guards in
    their order.

    ** Files

    - Prelude.v: outcomes, the state monad and its notation, the rules for
      operations that keep an invariant ([keeps], tactic [keep], hint database
      [keeps]), lemmas on lists, maps and loops.
    - GoLib.v: the part of Go's standard library the source uses (ASCII case,
      [strings.Split], decimal, hexadecimal and base64 text, [big.Int] bytes,
      map order, [sort.Slice], [sort.Strings]).
    - Sdk.v: Cosmos SDK integers, decimals and coins, go-ethereum addresses
      and hashes, bech32: classes of operations, classes of laws, and
      reference instances the witnesses run.
    - Requests.v: common/pool.go, common/requests_queue.go.  The requests,
      their hashes and indices.
    - Fees.v: common/fee.go, common/decimals.go and the adjustments of
      pubchain/helper.go and cosbridge/helper.go.
    - ItemQueue.v: pubchain/public_items_process.go,
      cosbridge/oppy_item_process.go.  The retry map and the on-hold slice,
      once, over the interface [Indexed].
    - TokenList.v: tokenlist/.  The list, its mock, and the interface
      [BridgeTokenListI] the transfer handlers are proved against.
    - Signature.v: misc/helper.go and the sender of a raw transaction
      (pubchain/helper.go).
    - MoveFundQueue.v: the queue of pubchain/move_fund.go.
    - Pools.v: UpdatePool, GetPool, checkToBridge, bridge/helper.go and the
      refresh of both caches in bridge/bridge_service.go.
    - Validators.v: validators/, cosbridge/validator.go and the quorum of
      cosbridge/submit_outboundtx.go (its float32 threshold in [SpecFloat]).
    - JoltQueries.v: the gRPC queries of cosbridge/helper.go,
      cosbridge/validator.go and the [Handler] of pubchain/helper.go, with
      the connections they open and close.
    - PubClient.v: pubchain/helper.go, pubchain/retry.go and waitToSend.  The
      lock around the client, reconnection, the headers that wait.
    - Keysign.v: pubchain/broadcast.go and the signing rounds, as a step
      relation over all interleavings of workers and collector.
    - Goroutine.v: goroutines as programs of single actions, groups of them
      and signing rounds as step relations over any interleaving, a logic for
      safety over all interleavings ([safe]), termination of groups and
      rounds, and the refinement of a round to Keysign.v.
    - Threads.v: a loop and the goroutines it starts as threads of single
      actions that may start groups, signing rounds and further threads; a
      logic for what each of them is answerable for ([svc_sound]), properties
      of the state alone ([svc_always]), termination and progress
      ([svc_comes_to_rest], [svc_goes_on]), and a scheduler that runs them.
    - TxSend.v: pubchain/tx_send.go.  SendPrograms.v: its payout methods as
      such programs.  MoveFund.v: the rest of move_fund.go; MoveRound.v: it
      with its goroutines in any interleaving.
    - Config.v: config/config.go with the flag parser.  TssClient.v:
      tssclient/.
    - Inbound.v: pubchain/tx_inbound.go.  Outbound.v:
      cosbridge/tx_outbound.go and CheckOutBoundTx.
    - CosTx.v: batches of transactions on the joltify chain
      (cosbridge/bridge.go, helper.go, mint.go, submit_outboundtx.go) and the
      two FeedTx (cosbridge/feed.go, pubchain/feed.go).
    - Keygen.v: cosbridge/event.go and CheckAndUpdatePool.
    - Storage.v: storage/ and the two ends of NewBridgeService.  Tools.v:
      the generator of test deposits, cmd/tools/.
    - Processing.v: processInbound, processEachOutBound and the put-back
      routines of bridge/bridge_service.go.
    - MintRound.v, PayoutRound.v: the same routines with their goroutines in
      any interleaving, and their agreement with Processing.v.
    - Flow.v: when a batch is fed (addEventLoop and pubchainProcess).
    - JoltClient.v: cosbridge/retry.go, the locked height query of
      cosbridge/bridge.go and InitValidators of cosbridge/validator.go.
    - EventLoop.v: the state behind addEventLoop, a handler per case of its
      select ([handle]) and reachability under any order of events
      ([reached]).
    - Wellformed.v: every operation and every handler keeps the maps keyed,
      and the rule ([Wellformed.handle_parts]) by which a property of the
      flows, fund movements and caches is kept by every event.
    - Lifecycle.v: a deposit and a payout followed through all of it.
    - Progress.v, PayProgress.v: runs of the two flows of Flow.v in which
      every waiting request gets its turn.
    - BridgeThreads.v: addEventLoop, pubchainProcess and every goroutine they
      start as threads on the state of EventLoop.v, so that batches, key
      generations, fund movements and further blocks interleave action by
      action ([on_arrival], [svc_reaches]).
    - ServiceRules.v: what an invariant of one flow has to satisfy to be kept
      by all of them.  ServiceTypes.v: the types of the state and the shape of
      the batches.  Following.v: where a request is, and who is answerable for
      it.  DepositThreads.v, PayoutThreads.v: no request is lost.
      FlightThreads.v: one batch at a time.  ServiceRest.v: everything that
      was started ends.
    - Alone.v: a thread run with nothing in between ([solo]); the cases of a
      joltify block and of a mint batch so run are their handlers in
      EventLoop.v.
    - Intake.v: the subscriptions, the buffered queues and the loop between
      them, each send and receive a step ([istep]), with the renewals of
      pubchain/retry.go and cosbridge/retry.go in between; and the whole
      process, these channels before the threads of BridgeThreads.v
      ([pstep]).
    - Ops.v: bridge/http.go and monitor/metric.go.
    - Startup.v: pubchain/types.go, cosbridge/types.go, NewBridgeService, the
      opening of addEventLoop and cmd/bridge_service.go.  A run of the service
      is [NewBridgeService evs], for any list of events up to the interrupt.
    - Restarts.v: one life of the service with its threads after the other,
      from the files the last one saved.

    A deposit passes through [Inbound.process_tx], the inbound queue,
    [Flow.inbound_section] and [CosTx.FeedTx_inbound], the request channel
    ([EventLoop.handle] on [EvTakeInbound]), [Processing.processInbound] with
    [CosTx.DoProcessInBound], and is minted, or goes to the on-hold queue and
    back to the map.  A transfer passes through [Outbound.CheckOutBoundTx],
    the outbound queue, [Flow.outbound_section], [CosTx.FeedTx_outbound] and
    [Processing.outbound_round] with [TxSend.ProcessOutBound].  The threads of
    BridgeThreads.v take the same way through [inbound_section_thread],
    [feed_inbound_thread], [receive_in], [mint_thread] and [put_back_in], and
    [outbound_section_thread], [feed_outbound_thread], [receive_out],
    [payout_thread] and [put_back_out].

    ** What the theorems show

    - No request is lost by the running service, under any events and in any
      interleaving: [DepositThreads.no_deposit_lost_in_any_order],
      [PayoutThreads.no_payout_lost_in_any_order]; nor over any number of
      restarts: [Restarts.nothing_lost_over_restarts].  With every handler and
      goroutine as one step, also between the ends of goroutines:
      [Lifecycle.no_deposit_lost], [Lifecycle.no_payout_lost].
    - The running service, in any interleaving: at most one batch of each flow
      is under way, so a channel never fills
      ([FlightThreads.one_batch_at_a_time]); a batch is of different requests,
      for one chain and account, with consecutive nonces or sequence numbers
      ([FlightThreads.batches_on_the_channels]); without new events everything
      ends and nobody waits for ever ([ServiceRest.service_comes_to_rest],
      [ServiceRest.service_reaches_rest]); its state is well-typed at every
      moment ([Restarts.service_always_typed]).
    - Every waiting request gets its turn: from any state with no batch under
      way, however many failures were counted, blocks within a bound lead to
      a state in which no deposit, and no payout to the chain, waits
      ([Progress.deposits_get_their_turn],
      [PayProgress.payouts_get_their_turn]); the node has to answer: see
      [EventLoop.wedged_forever] below.
    - No event is lost between the nodes and the loop
      ([Intake.no_event_lost]), and those of one subscription are handled in
      order unless a renewal overtakes the loop ([Intake.events_in_order],
      [Intake.head_overtaken]); the process so composed only reaches states
      of the service; the renewal of a client, in PubClient.v one operation,
      is one of the interleavings ([Intake.renewal_refines]); a thread
      without interruption is its handler ([Alone.deposits_alone]).
    - No request is lost by a round, in whatever order its goroutines act:
      [PayoutRound.payout_any_order], [MintRound.processInbound_any_order],
      [MintRound.putOnHoldBlockInBoundBack_any_order]; the rounds end:
      [PayoutRound.payout_round_ends], [MintRound.processInbound_ends]; they
      agree with the sequential routines: [PayoutRound.outbound_worker_same],
      [MintRound.processInbound_in_order]; the sequential forms:
      [Processing.processInbound_accounts],
      [Processing.outbound_round_accounts],
      [Processing.putOnHoldBlockInBoundBack_accounts].
    - The whole service, from the actual start and under any events:
      [Startup.service_state_ok], [Startup.service_restart],
      [Startup.only_done_saves], [Startup.silent_start],
      [Config.peers_accumulate], [TssClient.StartTssServer_ok],
      [JoltQueries.queries_leave_no_connection].
    - The queues:
      [ItemQueue.queue_invariant], [ItemQueue.PopItem_conserves],
      [ItemQueue.PopItem_least], [ItemQueue.pop_requeue]; the state files:
      [Storage.restart_preserves]; fund movements:
      [MoveRound.MoveFound_any_order], [MoveRound.moves_to_current_pool],
      [MoveRound.move_round_ends], [MoveFundQueue.PopMoveFundItem_spec].
    - Value is conserved and only real deposits count:
      [Inbound.only_confirmed_deposits], [Inbound.erc20_deposit_credited],
      [Inbound.cross_chain_conserves], [Outbound.outbound_conserves],
      [Fees.doGetFee_clamp], [Fees.CalculateFee_total],
      [Fees.adjust_roundtrip], [TokenList.tokenlist_lookup].
    - What is signed and sent is what was asked for, in its turn:
      [Keysign.round_batch], [Keysign.round_ends],
      [PayoutRound.payout_refines_keysign],
      [PayoutRound.signed_batch_pays_requests],
      [CosTx.batchGenSendTx_signs], [TxSend.SendNativeTokenBatch_pays],
      [TxSend.SendNativeTokenForMoveFund_spends],
      [Signature.SerializeSig_layout], [CosTx.FeedTx_inbound_sequences],
      [CosTx.FeedTx_outbound_nonces], [CosTx.waitAndSend_in_turn],
      [PubClient.waitToSend_in_turn], [PubClient.locked_calls_balanced].
    - Validators and pools: [Validators.submitted_tx_unique],
      [Validators.UpdateValidatorSet_exact], [Pools.pools_follow_chain],
      [Keygen.keygen_job_adds_one], [Keygen.CheckAndUpdatePool_fifo].
    - The event loop: [EventLoop.one_batch_in_flight],
      [Flow.pause_after_failures]; reconnection:
      [JoltClient.RetryOppyChain_keeps_events].
    - Behaviour of the code that departs from what it is for, proved as it is:
      [EventLoop.wedged_forever] and [Flow.failed_feed_wedges] (one failed
      query stops minting for good), [Intake.loop_blocks_itself] (the loop
      waits for room in a queue only it reads), [Flow.failed_feed_loses_payouts],
      [Processing.paid_on_other_chain_requeued],
      [JoltClient.lost_subscription_unnoticed], and, next to the components
      they concern, [Processing.undialled_batch_forgotten],
      [Processing.open_record_drops_request],
      [Requests.index_order_inverted], [Signature.SerializeSig_malleable],
      [MoveFundQueue.AddMoveFundItem_overwrites], [Pools.missed_rotation],
      [Validators.quorum_too_small], [Keysign.failed_worker_is_signed],
      [Outbound.second_transfer_replaces_first],
      [Outbound.chain_name_case_panics], [CosTx.bad_item_spoils_batch],
      [Keygen.keygen_failure_unreported], [TssClient.versions_differ].

    ** Bounds and fuel

    The loops that retry a counted number of times keep the count of the
    source (3 for a new public client, 30 for the status of a public
    transaction, 40 for an account's sequence, 5 for key generation; the
    search for a token issue is called with 20 and with 2).  The two loops
    bounded by elapsed time in the source, [waitToSend] and the record of a
    payout, take the number of attempts as an argument: [attempts] and [submits] are universally
    quantified in every theorem.  A signing round of [n] workers needs at most
    [10 * n + 2] steps.  The float32 quorum is compared with its integer value
    for sets of fewer than 1000 validators.  The wait of
    [InitValidators] takes the number of polls; more than were needed change
    nothing ([JoltClient.wait_synced_enough]).

    ** What is simplified or left out

    - MintRound.v, PayoutRound.v and MoveRound.v interleave the goroutines of a round: one
      remote call, or one access to a shared queue or counter, is one action.
      The lock around the submission of records (localSubmitLocker) is left
      out, which only adds interleavings.  The event loop runs the rounds in
      the form of Processing.v, one goroutine after another, with the answer
      of the signing round as an argument of the event; so the fund
      movements of MoveFund.v.
    - In EventLoop.v the goroutine of a key generation and those of a batch
      are atomic steps that come at any time after their start, as events.  In
      BridgeThreads.v one remote call, queue operation, counter, flag or
      channel operation is one action; DoProcessInBound, CheckOutBoundTx, the
      processing of one transaction, the refresh of the pools, the submission
      of a pool, and the parts of MoveFound before and after its goroutines
      are one action each.  A goroutine that panics ends the process; there
      the model has no further action of it.  A round's validators are those
      at the moment of the query.
    - Time, logging and, outside JoltQueries.v, the closing of connections are
      not modelled; the gauges are set in Ops.v but not by the handlers, which
      never read them.  The request channels, of capacity 512 and 1024, never
      hold more than one batch, so their sends are not made to wait.
    - PubClient.v keeps a queue of heads for each public chain, where the
      source shares one channel, as Intake.v does; [sees] relates the two.  The threads of BridgeThreads.v take an event in any state of the
      channels; Intake.v restricts them to the events that have come.  What a
      node delivers to a new channel of a renewal that then fails, or while
      there is no subscription, counts as not delivered.
    - The token list is reloaded from one file content, that of the start.
    - Not modelled: generated/ (generated contract bindings),
      cosbridge/tx_encode.go (codec registration), version/ (two strings set
      by the build), and of bridge/http.go the serving itself. *)

From Stdlib Require Export ZArith Lia Bool.
From stdpp Require Export base list gmap strings sorting.

#[global] Open Scope Z_scope.

Declare Scope go_scope.
Delimit Scope go_scope with go.

(** ** Outcomes of Go calls

    [Ret a] is a normal return with a nil error, [Fail e] a return with the
    error [e], [Panic] a run-time panic, which ends the process. *)
Inductive outcome (A : Type) : Type :=
| Ret (a : A)
| Fail (e : string)
| Panic.

Arguments Ret {A} _.
Arguments Fail {A} _.
Arguments Panic {A}.

Definition obind {A B} (m : outcome A) (k : A -> outcome B) : outcome B :=
  match m with
  | Ret a => k a
  | Fail e => Fail e
  | Panic => Panic
  end.

Definition omap {A B} (f : A -> B) (m : outcome A) : outcome B :=
  obind m (fun a => Ret (f a)).

(** A call whose nil-able result the caller inspects: the error is turned
    into a value, a panic is not caught. *)
Definition ocatch {A} (m : outcome A) : outcome (A + string) :=
  match m with
  | Ret a => Ret (inl a)
  | Fail e => Ret (inr e)
  | Panic => Panic
  end.

Definition is_ret {A} (m : outcome A) : bool :=
  match m with Ret _ => true | _ => false end.

Definition is_panic {A} (m : outcome A) : bool :=
  match m with Panic => true | _ => false end.

(** ** State and outcome

    A method of a mutable object takes the object's state and returns the new
    state with its outcome: an error return does not undo the writes made
    before it. *)
Definition M (S A : Type) : Type := S -> S * outcome A.

Definition ret {S A} (a : A) : M S A := fun s => (s, Ret a).
Definition fail {S A} (e : string) : M S A := fun s => (s, Fail e).
Definition panic {S A} : M S A := fun s => (s, Panic).
Definition get {S} : M S S := fun s => (s, Ret s).
Definition modify {S} (f : S -> S) : M S unit := fun s => (f s, Ret tt).
Definition lift {S A} (m : outcome A) : M S A := fun s => (s, m).

Definition bind {S A B} (m : M S A) (k : A -> M S B) : M S B := fun s =>
  match m s with
  | (s', Ret a) => k a s'
  | (s', Fail e) => (s', Fail e)
  | (s', Panic) => (s', Panic)
  end.

(** [try m]: the caller keeps the error value of [m] and goes on. *)
Definition try {S A} (m : M S A) : M S (A + string) := fun s =>
  let '(s', r) := m s in (s', ocatch r).

Notation "'let!' x ':=' m 'in' k" := (bind m (fun x => k))
  (at level 10, x pattern, m at level 100, k at level 200) : go_scope.
Notation "'do!' m 'in' k" := (bind m (fun _ => k))
  (at level 10, m at level 100, k at level 200) : go_scope.
Notation "'let?' x ':=' m 'in' k" := (obind m (fun x => k))
  (at level 10, x pattern, m at level 100, k at level 200) : go_scope.

(** [mapM f l] runs [f] on each element in order and stops at the first one
    that does not return. *)
Fixpoint omapM {A B} (f : A -> outcome B) (l : list A) : outcome (list B) :=
  match l with
  | [] => Ret []
  | x :: l => obind (f x) (fun y => obind (omapM f l) (fun ys => Ret (y :: ys)))
  end.

(** [forM l f]: a [for range] loop whose body may not return early. *)
Fixpoint forM {S A} (l : list A) (f : A -> M S unit) : M S unit :=
  match l with
  | [] => ret tt
  | x :: l => bind (f x) (fun _ => forM l f)
  end.

(** ** Machine integers

    [int64] and [uint64] values are [Z]s kept in range by these two functions,
    applied where the source computes with the fixed width. *)
Definition two63 : Z := 9223372036854775808.
Definition two64 : Z := 18446744073709551616.
Definition MaxInt64 : Z := 9223372036854775807.
Definition MinInt64 : Z := -9223372036854775808.

Definition u64 (z : Z) : Z := z mod two64.
Definition i64 (z : Z) : Z := (z + two63) mod two64 - two63.

Definition in_i64 (z : Z) : Prop := MinInt64 <= z <= MaxInt64.
Definition in_u64 (z : Z) : Prop := 0 <= z < two64.

(** ** Sorting by a boolean order, for the reference run-time *)
Fixpoint insert_by {A} (le : A -> A -> bool) (x : A) (l : list A) : list A :=
  match l with
  | [] => [x]
  | y :: l' => if le x y then x :: l else y :: insert_by le x l'
  end.

Fixpoint sort_by {A} (le : A -> A -> bool) (l : list A) : list A :=
  match l with
  | [] => []
  | x :: l => insert_by le x (sort_by le l)
  end.

(** ** Hint databases and tactics *)
Create HintDb bridge.
Create HintDb go.
Create Rewrite HintDb go_eqs.

(** Case analysis on the scrutinee of a match or an if, keeping equations. *)
Ltac case_on x := let E := fresh "E" in destruct x eqn:E.

Ltac go_step :=
  match goal with
  | H : context [match ?x with _ => _ end] |- _ => case_on x; simplify_eq/=
  | |- context [match ?x with _ => _ end] => case_on x; simplify_eq/=
  end.

(** Unfolds the state and outcome monads. *)
Ltac unfold_go :=
  unfold bind, ret, fail, panic, get, modify, lift, try, obind, omap, ocatch in *; cbn in *.

(** Turns boolean comparisons on integers into propositions. *)
Ltac bool_to_prop :=
  repeat match goal with
  | H : (_ <? _) = true |- _ => apply Z.ltb_lt in H
  | H : (_ <? _) = false |- _ => apply Z.ltb_ge in H
  | H : (_ <=? _) = true |- _ => apply Z.leb_le in H
  | H : (_ <=? _) = false |- _ => apply Z.leb_gt in H
  | H : (_ =? _) = true |- _ => apply Z.eqb_eq in H
  | H : (_ =? _) = false |- _ => apply Z.eqb_neq in H
  | H : (_ && _) = true |- _ => apply andb_prop in H; destruct H
  | H : negb _ = true |- _ => apply negb_true_iff in H
  | H : negb _ = false |- _ => apply negb_false_iff in H
  | H : bool_decide _ = true |- _ => apply bool_decide_eq_true in H
  | H : bool_decide _ = false |- _ => apply bool_decide_eq_false in H
  end.

(** ** Lemmas: machine integers *)

Lemma u64_range z : in_u64 (u64 z).
Proof. unfold in_u64, u64. apply Z.mod_pos_bound. reflexivity. Qed.

Lemma u64_small z : in_u64 z -> u64 z = z.
Proof. unfold in_u64, u64. intros. by apply Z.mod_small. Qed.

Lemma i64_small z : in_i64 z -> i64 z = z.
Proof.
  unfold in_i64, i64, MinInt64, MaxInt64, two63, two64. intros.
  rewrite Z.mod_small by lia. lia.
Qed.

Lemma i64_range z : in_i64 (i64 z).
Proof.
  unfold in_i64, i64, MinInt64, MaxInt64, two63, two64.
  pose proof (Z.mod_pos_bound (z + 9223372036854775808) 18446744073709551616). lia.
Qed.

Lemma u64_add_l a b : u64 (u64 a + b) = u64 (a + b).
Proof. unfold u64. by rewrite Zplus_mod_idemp_l. Qed.

Lemma u64_add_r a b : u64 (a + u64 b) = u64 (a + b).
Proof. unfold u64. by rewrite Zplus_mod_idemp_r. Qed.

#[export] Hint Resolve u64_range i64_range : go.
#[export] Hint Rewrite u64_add_l u64_add_r : go_eqs.

(** ** Lemmas: sorting *)

Section Sorting.
Context {A : Type} (le : A -> A -> bool).

Lemma insert_by_perm x l : insert_by le x l ≡ₚ x :: l.
Proof.
  induction l as [|y l IH]; cbn; [done|].
  destruct (le x y); [done|]. by rewrite IH, Permutation_swap.
Qed.

Lemma sort_by_perm l : sort_by le l ≡ₚ l.
Proof. induction l as [|x l IH]; cbn; [done|]. by rewrite insert_by_perm, IH. Qed.

(** Sortedness only needs the order to be total and transitive on the
    elements that are sorted. *)
Context (P : A -> Prop).
Context (le_total : forall a b, P a -> P b -> le a b = true \/ le b a = true).
Context (le_trans : forall a b c, P a -> P b -> P c ->
  le a b = true -> le b c = true -> le a c = true).

Lemma insert_by_sorted x l :
  P x -> Forall P l -> StronglySorted (fun a b => le a b = true) l ->
  StronglySorted (fun a b => le a b = true) (insert_by le x l).
Proof.
  intros Px Pl. induction 1 as [|y l Hl IH Hy]; cbn; [repeat constructor|].
  apply Forall_cons in Pl as [Py Pl]. destruct (le x y) eqn:E.
  - constructor; [by constructor|]. constructor; [done|].
    rewrite Forall_forall in Hy, Pl |- *. intros z Hz. eapply (le_trans x y z); eauto.
  - constructor; [by apply IH|]. rewrite insert_by_perm. constructor; [|done].
    destruct (le_total x y); congruence.
Qed.

Lemma sort_by_sorted l : Forall P l -> StronglySorted (fun a b => le a b = true) (sort_by le l).
Proof.
  induction 1 as [|x l Px Pl IH]; cbn; [constructor|].
  apply insert_by_sorted; [done| |done]. by rewrite sort_by_perm.
Qed.
End Sorting.

(** ** Lemmas: outcomes *)

Lemma obind_ret_inv {A B} (m : outcome A) (k : A -> outcome B) b :
  obind m k = Ret b -> exists a, m = Ret a /\ k a = Ret b.
Proof. destruct m; cbn; intros; try discriminate. eauto. Qed.

Lemma omapM_length {A B} (f : A -> outcome B) l ys :
  omapM f l = Ret ys -> length ys = length l.
Proof.
  revert ys. induction l as [|x l IH]; cbn; intros ys H; [by simplify_eq|].
  apply obind_ret_inv in H as (y & Hy & H).
  apply obind_ret_inv in H as (zs & Hz & H). simplify_eq. cbn. f_equal. by apply IH.
Qed.

Lemma omapM_forall2 {A B} (f : A -> outcome B) l ys :
  omapM f l = Ret ys <-> Forall2 (fun x y => f x = Ret y) l ys.
Proof.
  revert ys. induction l as [|x l IH]; cbn; intros ys; split; intros H.
  - simplify_eq. constructor.
  - by inversion H.
  - apply obind_ret_inv in H as (y & Hy & H).
    apply obind_ret_inv in H as (zs & Hz & H). simplify_eq.
    constructor; [done|]. by apply IH.
  - inversion H; subst. rewrite H2. cbn.
    match goal with h : Forall2 _ _ _ |- _ => apply IH in h as -> end. done.
Qed.

(** ** Lemmas: the state monad *)

Lemma bind_ret_inv {St A B} (m : M St A) (k : A -> M St B) s s' b :
  bind m k s = (s', Ret b) -> exists s1 a, m s = (s1, Ret a) /\ k a s1 = (s', Ret b).
Proof. unfold bind. destruct (m s) as [s1 [a|e|]]; intros H; simplify_eq. eauto. Qed.

Lemma try_ret_inv {St A} (m : M St A) s s' r :
  try m s = (s', Ret r) -> match r with inl a => m s = (s', Ret a) | inr e => m s = (s', Fail e) end.
Proof. unfold try. destruct (m s) as [s1 [a|e|]]; cbn; intros H; by simplify_eq. Qed.

Lemma bind_ret_l {S A B} (a : A) (k : A -> M S B) s : bind (ret a) k s = k a s.
Proof. reflexivity. Qed.

#[export] Hint Rewrite @bind_ret_l : go_eqs.

Lemma bind_ret_run {St A B} (m : M St A) (k : A -> M St B) s s1 a :
  m s = (s1, Ret a) -> bind m k s = k a s1.
Proof. unfold bind. by intros ->. Qed.

(** ** Invariants of programs

    [keeps P m]: wherever [m] starts in [P], it leaves a state in [P], also
    when it fails or panics. *)
Definition keeps {St A} (P : St -> Prop) (m : M St A) : Prop := forall s, P s -> P (fst (m s)).

Create HintDb keeps.

Section Keeps.
Context {St : Type} (P : St -> Prop).

Lemma keeps_ret {A} (a : A) : keeps P (ret a).
Proof. by intros s. Qed.
Lemma keeps_fail {A} e : keeps P (@fail St A e).
Proof. by intros s. Qed.
Lemma keeps_panic {A} : keeps P (@panic St A).
Proof. by intros s. Qed.
Lemma keeps_lift {A} (o : outcome A) : keeps P (lift o).
Proof. by intros s. Qed.
Lemma keeps_get : keeps P get.
Proof. by intros s. Qed.
Lemma keeps_modify f : (forall s, P s -> P (f s)) -> keeps P (modify f).
Proof. intros H s Hs. by apply H. Qed.
Lemma keeps_bind {A B} (m : M St A) (k : A -> M St B) :
  keeps P m -> (forall a, keeps P (k a)) -> keeps P (bind m k).
Proof.
  intros Hm Hk s Hs. unfold bind. pose proof (Hm s Hs) as H1. destruct (m s) as [s1 [a|e|]]; [|done|done].
  by apply Hk.
Qed.
Lemma keeps_try {A} (m : M St A) : keeps P m -> keeps P (try m).
Proof. intros Hm s Hs. unfold try. specialize (Hm s Hs). by destruct (m s). Qed.
Lemma keeps_forM {A} (l : list A) f : (forall a, keeps P (f a)) -> keeps P (forM l f).
Proof. intros Hf. induction l as [|a l IH]; cbn; [apply keeps_ret|]. by apply keeps_bind. Qed.
(** A program that starts by reading the state may use that it is in [P]. *)
Lemma keeps_get_bind {A} (k : St -> M St A) : (forall s, P s -> P (fst (k s s))) -> keeps P (bind get k).
Proof. intros H s Hs. by apply H. Qed.
Lemma keeps_read {A} (k : St -> M St A) : (forall s, P s -> keeps P (k s)) -> keeps P (bind get k).
Proof. intros H s Hs. by apply H. Qed.
End Keeps.

#[export] Hint Resolve keeps_ret keeps_fail keeps_panic keeps_lift keeps_get keeps_try keeps_forM : keeps.

(** Takes a program apart along its binds and branches. *)
Ltac keep_step :=
  match goal with
  | |- keeps _ (bind _ _) => apply keeps_bind; [|intros ?]
  | |- keeps _ (match ?x with _ => _ end) => destruct x
  | |- keeps _ (try _) => apply keeps_try
  | |- keeps _ (forM _ _) => apply keeps_forM; intros ?
  | |- keeps _ _ => solve [auto with keeps]
  end.
Ltac keep := repeat keep_step.
