(* ===== verification/GoLib.v ===== *)
(** * The part of Go's standard library the bridge uses

    Strings and byte slices, [strings.ToLower], [strings.EqualFold] and
    [strings.Split] on ASCII text, [strconv.FormatInt] and [ParseInt],
    [math/big] text and byte conversions, [encoding/hex] and
    [encoding/base64], and the two unspecified choices of the run-time the
    source meets: the order in which a map is visited and the order in which
    [sort.Slice] leaves elements that compare equal. *)

From Stdlib Require Export Strings.Byte.
From Stdlib Require Import Ascii String.
From S2P Require Import Prelude.

#[local] Open Scope string_scope.
#[local] Open Scope Z_scope.

(** ** Bytes *)

Definition bytes : Type := list Byte.byte.

#[export] Instance byte_eq_decision : EqDecision Byte.byte := Byte.byte_eq_dec.

Definition byte_val (b : Byte.byte) : Z := Z.of_N (Byte.to_N b).

Definition byte_of (z : Z) : Byte.byte :=
  match Byte.of_N (Z.to_N (z mod 256)) with Some b => b | None => Byte.x00 end.

Definition bytes_of_string (s : string) : bytes := String.list_byte_of_string s.
Definition string_of_bytes (b : bytes) : string := String.string_of_list_byte b.

(** [new(big.Int).SetBytes(b)]: big-endian unsigned value. *)
Definition SetBytes_from (acc : Z) (b : bytes) : Z :=
  fold_left (fun a x => a * 256 + byte_val x) b acc.
Definition SetBytes (b : bytes) : Z := SetBytes_from 0 b.

(** [x.Bytes()]: the shortest big-endian form of the absolute value. *)
Fixpoint Bytes_fuel (fuel : nat) (n : Z) (acc : bytes) : bytes :=
  match fuel with
  | O => acc
  | S f => if n =? 0 then acc else Bytes_fuel f (n / 256) (byte_of n :: acc)
  end.
Definition Bytes (z : Z) : bytes := Bytes_fuel (S (Z.to_nat (Z.log2 (Z.abs z)))) (Z.abs z) [].

(** [x.BitLen()]. *)
Definition BitLen (z : Z) : Z := if z =? 0 then 0 else Z.log2 (Z.abs z) + 1.

(** [x.Uint64()]: the low 64 bits of the absolute value. *)
Definition Uint64 (z : Z) : Z := u64 (Z.abs z).

(** ** Decimal text *)

Definition digit_char (d : Z) : ascii := ascii_of_N (Z.to_N (48 + d)).
Definition char_digit (c : ascii) : option Z :=
  let n := Z.of_N (N_of_ascii c) in
  if (48 <=? n) && (n <=? 57) then Some (n - 48) else None.

(** The decimal digits of [n >= 0], pushed in front of [acc]. *)
Fixpoint digits_fuel (fuel : nat) (n : Z) (acc : string) : string :=
  match fuel with
  | O => acc
  | S f =>
      let acc' := String (digit_char (n mod 10)) acc in
      if n <? 10 then acc' else digits_fuel f (n / 10) acc'
  end.
Definition digits_bound (n : Z) : nat := S (Z.to_nat (Z.log2 n)).
Definition digits (n : Z) : string := digits_fuel (digits_bound n) n "".

(** The number of decimal digits of [n >= 0] as printed. *)
Definition ndigits (n : Z) : Z := Z.of_nat (String.length (digits n)).

(** [strconv.FormatInt(z, 10)], and [z.String()] of a [big.Int]. *)
Definition FormatInt (z : Z) : string :=
  if z <? 0 then String "-"%char (digits (- z)) else digits z.

Fixpoint digits_value (acc : Z) (s : string) : option Z :=
  match s with
  | EmptyString => Some acc
  | String c s =>
      match char_digit c with
      | Some d => digits_value (acc * 10 + d) s
      | None => None
      end
  end.

Definition unsigned_value (s : string) : option Z :=
  match s with EmptyString => None | _ => digits_value 0 s end.

(** [new(big.Int).SetString(s, 10)]. *)
Definition SetString10 (s : string) : option Z :=
  match s with
  | String "-"%char s => option_map Z.opp (unsigned_value s)
  | String "+"%char s => unsigned_value s
  | _ => unsigned_value s
  end.

(** [strconv.ParseInt(s, 10, 64)]. *)
Definition ParseInt64 (s : string) : outcome Z :=
  match SetString10 s with
  | None => Fail "invalid syntax"
  | Some z => if (MinInt64 <=? z) && (z <=? MaxInt64) then Ret z else Fail "value out of range"
  end.

(** ** Strings *)

Definition lower_char (c : ascii) : ascii :=
  let n := N_of_ascii c in
  if ((65 <=? n) && (n <=? 90))%N then ascii_of_N (n + 32) else c.

Fixpoint ToLower (s : string) : string :=
  match s with
  | EmptyString => EmptyString
  | String c s => String (lower_char c) (ToLower s)
  end.

Definition EqualFold (a b : string) : bool := bool_decide (ToLower a = ToLower b).

(** [strings.Split(s, sep)] for a one-byte separator. *)
Fixpoint Split (sep : ascii) (s : string) : list string :=
  match s with
  | EmptyString => [""]
  | String c s' =>
      if bool_decide (c = sep) then "" :: Split sep s'
      else match Split sep s' with
           | [] => [String c ""]
           | w :: ws => String c w :: ws
           end
  end.

(** ** Hexadecimal text *)

Definition hex_digit (c : ascii) : option Z :=
  let n := Z.of_N (N_of_ascii c) in
  if (48 <=? n) && (n <=? 57) then Some (n - 48)
  else if (97 <=? n) && (n <=? 102) then Some (n - 87)
  else if (65 <=? n) && (n <=? 70) then Some (n - 55)
  else None.

(** [hex.DecodeString]. *)
Fixpoint hex_DecodeString (s : string) : outcome bytes :=
  match s with
  | EmptyString => Ret []
  | String a (String b s) =>
      match hex_digit a, hex_digit b with
      | Some h, Some l => omap (cons (byte_of (h * 16 + l))) (hex_DecodeString s)
      | _, _ => Fail "encoding/hex: invalid byte"
      end
  | String a EmptyString =>
      match hex_digit a with
      | Some _ => Fail "encoding/hex: odd length hex string"
      | None => Fail "encoding/hex: invalid byte"
      end
  end.

Definition hex_char (d : Z) : ascii :=
  ascii_of_N (Z.to_N (if d <? 10 then 48 + d else 87 + d)).

(** [hex.EncodeToString]. *)
Fixpoint hex_EncodeToString (b : bytes) : string :=
  match b with
  | [] => ""
  | x :: b => String (hex_char (byte_val x / 16))
                (String (hex_char (byte_val x mod 16)) (hex_EncodeToString b))
  end.

(** ** Base 64 (the standard padded encoding) *)

Definition b64_char (d : Z) : ascii :=
  ascii_of_N (Z.to_N (
    if d <? 26 then 65 + d else if d <? 52 then 71 + d else if d <? 62 then d - 4
    else if d =? 62 then 43 else 47)).

Definition b64_digit (c : ascii) : option Z :=
  let n := Z.of_N (N_of_ascii c) in
  if (65 <=? n) && (n <=? 90) then Some (n - 65)
  else if (97 <=? n) && (n <=? 122) then Some (n - 71)
  else if (48 <=? n) && (n <=? 57) then Some (n + 4)
  else if n =? 43 then Some 62
  else if n =? 47 then Some 63
  else None.

(** [base64.StdEncoding.EncodeToString]. *)
Fixpoint base64_EncodeToString (b : bytes) : string :=
  match b with
  | [] => ""
  | [x] =>
      let v := byte_val x * 16 in
      String (b64_char (v / 64)) (String (b64_char (v mod 64)) "==")
  | [x; y] =>
      let v := (byte_val x * 256 + byte_val y) * 4 in
      String (b64_char (v / 4096)) (String (b64_char (v / 64 mod 64))
        (String (b64_char (v mod 64)) "="))
  | x :: y :: z :: b =>
      let v := byte_val x * 65536 + byte_val y * 256 + byte_val z in
      String (b64_char (v / 262144)) (String (b64_char (v / 4096 mod 64))
        (String (b64_char (v / 64 mod 64)) (String (b64_char (v mod 64))
          (base64_EncodeToString b))))
  end.

Fixpoint drop_newlines (s : string) : string :=
  match s with
  | EmptyString => EmptyString
  | String c s =>
      if bool_decide (c = ascii_of_N 10 \/ c = ascii_of_N 13) then drop_newlines s
      else String c (drop_newlines s)
  end.

(** The decoder on text without line breaks; trailing bits of the last group
    are not checked, as in the non-strict decoder. *)
Fixpoint base64_groups (s : string) : outcome bytes :=
  match s with
  | EmptyString => Ret []
  | String a (String b (String c (String d s))) =>
      match b64_digit a, b64_digit b, b64_digit c, b64_digit d with
      | Some a, Some b, Some c, Some d =>
          let v := a * 262144 + b * 4096 + c * 64 + d in
          omap (fun r => byte_of (v / 65536) :: byte_of (v / 256) :: byte_of v :: r)
               (base64_groups s)
      | Some a, Some b, Some c, None =>
          if bool_decide (d = "="%char /\ s = "") then
            let v := a * 262144 + b * 4096 + c * 64 in
            Ret [byte_of (v / 65536); byte_of (v / 256)]
          else Fail "illegal base64 data"
      | Some a, Some b, None, None =>
          if bool_decide (c = "="%char /\ d = "="%char /\ s = "") then
            Ret [byte_of ((a * 64 + b) / 16)]
          else Fail "illegal base64 data"
      | _, _, _, _ => Fail "illegal base64 data"
      end
  | _ => Fail "illegal base64 data"
  end.

(** [base64.StdEncoding.DecodeString]. *)
Definition base64_DecodeString (s : string) : outcome bytes :=
  base64_groups (drop_newlines s).

(** ** Unspecified run-time choices

    [map_range] is the order in which [sync.Map.Range] (or a [range] loop over
    a map) visits the entries of a map nobody else writes to; [sort_slice
    less] is what [sort.Slice] leaves in the slice. *)
Class GoRuntime := {
  map_range : forall {A : Type}, gmap string A -> list (string * A);
  sort_slice : forall {A : Type}, (A -> A -> bool) -> list A -> list A;
}.

Class GoRuntimeLaws (R : GoRuntime) : Prop := {
  map_range_perm : forall {A : Type} (m : gmap string A), map_range m ≡ₚ map_to_list m;
  sort_slice_perm : forall {A : Type} (less : A -> A -> bool) l, sort_slice less l ≡ₚ l;
  (** when [less] is a strict weak order on the elements of the slice, no
      element is less than one left of it *)
  sort_slice_sorted : forall {A : Type} (less : A -> A -> bool) l,
    (forall a b, a ∈ l -> b ∈ l -> less a b = true -> less b a = false) ->
    (forall a b c, a ∈ l -> b ∈ l -> c ∈ l ->
      less b a = false -> less c b = false -> less c a = false) ->
    StronglySorted (fun a b => less b a = false) (sort_slice less l);
}.

(** The run-time the examples evaluate with. *)
Definition go_runtime_ref : GoRuntime := {|
  map_range := fun A m => map_to_list m;
  sort_slice := fun A less l => sort_by (fun a b => negb (less b a)) l;
|}.

(** ** Lemmas: bytes *)

Lemma byte_val_range b : 0 <= byte_val b < 256.
Proof. unfold byte_val. pose proof (Byte.to_N_bounded b). lia. Qed.

Lemma byte_val_of z : byte_val (byte_of z) = z mod 256.
Proof.
  unfold byte_val, byte_of.
  pose proof (Z.mod_pos_bound z 256 eq_refl) as Hz.
  destruct (Byte.of_N (Z.to_N (z mod 256))) as [b|] eqn:E.
  - apply Byte.to_of_N in E. rewrite E. lia.
  - apply Byte.of_N_None_iff in E. lia.
Qed.

Lemma byte_of_val b : byte_of (byte_val b) = b.
Proof.
  unfold byte_of. pose proof (byte_val_range b). rewrite Z.mod_small by done.
  unfold byte_val. by rewrite N2Z.id, Byte.of_to_N.
Qed.

Lemma byte_val_inj a b : byte_val a = byte_val b -> a = b.
Proof. intros H. by rewrite <- (byte_of_val a), H, byte_of_val. Qed.

Lemma SetBytes_from_app acc a b :
  SetBytes_from acc (a ++ b)%list = SetBytes_from (SetBytes_from acc a) b.
Proof. apply fold_left_app. Qed.

Lemma SetBytes_from_shift acc b :
  SetBytes_from acc b = acc * 256 ^ Z.of_nat (length b) + SetBytes b.
Proof.
  unfold SetBytes. revert acc. induction b as [|x b IH]; intros acc.
  { cbn [SetBytes_from fold_left length]. rewrite Z.pow_0_r. lia. }
  change (SetBytes_from acc (x :: b)) with (SetBytes_from (acc * 256 + byte_val x) b).
  change (SetBytes_from 0 (x :: b)) with (SetBytes_from (0 * 256 + byte_val x) b).
  rewrite (IH (acc * 256 + byte_val x)), (IH (0 * 256 + byte_val x)).
  cbn [length]. rewrite Nat2Z.inj_succ, Z.pow_succ_r by lia. lia.
Qed.

Lemma SetBytes_app a b :
  SetBytes (a ++ b)%list = SetBytes a * 256 ^ Z.of_nat (length b) + SetBytes b.
Proof.
  unfold SetBytes at 1. rewrite SetBytes_from_app. apply SetBytes_from_shift.
Qed.

Lemma SetBytes_cons x b :
  SetBytes (x :: b) = byte_val x * 256 ^ Z.of_nat (length b) + SetBytes b.
Proof. apply (SetBytes_from_shift (byte_val x) b). Qed.

Lemma SetBytes_range b : 0 <= SetBytes b < 256 ^ Z.of_nat (length b).
Proof.
  induction b as [|x b IH]; [cbn; lia|].
  rewrite SetBytes_cons. cbn [length]. rewrite Nat2Z.inj_succ, Z.pow_succ_r by lia.
  pose proof (byte_val_range x). nia.
Qed.

Lemma SetBytes_zeros n b : SetBytes (replicate n Byte.x00 ++ b)%list = SetBytes b.
Proof.
  induction n as [|n IH]; [done|]. cbn [replicate app]. rewrite SetBytes_cons, IH. cbn. lia.
Qed.

Lemma Bytes_fuel_value fuel n acc :
  0 <= n < 2 ^ Z.of_nat fuel ->
  SetBytes (Bytes_fuel fuel n acc) = n * 256 ^ Z.of_nat (length acc) + SetBytes acc.
Proof.
  revert n acc. induction fuel as [|f IH]; intros n acc Hn.
  { cbn in Hn. cbn [Bytes_fuel]. assert (n = 0) as -> by lia. lia. }
  cbn [Bytes_fuel]. destruct (Z.eqb_spec n 0) as [->|Hn0]; [lia|].
  rewrite Nat2Z.inj_succ, Z.pow_succ_r in Hn by lia.
  rewrite IH.
  - rewrite SetBytes_cons, byte_val_of. cbn [length].
    rewrite Nat2Z.inj_succ, Z.pow_succ_r by lia.
    pose proof (Z.div_mod n 256). nia.
  - split; [apply Z.div_pos; lia|]. apply Z.div_lt_upper_bound; lia.
Qed.

Lemma Bytes_SetBytes z : SetBytes (Bytes z) = Z.abs z.
Proof.
  unfold Bytes. rewrite Bytes_fuel_value.
  - cbn. lia.
  - rewrite Nat2Z.inj_succ, Z2Nat.id by apply Z.log2_nonneg.
    split; [lia|]. destruct (Z.eq_dec (Z.abs z) 0) as [->|]; [cbn; lia|].
    apply Z.log2_spec. lia.
Qed.

Lemma Bytes_fuel_length fuel n acc k :
  0 <= n < 256 ^ Z.of_nat k ->
  (length (Bytes_fuel fuel n acc) <= k + length acc)%nat.
Proof.
  revert n acc k. induction fuel as [|f IH]; intros n acc k Hn; cbn [Bytes_fuel]; [lia|].
  destruct (Z.eqb_spec n 0); [lia|].
  destruct k as [|k]; [cbn in Hn; lia|].
  rewrite Nat2Z.inj_succ, Z.pow_succ_r in Hn by lia.
  etransitivity; [apply (IH _ _ k)|cbn; lia].
  split; [apply Z.div_pos; lia|]. apply Z.div_lt_upper_bound; lia.
Qed.

Lemma Bytes_length z k :
  Z.abs z < 256 ^ Z.of_nat k -> (length (Bytes z) <= k)%nat.
Proof.
  intros H. unfold Bytes. etransitivity; [apply (Bytes_fuel_length _ _ _ k); lia|cbn; lia].
Qed.

(** ** Lemmas: decimal text *)

Lemma char_digit_char d : 0 <= d < 10 -> char_digit (digit_char d) = Some d.
Proof.
  intros H.
  assert (d = 0 \/ d = 1 \/ d = 2 \/ d = 3 \/ d = 4 \/ d = 5 \/ d = 6 \/ d = 7 \/ d = 8 \/ d = 9)
    as Hd by lia.
  by repeat destruct Hd as [->|Hd]; subst.
Qed.

Lemma digits_fuel_value fuel n acc v :
  0 <= n < 2 ^ Z.of_nat fuel ->
  exists k, 0 <= k /\
    String.length (digits_fuel fuel n acc) = (Z.to_nat k + String.length acc)%nat /\
    n < 10 ^ k /\ (0 < n -> 10 ^ (k - 1) <= n) /\ (0 < n -> 1 <= k) /\
    digits_value v (digits_fuel fuel n acc) = digits_value (v * 10 ^ k + n) acc.
Proof.
  revert n acc v. induction fuel as [|f IH]; intros n acc v Hn.
  { cbn in Hn. exists 0. cbn. repeat split; try lia; f_equal; lia. }
  cbn [digits_fuel].
  pose proof (Z.mod_pos_bound n 10 eq_refl) as Hm.
  pose proof (Z.div_mod n 10 ltac:(lia)) as Hd.
  destruct (Z.ltb_spec n 10) as [Hlt|Hge].
  { exists 1. rewrite Z.mod_small in * by lia. cbn [String.length digits_value].
    rewrite char_digit_char by lia. change (10 ^ (1 - 1)) with 1. change (10 ^ 1) with 10.
    repeat split; try lia; f_equal; lia. }
  rewrite Nat2Z.inj_succ, Z.pow_succ_r in Hn by lia.
  assert (0 < n / 10) by (apply Z.div_str_pos; lia).
  assert (n / 10 < 2 ^ Z.of_nat f) by (apply Z.div_lt_upper_bound; lia).
  destruct (IH (n / 10) (String (digit_char (n mod 10)) acc) v) as (k & Hk & Hlen & Hhi & Hlo & Hk1 & Hv);
    [lia|].
  exists (k + 1). specialize (Hlo ltac:(lia)). specialize (Hk1 ltac:(lia)).
  rewrite Hlen, Hv. cbn [String.length digits_value]. rewrite char_digit_char by done.
  replace (k + 1 - 1) with (Z.succ (k - 1)) by lia.
  rewrite (Z.pow_succ_r 10 (k - 1)) by lia. rewrite Z.pow_add_r by lia. change (10 ^ 1) with 10.
  repeat split; try lia; f_equal; lia.
Qed.

Lemma digits_bound_ok n : 0 <= n -> n < 2 ^ Z.of_nat (digits_bound n).
Proof.
  intros Hn. unfold digits_bound.
  rewrite Nat2Z.inj_succ, Z2Nat.id by apply Z.log2_nonneg.
  destruct (Z.eq_dec n 0) as [->|]; [cbn; lia|]. apply Z.log2_spec. lia.
Qed.

Lemma digits_value_gen n v : 0 <= n -> digits_value v (digits n) = Some (v * 10 ^ ndigits n + n).
Proof.
  intros Hn. unfold ndigits, digits.
  destruct (digits_fuel_value (digits_bound n) n "" v) as (k & Hk & Hlen & _ & _ & _ & Hv).
  { split; [done|]. by apply digits_bound_ok. }
  rewrite Hv, Hlen. cbn [String.length digits_value]. by rewrite Nat.add_0_r, Z2Nat.id.
Qed.

Lemma ndigits_bounds n : 0 < n -> 1 <= ndigits n /\ 10 ^ (ndigits n - 1) <= n < 10 ^ ndigits n.
Proof.
  intros Hn. unfold ndigits, digits.
  destruct (digits_fuel_value (digits_bound n) n "" 0) as (k & Hk & Hlen & Hhi & Hlo & Hk1 & _).
  { split; [lia|]. apply digits_bound_ok. lia. }
  rewrite Hlen. cbn [String.length]. rewrite Nat.add_0_r, Z2Nat.id by done. auto.
Qed.

Lemma ndigits_upper n : 0 <= n -> n < 10 ^ ndigits n.
Proof.
  intros Hn. destruct (Z.eq_dec n 0) as [->|]; [done|]. apply ndigits_bounds. lia.
Qed.

Lemma digits_value_app v s t w :
  digits_value v s = Some w -> digits_value v (s ++ t) = digits_value w t.
Proof.
  revert v. induction s as [|c s IH]; intros v H; [by simplify_eq/=|].
  change (String c s ++ t) with (String c (s ++ t)). cbn [digits_value] in *.
  destruct (char_digit c); [by apply IH|done].
Qed.

Lemma digits_cons n : exists c s d, digits n = String c s /\ char_digit c = Some d.
Proof.
  unfold digits, digits_bound. generalize (Z.to_nat (Z.log2 n)). intros f.
  assert (forall f n acc c d, char_digit c = Some d -> exists c' s d',
    digits_fuel f n (String c acc) = String c' s /\ char_digit c' = Some d') as Hgen.
  { clear. induction f as [|f IH]; intros n acc c d Hc; cbn [digits_fuel]; [eauto 6|].
    pose proof (Z.mod_pos_bound n 10 eq_refl).
    destruct (n <? 10); [do 3 eexists; split; [done|]; by apply char_digit_char|].
    eapply IH. by apply char_digit_char. }
  cbn [digits_fuel]. pose proof (Z.mod_pos_bound n 10 eq_refl).
  destruct (n <? 10); [do 3 eexists; split; [done|]; by apply char_digit_char|].
  eapply Hgen. by apply char_digit_char.
Qed.

Lemma char_digit_sign c d : char_digit c = Some d -> c <> "-"%char /\ c <> "+"%char /\ c <> ":"%char.
Proof. intros H. repeat split; intros ->; discriminate H. Qed.

Lemma SetString10_digit c s d :
  char_digit c = Some d -> SetString10 (String c s) = digits_value 0 (String c s).
Proof.
  intros H. apply char_digit_sign in H as (H1 & H2 & _). unfold SetString10, unsigned_value.
  destruct c as [[][][][][][][][]]; try done; congruence.
Qed.

Lemma SetString10_digits n : 0 <= n -> SetString10 (digits n) = Some n.
Proof.
  intros Hn. destruct (digits_cons n) as (c & s & d & Hs & Hd).
  rewrite Hs, (SetString10_digit _ _ _ Hd), <- Hs, digits_value_gen by done. f_equal; lia.
Qed.

(** [SetString] reads back what [FormatInt] prints. *)
Lemma SetString10_FormatInt z : SetString10 (FormatInt z) = Some z.
Proof.
  unfold FormatInt. destruct (Z.ltb_spec z 0); [|by apply SetString10_digits].
  cbn [SetString10].
  destruct (digits_cons (- z)) as (c & s & d & Hs & Hd).
  unfold unsigned_value. rewrite Hs, <- Hs, digits_value_gen by lia.
  cbn [option_map]. f_equal; lia.
Qed.

#[export] Instance FormatInt_inj : Inj (=) (=) FormatInt.
Proof.
  intros a b H. apply (f_equal SetString10) in H. rewrite !SetString10_FormatInt in H. congruence.
Qed.

Lemma ParseInt64_FormatInt z : in_i64 z -> ParseInt64 (FormatInt z) = Ret z.
Proof.
  intros [H1 H2]. unfold ParseInt64. rewrite SetString10_FormatInt.
  by rewrite (proj2 (Z.leb_le _ _) H1), (proj2 (Z.leb_le _ _) H2).
Qed.

(** The value of a decimal prefix followed by the digits of [n]. *)
Lemma SetString10_concat h n :
  0 <= h -> 0 <= n -> SetString10 (FormatInt h ++ digits n) = Some (h * 10 ^ ndigits n + n).
Proof.
  intros Hh Hn. unfold FormatInt. rewrite (proj2 (Z.ltb_ge h 0)) by done.
  destruct (digits_cons h) as (c & s & d & Hs & Hd).
  rewrite Hs. change (String c s ++ digits n) with (String c (s ++ digits n)).
  rewrite (SetString10_digit _ _ _ Hd).
  change (String c (s ++ digits n)) with (String c s ++ digits n). rewrite <- Hs.
  rewrite (digits_value_app _ _ _ _ (digits_value_gen h 0 Hh)), digits_value_gen by done.
  f_equal; lia.
Qed.

(** ** Lemmas: strings *)

Lemma lower_char_idem c : lower_char (lower_char c) = lower_char c.
Proof. by destruct c as [[][][][][][][][]]. Qed.

Lemma ToLower_idem s : ToLower (ToLower s) = ToLower s.
Proof. induction s as [|c s IH]; cbn; [done|]. by rewrite lower_char_idem, IH. Qed.

Lemma ToLower_app s t : ToLower (s ++ t) = ToLower s ++ ToLower t.
Proof.
  induction s as [|c s IH]; [done|].
  change (String c s ++ t) with (String c (s ++ t)). cbn [ToLower]. by rewrite IH.
Qed.

Lemma EqualFold_spec a b : EqualFold a b = true <-> ToLower a = ToLower b.
Proof. unfold EqualFold. apply bool_decide_eq_true. Qed.

(** Whether the byte [c] occurs in [s]. *)
Fixpoint has_char (c : ascii) (s : string) : bool :=
  match s with
  | EmptyString => false
  | String d s => bool_decide (d = c) || has_char c s
  end.

Lemma Split_prefix sep s t :
  has_char sep s = false -> Split sep (s ++ String sep t) = s :: Split sep t.
Proof.
  induction s as [|c s IH]; intros H.
  - change (EmptyString ++ String sep t) with (String sep t). cbn [Split].
    by rewrite bool_decide_true.
  - change (String c s ++ String sep t) with (String c (s ++ String sep t)).
    cbn [Split has_char] in *. apply orb_false_elim in H as [H1 H2]. rewrite H1, (IH H2). done.
Qed.

Lemma Split_none sep s : has_char sep s = false -> Split sep s = [s].
Proof.
  induction s as [|c s IH]; intros H; [done|]. cbn [Split has_char] in *.
  apply orb_false_elim in H as [H1 H2]. by rewrite H1, (IH H2).
Qed.

Lemma has_char_app c s t : has_char c (s ++ t) = has_char c s || has_char c t.
Proof.
  induction s as [|d s IH]; [done|].
  change (String d s ++ t) with (String d (s ++ t)). cbn [has_char]. by rewrite IH, orb_assoc.
Qed.

Lemma lower_char_colon c : lower_char c = ":"%char <-> c = ":"%char.
Proof. split; [|by intros ->]. by destruct c as [[][][][][][][][]]. Qed.

Lemma has_char_colon_lower s : has_char ":" (ToLower s) = has_char ":" s.
Proof.
  induction s as [|c s IH]; [done|]. cbn [has_char ToLower]. rewrite IH. f_equal.
  apply bool_decide_ext, lower_char_colon.
Qed.

(** A separator that neither left part contains splits a text in one way. *)
Lemma sep_inj sep s s' t t' :
  has_char sep s = false -> has_char sep s' = false ->
  s ++ String sep t = s' ++ String sep t' -> s = s' /\ t = t'.
Proof.
  revert s'. induction s as [|c s IH]; intros [|c' s'] H H' E; cbn [has_char] in H, H'.
  - change (String sep t = String sep t') in E. by simplify_eq.
  - change (String sep t = String c' (s' ++ String sep t')) in E. simplify_eq.
    by rewrite bool_decide_true in H'.
  - change (String c (s ++ String sep t) = String sep t') in E. simplify_eq.
    by rewrite bool_decide_true in H.
  - change (String c (s ++ String sep t) = String c' (s' ++ String sep t')) in E. simplify_eq.
    apply orb_false_elim in H as [_ H], H' as [_ H'].
    destruct (IH _ H H' H0) as [-> ->]. done.
Qed.

Lemma digit_char_not_colon d : 0 <= d < 10 -> digit_char d <> ":"%char.
Proof. intros H E. pose proof (char_digit_char d H) as Hd. rewrite E in Hd. done. Qed.

Lemma digits_fuel_no_colon fuel n acc :
  has_char ":" acc = false -> has_char ":" (digits_fuel fuel n acc) = false.
Proof.
  revert n acc. induction fuel as [|f IH]; cbn [digits_fuel]; intros n acc H; [done|].
  assert (has_char ":" (String (digit_char (n mod 10)) acc) = false) as Hacc.
  { cbn [has_char]. rewrite bool_decide_false, H; [done|].
    apply digit_char_not_colon, Z.mod_pos_bound. lia. }
  destruct (n <? 10); [done|]. by apply IH.
Qed.

Lemma FormatInt_no_colon z : has_char ":" (FormatInt z) = false.
Proof.
  unfold FormatInt. destruct (z <? 0); [change (has_char ":" (digits (- z)) = false)|]; by apply digits_fuel_no_colon.
Qed.

(** ** Lemmas: hexadecimal and base 64 *)

Lemma hex_digit_char d : 0 <= d < 16 -> hex_digit (hex_char d) = Some d.
Proof.
  intros H.
  assert (d = 0 \/ d = 1 \/ d = 2 \/ d = 3 \/ d = 4 \/ d = 5 \/ d = 6 \/ d = 7 \/ d = 8 \/ d = 9
    \/ d = 10 \/ d = 11 \/ d = 12 \/ d = 13 \/ d = 14 \/ d = 15) as Hd by lia.
  by repeat destruct Hd as [->|Hd]; subst.
Qed.

Lemma hex_roundtrip b : hex_DecodeString (hex_EncodeToString b) = Ret b.
Proof.
  induction b as [|x b IH]; [done|]. cbn [hex_EncodeToString hex_DecodeString].
  pose proof (byte_val_range x) as Hx.
  pose proof (Z.mod_pos_bound (byte_val x) 16 eq_refl).
  pose proof (Z.div_mod (byte_val x) 16 ltac:(lia)).
  rewrite !hex_digit_char; [|done|split; [apply Z.div_pos; lia|apply Z.div_lt_upper_bound; lia]].
  rewrite IH. cbn [omap obind]. do 2 f_equal.
  replace (byte_val x / 16 * 16 + byte_val x mod 16) with (byte_val x) by lia.
  apply byte_of_val.
Qed.

Lemma b64_digit_char d : 0 <= d < 64 -> b64_digit (b64_char d) = Some d.
Proof.
  intros H. revert d H.
  assert (forallb (fun d => bool_decide (b64_digit (b64_char d) = Some d)) (seqZ 0 64) = true) as Hall
    by (vm_compute; reflexivity).
  intros d H. rewrite forallb_forall in Hall. specialize (Hall d).
  rewrite bool_decide_eq_true in Hall. apply Hall.
  rewrite <- list_elem_of_In, elem_of_seqZ. lia.
Qed.

Lemma b64_digit_pad : b64_digit "="%char = None.
Proof. reflexivity. Qed.

Lemma b64_char_plain d c : 0 <= d < 64 -> b64_digit c = None -> b64_char d <> c.
Proof. intros H Hc E. rewrite <- E, b64_digit_char in Hc by done. done. Qed.

#[local] Ltac b64_bounds :=
  repeat match goal with
  | |- context [?a mod 64] => lazymatch goal with
      | _ : 0 <= a mod 64 < 64 |- _ => fail | _ => pose proof (Z.mod_pos_bound a 64 eq_refl) end
  end.

Lemma byte_of_low v x : (v - byte_val x) mod 256 = 0 -> byte_of v = x.
Proof.
  intros H. apply byte_val_inj. rewrite byte_val_of.
  pose proof (byte_val_range x). pose proof (Z.div_mod (v - byte_val x) 256 ltac:(lia)) as Hd.
  rewrite H in Hd. replace v with (byte_val x + (v - byte_val x) / 256 * 256) by lia.
  rewrite Z_mod_plus_full. by apply Z.mod_small.
Qed.

Lemma b64_char_not_newline d : 0 <= d < 64 ->
  ~ (b64_char d = ascii_of_N 10 \/ b64_char d = ascii_of_N 13).
Proof. intros H [E|E]; revert E; apply b64_char_plain; done. Qed.

Lemma drop_newlines_char d s : 0 <= d < 64 ->
  drop_newlines (String (b64_char d) s) = String (b64_char d) (drop_newlines s).
Proof.
  intros H. cbn [drop_newlines]. rewrite bool_decide_false; [done|]. by apply b64_char_not_newline.
Qed.

(** Bounds of the 6-bit groups of a 24-bit value. *)
Lemma sextets v : 0 <= v < 16777216 ->
  0 <= v / 262144 < 64 /\ 0 <= v / 4096 mod 64 < 64 /\ 0 <= v / 64 mod 64 < 64 /\ 0 <= v mod 64 < 64 /\
  v = v / 262144 * 262144 + v / 4096 mod 64 * 4096 + v / 64 mod 64 * 64 + v mod 64.
Proof.
  intros H.
  assert (v / 4096 = v / 64 / 64) as E1 by (rewrite Z.div_div; done).
  assert (v / 262144 = v / 64 / 64 / 64) as E2 by (rewrite !Z.div_div; done).
  pose proof (Z.div_mod v 64 ltac:(lia)). pose proof (Z.mod_pos_bound v 64 eq_refl).
  pose proof (Z.div_mod (v / 64) 64 ltac:(lia)). pose proof (Z.mod_pos_bound (v / 64) 64 eq_refl).
  pose proof (Z.div_mod (v / 64 / 64) 64 ltac:(lia)).
  pose proof (Z.mod_pos_bound (v / 64 / 64) 64 eq_refl).
  rewrite E1, E2. lia.
Qed.

Lemma bytes_of_24 x y z :
  let v := byte_val x * 65536 + byte_val y * 256 + byte_val z in
  byte_of (v / 65536) = x /\ byte_of (v / 256) = y /\ byte_of v = z.
Proof.
  intros v. pose proof (byte_val_range x). pose proof (byte_val_range y).
  pose proof (byte_val_range z).
  assert (v / 65536 = byte_val x) as E1.
  { symmetry. apply Z.div_unique with (byte_val y * 256 + byte_val z); unfold v; lia. }
  assert (v / 256 = byte_val x * 256 + byte_val y) as E2.
  { symmetry. apply Z.div_unique with (byte_val z); unfold v; lia. }
  rewrite E1, E2. split; [apply byte_of_val|]. split; apply byte_of_low.
  - replace (_ - _) with (byte_val x * 256) by lia. apply Z_mod_mult.
  - unfold v. replace (_ - _) with ((byte_val x * 256 + byte_val y) * 256) by lia. apply Z_mod_mult.
Qed.

(** Induction over a list three elements at a time. *)
Lemma list_ind3 {A} (P : list A -> Prop) :
  P [] -> (forall x, P [x]) -> (forall x y, P [x; y]) ->
  (forall x y z l, P l -> P (x :: y :: z :: l)) -> forall l, P l.
Proof.
  intros H0 H1 H2 H3.
  fix IH 1. intros [|x [|y [|z l]]]; [exact H0|apply H1|apply H2|apply H3, IH].
Qed.

Lemma base64_drop b :
  drop_newlines (base64_EncodeToString b) = base64_EncodeToString b.
Proof.
  induction b as [|x|x y|x y z b IH] using list_ind3; cbn [base64_EncodeToString]; [done|..].
  - pose proof (byte_val_range x). set (v := byte_val x * 16).
    pose proof (Z.mod_pos_bound v 64 eq_refl).
    assert (0 <= v / 64 < 64) by (split; [apply Z.div_pos|apply Z.div_lt_upper_bound]; lia).
    by rewrite !drop_newlines_char.
  - pose proof (byte_val_range x). pose proof (byte_val_range y).
    set (v := (byte_val x * 256 + byte_val y) * 4).
    pose proof (Z.mod_pos_bound v 64 eq_refl). pose proof (Z.mod_pos_bound (v / 64) 64 eq_refl).
    assert (0 <= v / 4096 < 64) by (split; [apply Z.div_pos|apply Z.div_lt_upper_bound]; lia).
    by rewrite !drop_newlines_char.
  - pose proof (byte_val_range x). pose proof (byte_val_range y). pose proof (byte_val_range z).
    destruct (sextets (byte_val x * 65536 + byte_val y * 256 + byte_val z)) as (?&?&?&?&_); [lia|].
    rewrite !drop_newlines_char by done. by rewrite IH.
Qed.

Lemma base64_groups_encode b : base64_groups (base64_EncodeToString b) = Ret b.
Proof.
  induction b as [|x|x y|x y z b IH] using list_ind3; cbn [base64_EncodeToString]; [done|..].
  - pose proof (byte_val_range x). set (v := byte_val x * 16).
    pose proof (Z.mod_pos_bound v 64 eq_refl). pose proof (Z.div_mod v 64 ltac:(lia)).
    assert (0 <= v / 64 < 64) by (split; [apply Z.div_pos|apply Z.div_lt_upper_bound]; lia).
    cbn [base64_groups]. rewrite !b64_digit_char, b64_digit_pad by done.
    rewrite bool_decide_true by done. do 2 f_equal.
    replace (v / 64 * 64 + v mod 64) with v by lia. unfold v. rewrite Z.div_mul by lia.
    apply byte_of_val.
  - pose proof (byte_val_range x). pose proof (byte_val_range y).
    set (v := (byte_val x * 256 + byte_val y) * 4).
    destruct (sextets (v * 64)) as (_&_&_&_&E); [lia|].
    pose proof (Z.mod_pos_bound v 64 eq_refl). pose proof (Z.mod_pos_bound (v / 64) 64 eq_refl).
    assert (0 <= v / 4096 < 64) by (split; [apply Z.div_pos|apply Z.div_lt_upper_bound]; lia).
    cbn [base64_groups]. rewrite !b64_digit_char, b64_digit_pad by done.
    rewrite bool_decide_true by done.
    assert (v / 4096 * 262144 + v / 64 mod 64 * 4096 + v mod 64 * 64
            = byte_val x * 65536 + byte_val y * 256 + byte_val Byte.x00) as ->.
    { pose proof (Z.div_mod v 64 ltac:(lia)). pose proof (Z.div_mod (v / 64) 64 ltac:(lia)).
      assert (v / 4096 = v / 64 / 64) as -> by (rewrite Z.div_div; done).
      change (byte_val Byte.x00) with 0. unfold v in *. lia. }
    destruct (bytes_of_24 x y Byte.x00) as (-> & -> & _). done.
  - pose proof (byte_val_range x). pose proof (byte_val_range y). pose proof (byte_val_range z).
    destruct (bytes_of_24 x y z) as (E1 & E2 & E3).
    set (v := byte_val x * 65536 + byte_val y * 256 + byte_val z) in *.
    destruct (sextets v) as (?&?&?&?&E); [lia|].
    cbn [base64_groups]. rewrite !b64_digit_char by done. rewrite <- E, IH. cbn [omap obind].
    by rewrite E1, E2, E3.
Qed.

(** Decoding what was encoded gives the bytes back. *)
Lemma base64_roundtrip b : base64_DecodeString (base64_EncodeToString b) = Ret b.
Proof. unfold base64_DecodeString. by rewrite base64_drop, base64_groups_encode. Qed.

#[export] Instance base64_EncodeToString_inj : Inj (=) (=) base64_EncodeToString.
Proof.
  intros a b H. apply (f_equal base64_DecodeString) in H. rewrite !base64_roundtrip in H. congruence.
Qed.

(** ** The reference run-time obeys the laws *)

#[export] Instance go_runtime_ref_laws : GoRuntimeLaws go_runtime_ref.
Proof.
  split; cbn; [done|intros; apply sort_by_perm|].
  intros A less l Hasym Htrans.
  assert (forall l, StronglySorted (fun a b => negb (less b a) = true) l ->
    StronglySorted (fun a b => less b a = false) l) as Hconv.
  { induction 1 as [|a l' _ IH Hall]; constructor; [exact IH|].
    eapply Forall_impl; [exact Hall|]. intros b Hb. by apply negb_true_iff in Hb. }
  apply Hconv, (sort_by_sorted _ (fun a => a ∈ l)).
  - intros a b. rewrite !negb_true_iff. destruct (less b a) eqn:E; eauto.
  - intros a b c. rewrite !negb_true_iff. eauto.
  - by apply Forall_forall.
Qed.

#[export] Hint Resolve byte_val_range hex_roundtrip base64_roundtrip FormatInt_no_colon : go.
#[export] Hint Rewrite ToLower_idem hex_roundtrip base64_roundtrip SetString10_FormatInt : go_eqs.
