(* ===== verification/Sdk.v ===== *)
(** * The libraries the bridge calls, as interfaces

    Cosmos SDK integers, decimals and coins, go-ethereum addresses and hashes,
    and the bech32 address codecs are not part of the repository.  Each is a
    class of operations, an argument of every definition that uses it, and a
    class of laws that states the documented behaviour the source relies on.
    Reference instances at the end give the examples something to run. *)

From Stdlib Require Import Ascii String.
From S2P Require Import Prelude GoLib.

#[local] Open Scope string_scope.
#[local] Open Scope Z_scope.
#[local] Open Scope go_scope.

(** ** Cosmos SDK arithmetic

    [types.Int] wraps a [big.Int] and is represented by the integer it holds;
    operations panic when the result does not fit.  [types.Dec] is a fixed
    point number with 18 decimal places, [dec_raw d] its value times 10^18. *)
Class SdkMath := {
  Dec : Type;
  dec_raw : Dec -> Z;
  NewDecWithPrec : Z -> Z -> Dec;
  Int_ToDec : Z -> Dec;
  Dec_Mul : Dec -> Dec -> outcome Dec;
  Dec_MulInt : Dec -> Z -> outcome Dec;
  Dec_Quo : Dec -> Dec -> outcome Dec;
  Dec_RoundInt : Dec -> outcome Z;
  Int_Mul : Z -> Z -> outcome Z;
  Int_Quo : Z -> Z -> outcome Z;
  NewIntFromBigInt : Z -> outcome Z;
}.

Definition dec_one : Z := 1000000000000000000.
(** Results up to this magnitude fit in an [Int]; for a [Dec] it bounds the
    integer part. *)
Definition int_bound : Z := 2 ^ 255.

(** [q] is [n / d] rounded to a nearest integer. *)
Definition nearest (n d q : Z) : Prop := 2 * Z.abs (q * d - n) <= d.

Class SdkMathLaws (S : SdkMath) : Prop := {
  NewDecWithPrec_raw : forall i p, 0 <= p <= 18 -> dec_raw (NewDecWithPrec i p) = i * 10 ^ (18 - p);
  Int_ToDec_raw : forall i, dec_raw (Int_ToDec i) = i * dec_one;
  (** products are rounded to a nearest multiple of 10^-18 *)
  Dec_Mul_nearest : forall a b c, Dec_Mul a b = Ret c ->
    nearest (dec_raw a * dec_raw b) dec_one (dec_raw c);
  Dec_Mul_mono : forall a a' b c c', 0 <= dec_raw b -> dec_raw a <= dec_raw a' ->
    Dec_Mul a b = Ret c -> Dec_Mul a' b = Ret c' -> dec_raw c <= dec_raw c';
  Dec_MulInt_raw : forall a i c, Dec_MulInt a i = Ret c -> dec_raw c = dec_raw a * i;
  (** quotients by a positive divisor are monotone and within one unit of the
      last place *)
  Dec_Quo_err : forall a b c, 0 < dec_raw b -> Dec_Quo a b = Ret c ->
    Z.abs (dec_raw c * dec_raw b - dec_raw a * dec_one) <= dec_raw b;
  Dec_Quo_mono : forall a a' b c c', 0 < dec_raw b -> dec_raw a <= dec_raw a' ->
    Dec_Quo a b = Ret c -> Dec_Quo a' b = Ret c' -> dec_raw c <= dec_raw c';
  Dec_Quo_zero : forall a b, dec_raw b = 0 -> Dec_Quo a b = Panic;
  Dec_RoundInt_nearest : forall a i, Dec_RoundInt a = Ret i -> nearest (dec_raw a) dec_one i;
  Dec_RoundInt_mono : forall a a' i i', dec_raw a <= dec_raw a' ->
    Dec_RoundInt a = Ret i -> Dec_RoundInt a' = Ret i' -> i <= i';
  (** values in range do not panic *)
  Dec_Mul_total : forall a b, Z.abs (dec_raw a * dec_raw b) < int_bound -> exists c, Dec_Mul a b = Ret c;
  Dec_MulInt_total : forall a i, Z.abs (dec_raw a * i) < int_bound -> exists c, Dec_MulInt a i = Ret c;
  Dec_Quo_total : forall a b, 0 < dec_raw b -> Z.abs (dec_raw a) * dec_one < int_bound ->
    exists c, Dec_Quo a b = Ret c;
  Dec_RoundInt_total : forall a, Z.abs (dec_raw a) < int_bound -> exists i, Dec_RoundInt a = Ret i;
  Int_Mul_ret : forall a b c, Int_Mul a b = Ret c -> c = a * b;
  Int_Mul_total : forall a b, Z.abs (a * b) < int_bound -> Int_Mul a b = Ret (a * b);
  Int_Mul_no_error : forall a b e, Int_Mul a b <> Fail e;
  (** [Quo] truncates towards zero *)
  Int_Quo_ret : forall a b, b <> 0 -> Int_Quo a b = Ret (Z.quot a b);
  Int_Quo_zero : forall a, Int_Quo a 0 = Panic;
  NewIntFromBigInt_ret : forall a b, NewIntFromBigInt a = Ret b -> b = a;
  NewIntFromBigInt_total : forall a, Z.abs a < int_bound -> NewIntFromBigInt a = Ret a;
}.

(** ** Coins *)
Record Coin := mkCoin { Denom : string; Amount : Z }.

#[export] Instance Coin_eq_decision : EqDecision Coin.
Proof. solve_decision. Defined.

Class SdkCoins := {
  NewCoin : string -> Z -> outcome Coin;
  Coin_IsLT : Coin -> Coin -> outcome bool;
  Coin_Equal : Coin -> Coin -> outcome bool;
  Coin_Sub : Coin -> Coin -> outcome Coin;
  Coin_IsNegative : Coin -> bool;
  Coins_IsZero : list Coin -> bool;
  Coin_String : Coin -> string;
  valid_denom : string -> bool;
}.

Class SdkCoinsLaws (S : SdkCoins) : Prop := {
  (** [NewCoin] panics on an invalid denomination or a negative amount *)
  NewCoin_spec : forall d a,
    NewCoin d a = if valid_denom d && (0 <=? a) then Ret (mkCoin d a) else Panic;
  Coin_IsLT_same : forall d a b, Coin_IsLT (mkCoin d a) (mkCoin d b) = Ret (a <? b);
  Coin_Equal_same : forall d a b, Coin_Equal (mkCoin d a) (mkCoin d b) = Ret (a =? b);
  (** [Sub] panics when the result would be negative *)
  Coin_Sub_same : forall d a b,
    Coin_Sub (mkCoin d a) (mkCoin d b) = if b <=? a then Ret (mkCoin d (a - b)) else Panic;
  Coin_IsNegative_spec : forall c, Coin_IsNegative c = (Amount c <? 0);
  (** no coin, or only zero amounts *)
  Coins_IsZero_spec : forall cs, Coins_IsZero cs = forallb (fun c => Amount c =? 0) cs;
}.

(** ** go-ethereum

    Addresses are 20 bytes and hashes 32 bytes. *)
Class Eth := {
  Keccak256Hash : list bytes -> bytes;
  (** [h.Hex()] of a hash, [a.Hex()] (also [a.String()]) of an address *)
  Hash_Hex : bytes -> string;
  Address_Hex : bytes -> string;
  HexToAddress : string -> bytes;
  IsHexAddress : string -> bool;
}.

Definition zero_address : bytes := replicate 20 Byte.x00.
Definition zero_hash : bytes := replicate 32 Byte.x00.

Class EthLaws (E : Eth) : Prop := {
  Keccak256Hash_length : forall l, length (Keccak256Hash l) = 32%nat;
  Hash_Hex_inj : forall a b, length a = 32%nat -> length b = 32%nat -> Hash_Hex a = Hash_Hex b -> a = b;
  Address_Hex_inj : forall a b, length a = 20%nat -> length b = 20%nat ->
    Address_Hex a = Address_Hex b -> a = b;
  HexToAddress_length : forall s, length (HexToAddress s) = 20%nat;
  HexToAddress_Hex : forall a, length a = 20%nat -> HexToAddress (Address_Hex a) = a;
  Hash_Hex_hex : forall h, Hash_Hex h = String "0" (String "x" (hex_EncodeToString h));
}.

(** [h.Big()]: the hash as an unsigned integer. *)
Definition Hash_Big (h : bytes) : Z := SetBytes h.

(** ** Cosmos addresses and keys *)
Class Bech32 := {
  AccAddressFromBech32 : string -> outcome bytes;
  AccAddress_String : bytes -> string;
  (** [legacybech32.UnmarshalPubKey(AccPK, s)] followed by [Bytes()] *)
  UnmarshalPubKey : string -> outcome bytes;
  (** [pubkey.Address()] of the key with these bytes, as an account address *)
  PubKey_Address : bytes -> outcome bytes;
  (** [crypto.DecompressPubkey] followed by [crypto.PubkeyToAddress] *)
  DecompressToEthAddress : bytes -> outcome bytes;
}.

Class Bech32Laws (B : Bech32) : Prop := {
  AccAddressFromBech32_String : forall a, AccAddressFromBech32 (AccAddress_String a) = Ret a;
  DecompressToEthAddress_length : forall pk a, DecompressToEthAddress pk = Ret a -> length a = 20%nat;
}.

(** ** Retries (github.com/cenkalti/backoff)

    [backoff.Retry(op, WithMaxRetries(NewConstantBackOff(t), n))]: [op] is run
    until it returns nil, at most [n] more times after the first.  The pauses
    between the runs are not modelled; what changes while waiting is part of
    the state [op] works on. *)
Fixpoint retry_loop {St : Type} (n : nat) (op : M St unit) : M St unit := fun s =>
  match op s with
  | (s', Fail e) => match n with O => (s', Fail e) | Datatypes.S n => retry_loop n op s' end
  | r => r
  end.

Class Backoff := { Retry : forall {St : Type}, nat -> M St unit -> M St unit }.

Class BackoffLaws (K : Backoff) : Prop := {
  Retry_spec : forall (St : Type) n (op : M St unit) s, (0 < n)%nat -> Retry n op s = retry_loop n op s;
}.

(** ** Reference instances *)

Definition backoff_ref : Backoff := {| Retry := fun St n op => retry_loop n op |}.

(** Rounding to a nearest integer, ties to even, for [0 < d]. *)
Definition bankers (n d : Z) : Z :=
  let q := n / d in
  let r := n mod d in
  match 2 * r ?= d with
  | Lt => q
  | Gt => q + 1
  | Eq => if Z.even q then q else q + 1
  end.

Definition fits (bound : Z) (z : Z) : outcome Z := if Z.abs z <? bound then Ret z else Panic.

Definition dec_bound : Z := 2 ^ 315.

Definition sdk_math_ref : SdkMath := {|
  Dec := Z;
  dec_raw := fun d => d;
  NewDecWithPrec := fun i p => i * 10 ^ (18 - p);
  Int_ToDec := fun i => i * dec_one;
  Dec_Mul := fun a b => fits dec_bound (bankers (a * b) dec_one);
  Dec_MulInt := fun a i => fits dec_bound (a * i);
  Dec_Quo := fun a b => if b =? 0 then Panic else fits dec_bound (bankers (a * dec_one * Z.sgn b) (Z.abs b));
  Dec_RoundInt := fun a => fits (2 ^ 256) (bankers a dec_one);
  Int_Mul := fun a b => fits (2 ^ 256) (a * b);
  Int_Quo := fun a b => if b =? 0 then Panic else Ret (Z.quot a b);
  NewIntFromBigInt := fun a => fits (2 ^ 256) a;
|}.

Definition sdk_coins_ref : SdkCoins := {|
  NewCoin := fun d a => if negb (bool_decide (d = "")) && (0 <=? a) then Ret (mkCoin d a) else Panic;
  Coin_IsLT := fun a b => if bool_decide (Denom a = Denom b) then Ret (Amount a <? Amount b) else Panic;
  Coin_Equal := fun a b => if bool_decide (Denom a = Denom b) then Ret (Amount a =? Amount b) else Panic;
  Coin_Sub := fun a b =>
    if bool_decide (Denom a = Denom b) && (Amount b <=? Amount a)
    then Ret (mkCoin (Denom a) (Amount a - Amount b)) else Panic;
  Coin_IsNegative := fun c => Amount c <? 0;
  Coins_IsZero := fun cs => forallb (fun c => Amount c =? 0) cs;
  Coin_String := fun c => FormatInt (Amount c) ++ Denom c;
  valid_denom := fun d => negb (bool_decide (d = ""));
|}.

(** A byte string cut or padded on the left to [n] bytes. *)
Definition fit_bytes (n : nat) (b : bytes) : bytes :=
  (replicate (n - length b) Byte.x00 ++ drop (length b - n) b)%list.

(** Stands in for Keccak-256 in examples: keeps the last 32 bytes of the
    input, so that examples can choose the hash. *)
Definition eth_ref : Eth := {|
  Keccak256Hash := fun l => fit_bytes 32 (concat l);
  Hash_Hex := fun h => String "0" (String "x" (hex_EncodeToString h));
  Address_Hex := fun a => String "0" (String "x" (hex_EncodeToString a));
  HexToAddress := fun s =>
    match s with
    | String "0" (String "x" s) =>
        match hex_DecodeString s with Ret b => fit_bytes 20 b | _ => zero_address end
    | _ => zero_address
    end;
  IsHexAddress := fun s =>
    match s with
    | String "0" (String "x" s) =>
        match hex_DecodeString s with Ret b => (length b =? 20)%nat | _ => false end
    | _ => false
    end;
|}.

(** Texts stand for the bytes they spell; a key's two addresses are its bytes
    and its last 20 bytes. *)
Definition bech32_ref : Bech32 := {|
  AccAddressFromBech32 := fun s =>
    match s with
    | String "j" s => hex_DecodeString s
    | _ => Fail "decoding bech32 failed"
    end;
  AccAddress_String := fun a => String "j" (hex_EncodeToString a);
  UnmarshalPubKey := fun s =>
    match s with
    | String "k" s => hex_DecodeString s
    | _ => Fail "decoding bech32 failed"
    end;
  PubKey_Address := fun b => Ret b;
  DecompressToEthAddress := fun b => Ret (fit_bytes 20 b);
|}.

(** ** Lemmas *)

Lemma bankers_nearest n d : 0 < d -> nearest n d (bankers n d).
Proof.
  intros Hd. unfold nearest, bankers.
  pose proof (Z.div_mod n d ltac:(lia)). pose proof (Z.mod_pos_bound n d Hd).
  destruct (Z.compare_spec (2 * (n mod d)) d); [destruct (Z.even (n / d))|..]; nia.
Qed.

Lemma bankers_mono n n' d : 0 < d -> n <= n' -> bankers n d <= bankers n' d.
Proof.
  intros Hd Hn. unfold bankers.
  pose proof (Z.div_mod n d ltac:(lia)). pose proof (Z.mod_pos_bound n d Hd).
  pose proof (Z.div_mod n' d ltac:(lia)). pose proof (Z.mod_pos_bound n' d Hd).
  pose proof (Z.div_le_mono n n' d Hd Hn).
  destruct (Z.eq_dec (n / d) (n' / d)) as [E|E].
  - rewrite E in *.
    destruct (Z.compare_spec (2 * (n mod d)) d), (Z.compare_spec (2 * (n' mod d)) d);
      destruct (Z.even (n' / d)); lia.
  - destruct (Z.compare_spec (2 * (n mod d)) d), (Z.compare_spec (2 * (n' mod d)) d);
      destruct (Z.even (n / d)), (Z.even (n' / d)); lia.
Qed.

Lemma bankers_abs n d : 0 < d -> Z.abs (bankers n d) <= Z.abs n + 1.
Proof. intros Hd. pose proof (bankers_nearest n d Hd) as H. unfold nearest in H. nia. Qed.

Lemma fits_ret b z w : fits b z = Ret w -> w = z.
Proof. unfold fits. destruct (_ <? _); intros; by simplify_eq. Qed.

Lemma fits_total b z : Z.abs z < b -> fits b z = Ret z.
Proof. unfold fits. intros. by rewrite (proj2 (Z.ltb_lt _ _)). Qed.

Lemma fit_bytes_length n b : length (fit_bytes n b) = n.
Proof. unfold fit_bytes. rewrite length_app, length_replicate, length_drop. lia. Qed.

Lemma fit_bytes_id n b : length b = n -> fit_bytes n b = b.
Proof. intros <-. unfold fit_bytes. by rewrite Nat.sub_diag. Qed.

#[export] Instance sdk_math_ref_laws : SdkMathLaws sdk_math_ref.
Proof.
  assert (2 ^ 255 < 2 ^ 256 - 1) by reflexivity. assert (2 ^ 255 < dec_bound - 1) by reflexivity.
  assert (0 < dec_one) by reflexivity.
  split; cbn -[dec_one dec_bound Z.pow]; intros.
  - done.
  - done.
  - apply fits_ret in H2 as ->. by apply bankers_nearest.
  - apply fits_ret in H4 as ->. apply fits_ret in H5 as ->. apply bankers_mono; [done|nia].
  - by apply fits_ret in H2.
  - rewrite (proj2 (Z.eqb_neq b 0)) in H3 by lia. apply fits_ret in H3 as ->.
    rewrite Z.sgn_pos, Z.mul_1_r, (Z.abs_eq b) by lia.
    pose proof (bankers_nearest (a * dec_one) b H2) as Hn. unfold nearest in Hn. lia.
  - rewrite (proj2 (Z.eqb_neq b 0)) in H4, H5 by lia.
    apply fits_ret in H4 as ->. apply fits_ret in H5 as ->.
    rewrite Z.sgn_pos, !Z.mul_1_r, (Z.abs_eq b) by lia. apply bankers_mono; [done|nia].
  - by rewrite H2.
  - apply fits_ret in H2 as ->. by apply bankers_nearest.
  - apply fits_ret in H3 as ->. apply fits_ret in H4 as ->. by apply bankers_mono.
  - eexists. apply fits_total. pose proof (bankers_abs (a * b) dec_one H1). unfold int_bound in *. lia.
  - eexists. apply fits_total. unfold int_bound in *. lia.
  - rewrite (proj2 (Z.eqb_neq b 0)) by lia. eexists. apply fits_total.
    rewrite Z.sgn_pos, Z.mul_1_r, (Z.abs_eq b) by lia.
    pose proof (bankers_abs (a * dec_one) b H2). unfold int_bound in *. nia.
  - eexists. apply fits_total. pose proof (bankers_abs a dec_one H1). unfold int_bound in *. lia.
  - by apply fits_ret in H2.
  - apply fits_total. unfold int_bound in *. lia.
  - unfold fits. by destruct (_ <? _).
  - by rewrite (proj2 (Z.eqb_neq b 0)).
  - done.
  - by apply fits_ret in H2.
  - apply fits_total. unfold int_bound in *. lia.
Qed.

#[export] Instance sdk_coins_ref_laws : SdkCoinsLaws sdk_coins_ref.
Proof.
  split; cbn; intros; try done; by rewrite bool_decide_true.
Qed.

Lemma hex_EncodeToString_inj a b : hex_EncodeToString a = hex_EncodeToString b -> a = b.
Proof. intros H. apply (f_equal hex_DecodeString) in H. rewrite !hex_roundtrip in H. congruence. Qed.

#[export] Instance eth_ref_laws : EthLaws eth_ref.
Proof.
  split; cbn -[fit_bytes]; intros.
  - apply fit_bytes_length.
  - injection H1. apply hex_EncodeToString_inj.
  - injection H1. apply hex_EncodeToString_inj.
  - repeat case_match; try done; apply fit_bytes_length.
  - rewrite hex_roundtrip. by apply fit_bytes_id.
  - done.
Qed.

#[export] Instance backoff_ref_laws : BackoffLaws backoff_ref.
Proof. split. done. Qed.

#[export] Instance bech32_ref_laws : Bech32Laws bech32_ref.
Proof.
  split; cbn -[fit_bytes]; intros.
  - apply hex_roundtrip.
  - simplify_eq. apply fit_bytes_length.
Qed.

Lemma Hash_Big_range `{E : Eth, !EthLaws E} l :
  0 <= Hash_Big (Keccak256Hash l) < 2 ^ 256.
Proof.
  unfold Hash_Big. pose proof (SetBytes_range (Keccak256Hash l)) as H.
  rewrite Keccak256Hash_length in H. exact H.
Qed.

#[export] Hint Resolve Hash_Big_range Keccak256Hash_length HexToAddress_length : go.

(** A retried operation that fails [k] times and then returns. *)
Lemma retry_loop_ret {St} (P : St -> Prop) (op : M St unit) n s s' :
  retry_loop n op s = (s', Ret tt) ->
  (forall a b e, op a = (b, Fail e) -> P a -> P b) -> P s ->
  exists a, P a /\ op a = (s', Ret tt).
Proof.
  revert s. induction n as [|n IH]; intros s; cbn; destruct (op s) as [s1 [[]|e|]] eqn:E; intros H HP Hs; simplify_eq.
  - eauto.
  - eauto.
  - apply (IH s1); eauto.
Qed.

(** Exhausted retries return the last error. *)
Lemma retry_loop_fail {St} (op : M St unit) n s s' e :
  retry_loop n op s = (s', Fail e) -> exists a, op a = (s', Fail e).
Proof.
  revert s. induction n as [|n IH]; intros s; cbn; destruct (op s) as [s1 [[]|e1|]] eqn:E; intros H; simplify_eq; eauto.
Qed.

Lemma retry_loop_const {St} (op : M St unit) n s e : op s = (s, Fail e) -> retry_loop n op s = (s, Fail e).
Proof. intros H. induction n as [|n IH]; cbn; rewrite H; done. Qed.
