(* ===== verification/Requests.v ===== *)
(** * Requests: common/pool.go and common/requests_queue.go

    The records that travel through the bridge, their hash (the identity of a
    request on the joltify chain) and their index (its key in a retry map). *)

From Stdlib Require Import Ascii String.
From S2P Require Import Prelude GoLib Sdk.

#[local] Open Scope string_scope.
#[local] Open Scope Z_scope.
#[local] Open Scope go_scope.

(** ** Data *)

(** The fields the bridge reads of a pool record of the joltify vault. *)
Record VaultPool := mkVaultPool {
  vp_BlockHeight : string;
  PoolPubKey : string;
  PoolAddr : bytes;
  Nodes : list bytes;
}.

Record PoolInfo := mkPoolInfo {
  Pk : string;
  CosAddress : bytes;
  EthAddress : bytes;
  pi_PoolInfo : VaultPool;
}.

Record MoveFundItem := mkMoveFundItem {
  mf_PoolInfo : option PoolInfo;   (* a pointer, nil when [None] *)
  mf_ChainType : string;
  mf_Height : Z;
}.

Record OutBoundReq := mkOutBoundReq {
  TxID : string;
  OutReceiverAddress : bytes;
  FromPoolAddr : bytes;
  ob_Coin : Coin;
  TokenAddr : string;
  ob_BlockHeight : Z;
  Nonce : Z;
  SubmittedTxHash : string;
  FeeToValidator : list Coin;
  ChainType : string;
  NeedMint : bool;
}.

Record InBoundReq := mkInBoundReq {
  UserReceiverAddress : bytes;
  ib_TxID : bytes;
  ToPoolAddr : bytes;
  ib_Coin : Coin;
  ib_BlockHeight : Z;
  AccNum : Z;
  AccSeq : Z;
  PoolCosAddress : bytes;
  PoolPk : string;
}.

Record BridgeMemo := mkBridgeMemo {
  Dest : string;
  UserData : string;
  bm_ChainType : string;
}.

#[export] Instance VaultPool_eq_decision : EqDecision VaultPool.
Proof. solve_decision. Defined.
#[export] Instance PoolInfo_eq_decision : EqDecision PoolInfo.
Proof. solve_decision. Defined.
#[export] Instance MoveFundItem_eq_decision : EqDecision MoveFundItem.
Proof. solve_decision. Defined.
#[export] Instance OutBoundReq_eq_decision : EqDecision OutBoundReq.
Proof. solve_decision. Defined.
#[export] Instance InBoundReq_eq_decision : EqDecision InBoundReq.
Proof. solve_decision. Defined.

(** ** Outbound requests *)

Section Outbound.
Context `{E : Eth}.

(** [hex.DecodeString(o.TxID)], where an error panics. *)
Definition tx_bytes (o : OutBoundReq) : outcome bytes :=
  match hex_DecodeString (TxID o) with
  | Ret data => Ret data
  | _ => Panic
  end.

Definition OutBoundReq_Hash (o : OutBoundReq) : outcome bytes :=
  let? data := tx_bytes o in
  let needMintStr := if NeedMint o then "true" else "false" in
  Ret (Keccak256Hash [OutReceiverAddress o; bytes_of_string (ChainType o);
                      bytes_of_string needMintStr; data]).

Definition NewOutboundReq (txID : string) (address fromPoolAddr : bytes) (coin : Coin)
    (coinAddr : string) (txBlockHeight : Z) (feeToValidator : list Coin)
    (chainType : string) (needMint : bool) : OutBoundReq := {|
  TxID := txID;
  OutReceiverAddress := address;
  FromPoolAddr := fromPoolAddr;
  ob_Coin := coin;
  TokenAddr := coinAddr;
  ob_BlockHeight := txBlockHeight;
  Nonce := 0;
  SubmittedTxHash := Hash_Hex zero_hash;
  FeeToValidator := feeToValidator;
  ChainType := chainType;
  NeedMint := needMint;
|}.

Definition OutBoundReq_Index (o : OutBoundReq) : outcome string :=
  let? data := tx_bytes o in
  let hash := Keccak256Hash [OutReceiverAddress o; data] in
  let lower := FormatInt (Hash_Big hash) in
  let higher := FormatInt (ob_BlockHeight o) in
  Ret (higher ++ lower).
End Outbound.

Definition SetItemNonce (fromPoolAddr : bytes) (nonce : Z) (o : OutBoundReq) : OutBoundReq := {|
  TxID := TxID o;
  OutReceiverAddress := OutReceiverAddress o;
  FromPoolAddr := fromPoolAddr;
  ob_Coin := ob_Coin o;
  TokenAddr := TokenAddr o;
  ob_BlockHeight := ob_BlockHeight o;
  Nonce := nonce;
  SubmittedTxHash := SubmittedTxHash o;
  FeeToValidator := FeeToValidator o;
  ChainType := ChainType o;
  NeedMint := NeedMint o;
|}.

(** [item.SubmittedTxHash = txHash] in the bridge service. *)
Definition SetSubmittedTxHash (txHash : string) (o : OutBoundReq) : OutBoundReq := {|
  TxID := TxID o;
  OutReceiverAddress := OutReceiverAddress o;
  FromPoolAddr := FromPoolAddr o;
  ob_Coin := ob_Coin o;
  TokenAddr := TokenAddr o;
  ob_BlockHeight := ob_BlockHeight o;
  Nonce := Nonce o;
  SubmittedTxHash := txHash;
  FeeToValidator := FeeToValidator o;
  ChainType := ChainType o;
  NeedMint := NeedMint o;
|}.

Definition GetOutBoundInfo (o : OutBoundReq) : bytes * bytes * string * Z * Z :=
  (OutReceiverAddress o, FromPoolAddr o, TokenAddr o, Amount (ob_Coin o), Nonce o).

(** ** Inbound requests *)

Section Inbound.
Context `{E : Eth}.

Definition InBoundReq_Hash (i : InBoundReq) : bytes :=
  Keccak256Hash [UserReceiverAddress i; ib_TxID i].

Definition InBoundReq_Index (i : InBoundReq) : string :=
  let hash := Keccak256Hash [UserReceiverAddress i; ib_TxID i] in
  let lower := FormatInt (Hash_Big hash) in
  let higher := FormatInt (ib_BlockHeight i) in
  higher ++ lower.
End Inbound.

Definition NewAccountInboundReq (address toPoolAddr : bytes) (coin : Coin) (txid : bytes)
    (blockHeight : Z) : InBoundReq := {|
  UserReceiverAddress := address;
  ib_TxID := txid;
  ToPoolAddr := toPoolAddr;
  ib_Coin := coin;
  ib_BlockHeight := blockHeight;
  AccNum := 0;
  AccSeq := 0;
  PoolCosAddress := [];
  PoolPk := "";
|}.

Definition GetInboundReqInfo (i : InBoundReq) : bytes * bytes * Coin * Z :=
  (UserReceiverAddress i, ToPoolAddr i, ib_Coin i, ib_BlockHeight i).

Definition SetAccountInfo (number seq : Z) (address : bytes) (pk : string) (i : InBoundReq)
    : InBoundReq := {|
  UserReceiverAddress := UserReceiverAddress i;
  ib_TxID := ib_TxID i;
  ToPoolAddr := ToPoolAddr i;
  ib_Coin := ib_Coin i;
  ib_BlockHeight := ib_BlockHeight i;
  AccNum := number;
  AccSeq := seq;
  PoolCosAddress := address;
  PoolPk := pk;
|}.

(** The sequence comes first in the result. *)
Definition GetAccountInfo (i : InBoundReq) : Z * Z * bytes * string :=
  (AccSeq i, AccNum i, PoolCosAddress i, PoolPk i).

(** ** The interface of a retry queue's items

    A queue needs of its items the key they are stored under and the text by
    which it selects them. *)
Class Indexed (A : Type) := {
  Index : A -> outcome string;
  item_chain : A -> string;
}.

#[export] Instance OutBoundReq_Indexed `{Eth} : Indexed OutBoundReq := {|
  Index := OutBoundReq_Index;
  item_chain := ChainType;
|}.

#[export] Instance InBoundReq_Indexed `{Eth} : Indexed InBoundReq := {|
  Index := fun i => Ret (InBoundReq_Index i);
  item_chain := fun _ => "";
|}.

(** The number an index spells: queues sort by it. *)
Definition index_value (ix : string) : option Z := SetString10 ix.

(** ** Lemmas *)

Section Lemmas.
Context `{E : Eth} `{L : !EthLaws E}.

(** What processing writes into a request leaves its key alone. *)
Lemma Index_SetItemNonce a n o : OutBoundReq_Index (SetItemNonce a n o) = OutBoundReq_Index o.
Proof. done. Qed.

Lemma Index_SetSubmittedTxHash h o :
  OutBoundReq_Index (SetSubmittedTxHash h o) = OutBoundReq_Index o.
Proof. done. Qed.

Lemma Index_SetAccountInfo n s a p i : InBoundReq_Index (SetAccountInfo n s a p i) = InBoundReq_Index i.
Proof. done. Qed.

Lemma tx_bytes_NewOutboundReq data a f c t h fee ch m :
  tx_bytes (NewOutboundReq (hex_EncodeToString data) a f c t h fee ch m) = Ret data.
Proof. unfold tx_bytes. cbn. by rewrite hex_roundtrip. Qed.

Lemma FormatInt_digits n : 0 <= n -> FormatInt n = digits n.
Proof. intros. unfold FormatInt. by rewrite (proj2 (Z.ltb_ge _ _)). Qed.

Lemma key_value h hash : 0 <= h -> length hash = 32%nat ->
  index_value (FormatInt h ++ FormatInt (Hash_Big hash))
  = Some (h * 10 ^ ndigits (Hash_Big hash) + Hash_Big hash).
Proof.
  intros Hh Hl. pose proof (SetBytes_range hash) as Hr. unfold index_value, Hash_Big in *.
  rewrite (FormatInt_digits (SetBytes hash)) by lia. apply SetString10_concat; lia.
Qed.

Lemma InBoundReq_Index_value i : 0 <= ib_BlockHeight i ->
  let hash := Hash_Big (InBoundReq_Hash i) in
  index_value (InBoundReq_Index i) = Some (ib_BlockHeight i * 10 ^ ndigits hash + hash).
Proof. intros. apply key_value; [done|apply Keccak256Hash_length]. Qed.

(** Every index of a request with a non-negative height is a number. *)
Lemma OutBoundReq_Index_value o ix : 0 <= ob_BlockHeight o ->
  OutBoundReq_Index o = Ret ix -> exists v, index_value ix = Some v /\ 0 <= v.
Proof.
  intros Hh H. unfold OutBoundReq_Index in H.
  apply obind_ret_inv in H as (data & _ & H). simplify_eq.
  rewrite key_value by (done || apply Keccak256Hash_length). eexists. split; [done|].
  pose proof (Hash_Big_range [OutReceiverAddress o; data]). nia.
Qed.

Lemma key_order k1 k2 d1 d2 h1 h2 :
  0 <= h1 < h2 -> 0 <= d1 < 10 ^ k1 -> 0 <= d2 -> k1 = k2 ->
  h1 * 10 ^ k1 + d1 < h2 * 10 ^ k2 + d2.
Proof. intros. subst. nia. Qed.
End Lemmas.

#[export] Hint Rewrite @Index_SetItemNonce @Index_SetSubmittedTxHash @Index_SetAccountInfo : go_eqs.

(** ** Properties *)

(** Fact (order of the retry queue). Two inbound requests whose hashes print
    with the same number of digits are ordered by their block heights. *)
Theorem index_order_same_digits `{E : Eth} `{L : !EthLaws E} (i j : InBoundReq) :
  0 <= ib_BlockHeight i < ib_BlockHeight j ->
  ndigits (Hash_Big (InBoundReq_Hash i)) = ndigits (Hash_Big (InBoundReq_Hash j)) ->
  exists vi vj, index_value (InBoundReq_Index i) = Some vi /\
    index_value (InBoundReq_Index j) = Some vj /\ vi < vj.
Proof.
  intros Hh Hd. rewrite !InBoundReq_Index_value by lia. do 2 eexists. do 2 (split; [done|]).
  apply key_order; [done|..|done].
  - split; [apply Hash_Big_range|]. apply ndigits_upper, Hash_Big_range.
  - apply Hash_Big_range.
Qed.

(** Fact (order of the retry queue, the other case). When the older request's
    hash prints with one digit more and its height has more than a tenth of
    the younger one's, the younger request is the smaller key: the digits of
    the hash are appended to those of the height without padding. *)
Theorem index_order_inverted `{E : Eth} `{L : !EthLaws E} (i j : InBoundReq) :
  0 < ib_BlockHeight i < ib_BlockHeight j ->
  ib_BlockHeight j < 10 * ib_BlockHeight i ->
  ndigits (Hash_Big (InBoundReq_Hash i)) = ndigits (Hash_Big (InBoundReq_Hash j)) + 1 ->
  exists vi vj, index_value (InBoundReq_Index i) = Some vi /\
    index_value (InBoundReq_Index j) = Some vj /\ vj < vi.
Proof.
  intros Hh Ht Hd. rewrite !InBoundReq_Index_value by lia. do 2 eexists. do 2 (split; [done|]).
  rewrite Hd, Z.pow_add_r by (unfold ndigits; lia). change (10 ^ 1) with 10.
  pose proof (ndigits_upper (Hash_Big (InBoundReq_Hash j)) ltac:(apply Hash_Big_range)).
  pose proof (Hash_Big_range [UserReceiverAddress i; ib_TxID i]).
  unfold InBoundReq_Hash in *. nia.
Qed.

(** ** Witnesses *)

#[local] Definition req (h : Z) (last : Z) : InBoundReq :=
  NewAccountInboundReq (Bytes h) [] (mkCoin "abnb" 1) (replicate 31 Byte.x00 ++ [byte_of last])%list h.

Lemma index_order_same_digits_witness :
  exists vi vj,
    index_value (@InBoundReq_Index eth_ref (req 9 17)) = Some vi /\
    index_value (@InBoundReq_Index eth_ref (req 10 25)) = Some vj /\ vi < vj.
Proof.
  apply (@index_order_same_digits eth_ref _ (req 9 17) (req 10 25)).
  - cbn. lia.
  - vm_compute. reflexivity.
Defined.

Lemma index_order_inverted_witness :
  exists vi vj,
    index_value (@InBoundReq_Index eth_ref (req 9 17)) = Some vi /\
    index_value (@InBoundReq_Index eth_ref (req 10 5)) = Some vj /\ vj < vi.
Proof.
  apply (@index_order_inverted eth_ref _ (req 9 17) (req 10 5)).
  - cbn. lia.
  - cbn. lia.
  - vm_compute. reflexivity.
Defined.
