(* ===== verification/Fees.v ===== *)
(** * Fees and decimals: common/fee.go, common/decimals.go and the two
    adjustment functions of pubchain/helper.go and cosbridge/helper.go

    The fee of a transfer is a fraction of the amount, kept between a floor
    and a ceiling given in dollars; amounts move between a token's own number
    of decimals and the 18 decimals of the joltify chain. *)

From Stdlib Require Import Ascii String.
From S2P Require Import Prelude GoLib Sdk.

#[local] Open Scope string_scope.
#[local] Open Scope Z_scope.
#[local] Open Scope go_scope.

(** ** Definitions *)

Section Fees.
Context `{S : SdkMath} `{K : SdkCoins}.

Record FeeModule := mkFeeModule {
  fm_ChainType : string;
  FeeRatio : Dec;
  Ceil : Dec;
  Floor : Dec;
}.

(** [10 ^ |decimal|] as an [Int]. *)
Definition pow10_int (decimal : Z) : outcome Z := NewIntFromBigInt (10 ^ Z.abs decimal).

Definition doGetFee (price ceil floor feeRatio : Dec) (transferAmount decimal : Z) : outcome Z :=
  let? fee := Dec_Mul (Int_ToDec transferAmount) feeRatio in
  let? feeAmount := Dec_RoundInt fee in
  let? val := pow10_int decimal in
  let? c := Dec_MulInt ceil val in
  let? c := Dec_Quo c price in
  let? ceilAmount := Dec_RoundInt c in
  let? f := Dec_MulInt floor val in
  let? f := Dec_Quo f price in
  let? floorAmount := Dec_RoundInt f in
  if feeAmount <? floorAmount then Ret floorAmount
  else if ceilAmount <? feeAmount then Ret ceilAmount
  else Ret feeAmount.

Definition CalculateFee (feeModule : FeeModule) (price : Dec) (token : Coin) : outcome Coin :=
  let decimal := if bool_decide (Denom token = "ujolt") then 6 else 18 in
  let? fee := doGetFee price (Ceil feeModule) (Floor feeModule) (FeeRatio feeModule)
                (Amount token) decimal in
  NewCoin (Denom token) fee.

Definition ethFeeModule : FeeModule := {|
  fm_ChainType := "ETH";
  FeeRatio := NewDecWithPrec 1 4;
  Ceil := NewDecWithPrec 1000 0;
  Floor := NewDecWithPrec 25 1;
|}.

Definition bscFeeModule : FeeModule := {|
  fm_ChainType := "BSC";
  FeeRatio := NewDecWithPrec 1 4;
  Ceil := NewDecWithPrec 1000 0;
  Floor := NewDecWithPrec 10 2;
|}.

Definition InitFeeModule : gmap string FeeModule :=
  <[fm_ChainType bscFeeModule := bscFeeModule]> {[fm_ChainType ethFeeModule := ethFeeModule]}.

(** ** Decimals *)

Definition AdjustInt (input deltaPrecision : Z) : outcome Z :=
  let? val := pow10_int deltaPrecision in
  if deltaPrecision <? 0 then Int_Quo input val else Int_Mul input val.

Definition inboundAdjust (amount decimals precision : Z) : outcome Z :=
  let delta := precision - decimals in
  if delta =? 0 then Ret amount else AdjustInt amount delta.

Definition outboundAdjust (amount decimals precision : Z) : outcome Z :=
  let delta := decimals - precision in
  if delta =? 0 then Ret amount else AdjustInt amount delta.
End Fees.

(** [types.Precision]. *)
Definition Precision : Z := 18.

(** cosbridge/helper.go and pubchain/helper.go: the oracle's market of a
    denomination; the slice [denom[1:]] panics on the empty string. *)
Definition market_id (denom : string) : outcome string :=
  if bool_decide (denom = "ujolt") then Ret "jolt:usd"
  else match denom with
    | EmptyString => Panic
    | String _ rest => Ret (rest ++ ":usd")
    end.

(** [dial] is the outcome of dialling the node, [Price] the oracle's query. *)
Definition QueryTokenPrice `{SdkMath} (dial : outcome unit) (Price : string -> outcome Dec) (denom : string) : outcome Dec :=
  let? _ := dial in
  let? marketID := market_id denom in
  Price marketID.

(** A fee schedule whose numbers make sense. *)
Definition fee_module_ok `{SdkMath} (m : FeeModule) : Prop :=
  0 <= dec_raw (FeeRatio m) /\ 0 <= dec_raw (Floor m) <= dec_raw (Ceil m).

(** ** Lemmas *)

Section Lemmas.
Context `{S : SdkMath} `{LS : !SdkMathLaws S} `{K : SdkCoins} `{LK : !SdkCoinsLaws K}.

Lemma nearest_nonneg n d q : 0 < d -> 0 <= n -> nearest n d q -> 0 <= q.
Proof. unfold nearest. intros. nia. Qed.

Lemma nearest_exact n d q : 0 < d -> nearest (n * d) d q -> q = n.
Proof. unfold nearest. intros. nia. Qed.

Lemma clamp_max s lo hi : lo <= hi ->
  (if s <? lo then lo else if hi <? s then hi else s) = Z.max lo (Z.min hi s).
Proof. destruct (Z.ltb_spec s lo), (Z.ltb_spec hi s); lia. Qed.

(** Rounding a quotient to an integer: the error of the two roundings. *)
Lemma round_quo p one f lo x : 0 < p ->
  Z.abs (f * p - x) <= p -> nearest f one lo -> Z.abs (lo * one * p - x) <= p * (one + 1).
Proof.
  unfold nearest. intros Hp Hf Hlo. set (t := lo * one - f) in *.
  replace (lo * one * p) with (t * p + f * p) by (unfold t; lia).
  assert (- (p * one) <= t * p <= p * one) by nia. lia.
Qed.

Lemma rounded_nonneg p one f lo x : 0 < p -> 2 < one -> 0 <= x ->
  Z.abs (f * p - x) <= p -> nearest f one lo -> 0 <= lo.
Proof.
  unfold nearest. intros Hp Hone Hx Hf Hlo. assert (-1 <= f) by nia. nia.
Qed.

Lemma round_twice one r s x :
  nearest x one r -> nearest r one s -> 2 * Z.abs (s * one * one - x) <= one + one * one.
Proof.
  unfold nearest. intros Hr Hs. set (t := s * one - r) in *.
  replace (s * one * one) with (t * one + r * one) by (unfold t; lia).
  assert (- (one * one) <= 2 * (t * one) <= one * one) by nia. lia.
Qed.

(** The two dollar bounds keep their order in token units. *)
Lemma bound_mono price a b v ca cb x y ia ib :
  0 < dec_raw price -> 0 <= v -> dec_raw a <= dec_raw b ->
  Dec_MulInt a v = Ret ca -> Dec_MulInt b v = Ret cb ->
  Dec_Quo ca price = Ret x -> Dec_Quo cb price = Ret y ->
  Dec_RoundInt x = Ret ia -> Dec_RoundInt y = Ret ib -> ia <= ib.
Proof.
  intros Hp Hv Hab Ha Hb Hx Hy Hia Hib.
  apply Dec_MulInt_raw in Ha, Hb.
  refine (Dec_RoundInt_mono _ _ _ _ _ Hia Hib).
  refine (Dec_Quo_mono _ _ _ _ _ Hp _ Hx Hy). rewrite Ha, Hb. nia.
Qed.

Lemma doGetFee_inv price ceil floor ratio amount decimal fee :
  doGetFee price ceil floor ratio amount decimal = Ret fee ->
  exists r p cd fd cq fq feeAmount ceilAmount floorAmount,
    Dec_Mul (Int_ToDec amount) ratio = Ret r /\ Dec_RoundInt r = Ret feeAmount /\
    p = 10 ^ Z.abs decimal /\
    Dec_MulInt ceil p = Ret cd /\ Dec_Quo cd price = Ret cq /\ Dec_RoundInt cq = Ret ceilAmount /\
    Dec_MulInt floor p = Ret fd /\ Dec_Quo fd price = Ret fq /\ Dec_RoundInt fq = Ret floorAmount /\
    fee = (if feeAmount <? floorAmount then floorAmount
           else if ceilAmount <? feeAmount then ceilAmount else feeAmount).
Proof.
  unfold doGetFee, pow10_int. intros H.
  repeat (apply obind_ret_inv in H as (? & ? & H)).
  match goal with h : NewIntFromBigInt _ = Ret _ |- _ => apply NewIntFromBigInt_ret in h; subst end.
  do 9 eexists. repeat (split; [eassumption || reflexivity|]).
  repeat (destruct (_ <? _); try congruence).
Qed.

Lemma pow10_pos d : 0 < 10 ^ Z.abs d.
Proof. apply Z.pow_pos_nonneg; lia. Qed.

Lemma pow10_int_ret d v : pow10_int d = Ret v -> v = 10 ^ Z.abs d.
Proof. apply NewIntFromBigInt_ret. Qed.

Lemma pow10_int_total d : Z.abs d <= 76 -> pow10_int d = Ret (10 ^ Z.abs d).
Proof.
  intros H. apply NewIntFromBigInt_total.
  pose proof (Z.pow_le_mono_r 10 (Z.abs d) 76 ltac:(lia) ltac:(lia)).
  pose proof (pow10_pos d). assert (10 ^ 76 < int_bound) by reflexivity. lia.
Qed.

Lemma AdjustInt_up input d r : 0 <= d -> AdjustInt input d = Ret r -> r = input * 10 ^ d.
Proof.
  intros Hd H. unfold AdjustInt in H. rewrite (proj2 (Z.ltb_ge d 0)) in H by done.
  apply obind_ret_inv in H as (v & Hv & H). apply pow10_int_ret in Hv as ->.
  rewrite Z.abs_eq in H by done. by apply Int_Mul_ret in H.
Qed.

Lemma AdjustInt_down input d r :
  d < 0 -> AdjustInt input d = Ret r -> r = Z.quot input (10 ^ (- d)).
Proof.
  intros Hd H. unfold AdjustInt in H. rewrite (proj2 (Z.ltb_lt d 0)) in H by done.
  apply obind_ret_inv in H as (v & Hv & H). apply pow10_int_ret in Hv as ->.
  rewrite Int_Quo_ret in H by (pose proof (pow10_pos d); lia). simplify_eq.
  by rewrite Z.abs_neq by lia.
Qed.

Lemma AdjustInt_down_total input d :
  -76 <= d < 0 -> AdjustInt input d = Ret (Z.quot input (10 ^ (- d))).
Proof.
  intros Hd. unfold AdjustInt. rewrite pow10_int_total by lia. cbn [obind].
  rewrite (proj2 (Z.ltb_lt d 0)) by lia.
  rewrite Int_Quo_ret by (pose proof (pow10_pos d); lia). by rewrite Z.abs_neq by lia.
Qed.

(** Both adjustments at once: what they return when they return. *)
Lemma inboundAdjust_ret amount decimals r :
  inboundAdjust amount decimals Precision = Ret r ->
  r = if decimals <=? 18 then amount * 10 ^ (18 - decimals)
      else Z.quot amount (10 ^ (decimals - 18)).
Proof.
  unfold inboundAdjust, Precision. intros H. destruct (Z.eqb_spec (18 - decimals) 0).
  - simplify_eq. replace decimals with 18 by lia. cbn. lia.
  - destruct (Z.leb_spec decimals 18).
    + apply AdjustInt_up in H; [done|lia].
    + apply AdjustInt_down in H; [|lia]. by replace (decimals - 18) with (- (18 - decimals)) by lia.
Qed.

Lemma outboundAdjust_ret amount decimals r :
  outboundAdjust amount decimals Precision = Ret r ->
  r = if decimals <? 18 then Z.quot amount (10 ^ (18 - decimals))
      else amount * 10 ^ (decimals - 18).
Proof.
  unfold outboundAdjust, Precision. intros H. destruct (Z.eqb_spec (decimals - 18) 0).
  - simplify_eq. replace decimals with 18 by lia. cbn. lia.
  - destruct (Z.ltb_spec decimals 18).
    + apply AdjustInt_down in H; [|lia]. by replace (18 - decimals) with (- (decimals - 18)) by lia.
    + apply AdjustInt_up in H; [done|lia].
Qed.

Lemma outboundAdjust_total_down amount decimals :
  0 <= decimals < 18 ->
  outboundAdjust amount decimals Precision = Ret (Z.quot amount (10 ^ (18 - decimals))).
Proof.
  intros. unfold outboundAdjust, Precision. rewrite (proj2 (Z.eqb_neq _ 0)) by lia.
  rewrite AdjustInt_down_total by lia. do 3 f_equal. lia.
Qed.

Lemma InitFeeModule_ok c m : InitFeeModule !! c = Some m ->
  fee_module_ok m /\ fm_ChainType m = c /\ (c = "ETH" \/ c = "BSC").
Proof.
  unfold InitFeeModule. intros H.
  apply lookup_insert_Some in H as [[<- <-]|[_ H]].
  - unfold fee_module_ok. cbn. rewrite !NewDecWithPrec_raw by lia. split; [lia|auto].
  - apply lookup_singleton_Some in H as [<- <-].
    unfold fee_module_ok. cbn. rewrite !NewDecWithPrec_raw by lia. split; [lia|auto].
Qed.
Lemma InitFeeModule_raw c m : InitFeeModule !! c = Some m ->
  dec_raw (FeeRatio m) = 10 ^ 14 /\ dec_raw (Ceil m) = 10 ^ 21 /\ 10 ^ 17 <= dec_raw (Floor m) <= 10 ^ 19.
Proof.
  unfold InitFeeModule. intros H.
  apply lookup_insert_Some in H as [[_ <-]|[_ H]];
    [|apply lookup_singleton_Some in H as [_ <-]];
    cbn; rewrite !NewDecWithPrec_raw by lia; lia.
Qed.

(** Converting a dollar amount to token units does not panic. *)
Lemma bound_total price d p : 0 < dec_raw price -> 0 <= dec_raw d <= 10 ^ 21 -> 0 < p <= 10 ^ 18 ->
  exists c q i, Dec_MulInt d p = Ret c /\ Dec_Quo c price = Ret q /\ Dec_RoundInt q = Ret i /\ 0 <= i.
Proof.
  intros Hp Hd H10. assert (10 ^ 60 < int_bound) by reflexivity.
  assert (0 <= dec_raw d * p <= 10 ^ 21 * 10 ^ 18) as Hcb by nia.
  destruct (Dec_MulInt_total d p) as [c Hc]; [lia|].
  pose proof (Dec_MulInt_raw _ _ _ Hc) as Hcr. rewrite <- Hcr in Hcb.
  assert (dec_one = 10 ^ 18) as Hone by reflexivity.
  destruct (Dec_Quo_total c price) as [q Hq]; [done|lia|].
  pose proof (Dec_Quo_err _ _ _ Hp Hq) as Hqe.
  assert (-1 <= dec_raw q) by nia. assert (dec_raw q <= 10 ^ 57 + 1) by nia.
  destruct (Dec_RoundInt_total q) as [i Hi]; [lia|].
  exists c, q, i. do 3 (split; [done|]).
  apply Dec_RoundInt_nearest in Hi. unfold nearest in Hi. lia.
Qed.

Lemma doGetFee_total price ceil floor ratio amount decimal :
  0 < dec_raw price -> 0 <= dec_raw ceil <= 10 ^ 21 -> 0 <= dec_raw floor <= 10 ^ 21 ->
  dec_raw ratio = 10 ^ 14 -> 0 <= amount < 2 ^ 148 -> 0 <= decimal <= 18 ->
  exists fee, doGetFee price ceil floor ratio amount decimal = Ret fee /\ 0 <= fee.
Proof.
  intros Hp Hc Hf Hr Ha Hd.
  assert (2 ^ 148 * 10 ^ 32 < int_bound) by reflexivity.
  assert (dec_one = 10 ^ 18) as Hone by reflexivity.
  destruct (Dec_Mul_total (Int_ToDec amount) ratio) as [r Hm].
  { rewrite Int_ToDec_raw, Hr. lia. }
  pose proof (Dec_Mul_nearest _ _ _ Hm) as Hn. rewrite Int_ToDec_raw, Hr in Hn. unfold nearest in Hn.
  destruct (Dec_RoundInt_total r) as [s Hs]; [lia|].
  pose proof (Dec_RoundInt_nearest _ _ Hs) as Hsn. unfold nearest in Hsn.
  assert (0 < 10 ^ Z.abs decimal <= 10 ^ 18) as H10.
  { split; [apply pow10_pos|]. apply Z.pow_le_mono_r; lia. }
  destruct (bound_total price ceil _ Hp Hc H10) as (c & cq & hi & E1 & E2 & E3 & Hhi).
  destruct (bound_total price floor _ Hp Hf H10) as (f & fq & lo & E4 & E5 & E6 & Hlo).
  unfold doGetFee. rewrite pow10_int_total by lia.
  rewrite Hm. cbn [obind]. rewrite Hs. cbn [obind]. rewrite E1. cbn [obind]. rewrite E2. cbn [obind].
  rewrite E3. cbn [obind]. rewrite E4. cbn [obind]. rewrite E5. cbn [obind]. rewrite E6. cbn [obind].
  destruct (Z.ltb_spec s lo), (Z.ltb_spec hi s); eexists; (split; [done|lia]).
Qed.
End Lemmas.

(** ** Properties *)

Lemma CalculateFee_denom `{S : SdkMath} `{K : SdkCoins} `{LK : !SdkCoinsLaws K} m price tok fee :
  CalculateFee m price tok = Ret fee -> Denom fee = Denom tok.
Proof.
  unfold CalculateFee. intros (f & _ & H)%obind_ret_inv. rewrite NewCoin_spec in H.
  destruct (_ && _) in H; [|done]. by injection H as <-.
Qed.

(** C26 (fee). For a fee schedule with floor below ceiling and a positive
    price, the fee is the rounded share of the amount clamped between the
    floor and the ceiling converted to token units, whatever the amount. *)
Theorem doGetFee_clamp `{S : SdkMath} `{LS : !SdkMathLaws S} (m : FeeModule) price amount decimal fee :
  fee_module_ok m -> 0 < dec_raw price ->
  doGetFee price (Ceil m) (Floor m) (FeeRatio m) amount decimal = Ret fee ->
  exists share lo hi,
    lo <= fee <= hi /\ (lo <= share <= hi -> fee = share) /\
    fee = Z.max lo (Z.min hi share) /\ 0 <= lo /\
    2 * Z.abs (share * dec_one * dec_one - amount * dec_one * dec_raw (FeeRatio m))
      <= dec_one + dec_one * dec_one /\
    Z.abs (lo * dec_one * dec_raw price - dec_raw (Floor m) * 10 ^ Z.abs decimal * dec_one)
      <= dec_raw price * (dec_one + 1) /\
    Z.abs (hi * dec_one * dec_raw price - dec_raw (Ceil m) * 10 ^ Z.abs decimal * dec_one)
      <= dec_raw price * (dec_one + 1).
Proof.
  intros (Hr & Hf & Hc) Hp H. apply doGetFee_inv in H.
  destruct H as (r & p & cd & fd & cq & fq & s & hi & lo & Hr1 & Hr2 & -> & Hc1 & Hc2 & Hc3 & Hf1 & Hf2 & Hf3 & ->).
  pose proof (pow10_pos decimal) as H10.
  assert (lo <= hi) as Hlohi by (refine (bound_mono _ _ _ _ _ _ _ _ _ _ Hp _ Hc Hf1 Hc1 Hf2 Hc2 Hf3 Hc3); lia).
  apply Dec_Mul_nearest in Hr1. rewrite Int_ToDec_raw in Hr1.
  apply Dec_RoundInt_nearest in Hr2, Hc3, Hf3.
  apply Dec_MulInt_raw in Hc1, Hf1.
  apply Dec_Quo_err in Hc2, Hf2; [|done..]. rewrite Hc1 in Hc2. rewrite Hf1 in Hf2.
  assert (2 < dec_one) as H1 by reflexivity.
  assert (0 <= dec_raw (Floor m) * 10 ^ Z.abs decimal * dec_one) as Hx
    by (apply Z.mul_nonneg_nonneg; [apply Z.mul_nonneg_nonneg|]; lia).
  exists s, lo, hi.
  split; [destruct (Z.ltb_spec s lo), (Z.ltb_spec hi s); lia|].
  split; [intros; destruct (Z.ltb_spec s lo), (Z.ltb_spec hi s); lia|].
  split; [by apply clamp_max|].
  split; [by apply (rounded_nonneg _ _ _ _ _ Hp H1 Hx Hf2 Hf3)|].
  split; [by apply (round_twice _ _ _ _ Hr1 Hr2)|].
  split; [by apply (round_quo _ _ _ _ _ Hp Hf2 Hf3)|by apply (round_quo _ _ _ _ _ Hp Hc2 Hc3)].
Qed.

(** C27 (fee, totality). For amounts below 2^148, the configured schedules and
    any positive price, the fee calculation of a valid coin does not panic. *)
Theorem CalculateFee_total `{S : SdkMath} `{LS : !SdkMathLaws S} `{K : SdkCoins} `{LK : !SdkCoinsLaws K}
    c m price token :
  InitFeeModule !! c = Some m -> 0 < dec_raw price ->
  0 <= Amount token < 2 ^ 148 -> valid_denom (Denom token) = true ->
  exists fee, CalculateFee m price token = Ret (mkCoin (Denom token) fee) /\ 0 <= fee.
Proof.
  intros Hm Hp Ha Hd. apply InitFeeModule_raw in Hm as (Hr & Hc & Hf).
  unfold CalculateFee.
  set (decimal := if bool_decide _ then 6 else 18).
  assert (0 <= decimal <= 18) as Hdec by (unfold decimal; case_bool_decide; lia).
  destruct (doGetFee_total price (Ceil m) (Floor m) (FeeRatio m) (Amount token) decimal)
    as (fee & Hfee & Hpos); [done|rewrite Hc; lia|clear - Hf; lia|done..|].
  exists fee. rewrite Hfee. cbn [obind]. rewrite NewCoin_spec, Hd, (proj2 (Z.leb_le 0 fee) Hpos).
  done.
Qed.

(** Fact (fee, monotonicity). With one schedule and one price, a larger amount
    never pays a smaller fee. *)
Theorem doGetFee_mono `{S : SdkMath} `{LS : !SdkMathLaws S} (m : FeeModule) price a b decimal fa fb :
  fee_module_ok m -> 0 < dec_raw price -> a <= b ->
  doGetFee price (Ceil m) (Floor m) (FeeRatio m) a decimal = Ret fa ->
  doGetFee price (Ceil m) (Floor m) (FeeRatio m) b decimal = Ret fb -> fa <= fb.
Proof.
  intros (Hr & Hf & Hc) Hp Hab Ha Hb. apply doGetFee_inv in Ha, Hb.
  destruct Ha as (ra & p & cd & fd & cq & fq & sa & hi & lo & Hra & Hsa & -> & Hc1 & Hc2 & Hc3 & Hf1 & Hf2 & Hf3 & ->).
  destruct Hb as (rb & p & cd' & fd' & cq' & fq' & sb & hi' & lo' & Hrb & Hsb & -> & Hc1' & Hc2' & Hc3' & Hf1' & Hf2' & Hf3' & ->).
  assert (cd = cd' /\ fd = fd') as [<- <-] by (split; congruence).
  assert (cq = cq' /\ fq = fq') as [<- <-] by (split; congruence).
  assert (hi = hi' /\ lo = lo') as [<- <-] by (split; congruence).
  assert (lo <= hi) as Hlohi.
  { pose proof (pow10_pos decimal).
    refine (bound_mono _ _ _ _ _ _ _ _ _ _ Hp _ Hc Hf1' Hc1' Hf2' Hc2' Hf3' Hc3'); lia. }
  assert (sa <= sb) as Hs.
  { refine (Dec_RoundInt_mono _ _ _ _ _ Hsa Hsb). refine (Dec_Mul_mono _ _ _ _ _ Hr _ Hra Hrb).
    rewrite !Int_ToDec_raw. assert (0 <= dec_one) by (unfold dec_one; lia). nia. }
  rewrite !clamp_max by lia. lia.
Qed.

(** C28 (decimals, inbound then outbound). Amounts of a token with at most 18
    decimals survive the way to the joltify chain and back. *)
Theorem adjust_roundtrip `{S : SdkMath} `{LS : !SdkMathLaws S} amount decimals jolt :
  0 <= decimals <= 18 ->
  inboundAdjust amount decimals Precision = Ret jolt ->
  outboundAdjust jolt decimals Precision = Ret amount.
Proof.
  intros Hd H. apply inboundAdjust_ret in H. rewrite (proj2 (Z.leb_le _ _)) in H by lia. subst jolt.
  destruct (Z.eq_dec decimals 18) as [->|].
  - unfold outboundAdjust. cbn. f_equal. lia.
  - rewrite outboundAdjust_total_down by lia. f_equal. apply Z.quot_mul.
    apply Z.pow_nonzero; lia.
Qed.

(** Fact (decimals, outbound then inbound). An amount that leaves for a chain
    with fewer decimals and comes back never grows, and loses less than one
    unit of the token; nothing is lost when the token has 18 decimals or
    more. *)
Theorem adjust_outbound_loss `{S : SdkMath} `{LS : !SdkMathLaws S} amount decimals out back :
  0 <= decimals -> 0 <= amount ->
  outboundAdjust amount decimals Precision = Ret out ->
  inboundAdjust out decimals Precision = Ret back ->
  back <= amount < back + 10 ^ Z.max 0 (18 - decimals) /\ (18 <= decimals -> back = amount).
Proof.
  intros Hd Ha Ho Hi. apply outboundAdjust_ret in Ho. apply inboundAdjust_ret in Hi.
  destruct (Z.ltb_spec decimals 18).
  - rewrite (proj2 (Z.leb_le _ _)) in Hi by lia. subst out back. rewrite Z.max_r by lia.
    assert (0 < 10 ^ (18 - decimals)) by (apply Z.pow_pos_nonneg; lia).
    pose proof (Z.quot_rem amount (10 ^ (18 - decimals)) ltac:(lia)).
    pose proof (Z.rem_bound_pos amount (10 ^ (18 - decimals)) ltac:(lia) ltac:(lia)). lia.
  - rewrite Z.max_l by lia. cbn [Z.pow].
    assert (back = amount); [|lia].
    destruct (Z.leb_spec decimals 18).
    + replace decimals with 18 in * by lia. change (10 ^ (18 - 18)) with 1 in *. lia.
    + subst out back. apply Z.quot_mul. apply Z.pow_nonzero; lia.
Qed.

(** ** Witnesses *)

#[local] Definition price_2557 : @Dec sdk_math_ref := 255700000000000000000.

Lemma doGetFee_clamp_witness :
  exists m : @FeeModule sdk_math_ref, @InitFeeModule sdk_math_ref !! "BSC" = Some m /\
  @doGetFee sdk_math_ref price_2557 (Ceil m) (Floor m) (FeeRatio m) (10 ^ 18) 18 = Ret 391083300743058 /\
  exists share lo hi, lo <= 391083300743058 <= hi /\ (lo <= share <= hi -> 391083300743058 = share) /\
  391083300743058 = Z.max lo (Z.min hi share).
Proof.
  exists (@bscFeeModule sdk_math_ref). split; [reflexivity|]. split; [vm_compute; reflexivity|].
  destruct (@doGetFee_clamp sdk_math_ref _ (@bscFeeModule sdk_math_ref) price_2557 (10 ^ 18) 18 391083300743058)
    as (s & lo & hi & H1 & H2 & H3 & _).
  - unfold fee_module_ok. vm_compute. repeat split; discriminate.
  - reflexivity.
  - vm_compute. reflexivity.
  - exists s, lo, hi. auto.
Defined.

Lemma CalculateFee_total_witness :
  exists m, @InitFeeModule sdk_math_ref !! "ETH" = Some m /\
  exists fee, @CalculateFee sdk_math_ref sdk_coins_ref m price_2557 (mkCoin "abnb" (2 * 10 ^ 18))
    = Ret (mkCoin "abnb" fee) /\ 0 <= fee.
Proof.
  exists (@ethFeeModule sdk_math_ref). split; [reflexivity|].
  apply (CalculateFee_total "ETH" (@ethFeeModule sdk_math_ref) price_2557 (mkCoin "abnb" (2 * 10 ^ 18))).
  - reflexivity.
  - reflexivity.
  - split; [vm_compute; discriminate|reflexivity].
  - reflexivity.
Defined.

Lemma doGetFee_mono_witness :
  391083300743058 <= 1000000000000000.
Proof.
  apply (@doGetFee_mono sdk_math_ref _ (@bscFeeModule sdk_math_ref) price_2557 (10 ^ 18) (10 ^ 19) 18).
  - unfold fee_module_ok. vm_compute. repeat split; discriminate.
  - reflexivity.
  - vm_compute. discriminate.
  - vm_compute. reflexivity.
  - vm_compute. reflexivity.
Defined.

Lemma adjust_roundtrip_witness :
  @inboundAdjust sdk_math_ref 1234567 6 Precision = Ret 1234567000000000000 /\
  @outboundAdjust sdk_math_ref 1234567000000000000 6 Precision = Ret 1234567.
Proof.
  split; [vm_compute; reflexivity|].
  apply (@adjust_roundtrip sdk_math_ref _ 1234567 6); [lia|]. vm_compute. reflexivity.
Defined.

Lemma adjust_outbound_loss_witness :
  1234567000000000000 <= 1234567999999999999 < 1234567000000000000 + 10 ^ Z.max 0 (18 - 6).
Proof.
  destruct (@adjust_outbound_loss sdk_math_ref _ 1234567999999999999 6 1234567 1234567000000000000)
    as [H _]; [lia|lia|vm_compute; reflexivity|vm_compute; reflexivity|exact H].
Defined.
