(* ===== verification/ItemQueue.v ===== *)
(** * Retry queues: pubchain/public_items_process.go and
    cosbridge/oppy_item_process.go

    Each side of the bridge keeps its unprocessed requests in a [sync.Map]
    keyed by the request's index, and the requests that failed in an on-hold
    slice.  The two files are the same code over two request types; the
    generic operations are written once against the [Indexed] interface and
    instantiated in the modules [InboundQueue] and [OutboundQueue]. *)

From Stdlib Require Import Ascii String.
From S2P Require Import Prelude GoLib Sdk Requests.

#[local] Open Scope Z_scope.
#[local] Open Scope go_scope.

(** ** Definitions *)

Record ItemQueue (A : Type) := mkQueue {
  pending : gmap string A;   (* RetryInboundReq / RetryOutboundReq *)
  onHold : list A;           (* onHoldRetryQueue *)
}.
Arguments mkQueue {A} _ _.
Arguments pending {A} _.
Arguments onHold {A} _.

Definition empty_queue {A} : ItemQueue A := mkQueue ∅ [].

(** [a.Cmp(b) == -1] on the two parsed keys. *)
Definition key_less (a b : string) : bool :=
  match index_value a, index_value b with
  | Some x, Some y => x <? y
  | _, _ => false
  end.

(** The comparison dereferences the result of a failed [SetString]: sorting
    two or more keys panics unless all of them are numbers. *)
Definition keys_comparable (ks : list string) : bool :=
  (length ks <=? 1)%nat || forallb (fun k => bool_decide (is_Some (index_value k))) ks.

Section Queue.
Context {A : Type} `{I : Indexed A} `{R : GoRuntime}.

Definition AddItem (req : A) : M (ItemQueue A) unit :=
  let! ix := lift (Index req) in
  modify (fun q => mkQueue (<[ix := req]> (pending q)) (onHold q)).

Definition AddOnHoldQueue (item : A) : M (ItemQueue A) unit :=
  modify (fun q => mkQueue (pending q) (onHold q ++ [item])).

Definition DumpQueue : M (ItemQueue A) (list A) :=
  let! q := get in
  match onHold q with
  | [] => ret []
  | _ => do! modify (fun q => mkQueue (pending q) []) in ret (onHold q)
  end.

Definition ExportItems (q : ItemQueue A) : list A := map snd (map_range (pending q)).

Definition IsEmpty (q : ItemQueue A) : bool :=
  match map_range (pending q) with [] => true | _ => false end.

Definition Size (q : ItemQueue A) : Z := Z.of_nat (length (map_range (pending q))).

(** The keys [Range] collects, of the items [sel] accepts. *)
Definition selected_keys (sel : A -> bool) (q : ItemQueue A) : list string :=
  map fst (List.filter (fun e => sel (snd e)) (map_range (pending q))).

(** [LoadAndDelete] of one key; a missing key panics. *)
Definition load_and_delete (k : string) : M (ItemQueue A) A :=
  let! q := get in
  match pending q !! k with
  | Some a => do! modify (fun q => mkQueue (delete k (pending q)) (onHold q)) in ret a
  | None => panic
  end.

Fixpoint load_all (ks : list string) : M (ItemQueue A) (list A) :=
  match ks with
  | [] => ret []
  | k :: ks =>
      let! a := load_and_delete k in
      let! l := load_all ks in
      ret (a :: l)
  end.

(** [None] is the nil slice the callers test for. *)
Definition PopItem_where (sel : A -> bool) (n : Z) : M (ItemQueue A) (option (list A)) :=
  let! q := get in
  let allkeys := selected_keys sel q in
  if negb (keys_comparable allkeys) then panic else
  let allkeys := sort_slice key_less allkeys in
  let indexNum := Z.of_nat (length allkeys) in
  if indexNum =? 0 then ret None else
  let returnNum := if indexNum <? n then indexNum else n in
  if returnNum <? 0 then panic else
  let! items := load_all (take (Z.to_nat returnNum) allkeys) in
  ret (Some items).
End Queue.

(** [pubchain.Instance]: the requests that came in from the public chains. *)
Module InboundQueue.
Section Ops.
Context `{E : Eth} `{R : GoRuntime}.
Definition t := ItemQueue InBoundReq.
Definition AddInBoundItem : InBoundReq -> M t unit := AddItem.
Definition AddOnHoldQueue : InBoundReq -> M t unit := AddOnHoldQueue.
Definition DumpQueue : M t (list InBoundReq) := DumpQueue.
Definition ExportItems : t -> list InBoundReq := ExportItems.
Definition IsEmpty : t -> bool := IsEmpty.
Definition Size : t -> Z := Size.
Definition PopItem (n : Z) : M t (option (list InBoundReq)) := PopItem_where (fun _ => true) n.
End Ops.
End InboundQueue.

(** [cosbridge.JoltChainInstance]: the requests that go out to a public chain;
    [PopItem] takes those of one chain. *)
Module OutboundQueue.
Section Ops.
Context `{E : Eth} `{R : GoRuntime}.
Definition t := ItemQueue OutBoundReq.
Definition AddItem : OutBoundReq -> M t unit := AddItem.
Definition AddOnHoldQueue : OutBoundReq -> M t unit := AddOnHoldQueue.
Definition DumpQueue : M t (list OutBoundReq) := DumpQueue.
Definition ExportItems : t -> list OutBoundReq := ExportItems.
Definition IsEmpty : t -> bool := IsEmpty.
Definition Size : t -> Z := Size.
Definition PopItem (n : Z) (chainType : string) : M t (option (list OutBoundReq)) :=
  PopItem_where (fun req => bool_decide (ChainType req = chainType)) n.
End Ops.
End OutboundQueue.

(** ** The invariant

    Every entry sits under its own index, and every key is a number. *)
Class IndexedLaws (A : Type) (I : Indexed A) : Prop := {
  Index_numeric : forall (a : A) k, Index a = Ret k -> is_Some (index_value k);
}.

Definition queue_wf `{Indexed A} (q : ItemQueue A) : Prop :=
  forall k a, pending q !! k = Some a -> Index a = Ret k.

(** The states the operations reach from the empty queue. *)
Inductive reachable `{I : Indexed A} `{R : GoRuntime} : ItemQueue A -> Prop :=
| reach_new : reachable empty_queue
| reach_add q req q' : reachable q -> AddItem req q = (q', Ret tt) -> reachable q'
| reach_hold q item q' : reachable q -> AddOnHoldQueue item q = (q', Ret tt) -> reachable q'
| reach_dump q l q' : reachable q -> DumpQueue q = (q', Ret l) -> reachable q'
| reach_pop q sel n l q' : reachable q -> PopItem_where sel n q = (q', Ret l) -> reachable q'.

(** Keys in the order [PopItem] leaves them: none is less than one before it. *)
Definition keys_sorted (ks : list string) : Prop :=
  StronglySorted (fun a b => key_less b a = false) ks.

(** [AddItem] of every element of a list, as the service does with requests
    loaded from disk and with on-hold requests at shutdown. *)
Definition AddAll `{I : Indexed A} (items : list A) : M (ItemQueue A) unit := forM items AddItem.

(** ** Lemmas *)

Section Lemmas.
Context {A : Type} `{I : Indexed A} `{LI : !IndexedLaws A I} `{R : GoRuntime} `{LR : !GoRuntimeLaws R}.
Implicit Types (q : ItemQueue A) (a : A) (k : string).

Lemma AddItem_ret a k q :
  Index a = Ret k -> AddItem a q = (mkQueue (<[k := a]> (pending q)) (onHold q), Ret tt).
Proof. intros H. unfold AddItem. unfold_go. by rewrite H. Qed.

Lemma AddItem_inv a q q' u : AddItem a q = (q', Ret u) ->
  exists k, Index a = Ret k /\ q' = mkQueue (<[k := a]> (pending q)) (onHold q).
Proof. unfold AddItem. unfold_go. intros H. repeat case_match; simplify_eq/=. eauto. Qed.

Lemma key_less_value (x y : string) v w : index_value x = Some v -> index_value y = Some w ->
  key_less x y = (v <? w).
Proof. unfold key_less. by intros -> ->. Qed.

(** ** The order of the keys *)

Lemma sort_keys_sorted ks :
  Forall (fun k => is_Some (index_value k)) ks -> keys_sorted (sort_slice key_less ks).
Proof.
  intros Hn. rewrite Forall_forall in Hn. apply sort_slice_sorted.
  - intros x y _ _. unfold key_less. destruct (index_value x), (index_value y); lia.
  - intros x y z _ [v Hy]%Hn _. unfold key_less. rewrite Hy.
    destruct (index_value x), (index_value z); lia.
Qed.

Lemma selected_keys_spec sel q k :
  k ∈ selected_keys sel q <-> exists a, pending q !! k = Some a /\ sel a = true.
Proof.
  unfold selected_keys. rewrite list_elem_of_In, in_map_iff. split.
  - intros ([k' a] & <- & Hin%filter_In). destruct Hin as [Hin Hs].
    rewrite <- list_elem_of_In, map_range_perm, elem_of_map_to_list in Hin. eauto.
  - intros (a & Hk & Hs). exists (k, a). split; [done|]. apply filter_In. split; [|done].
    by rewrite <- list_elem_of_In, map_range_perm, elem_of_map_to_list.
Qed.

Lemma selected_keys_NoDup sel q : NoDup (selected_keys sel q).
Proof.
  unfold selected_keys.
  assert (NoDup (map fst (map_range (pending q)))) as Hnd.
  { rewrite map_range_perm. apply NoDup_fst_map_to_list. }
  revert Hnd. generalize (map_range (pending q)). intros l. induction l as [|[k a] l IH]; cbn; [done|].
  intros [Hk Hnd]%NoDup_cons. destruct (sel a); cbn; [|by apply IH].
  constructor; [|by apply IH]. rewrite list_elem_of_In, in_map_iff in *.
  intros (e & He & Hin%filter_In). apply Hk. exists e. tauto.
Qed.

Lemma selected_numeric sel q : queue_wf q ->
  Forall (fun k => is_Some (index_value k)) (selected_keys sel q).
Proof.
  intros Hwf. apply Forall_forall. intros k (a & Hk & _)%selected_keys_spec.
  by eapply Index_numeric, Hwf.
Qed.

Lemma keys_comparable_numeric ks :
  Forall (fun k => is_Some (index_value k)) ks -> keys_comparable ks = true.
Proof.
  intros H. unfold keys_comparable. apply orb_true_intro. right. apply forallb_forall.
  intros k Hk. apply bool_decide_eq_true. rewrite Forall_forall in H. by apply H, list_elem_of_In.
Qed.

(** ** [LoadAndDelete] over a list of keys *)

Definition delete_keys (ks : list string) (m : gmap string A) : gmap string A :=
  fold_left (fun m k => delete k m) ks m.

Lemma delete_keys_lookup ks m k :
  delete_keys ks m !! k = if bool_decide (k ∈ ks) then None else m !! k.
Proof.
  unfold delete_keys. revert m. induction ks as [|j ks IH]; intros m; cbn [fold_left].
  { rewrite bool_decide_false; [done|]. apply not_elem_of_nil. }
  rewrite IH. destruct (decide (k = j)) as [->|Hne].
  - rewrite lookup_delete_eq, (bool_decide_true (j ∈ j :: ks)) by constructor. by case_bool_decide.
  - rewrite lookup_delete_ne by done. erewrite bool_decide_ext; [done|].
    rewrite elem_of_cons. tauto.
Qed.

Lemma load_all_ret ks q :
  NoDup ks -> Forall (fun k => is_Some (pending q !! k)) ks ->
  exists items, Forall2 (fun k a => pending q !! k = Some a) ks items /\
    load_all ks q = (mkQueue (delete_keys ks (pending q)) (onHold q), Ret items).
Proof.
  revert q. induction ks as [|k ks IH]; intros q Hnd Hks.
  { exists []. split; [constructor|]. by destruct q. }
  apply NoDup_cons in Hnd as [Hk Hnd]. apply Forall_cons in Hks as [[a Ha] Hks].
  destruct (IH (mkQueue (delete k (pending q)) (onHold q)) Hnd) as (items & Hf & Hl).
  { apply Forall_forall. intros j Hj. cbn. rewrite lookup_delete_ne by set_solver.
    rewrite Forall_forall in Hks. by apply Hks. }
  exists (a :: items). split.
  - constructor; [done|]. clear -Hf Hk. induction Hf as [|j b ks items Hj _ IH]; [constructor|].
    constructor; [|apply IH; set_solver]. cbn in Hj. rewrite lookup_delete_ne in Hj; set_solver.
  - cbn [load_all]. unfold load_and_delete. unfold_go. rewrite Ha. unfold_go. by rewrite Hl.
Qed.

Lemma Forall_selected sel q ks : ks ⊆ selected_keys sel q ->
  Forall (fun k => is_Some (pending q !! k)) ks.
Proof.
  intros H. apply Forall_forall. intros k Hk. apply H, selected_keys_spec in Hk as (a & Hk & _). eauto.
Qed.

(** What [PopItem] does on a well-formed queue: the selected keys, sorted,
    are cut in two, and the first part leaves the map. *)
Lemma PopItem_spec sel n q : queue_wf q -> 0 <= n ->
  exists ks rest items,
    ks ++ rest ≡ₚ selected_keys sel q /\ keys_sorted (ks ++ rest) /\
    Z.of_nat (length ks) = Z.min n (Z.of_nat (length (selected_keys sel q))) /\
    Forall2 (fun k a => pending q !! k = Some a) ks items /\
    PopItem_where sel n q =
      (mkQueue (delete_keys ks (pending q)) (onHold q),
       Ret (if (length (selected_keys sel q) =? 0)%nat then None else Some items)).
Proof.
  intros Hwf Hn. pose proof (selected_numeric sel q Hwf) as Hnum.
  set (all := sort_slice key_less (selected_keys sel q)).
  assert (all ≡ₚ selected_keys sel q) as Hperm by apply sort_slice_perm.
  assert (length all = length (selected_keys sel q)) as Hlen by (by rewrite Hperm).
  set (num := Z.to_nat (if Z.of_nat (length all) <? n then Z.of_nat (length all) else n)).
  assert (num <= length all)%nat as Hnum_le.
  { unfold num. destruct (Z.ltb_spec (Z.of_nat (length all)) n); lia. }
  assert (NoDup all) as Hnd by (rewrite Hperm; apply selected_keys_NoDup).
  destruct (load_all_ret (take num all) q) as (items & Hf & Hl).
  { rewrite <- (take_drop num all) in Hnd. by apply NoDup_app in Hnd as (? & _). }
  { apply (Forall_selected sel). intros k Hk. rewrite <- Hperm.
    rewrite <- (take_drop num all). apply elem_of_app. by left. }
  exists (take num all), (drop num all), items. rewrite take_drop.
  do 2 (split; [done || by apply sort_keys_sorted|]).
  split.
  { rewrite length_take. unfold num. rewrite Hlen.
    destruct (Z.ltb_spec (Z.of_nat (length (selected_keys sel q))) n); lia. }
  split; [done|].
  unfold PopItem_where. unfold_go. rewrite (keys_comparable_numeric _ Hnum). cbn [negb].
  fold all. rewrite <- Hlen. destruct (Z.eqb_spec (Z.of_nat (length all)) 0) as [H0|H0].
  - assert (all = []) as E by (apply length_zero_iff_nil; lia). rewrite E in *.
    rewrite take_nil in *. cbn. by destruct q.
  - rewrite (proj2 (Nat.eqb_neq _ _)) by lia.
    rewrite (proj2 (Z.ltb_ge _ 0)) by (destruct (_ <? _); lia).
    fold num. by rewrite Hl.
Qed.

(** ** Preservation of the invariant *)

Lemma wf_empty : queue_wf (@empty_queue A).
Proof.
  intros k a H. change ((∅ : gmap string A) !! k = Some a) in H. by rewrite lookup_empty in H.
Qed.

Lemma wf_insert q k a h : queue_wf q -> Index a = Ret k -> queue_wf (mkQueue (<[k := a]> (pending q)) h).
Proof.
  intros Hwf Hk k' a' H. cbn in H. apply lookup_insert_Some in H as [[<- <-]|[_ H]]; [done|]. by apply Hwf.
Qed.

Lemma wf_delete_keys q ks h : queue_wf q -> queue_wf (mkQueue (delete_keys ks (pending q)) h).
Proof.
  intros Hwf k a H. cbn in H. rewrite delete_keys_lookup in H. case_bool_decide; [done|]. by apply Hwf.
Qed.

Lemma wf_hold q h : queue_wf q -> queue_wf (mkQueue (pending q) h).
Proof. done. Qed.

(** A negative count panics unless the queue has nothing to pop. *)
Lemma PopItem_negative sel n q q' l : queue_wf q -> n < 0 ->
  PopItem_where sel n q = (q', Ret l) -> q' = q.
Proof.
  intros Hwf Hn. unfold PopItem_where. unfold_go.
  rewrite (keys_comparable_numeric _ (selected_numeric sel q Hwf)). cbn [negb].
  set (all := sort_slice _ _).
  destruct (Z.eqb_spec (Z.of_nat (length all)) 0); [by intros; simplify_eq|].
  destruct (Z.ltb_spec (Z.of_nat (length all)) n); [lia|].
  rewrite (proj2 (Z.ltb_lt n 0)) by done. done.
Qed.

Lemma wf_PopItem sel n q q' l : queue_wf q -> PopItem_where sel n q = (q', Ret l) -> queue_wf q'.
Proof.
  intros Hwf H. destruct (Z.ltb_spec n 0) as [Hn|Hn].
  - by apply PopItem_negative in H as ->.
  - destruct (PopItem_spec sel n q Hwf Hn) as (ks & rest & items & _ & _ & _ & _ & E).
    rewrite E in H. simplify_eq. by apply wf_delete_keys.
Qed.

Lemma DumpQueue_ret q : DumpQueue q = (mkQueue (pending q) [], Ret (onHold q)).
Proof. unfold DumpQueue. unfold_go. destruct q as [p [|x h]]; done. Qed.

Lemma reachable_wf q : reachable q -> queue_wf q.
Proof.
  induction 1 as [|q req q' _ IH H|q item q' _ IH H|q l q' _ IH H|q sel n l q' _ IH H].
  - apply wf_empty.
  - apply AddItem_inv in H as (k & Hk & ->). by apply wf_insert.
  - unfold AddOnHoldQueue in H. unfold_go. simplify_eq. by apply wf_hold.
  - rewrite DumpQueue_ret in H. simplify_eq. by apply wf_hold.
  - by eapply wf_PopItem.
Qed.
End Lemmas.

#[export] Hint Resolve wf_empty wf_insert wf_delete_keys wf_hold : bridge.

(** ** The two request types obey the interface *)

Lemma SetString10_concat_some h n : 0 <= n -> is_Some (SetString10 (FormatInt h +:+ digits n)).
Proof.
  intros Hn. destruct (Z.ltb_spec h 0) as [Hh|Hh].
  - unfold FormatInt. rewrite (proj2 (Z.ltb_lt h 0)) by done.
    change (String "-" (digits (- h)) +:+ digits n) with (String "-" (digits (- h) +:+ digits n)).
    cbn [SetString10]. destruct (digits_cons (- h)) as (c & s & d & Hs & Hd).
    assert (unsigned_value (digits (- h) +:+ digits n) = Some (- h * 10 ^ ndigits n + n)) as ->; [|done].
    unfold unsigned_value. rewrite Hs. change (String c s +:+ digits n) with (String c (s +:+ digits n)).
    cbv iota. change (String c (s +:+ digits n)) with (String c s +:+ digits n). rewrite <- Hs.
    rewrite (digits_value_app _ _ _ _ (digits_value_gen (- h) 0 ltac:(lia))).
    rewrite digits_value_gen by done. f_equal; lia.
  - rewrite SetString10_concat by done. done.
Qed.

Section Instances.
Context `{E : Eth} `{L : !EthLaws E}.

Lemma key_numeric h l : is_Some (index_value (FormatInt h +:+ FormatInt (Hash_Big (Keccak256Hash l)))).
Proof.
  unfold index_value. rewrite (FormatInt_digits (Hash_Big _)) by apply Hash_Big_range.
  apply SetString10_concat_some, Hash_Big_range.
Qed.

#[export] Instance OutBoundReq_IndexedLaws : IndexedLaws OutBoundReq OutBoundReq_Indexed.
Proof.
  split. intros o k H. cbn in H. unfold OutBoundReq_Index in H.
  apply obind_ret_inv in H as (data & _ & H). simplify_eq. apply key_numeric.
Qed.

#[export] Instance InBoundReq_IndexedLaws : IndexedLaws InBoundReq InBoundReq_Indexed.
Proof. split. intros i k H. cbn in H. simplify_eq. apply key_numeric. Qed.
End Instances.

Section MoreLemmas.
Context {A : Type} `{I : Indexed A} `{LI : !IndexedLaws A I} `{R : GoRuntime} `{LR : !GoRuntimeLaws R}.
Implicit Types (q : ItemQueue A).

Definition insert_all (kvs : list (string * A)) (m : gmap string A) : gmap string A :=
  fold_left (fun m kv => <[kv.1 := kv.2]> m) kvs m.

Lemma AddAll_ret ks items q :
  Forall2 (fun k a => Index a = Ret k) ks items ->
  AddAll items q = (mkQueue (insert_all (zip ks items) (pending q)) (onHold q), Ret tt).
Proof.
  intros H. revert q. induction H as [|k a ks items Hk _ IH]; intros q; [by destruct q|].
  unfold AddAll in *. cbn [forM]. unfold bind at 1. rewrite (AddItem_ret _ _ q Hk), IH. done.
Qed.

Lemma insert_all_lookup kvs m k : NoDup kvs.*1 ->
  insert_all kvs m !! k = match list_to_map (M := gmap string A) kvs !! k with Some a => Some a | None => m !! k end.
Proof.
  revert m. induction kvs as [|[j a] kvs IH]; intros m Hnd; [done|].
  apply NoDup_cons in Hnd as [Hj Hnd]. unfold insert_all in *.
  cbn [fold_left fst snd]. rewrite list_to_map_cons, (IH _ Hnd). destruct (decide (k = j)) as [->|Hne].
  - rewrite !lookup_insert_eq. by rewrite not_elem_of_list_to_map_1 by exact Hj.
  - rewrite !lookup_insert_ne by done. done.
Qed.

Lemma wf_popped_index q ks items : queue_wf q ->
  Forall2 (fun k a => pending q !! k = Some a) ks items -> Forall2 (fun k a => Index a = Ret k) ks items.
Proof. intros Hwf H. eapply Forall2_impl; [exact H|]. intros k a Hk. by apply Hwf. Qed.

Lemma zip_lookup_spec ks items (m : gmap string A) k :
  NoDup ks -> Forall2 (fun k a => m !! k = Some a) ks items ->
  list_to_map (M := gmap string A) (zip ks items) !! k = (if bool_decide (k ∈ ks) then m !! k else None).
Proof.
  intros Hnd H. induction H as [|j a ks items Hj _ IH]; [done|].
  apply NoDup_cons in Hnd as [Hj' Hnd].
  change (zip (j :: ks) (a :: items)) with ((j, a) :: zip ks items). rewrite list_to_map_cons.
  destruct (decide (k = j)) as [->|Hne].
  - rewrite lookup_insert_eq, bool_decide_true by constructor. done.
  - rewrite lookup_insert_ne, (IH Hnd) by done. erewrite bool_decide_ext; [done|].
    rewrite elem_of_cons. tauto.
Qed.

Lemma delete_keys_perm ks items (m : gmap string A) :
  NoDup ks -> Forall2 (fun k a => m !! k = Some a) ks items ->
  map_to_list m ≡ₚ zip ks items ++ map_to_list (delete_keys ks m).
Proof.
  intros Hnd H. revert m H. revert items. induction Hnd as [|k ks Hk Hnd IH]; intros items m H.
  { by inversion H. }
  inversion H as [|? a ? items' Ha Hf]; subst. cbn [zip zip_with app].
  rewrite <- (map_to_list_delete m k a Ha). apply Permutation_skip.
  unfold delete_keys. cbn [fold_left]. apply IH.
  clear -Hf Hk. induction Hf as [|j b ks items Hj _ IHf]; [constructor|].
  apply not_elem_of_cons in Hk as [Hne Hk].
  constructor; [|by apply IHf]. by rewrite lookup_delete_ne.
Qed.

Lemma zip_fst (ks : list string) (items : list A) : length ks = length items -> (zip ks items).*1 = ks.
Proof. intros. apply fst_zip. lia. Qed.

Lemma map_range_nil q : map_range (pending q) = [] <-> pending q = ∅.
Proof.
  pose proof (map_range_perm (pending q)) as Hp. split; intros H; rewrite H in Hp.
  - apply map_to_list_empty_iff. symmetry. by apply Permutation_nil_l.
  - rewrite H. rewrite map_to_list_empty in Hp. by apply Permutation_nil_r.
Qed.
Lemma AddAll_reachable items q q' :
  reachable q -> AddAll items q = (q', Ret tt) -> reachable q'.
Proof.
  revert q. induction items as [|a items IH]; intros q Hq H.
  - unfold AddAll in H. cbn in H. unfold ret in H. injection H as <-. done.
  - unfold AddAll in *. cbn [forM] in H. unfold bind in H.
    destruct (AddItem a q) as [q1 [[]|e|]] eqn:E; simplify_eq. eapply IH; [|done]. by eapply reach_add.
Qed.
End MoreLemmas.

(** ** Properties *)

Section Properties.
Context {A : Type} `{I : Indexed A} `{LI : !IndexedLaws A I} `{R : GoRuntime} `{LR : !GoRuntimeLaws R}.
Implicit Types (q : ItemQueue A).

(** C20 (queue invariant). In every state the operations reach, each request
    is stored under its own index and popping any number of requests
    returns: neither "should never fail" nor a nil comparison can happen. *)
Theorem queue_invariant q :
  reachable q ->
  queue_wf q /\ (forall sel n, 0 <= n -> exists q' l, PopItem_where sel n q = (q', Ret l)) /\
  (IsEmpty q = true <-> Size q = 0).
Proof.
  intros Hq. pose proof (reachable_wf q Hq) as Hwf. split; [done|]. split.
  - intros sel n Hn. destruct (PopItem_spec sel n q Hwf Hn) as (? & ? & ? & _ & _ & _ & _ & E). eauto.
  - unfold IsEmpty, Size. destruct (map_range (pending q)); cbn; split; (done || lia).
Qed.

(** C21 (popping conserves requests). What [PopItem] returns and what it
    leaves is what there was: the popped requests are entries of the map,
    they were all selected, at most [n] of them and as many as there are up
    to [n], and every other entry and the on-hold queue are untouched. *)
Theorem PopItem_conserves sel n q q' l :
  queue_wf q -> 0 <= n -> PopItem_where sel n q = (q', Ret l) ->
  exists ks items,
    l = (if (length (selected_keys sel q) =? 0)%nat then None else Some items) /\
    map_to_list (pending q) ≡ₚ zip ks items ++ map_to_list (pending q') /\
    Forall (fun a => sel a = true) items /\
    Z.of_nat (length items) = Z.min n (Z.of_nat (length (selected_keys sel q))) /\
    onHold q' = onHold q.
Proof.
  intros Hwf Hn H. destruct (PopItem_spec sel n q Hwf Hn) as (ks & rest & items & Hp & _ & Hlen & Hf & E).
  rewrite E in H. simplify_eq. exists ks, items. cbn [onHold pending].
  assert (NoDup ks) as Hnd.
  { pose proof (selected_keys_NoDup sel q) as Hnd. rewrite <- Hp in Hnd. by apply NoDup_app in Hnd as (? & _). }
  pose proof (Forall2_length _ _ _ Hf) as Hl.
  split; [done|]. split; [by apply delete_keys_perm|]. split; [|by rewrite <- Hl].
  apply Forall_forall. intros a Ha. apply list_elem_of_lookup in Ha as [i Hi].
  destruct (Forall2_lookup_r _ _ _ _ _ Hf Hi) as (k & Hk & Hka).
  assert (k ∈ selected_keys sel q) as (b & Hb & Hs)%selected_keys_spec.
  { rewrite <- Hp. apply elem_of_app. left. by eapply list_elem_of_lookup_2. }
  by simplify_eq.
Qed.

(** Fact (popping takes the smallest indices). The popped requests come in
    increasing order of their numeric index, and every selected request
    that stays behind has an index at least as large as each popped one. *)
Theorem PopItem_least sel n q q' items :
  queue_wf q -> 0 <= n -> PopItem_where sel n q = (q', Ret (Some items)) ->
  exists ks, Forall2 (fun k a => Index a = Ret k) ks items /\ keys_sorted ks /\
    forall k k' a, k ∈ ks -> pending q' !! k' = Some a -> sel a = true -> key_less k' k = false.
Proof.
  intros Hwf Hn H. destruct (PopItem_spec sel n q Hwf Hn) as (ks & rest & its & Hp & Hs & _ & Hf & E).
  rewrite E in H. case_match; simplify_eq. exists ks.
  apply StronglySorted_app in Hs as (Hle & Hs & _).
  split; [by eapply wf_popped_index|]. split; [done|].
  intros k k' a Hk Ha Hsel. cbn [pending] in Ha. rewrite delete_keys_lookup in Ha.
  case_bool_decide as Hin; [done|]. apply (Hle k k'); [done|].
  assert (k' ∈ ks ++ rest) as Hin'.
  { rewrite Hp. apply selected_keys_spec. eauto. }
  by apply elem_of_app in Hin' as [?|?].
Qed.

(** Fact (round trip of a failed batch). Putting the popped requests back,
    after processing has written into fields the index does not depend on,
    restores the queue with those fields updated; with no field written it
    restores the queue exactly. *)
Theorem pop_requeue (f : A -> A) sel n q q' items :
  (forall a, Index (f a) = Index a) ->
  queue_wf q -> 0 <= n -> PopItem_where sel n q = (q', Ret (Some items)) ->
  exists q'', AddAll (map f items) q' = (q'', Ret tt) /\ onHold q'' = onHold q /\
    (forall k, pending q'' !! k = pending q !! k \/
      (exists a, a ∈ items /\ pending q !! k = Some a /\ pending q'' !! k = Some (f a))) /\
    ((forall a, f a = a) -> q'' = q).
Proof.
  intros Hfi Hwf Hn H. destruct (PopItem_spec sel n q Hwf Hn) as (ks & rest & its & Hp & Hs & _ & Hf & E).
  rewrite E in H. case_match; simplify_eq.
  assert (NoDup ks) as Hnd.
  { pose proof (selected_keys_NoDup sel q) as Hnd. rewrite <- Hp in Hnd. by apply NoDup_app in Hnd as (? & _). }
  assert (Forall2 (fun k a => Index a = Ret k) ks (map f items)) as Hix.
  { apply Forall2_fmap_r. eapply Forall2_impl; [exact Hf|]. intros k a Hk. cbn. rewrite Hfi. by apply Hwf. }
  eexists. split; [by apply AddAll_ret|]. cbn [onHold pending]. split; [done|].
  assert (forall k, insert_all (zip ks (map f items)) (delete_keys ks (pending q)) !! k
    = if bool_decide (k ∈ ks) then f <$> pending q !! k else pending q !! k) as Hlk.
  { intros k. rewrite insert_all_lookup.
    2: { rewrite zip_fst; [done|]. by eapply Forall2_length. }
    rewrite (zip_lookup_spec ks (map f items) (f <$> pending q)).
    - rewrite lookup_fmap, delete_keys_lookup. case_bool_decide as Hk; [|done].
      destruct (pending q !! k) eqn:Ek; [done|].
      apply list_elem_of_lookup in Hk as [i Hi].
      destruct (Forall2_lookup_l _ _ _ _ _ Hf Hi) as (b & _ & Hb). congruence.
    - done.
    - apply Forall2_fmap_r. eapply Forall2_impl; [exact Hf|]. intros j a Hj. cbn.
      by rewrite lookup_fmap, Hj. }
  split.
  - intros k. rewrite Hlk. case_bool_decide as Hk; [|by left].
    apply list_elem_of_lookup in Hk as [i Hi].
    destruct (Forall2_lookup_l _ _ _ _ _ Hf Hi) as (a & Ha & Hka).
    right. exists a. split; [by eapply list_elem_of_lookup_2|]. by rewrite Hka.
  - intros Hid. destruct q as [p h]. cbn [pending onHold] in *. f_equal. apply map_eq. intros k.
    rewrite Hlk. case_bool_decide; [|done]. destruct (p !! k); cbn; by rewrite ?Hid.
Qed.
End Properties.

(** ** Witnesses *)

Section Witnesses.
#[local] Existing Instance eth_ref.
#[local] Existing Instance go_runtime_ref.

#[local] Definition item (h : Z) : InBoundReq :=
  NewAccountInboundReq [] [] (mkCoin "abnb" h) [byte_of (100 + h)] h.
#[local] Definition items3 : list InBoundReq := [item 12; item 9; item 11].
#[local] Definition queue3 : InboundQueue.t := (AddAll items3 empty_queue).1.

#[local] Lemma queue3_reachable : reachable queue3.
Proof.
  apply (AddAll_reachable items3 empty_queue); [apply reach_new|]. vm_compute. reflexivity.
Qed.

Lemma queue_invariant_witness : reachable queue3 /\ queue_wf queue3 /\ Size queue3 = 3.
Proof.
  split; [exact queue3_reachable|].
  destruct (queue_invariant queue3 queue3_reachable) as (Hwf & _ & _).
  split; [exact Hwf|vm_compute; reflexivity].
Defined.

Lemma PopItem_conserves_witness :
  InboundQueue.PopItem 2 queue3 = ((InboundQueue.PopItem 2 queue3).1, Ret (Some [item 9; item 11])) /\
  exists ks items, Some [item 9; item 11] =
    (if (length (selected_keys (fun _ => true) queue3) =? 0)%nat then None else Some items) /\
    map_to_list (pending queue3) ≡ₚ zip ks items ++ map_to_list (pending (InboundQueue.PopItem 2 queue3).1).
Proof.
  split; [vm_compute; reflexivity|].
  destruct (PopItem_conserves (fun _ => true) 2 queue3 (InboundQueue.PopItem 2 queue3).1
              (Some [item 9; item 11])) as (ks & items & H1 & H2 & _).
  - apply reachable_wf, queue3_reachable.
  - lia.
  - vm_compute. reflexivity.
  - exists ks, items. split; [exact H1|exact H2].
Defined.

Lemma PopItem_least_witness :
  exists ks, Forall2 (fun k a => Index a = Ret k) ks [item 9; item 11] /\ keys_sorted ks.
Proof.
  destruct (PopItem_least (fun _ => true) 2 queue3 (InboundQueue.PopItem 2 queue3).1
              [item 9; item 11]) as (ks & H1 & H2 & _).
  - apply reachable_wf, queue3_reachable.
  - lia.
  - vm_compute. reflexivity.
  - exists ks. split; [exact H1|exact H2].
Defined.

Lemma pop_requeue_witness :
  exists q'', AddAll (map (SetAccountInfo 7 1 [] "pk") [item 9; item 11])
    (InboundQueue.PopItem 2 queue3).1 = (q'', Ret tt) /\ onHold q'' = [].
Proof.
  destruct (pop_requeue (SetAccountInfo 7 1 [] "pk") (fun _ => true) 2 queue3
              (InboundQueue.PopItem 2 queue3).1 [item 9; item 11]) as (q'' & H1 & H2 & _).
  - intros a. reflexivity.
  - apply reachable_wf, queue3_reachable.
  - lia.
  - vm_compute. reflexivity.
  - exists q''. split; [exact H1|exact H2].
Defined.
End Witnesses.
