(* ===== verification/TokenList.v ===== *)
(** * The token list: tokenlist/tokenlist.go and tokenlist/tokenmock.go

    The file's content is a parameter: [ReadFile] is the outcome of reading
    it and [Unmarshal] the JSON decoder.  The two [sync.Map]s are finite maps
    keyed by the lower-cased "address:chain" and "denom:chain".  What a client
    of the list may use is the class [BridgeTokenListI], as in the code. *)

From Stdlib Require Import Ascii String.
From S2P Require Import Prelude GoLib.

#[local] Open Scope string_scope.
#[local] Open Scope Z_scope.
#[local] Open Scope go_scope.

(** ** Definitions *)

Record TokenItem := mkTokenItem {
  TokenAddr : string;
  Denom : string;
  Decimals : Z;
  ChainType : string;
}.

Definition zero_item : TokenItem := mkTokenItem "" "" 0 "".

Record TokenList := mkTokenList {
  oppyTokenList : gmap string TokenItem;
  pubTokenList : gmap string TokenItem;
  updateGap : Z;
}.

Class BridgeTokenListI (L : Type) := {
  GetTokenInfoByDenomAndChainType : L -> string -> string -> TokenItem * bool;
  GetTokenInfoByAddressAndChainType : L -> string -> string -> TokenItem * bool;
  GetAllExistedTokenAddresses : L -> string -> outcome (list string);
}.

(** What the two lookups promise their clients. *)
Class BridgeTokenListLaws (L : Type) (B : BridgeTokenListI L) : Prop := {
  ByDenom_lower : forall l d d' c c', ToLower d = ToLower d' -> ToLower c = ToLower c' ->
    GetTokenInfoByDenomAndChainType l d c = GetTokenInfoByDenomAndChainType l d' c';
  ByAddress_lower : forall l a a' c c', ToLower a = ToLower a' -> ToLower c = ToLower c' ->
    GetTokenInfoByAddressAndChainType l a c = GetTokenInfoByAddressAndChainType l a' c';
}.

(** The key both maps use. *)
Definition token_key (name chainType : string) : string := ToLower (name ++ ":" ++ chainType).

(** One turn of the loading loop: the two stores. *)
Definition load_item (maps : gmap string TokenItem * gmap string TokenItem) (item : TokenItem)
    : gmap string TokenItem * gmap string TokenItem :=
  (<[token_key (TokenAddr item) (ChainType item) := item]> maps.1,
   <[token_key (Denom item) (ChainType item) := item]> maps.2).

Definition load_items (items : list TokenItem) : gmap string TokenItem * gmap string TokenItem :=
  fold_left load_item items (∅, ∅).

Section Operations.
Context (ReadFile : outcome bytes) (Unmarshal : bytes -> outcome (list TokenItem)).

Definition NewTokenList (gap : Z) : outcome TokenList :=
  let? dat := ReadFile in
  match Unmarshal dat with
  | Panic => Panic
  | Fail _ => Fail "fail to process the tokenlist.json"
  | Ret tokensItems =>
      if (length tokensItems =? 0)%nat then Fail "tokenlist.json is empty"
      else let '(pub, oppy) := load_items tokensItems in Ret (mkTokenList oppy pub gap)
  end.

Definition UpdateTokenList (currentBlockHeight : Z) : M TokenList unit :=
  let! tl := get in
  if updateGap tl =? 0 then panic else
  if negb (Z.rem currentBlockHeight (updateGap tl) =? 0) then ret tt else
  let! dat := lift ReadFile in
  match Unmarshal dat with
  | Panic => panic
  | Fail _ => fail "fail to process the tokenlist.json"
  | Ret tokensItems =>
      if (length tokensItems =? 0)%nat then fail "tokenlist.json is empty"
      else let '(pub, oppy) := load_items tokensItems in
        modify (fun tl => mkTokenList oppy pub (updateGap tl))
  end.
End Operations.

Definition ByDenom (tl : TokenList) (denom chainType : string) : TokenItem * bool :=
  match oppyTokenList tl !! token_key denom chainType with
  | Some item => (item, true)
  | None => (zero_item, false)
  end.

Definition ByAddress (tl : TokenList) (addr chainType : string) : TokenItem * bool :=
  match pubTokenList tl !! token_key addr chainType with
  | Some item => (item, true)
  | None => (zero_item, false)
  end.

(** The body of the [Range] callback on one key: [items[1]] is an index that
    can be out of range, and then panics. *)
Definition existed_step (chainType : string) (acc : outcome (list string)) (key : string)
    : outcome (list string) :=
  let? tokenAddresses := acc in
  let items := Split ":" key in
  match items !! 1%nat, items !! 0%nat with
  | Some it1, Some it0 =>
      if bool_decide (it1 = ToLower chainType) then Ret (tokenAddresses ++ [ToLower it0])%list
      else Ret tokenAddresses
  | _, _ => Panic
  end.

Definition AllExisted `{R : GoRuntime} (pub : gmap string TokenItem) (chainType : string)
    : outcome (list string) :=
  fold_left (existed_step chainType) (map fst (map_range pub)) (Ret []).

#[export] Instance TokenList_iface `{R : GoRuntime} : BridgeTokenListI TokenList := {
  GetTokenInfoByDenomAndChainType := ByDenom;
  GetTokenInfoByAddressAndChainType := ByAddress;
  GetAllExistedTokenAddresses := fun tl => AllExisted (pubTokenList tl);
}.

(** tokenlist/tokenmock.go: the list used where no file is read. *)
Module MockTokenList.
Record MockTokenList := mkMock {
  joltTokenList : gmap string string;
  mock_pubTokenList : gmap string string;
}.

Definition MockByAddress (mt : MockTokenList) (tokenAddr chainType : string) : TokenItem * bool :=
  let tokenDenom := mock_pubTokenList mt !! token_key tokenAddr chainType in
  (mkTokenItem (ToLower tokenAddr) (ToLower (default "" tokenDenom)) 18 chainType,
   bool_decide (is_Some tokenDenom)).

Definition MockByDenom (mt : MockTokenList) (tokenDenom chainType : string) : TokenItem * bool :=
  let tokenAddr := joltTokenList mt !! token_key tokenDenom chainType in
  (mkTokenItem (ToLower (default "" tokenAddr)) (ToLower tokenDenom) 18 chainType,
   bool_decide (is_Some tokenAddr)).

(** The slices are indexed in step: a shorter second or third slice panics. *)
Fixpoint create_loop (tokenAddr tokenDenom chainType : list string) (mt : MockTokenList)
    : outcome MockTokenList :=
  match tokenAddr, tokenDenom, chainType with
  | [], _, _ => Ret mt
  | el :: tokenAddr, d :: tokenDenom, c :: chainType =>
      create_loop tokenAddr tokenDenom chainType
        (mkMock (<[token_key d c := ToLower el]> (joltTokenList mt))
                (<[token_key el c := ToLower d]> (mock_pubTokenList mt)))
  | _, _, _ => Panic
  end.

Definition CreateMockTokenlist (tokenAddr tokenDenom chainType : list string)
    : outcome MockTokenList :=
  create_loop tokenAddr tokenDenom chainType (mkMock ∅ ∅).
End MockTokenList.

(** Reference description of a lookup: the last item of the file whose key
    is the one asked for. *)
Fixpoint last_with {A} (p : A -> bool) (l : list A) : option A :=
  match l with
  | [] => None
  | x :: l => match last_with p l with
      | Some y => Some y
      | None => if p x then Some x else None
      end
  end.

(** ** Lemmas *)

Lemma load_items_app items (pub oppy : gmap string TokenItem) :
  fold_left load_item items (pub, oppy) =
  (fold_left (fun (m : gmap string TokenItem) it => <[token_key (TokenAddr it) (ChainType it) := it]> m) items pub,
   fold_left (fun (m : gmap string TokenItem) it => <[token_key (Denom it) (ChainType it) := it]> m) items oppy).
Proof. revert pub oppy. induction items as [|it items IH]; intros pub oppy; [done|]. apply IH. Qed.

Lemma last_write {A} (key : A -> string) (items : list A) (m : gmap string A) k :
  fold_left (fun (m : gmap string A) it => <[key it := it]> m) items m !! k =
  match last_with (fun it => bool_decide (key it = k)) items with
  | Some it => Some it
  | None => m !! k
  end.
Proof.
  revert m. induction items as [|it items IH]; intros m; [done|]. cbn [fold_left last_with].
  rewrite IH. destruct (last_with _ items); [done|]. case_bool_decide as H.
  - subst. by rewrite lookup_insert_eq.
  - by rewrite lookup_insert_ne.
Qed.

Lemma load_items_pub items k :
  (load_items items).1 !! k =
  last_with (fun it => bool_decide (token_key (TokenAddr it) (ChainType it) = k)) items.
Proof.
  unfold load_items. rewrite load_items_app. cbn [fst].
  rewrite (last_write (fun it => token_key (TokenAddr it) (ChainType it))).
  rewrite lookup_empty. by destruct (last_with _ _).
Qed.

Lemma load_items_oppy items k :
  (load_items items).2 !! k =
  last_with (fun it => bool_decide (token_key (Denom it) (ChainType it) = k)) items.
Proof.
  unfold load_items. rewrite load_items_app. cbn [snd].
  rewrite (last_write (fun it => token_key (Denom it) (ChainType it))).
  rewrite lookup_empty. by destruct (last_with _ _).
Qed.

Lemma last_with_some {A} (p : A -> bool) l x : last_with p l = Some x -> x ∈ l /\ p x = true.
Proof.
  induction l as [|y l IH]; [done|]. cbn. destruct (last_with p l) eqn:E.
  - intros [= ->]. destruct (IH eq_refl). split; [by right|done].
  - destruct (p y) eqn:Ep; [|done]. intros [= ->]. split; [by left|done].
Qed.

Lemma last_with_none {A} (p : A -> bool) l : last_with p l = None <-> forall x, x ∈ l -> p x = false.
Proof.
  induction l as [|y l IH]; cbn.
  - split; [|done]. intros _ x Hx. by apply not_elem_of_nil in Hx.
  - split.
    + destruct (last_with p l) eqn:E; [done|]. destruct (p y) eqn:Ep; [done|]. intros _ x Hx.
      apply elem_of_cons in Hx as [->|Hx]; [done|]. by apply IH.
    + intros H. assert (last_with p l = None) as ->.
      { apply IH. intros x Hx. apply H. by right. }
      rewrite H; [done|]. by left.
Qed.

Lemma token_key_app n c : token_key n c = ToLower n ++ String ":" (ToLower c).
Proof. unfold token_key. rewrite !ToLower_app. reflexivity. Qed.

Lemma token_key_inj n n' c c' :
  has_char ":" n = false -> has_char ":" n' = false ->
  token_key n c = token_key n' c' -> ToLower n = ToLower n' /\ ToLower c = ToLower c'.
Proof.
  intros H H' E. rewrite !token_key_app in E.
  apply sep_inj in E; [done| |]; by rewrite has_char_colon_lower.
Qed.

Lemma token_key_lower n n' c c' :
  ToLower n = ToLower n' -> ToLower c = ToLower c' -> token_key n c = token_key n' c'.
Proof. intros H H'. by rewrite !token_key_app, H, H'. Qed.

#[export] Instance TokenList_laws `{R : GoRuntime} : BridgeTokenListLaws TokenList TokenList_iface.
Proof.
  split; intros l a a' c c' H H'; cbn; unfold ByDenom, ByAddress; by rewrite (token_key_lower _ _ _ _ H H').
Qed.

(** A key of the pub map splits at its only separator. *)
Lemma existed_step_key chain acc a c :
  has_char ":" a = false -> has_char ":" c = false ->
  existed_step chain (Ret acc) (token_key a c) =
  Ret (acc ++ if bool_decide (ToLower c = ToLower chain) then [ToLower a] else [])%list.
Proof.
  intros Ha Hc. unfold existed_step. cbn [obind]. rewrite token_key_app.
  rewrite Split_prefix, Split_none by (by rewrite has_char_colon_lower). cbn.
  case_bool_decide; [by rewrite ToLower_idem|]. by rewrite app_nil_r.
Qed.

Lemma existed_fold chain (l : list (string * string)) acc :
  Forall (fun p => has_char ":" p.1 = false /\ has_char ":" p.2 = false) l ->
  fold_left (existed_step chain) (map (fun p => token_key p.1 p.2) l) (Ret acc) =
  Ret (acc ++ map (fun p => ToLower p.1) (filter (fun p => ToLower p.2 = ToLower chain) l))%list.
Proof.
  intros H. revert acc. induction H as [|[a c] l [Ha Hc] _ IH]; intros acc.
  - cbn. by rewrite app_nil_r.
  - cbn [map fst snd]. cbn [fold_left]. rewrite existed_step_key by done. rewrite IH.
    rewrite filter_cons. cbn [snd]. case_decide as Hd.
    + rewrite bool_decide_true by done. cbn [map fst]. by rewrite <- app_assoc.
    + rewrite bool_decide_false by done. by rewrite app_nil_r.
Qed.

(** Every key of the pub map comes from an item of the file. *)
Lemma pub_keys_items items k it :
  (load_items items).1 !! k = Some it -> it ∈ items /\ k = token_key (TokenAddr it) (ChainType it).
Proof.
  rewrite load_items_pub. intros [? H]%last_with_some. by apply bool_decide_eq_true in H.
Qed.

(** The callback run over the whole map. *)
Lemma existed_of_map `{R : GoRuntime} `{LR : !GoRuntimeLaws R} (pub : gmap string TokenItem) (items : list TokenItem) chain :
  (forall k it, pub !! k = Some it -> it ∈ items /\ k = token_key (TokenAddr it) (ChainType it)) ->
  (forall it, it ∈ items -> exists it', pub !! token_key (TokenAddr it) (ChainType it) = Some it') ->
  (forall it, it ∈ items -> has_char ":" (TokenAddr it) = false /\ has_char ":" (ChainType it) = false) ->
  exists l, AllExisted pub chain = Ret l /\ NoDup l /\
    forall a, a ∈ l <-> exists it, it ∈ items /\ a = ToLower (TokenAddr it) /\
      ToLower (ChainType it) = ToLower chain.
Proof.
  intros Hpub Hin Hsep. unfold AllExisted.
  set (kvs := map_range pub). set (ps := map (fun kv : string * TokenItem => (TokenAddr kv.2, ChainType kv.2)) kvs).
  assert (forall k it, (k, it) ∈ kvs <-> pub !! k = Some it) as Hkvs.
  { intros. unfold kvs. rewrite map_range_perm. apply elem_of_map_to_list. }
  assert (map fst kvs = map (fun p => token_key p.1 p.2) ps) as Hkeys.
  { unfold ps. rewrite map_map. apply map_ext_in. intros [k it] Hk. cbn.
    apply list_elem_of_In, Hkvs, Hpub in Hk as [_ Hk]. done. }
  assert (Forall (fun p => has_char ":" p.1 = false /\ has_char ":" p.2 = false) ps) as Hps.
  { apply Forall_forall. intros p Hp. apply list_elem_of_fmap in Hp as ([k it] & -> & Hk).
    apply Hkvs, Hpub in Hk as [Hk _]. cbn. by apply Hsep. }
  rewrite Hkeys, existed_fold by done. eexists. split; [done|]. cbn [app].
  assert (NoDup (map (fun p => token_key p.1 p.2) ps)) as Hnd.
  { rewrite <- Hkeys. unfold kvs. rewrite (fmap_Permutation fst _ _ (map_range_perm pub)). apply NoDup_fst_map_to_list. }
  split.
  - clear -Hnd Hps. induction ps as [|[a c] ps IH]; [constructor|].
    cbn [map fst snd] in Hnd. apply NoDup_cons in Hnd as [Hn Hnd]. apply Forall_cons in Hps as [Hac Hps].
    rewrite filter_cons. cbn [snd]. case_decide as Hd; [|by apply IH]. cbn [map fst].
    apply NoDup_cons. split; [|by apply IH]. intros (p & Hp & Hpin)%list_elem_of_fmap. apply Hn.
    apply list_elem_of_filter in Hpin as [Hpc Hpin]. apply list_elem_of_fmap. exists p. split; [|done].
    apply token_key_lower; congruence.
  - intros a. rewrite list_elem_of_fmap. split.
    + intros (p & -> & Hp). apply list_elem_of_filter in Hp as [Hc Hp].
      apply list_elem_of_fmap in Hp as ([k it] & -> & Hk). apply Hkvs, Hpub in Hk as [Hk _]. by exists it.
    + intros (it & Hit & -> & Hc). destruct (Hin it Hit) as (it' & Hit'). pose proof (Hpub _ _ Hit') as [Hi Hk].
      apply token_key_inj in Hk as [Hka Hkc]; [|by apply Hsep..].
      exists (TokenAddr it', ChainType it'). split; [done|]. apply list_elem_of_filter. cbn. split; [congruence|].
      apply list_elem_of_fmap. exists (token_key (TokenAddr it) (ChainType it), it'). split; [done|]. by apply Hkvs.
Qed.

(** ** Properties *)

Section Properties.
Context `{R : GoRuntime} `{LR : !GoRuntimeLaws R}.
Context (ReadFile : outcome bytes) (Unmarshal : bytes -> outcome (list TokenItem)).

(** Fact (token lookups are exact). A list built from a file answers a lookup
    by denomination, or by address, with the last item of the file whose
    lower-cased name and chain are the ones asked for, and answers "not
    found" exactly when the file has no such item. *)
Theorem tokenlist_lookup gap tl dat items :
  ReadFile = Ret dat -> Unmarshal dat = Ret items ->
  Forall (fun it => has_char ":" (TokenAddr it) = false /\ has_char ":" (Denom it) = false) items ->
  NewTokenList ReadFile Unmarshal gap = Ret tl ->
  forall n c, has_char ":" n = false ->
    GetTokenInfoByDenomAndChainType tl n c =
      match last_with (fun it => EqualFold (Denom it) n && EqualFold (ChainType it) c) items with
      | Some it => (it, true) | None => (zero_item, false) end /\
    GetTokenInfoByAddressAndChainType tl n c =
      match last_with (fun it => EqualFold (TokenAddr it) n && EqualFold (ChainType it) c) items with
      | Some it => (it, true) | None => (zero_item, false) end.
Proof.
  intros HR HU Hitems H n c Hn. unfold NewTokenList in H. rewrite HR in H. cbn [obind] in H.
  rewrite HU in H. destruct (_ =? 0)%nat; [done|].
  destruct (load_items items) as [pub oppy] eqn:E. simplify_eq. cbn. unfold ByDenom, ByAddress.
  cbn [oppyTokenList pubTokenList].
  pose proof (load_items_pub items (token_key n c)) as Hp.
  pose proof (load_items_oppy items (token_key n c)) as Ho. rewrite E in Hp, Ho.
  cbn [fst snd] in Hp, Ho. rewrite Hp, Ho. clear -Hitems Hn.
  assert (forall key : TokenItem -> string,
    Forall (fun it => has_char ":" (key it) = false) items ->
    last_with (fun it => bool_decide (token_key (key it) (ChainType it) = token_key n c)) items =
    last_with (fun it => EqualFold (key it) n && EqualFold (ChainType it) c) items) as Hk.
  { clear Hitems. intros key Hkey. induction Hkey as [|it items' Hit _ IH]; [done|].
    cbn [last_with]. rewrite IH. case_match; [done|].
    assert (bool_decide (token_key (key it) (ChainType it) = token_key n c) =
      EqualFold (key it) n && EqualFold (ChainType it) c) as ->; [|done].
    apply eq_bool_prop_intro.
    unfold EqualFold. rewrite andb_True, !bool_decide_spec. split.
    - by apply token_key_inj.
    - intros [H1 H2]. by apply token_key_lower. }
  split.
  - rewrite (Hk Denom); [done|]. eapply Forall_impl; [exact Hitems|]. by intros ? [].
  - rewrite (Hk TokenAddr); [done|]. eapply Forall_impl; [exact Hitems|]. by intros ? [].
Qed.

(** Fact (reload is all or nothing). At a height that is a multiple of the
    gap the reload either replaces both maps by those a fresh [NewTokenList]
    builds from the file, or fails and leaves the list as it was; at any
    other height nothing is read. *)
Theorem UpdateTokenList_atomic tl h :
  updateGap tl <> 0 ->
  if Z.rem h (updateGap tl) =? 0 then
    match NewTokenList ReadFile Unmarshal (updateGap tl) with
    | Ret tl' => UpdateTokenList ReadFile Unmarshal h tl = (tl', Ret tt)
    | Fail e => UpdateTokenList ReadFile Unmarshal h tl = (tl, Fail e)
    | Panic => UpdateTokenList ReadFile Unmarshal h tl = (tl, Panic)
    end
  else UpdateTokenList ReadFile Unmarshal h tl = (tl, Ret tt).
Proof.
  intros Hg. unfold UpdateTokenList, NewTokenList. unfold_go.
  apply Z.eqb_neq in Hg. rewrite Hg. destruct (Z.rem h (updateGap tl) =? 0); [cbn|done].
  destruct ReadFile as [dat|e|]; [|done..]. cbn.
  destruct (Unmarshal dat) as [items|e|]; [|done..].
  destruct (length items =? 0)%nat; [done|]. by destruct (load_items items).
Qed.

(** Fact (the address list is exact). For a list built from a file whose
    addresses and chain names hold no separator, [GetAllExistedTokenAddresses]
    never panics on a malformed key and returns each lower-cased address the
    file has for the chain exactly once, and nothing else. *)
Theorem existed_addresses_exact gap tl dat items chain :
  ReadFile = Ret dat -> Unmarshal dat = Ret items ->
  Forall (fun it => has_char ":" (TokenAddr it) = false /\ has_char ":" (ChainType it) = false) items ->
  NewTokenList ReadFile Unmarshal gap = Ret tl ->
  exists l, GetAllExistedTokenAddresses tl chain = Ret l /\ NoDup l /\
    forall a, a ∈ l <-> exists it, it ∈ items /\ a = ToLower (TokenAddr it) /\
      ToLower (ChainType it) = ToLower chain.
Proof.
  intros HR HU Hitems H. unfold NewTokenList in H. rewrite HR in H. cbn [obind] in H.
  rewrite HU in H. destruct (_ =? 0)%nat; [done|].
  destruct (load_items items) as [pub oppy] eqn:E. simplify_eq.
  cbn [GetAllExistedTokenAddresses TokenList_iface pubTokenList].
  assert (forall k it, pub !! k = Some it ->
    it ∈ items /\ k = token_key (TokenAddr it) (ChainType it)) as Hpub.
  { intros k it Hk. apply pub_keys_items. by rewrite E. }
  assert (forall it, it ∈ items -> exists it', pub !! token_key (TokenAddr it) (ChainType it) = Some it') as Hin.
  { intros it Hit. pose proof (load_items_pub items (token_key (TokenAddr it) (ChainType it))) as Hp.
    rewrite E in Hp. cbn [fst] in Hp. rewrite Hp. destruct (last_with _ _) eqn:El; [by eexists|].
    rewrite last_with_none in El. specialize (El it Hit). by rewrite bool_decide_true in El. }
  rewrite Forall_forall in Hitems. exact (existed_of_map pub items chain Hpub Hin Hitems).
Qed.
End Properties.

(** ** Witnesses *)

Section Witnesses.
#[local] Existing Instance go_runtime_ref.
#[local] Existing Instance go_runtime_ref_laws.

Definition items2 : list TokenItem :=
  [mkTokenItem "0xAb" "abnb" 18 "BSC"; mkTokenItem "0xCd" "usdt" 6 "ETH";
   mkTokenItem "0xaB" "abnb2" 18 "bsc"].
Definition read2 : outcome bytes := Ret [].
Definition parse2 (_ : bytes) : outcome (list TokenItem) := Ret items2.

Lemma tokenlist_lookup_witness : exists tl, NewTokenList read2 parse2 20 = Ret tl /\
  GetTokenInfoByAddressAndChainType tl "0XAB" "BSC" = (mkTokenItem "0xaB" "abnb2" 18 "bsc", true).
Proof.
  eexists. split; [reflexivity|].
  refine (eq_trans (proj2 (tokenlist_lookup read2 parse2 20 _ [] items2 eq_refl eq_refl _ eq_refl "0XAB" "BSC" eq_refl)) _).
  - repeat constructor.
  - reflexivity.
Defined.

Lemma UpdateTokenList_atomic_witness :
  UpdateTokenList read2 parse2 41 (mkTokenList ∅ ∅ 20) = (mkTokenList ∅ ∅ 20, Ret tt).
Proof. apply (UpdateTokenList_atomic read2 parse2 (mkTokenList ∅ ∅ 20) 41). cbn. lia. Defined.

Lemma existed_addresses_exact_witness : exists tl l, NewTokenList read2 parse2 20 = Ret tl /\
  GetAllExistedTokenAddresses tl "bSc" = Ret l /\ NoDup l.
Proof.
  eexists. destruct (existed_addresses_exact read2 parse2 20 _ [] items2 "bSc" eq_refl eq_refl
    ltac:(repeat constructor) eq_refl) as (l & H & Hn & _).
  exists l. split; [reflexivity|]. split; assumption.
Defined.
End Witnesses.
