(* ===== verification/Signature.v ===== *)
(** * Signatures and pool addresses: misc/helper.go

    Serialisation of the threshold signature service's answer into the 64 or
    65 bytes the two chains take, recovery identifiers, and the two addresses
    of a pool's public key. *)

From Stdlib Require Import Ascii String.
From S2P Require Import Prelude GoLib Sdk.

#[local] Open Scope Z_scope.
#[local] Open Scope go_scope.

(** ** Definitions *)

(** [keysign.Signature], the fields the code reads. *)
Record TssSignature := mkTssSignature {
  sig_R : string;
  sig_S : string;
  RecoveryID : string;
}.

(** [btcec.S256().N] *)
Definition curve_N : Z := 115792089237316195423570985008687907852837564279074904382605163141518161494337.

(** [copy(dst[lo:hi], src)]: the slice expression panics out of bounds, the
    copy stops at the shorter of the two. *)
Definition copy_slice (dst : bytes) (lo hi : Z) (src : bytes) : outcome bytes :=
  if (0 <=? lo) && (lo <=? hi) && (hi <=? Z.of_nat (length dst)) then
    let part := take (Z.to_nat (hi - lo)) src in
    Ret (take (Z.to_nat lo) dst ++ part ++ drop (Z.to_nat lo + length part) dst)
  else Panic.

Definition zero_bytes (n : nat) : bytes := replicate n Byte.x00.

Definition len (b : bytes) : Z := Z.of_nat (length b).

Definition SerializeSig (sig : TssSignature) (needRecovery : bool) : outcome bytes :=
  let? rBytes := base64_DecodeString (sig_R sig) in
  let? sBytes := base64_DecodeString (sig_S sig) in
  let? vBytes := base64_DecodeString (RecoveryID sig) in
  let R := SetBytes rBytes in
  let S := SetBytes sBytes in
  let V := SetBytes vBytes in
  let N := curve_N in
  let halfOrder := Z.shiftr N 1 in
  let S := if halfOrder <? S then N - S else S in
  let rBytes := Bytes R in
  let sBytes := Bytes S in
  let vBytes := Bytes V in
  if needRecovery then
    let? sigBytes := copy_slice (zero_bytes 65) (32 - len rBytes) 32 rBytes in
    let? sigBytes := copy_slice sigBytes (64 - len sBytes) 64 sBytes in
    copy_slice sigBytes (65 - len vBytes) 65 vBytes
  else
    let? sigBytes := copy_slice (zero_bytes 64) (32 - len rBytes) 32 rBytes in
    copy_slice sigBytes (64 - len sBytes) 64 sBytes.

Definition MakeSignature (r s v : Z) : outcome bytes :=
  let rBytes := Bytes r in
  let sBytes := Bytes s in
  let? sigBytes := copy_slice (zero_bytes 65) (32 - len rBytes) 32 rBytes in
  let? sigBytes := copy_slice sigBytes (64 - len sBytes) 64 sBytes in
  Ret (<[64%nat := byte_of (Uint64 v)]> sigBytes).

Definition isProtectedV (v : Z) : bool :=
  if BitLen v <=? 8 then
    let v := Uint64 v in
    negb (v =? 27) && negb (v =? 28) && negb (v =? 1) && negb (v =? 0)
  else true.

Definition RecoverRecID (chainID v : Z) : Z :=
  if (Uint64 v =? 0) || (Uint64 v =? 1) then v
  else if isProtectedV v then u64 (Uint64 v - 35 - u64 (2 * chainID))
  else u64 (Uint64 v - 27).

Section PoolAddress.
Context `{B : Bech32}.

Definition PoolPubKeyToOppyAddress (pk : string) : outcome bytes :=
  let? pubkey := UnmarshalPubKey pk in
  PubKey_Address pubkey.

Definition PoolPubKeyToEthAddress (pk : string) : outcome bytes :=
  let? pubkey := UnmarshalPubKey pk in
  DecompressToEthAddress pubkey.

(** [ParsePubKey] followed by [SerializeCompressed]. *)
Definition EthSignPubKeyToOppyAddr (ParseCompressed : bytes -> outcome bytes) (pk : bytes) : outcome bytes :=
  let? pk2 := ParseCompressed pk in
  PubKey_Address pk2.

(** pubchain/helper.go: the sender of a public-chain transaction as a joltify
    address.  [Ecrecover] and the signer's hash are go-ethereum's. *)
Record RawTx := mkRawTx {
  raw_V : Z;
  raw_R : Z;
  raw_S : Z;
  raw_ChainId : Z;
}.

Definition retrieveAddrfromRawTx (signer_Hash : RawTx -> bytes) (Ecrecover : bytes -> bytes -> outcome bytes)
    (ParseCompressed : bytes -> outcome bytes) (tx : RawTx) : outcome bytes :=
  let plainV := RecoverRecID (Uint64 (raw_ChainId tx)) (raw_V tx) in
  let? sigBytes := MakeSignature (raw_R tx) (raw_S tx) plainV in
  let? sigPublicKey := Ecrecover (signer_Hash tx) sigBytes in
  EthSignPubKeyToOppyAddr ParseCompressed sigPublicKey.
End PoolAddress.

(** *** The address prefixes of the joltify chain

    The configuration object of the Cosmos SDK, the fields the bridge sets. *)
Record SdkConfig := mkSdkConfig {
  account_prefix : string * string;
  validator_prefix : string * string;
  consensus_prefix : string * string;
}.

Definition SetBech32PrefixForAccount (addr pub : string) : M SdkConfig unit :=
  modify (fun c => mkSdkConfig (addr, pub) (validator_prefix c) (consensus_prefix c)).
Definition SetBech32PrefixForValidator (addr pub : string) : M SdkConfig unit :=
  modify (fun c => mkSdkConfig (account_prefix c) (addr, pub) (consensus_prefix c)).
Definition SetBech32PrefixForConsensusNode (addr pub : string) : M SdkConfig unit :=
  modify (fun c => mkSdkConfig (account_prefix c) (validator_prefix c) (addr, pub)).

Definition SetupBech32Prefix : M SdkConfig unit :=
  do! SetBech32PrefixForAccount "jolt"%string "joltpub"%string in
  do! SetBech32PrefixForValidator "joltvaloper"%string "joltvpub"%string in
  SetBech32PrefixForConsensusNode "joltvalcons"%string "joltcpub"%string.

(** Reference form: [z] as exactly [n] big-endian bytes. *)
Definition padded (n : nat) (z : Z) : bytes := replicate (n - length (Bytes z)) Byte.x00 ++ Bytes z.

(** ** Lemmas *)

Lemma padded_length n z : Z.abs z < 256 ^ Z.of_nat n -> length (padded n z) = n.
Proof. intros H. apply Bytes_length in H. unfold padded. rewrite length_app, length_replicate. lia. Qed.

Lemma padded_value n z : SetBytes (padded n z) = Z.abs z.
Proof. unfold padded. by rewrite SetBytes_zeros, Bytes_SetBytes. Qed.

(** Copying right-aligned into a region of zeros pads on the left. *)
Lemma copy_padded a c k z :
  Z.abs z < 256 ^ Z.of_nat k ->
  copy_slice (a ++ zero_bytes k ++ c) (Z.of_nat (length a + k) - len (Bytes z)) (Z.of_nat (length a + k)) (Bytes z) =
  Ret (a ++ padded k z ++ c).
Proof.
  intros H. pose proof (Bytes_length _ _ H) as Hl. unfold copy_slice, len, zero_bytes.
  set (b := Bytes z) in *.
  rewrite !length_app, length_replicate.
  replace (0 <=? Z.of_nat (length a + k) - Z.of_nat (length b)) with true by (symmetry; apply Z.leb_le; lia).
  replace (Z.of_nat (length a + k) - Z.of_nat (length b) <=? Z.of_nat (length a + k)) with true
    by (symmetry; apply Z.leb_le; lia).
  replace (Z.of_nat (length a + k) <=? Z.of_nat (length a + (k + length c))) with true
    by (symmetry; apply Z.leb_le; lia).
  cbn [andb]. f_equal.
  replace (Z.to_nat (Z.of_nat (length a + k) - (Z.of_nat (length a + k) - Z.of_nat (length b))))
    with (length b) by lia.
  rewrite (take_ge b) by lia.
  replace (Z.to_nat (Z.of_nat (length a + k) - Z.of_nat (length b))) with (length a + (k - length b))%nat by lia.
  rewrite take_app_add.
  replace (length a + (k - length b) + length b)%nat with (length a + k)%nat by lia.
  rewrite drop_app_add. unfold padded. fold b.
  rewrite take_app_le by (rewrite length_replicate; lia).
  rewrite drop_app_ge by (rewrite length_replicate; lia). rewrite length_replicate, Nat.sub_diag, drop_0.
  rewrite take_replicate, Nat.min_l by lia. by rewrite <- !app_assoc.
Qed.

Lemma bytes32_bound z : Z.abs z < 2 ^ 256 -> Z.abs z < 256 ^ Z.of_nat 32.
Proof. done. Qed.

(** The two 32-byte fields are written at their offsets. *)
Lemma copy_rs r s c :
  Z.abs r < 2 ^ 256 -> Z.abs s < 2 ^ 256 ->
  obind (copy_slice (zero_bytes 64 ++ c) (32 - len (Bytes r)) 32 (Bytes r))
    (fun b => copy_slice b (64 - len (Bytes s)) 64 (Bytes s)) = Ret (padded 32 r ++ padded 32 s ++ c).
Proof.
  intros Hr%bytes32_bound Hs%bytes32_bound.
  change (zero_bytes 64) with (zero_bytes 32 ++ zero_bytes 32). rewrite <- app_assoc.
  pose proof (copy_padded [] (zero_bytes 32 ++ c) 32 r Hr) as E.
  change (Z.of_nat (length (@nil Byte.byte) + 32)) with 32 in E. cbn [app] in E. rewrite E. cbn [obind].
  pose proof (copy_padded (padded 32 r) c 32 s Hs) as H. rewrite padded_length in H by done. exact H.
Qed.

Lemma half_N : Z.shiftr curve_N 1 = curve_N / 2.
Proof. reflexivity. Qed.

(** The low-S form of a scalar. *)
Definition low_s (s : Z) : Z := if curve_N / 2 <? s then curve_N - s else s.

Lemma curve_half : curve_N = 2 * (curve_N / 2) + 1 /\ 0 < curve_N / 2 < 2 ^ 255.
Proof. by vm_compute. Qed.

Lemma low_s_range s : 0 < s < curve_N -> 0 < low_s s <= curve_N / 2.
Proof. pose proof curve_half. unfold low_s. intros ?. case_match; bool_to_prop; lia. Qed.

Lemma low_s_neg s : 0 < s < curve_N -> low_s (curve_N - s) = low_s s.
Proof. pose proof curve_half. unfold low_s. intros ?. repeat case_match; bool_to_prop; lia. Qed.

Lemma SerializeSig_eval r s v rec :
  0 <= r < 2 ^ 256 -> 0 < s < curve_N -> 0 <= v < 256 ->
  SerializeSig (mkTssSignature (base64_EncodeToString (Bytes r)) (base64_EncodeToString (Bytes s))
    (base64_EncodeToString (Bytes v))) rec =
  Ret (padded 32 r ++ padded 32 (low_s s) ++ (if rec then padded 1 v else [])).
Proof.
  intros Hr Hs Hv. pose proof (low_s_range s Hs) as Hl. unfold SerializeSig. cbn [sig_R sig_S RecoveryID].
  rewrite !base64_roundtrip. cbn [obind]. rewrite !Bytes_SetBytes, half_N, !Z.abs_eq by lia.
  fold (low_s s).
  assert (Z.abs r < 2 ^ 256) as Hr' by lia.
  assert (Z.abs (low_s s) < 2 ^ 256) as Hs' by (pose proof curve_half; lia).
  destruct rec.
  - change (zero_bytes 65) with (zero_bytes 64 ++ zero_bytes 1).
    pose proof (copy_rs r (low_s s) (zero_bytes 1) Hr' Hs') as E.
    apply obind_ret_inv in E as (b & E1 & E2). rewrite E1. cbn [obind]. rewrite E2. cbn [obind].
    assert (Z.abs v < 256 ^ Z.of_nat 1) as Hv' by (cbn; lia).
    pose proof (copy_padded (padded 32 r ++ padded 32 (low_s s)) [] 1 v Hv') as E.
    rewrite length_app, !padded_length, <- app_assoc, app_nil_r in E by done.
    rewrite <- app_assoc, app_nil_r in E. exact E.
  - pose proof (copy_rs r (low_s s) [] Hr' Hs') as E. rewrite app_nil_r in E. exact E.
Qed.

Lemma MakeSignature_eval r s v :
  0 <= r < 2 ^ 256 -> 0 <= s < 2 ^ 256 -> in_u64 v ->
  MakeSignature r s v = Ret (padded 32 r ++ padded 32 s ++ [byte_of v]).
Proof.
  intros Hr Hs Hv. unfold MakeSignature.
  assert (Z.abs r < 2 ^ 256) as Hr' by lia. assert (Z.abs s < 2 ^ 256) as Hs' by lia.
  change (zero_bytes 65) with (zero_bytes 64 ++ zero_bytes 1).
  pose proof (copy_rs r s (zero_bytes 1) Hr' Hs') as E.
  apply obind_ret_inv in E as (b & E1 & E2). rewrite E1. cbn [obind]. rewrite E2. cbn [obind]. f_equal.
  assert (Uint64 v = v) as ->. { destruct Hv. unfold Uint64. rewrite Z.abs_eq by lia. by apply u64_small. }
  rewrite !app_assoc. assert (length (padded 32 r ++ padded 32 s) = 64%nat) as Hl by (by rewrite length_app, !padded_length).
  etransitivity; [apply insert_app_r_alt; by rewrite Hl|]. by rewrite Hl.
Qed.

(** ** Properties *)

(** Fact (signature layout). A signature whose components are in range is
    serialised, without panicking, as 32 bytes of R, 32 bytes of the low-S
    form of S and, when asked for, the one byte of the recovery identifier:
    each field reads back as the number it was, and S is at most half of the
    group order. *)
Theorem SerializeSig_layout r s v rec :
  0 <= r < 2 ^ 256 -> 0 < s < curve_N -> 0 <= v < 256 ->
  exists b, SerializeSig (mkTssSignature (base64_EncodeToString (Bytes r)) (base64_EncodeToString (Bytes s))
      (base64_EncodeToString (Bytes v))) rec = Ret b /\
    length b = (if rec then 65%nat else 64%nat) /\
    SetBytes (take 32 b) = r /\
    (SetBytes (take 32 (drop 32 b)) = s \/ SetBytes (take 32 (drop 32 b)) = curve_N - s) /\
    0 < SetBytes (take 32 (drop 32 b)) <= curve_N / 2 /\
    (rec = true -> SetBytes (drop 64 b) = v).
Proof.
  intros Hr Hs Hv. pose proof (low_s_range s Hs) as Hl.
  eexists. split; [by apply SerializeSig_eval|].
  assert (length (padded 32 r) = 32%nat) as L1 by (apply padded_length; lia).
  assert (length (padded 32 (low_s s)) = 32%nat) as L2 by (apply padded_length; pose proof curve_half; lia).
  assert (length (padded 1 v) = 1%nat) as L3 by (apply padded_length; lia).
  rewrite take_app_length', drop_app_length' by done. rewrite take_app_length' by done.
  rewrite !padded_value, !Z.abs_eq by lia.
  split; [rewrite !length_app, L1, L2; destruct rec; [by rewrite L3|done]|].
  split; [done|]. split; [unfold low_s; destruct (_ <? _); auto|]. split; [done|].
  intros ->. rewrite (app_assoc (padded 32 r)), drop_app_length' by (rewrite length_app; lia).
  rewrite padded_value. lia.
Qed.

(** Fact (the recovery identifier is not adjusted). A signature and the one
    with S negated serialise to the same bytes for the same recovery
    identifier: bringing S to its low form keeps the identifier, although the
    identifiers of the two differ in their parity bit. *)
Theorem SerializeSig_malleable r s v :
  0 <= r < 2 ^ 256 -> 0 < s < curve_N -> 0 <= v < 256 ->
  SerializeSig (mkTssSignature (base64_EncodeToString (Bytes r)) (base64_EncodeToString (Bytes s))
    (base64_EncodeToString (Bytes v))) true =
  SerializeSig (mkTssSignature (base64_EncodeToString (Bytes r)) (base64_EncodeToString (Bytes (curve_N - s)))
    (base64_EncodeToString (Bytes v))) true.
Proof.
  intros Hr Hs Hv. rewrite !SerializeSig_eval by lia. by rewrite low_s_neg.
Qed.

Lemma RecoverRecID_EIP155 chainID recid :
  1 <= chainID -> 2 * chainID + 36 < two64 -> 0 <= recid <= 1 -> RecoverRecID chainID (35 + 2 * chainID + recid) = recid.
Proof.
  intros Hc Hb Hr. unfold RecoverRecID. set (v := 35 + 2 * chainID + recid).
  assert (Uint64 v = v) as Hv. { unfold Uint64. rewrite Z.abs_eq by lia. apply u64_small. unfold in_u64. lia. }
  rewrite Hv. replace (v =? 0) with false by (symmetry; apply Z.eqb_neq; lia).
  replace (v =? 1) with false by (symmetry; apply Z.eqb_neq; lia). cbn [orb].
  assert (isProtectedV v = true) as ->.
  { unfold isProtectedV. destruct (BitLen v <=? 8); [|done]. cbn zeta. rewrite Hv.
    repeat (rewrite (proj2 (Z.eqb_neq _ _)) by lia). done. }
  rewrite (u64_small (2 * chainID)) by (unfold in_u64; lia). rewrite u64_small; unfold in_u64; lia.
Qed.

(** Fact (recovery identifiers). [RecoverRecID] takes the bare identifier, the
    27/28 form and the EIP-155 form of every chain id whose form fits 64 bits
    back to the bare identifier. *)
Theorem RecoverRecID_roundtrip chainID recid :
  1 <= chainID -> 2 * chainID + 36 < two64 -> 0 <= recid <= 1 ->
  RecoverRecID chainID recid = recid /\
  RecoverRecID chainID (27 + recid) = recid /\
  RecoverRecID chainID (35 + 2 * chainID + recid) = recid.
Proof.
  intros Hc Hb Hr. split; [|split].
  - assert (recid = 0 \/ recid = 1) as [->| ->] by lia; reflexivity.
  - assert (recid = 0 \/ recid = 1) as [->| ->] by lia; reflexivity.
  - by apply RecoverRecID_EIP155.
Qed.

(** Fact (the sender of a transaction). For a transaction with components in
    range and an EIP-155 [V], what is recovered is the signer of the
    transaction's hash under R, S and the bare recovery identifier, each in
    its place of the 65 bytes. *)
Theorem retrieveAddr_recovers `{B : Bech32} signer_Hash Ecrecover ParseCompressed r s chainID recid :
  1 <= chainID -> 2 * chainID + 36 < two64 -> 0 <= recid <= 1 -> 0 <= r < 2 ^ 256 -> 0 <= s < 2 ^ 256 ->
  let tx := mkRawTx (35 + 2 * chainID + recid) r s chainID in
  retrieveAddrfromRawTx signer_Hash Ecrecover ParseCompressed tx =
  let? pk := Ecrecover (signer_Hash tx) (padded 32 r ++ padded 32 s ++ [byte_of recid])%list in
  EthSignPubKeyToOppyAddr ParseCompressed pk.
Proof.
  intros Hc Hb Hrec Hr Hs tx. unfold retrieveAddrfromRawTx. cbn [raw_V raw_R raw_S raw_ChainId tx].
  assert (Uint64 chainID = chainID) as ->. { unfold Uint64. rewrite Z.abs_eq by lia. apply u64_small. unfold in_u64. lia. }
  rewrite RecoverRecID_EIP155 by done. rewrite MakeSignature_eval; [done|done|done|unfold in_u64, two64; lia].
Qed.

(** ** Witnesses *)

Lemma SerializeSig_layout_witness :
  exists b, SerializeSig (mkTssSignature (base64_EncodeToString (Bytes 258)) (base64_EncodeToString (Bytes (curve_N - 5)))
    (base64_EncodeToString (Bytes 1))) true = Ret b /\ SetBytes (take 32 b) = 258.
Proof.
  destruct (SerializeSig_layout 258 (curve_N - 5) 1 true) as (b & H & _ & Hr & _); [lia|unfold curve_N; lia|lia|].
  exists b. split; assumption.
Defined.

Lemma SerializeSig_malleable_witness :
  SerializeSig (mkTssSignature (base64_EncodeToString (Bytes 7)) (base64_EncodeToString (Bytes 5))
    (base64_EncodeToString (Bytes 1))) true =
  SerializeSig (mkTssSignature (base64_EncodeToString (Bytes 7)) (base64_EncodeToString (Bytes (curve_N - 5)))
    (base64_EncodeToString (Bytes 1))) true.
Proof. apply (SerializeSig_malleable 7 5 1); unfold curve_N; lia. Defined.

Lemma RecoverRecID_roundtrip_witness : RecoverRecID 56 (35 + 2 * 56 + 1) = 1.
Proof. apply (RecoverRecID_roundtrip 56 1); unfold two64; lia. Defined.

Lemma retrieveAddr_recovers_witness :
  let _ := {| AccAddressFromBech32 := fun _ => Fail EmptyString; AccAddress_String := fun _ => EmptyString;
    UnmarshalPubKey := fun _ => Fail EmptyString; PubKey_Address := fun pk => Ret pk; DecompressToEthAddress := fun _ => Fail EmptyString |} in
  retrieveAddrfromRawTx (fun _ => [Byte.x07]) (fun _ sig => Ret (drop 62 sig)) Ret (mkRawTx 148 3 5 56) =
  Ret [Byte.x00; Byte.x05; Byte.x01].
Proof.
  intros B. refine (eq_trans (retrieveAddr_recovers (B := B) (fun _ => [Byte.x07]) (fun _ sig => Ret (drop 62 sig)) Ret 3 5 56 1 _ _ _ _ _) _);
    [lia|unfold two64; lia|lia|lia|lia|vm_compute; reflexivity].
Defined.
