(* ===== verification/MoveFundQueue.v ===== *)
(** * Pending fund movements: pubchain/move_fund.go (queue part)

    After a key rotation the coins of the retired pools are moved.  The work
    left to do is a [sync.Map] keyed by "height:chain". *)

From Stdlib Require Import Ascii String.
From S2P Require Import Prelude GoLib Sdk Requests.

#[local] Open Scope string_scope.
#[local] Open Scope Z_scope.
#[local] Open Scope go_scope.

(** ** Definitions *)

(** config/types.go *)
Definition MINCHECKBLOCKGAP : Z := 30.
(** pubchain/types.go *)
Definition movefundretrygap : Z := 3.

Notation MoveFundQueue := (gmap string MoveFundItem).

(** [fmt.Sprintf("%v:%v", height, chainType)] *)
Definition move_key (height : Z) (chainType : string) : string := FormatInt height ++ ":" ++ chainType.

Definition AddMoveFundItem (pool : option PoolInfo) (height : Z) (chainType : string) : M MoveFundQueue unit :=
  modify (fun q => <[move_key height chainType := mkMoveFundItem pool chainType height]> q).

Section Operations.
Context `{R : GoRuntime}.

Definition ExportMoveFundItems (q : MoveFundQueue) : list MoveFundItem :=
  map snd (map_range q).

(** The body of the [Range] callback. *)
Definition min_step (chainType : string) (min : Z) (val : MoveFundItem) : Z :=
  let h := mf_Height val in
  if (h <=? min) && bool_decide (mf_ChainType val = chainType) then h else min.

Definition min_height (chainType : string) (q : MoveFundQueue) : Z :=
  fold_left (min_step chainType) (map snd (map_range q)) MaxInt64.

(** The type assertion on a missing entry panics. *)
Definition PopMoveFundItemAfterBlock (currentBlockHeight : Z) (chainType : string)
    : M MoveFundQueue (option MoveFundItem * Z) :=
  let! q := get in
  let min := min_height chainType q in
  if (min <? MaxInt64) && (MINCHECKBLOCKGAP <? i64 (currentBlockHeight - min)) then
    let index := move_key min chainType in
    do! modify (fun q => delete index q) in
    match q !! index with
    | Some item => ret (Some item, min)
    | None => panic
    end
  else ret (None, 0).
End Operations.

(** Every entry is stored under its own height and chain, and heights are
    int64 values below the search's starting value. *)
Definition mf_wf (q : MoveFundQueue) : Prop :=
  forall k it, q !! k = Some it ->
    k = move_key (mf_Height it) (mf_ChainType it) /\ MinInt64 <= mf_Height it < MaxInt64.

(** The weaker half of it, which holds whatever heights come in. *)
Definition mf_keyed (q : MoveFundQueue) : Prop :=
  forall k it, q !! k = Some it -> k = move_key (mf_Height it) (mf_ChainType it).

(** ** Lemmas *)

Lemma mf_wf_keyed q : mf_wf q -> mf_keyed q.
Proof. intros H k it Hk. by apply H. Qed.

Lemma move_key_inj h h' c c' : move_key h c = move_key h' c' -> h = h' /\ c = c'.
Proof.
  unfold move_key. intros H. change (":" ++ c) with (String ":" c) in H. change (":" ++ c') with (String ":" c') in H.
  apply sep_inj in H as [Hh Hc]; [|by apply FormatInt_no_colon..]. split; [by apply FormatInt_inj|done].
Qed.

Lemma AddMoveFundItem_eq pool h c q :
  AddMoveFundItem pool h c q = (<[move_key h c := mkMoveFundItem pool c h]> q, Ret tt).
Proof. reflexivity. Qed.

Lemma AddMoveFundItem_wf pool h c q : mf_wf q -> MinInt64 <= h < MaxInt64 -> mf_wf (AddMoveFundItem pool h c q).1.
Proof.
  intros Hq Hh k it. rewrite AddMoveFundItem_eq. cbn [fst]. rewrite lookup_insert_Some. intros [[<- <-]|[_ Hk]]; [by cbn|]. by apply Hq.
Qed.

Lemma min_step_le c acc l : fold_left (min_step c) l acc <= acc.
Proof.
  revert acc. induction l as [|it l IH]; intros acc; [done|]. cbn [fold_left].
  etrans; [apply IH|]. unfold min_step. case_match; bool_to_prop; lia.
Qed.

Lemma min_step_lower c acc l it :
  it ∈ l -> mf_ChainType it = c -> fold_left (min_step c) l acc <= mf_Height it.
Proof.
  intros Hit Hc. revert acc. induction Hit as [it l|it it' l Hin IH]; intros acc; cbn [fold_left].
  - etrans; [apply min_step_le|]. unfold min_step. rewrite (bool_decide_true _ Hc), andb_true_r.
    case_match; bool_to_prop; lia.
  - by apply IH.
Qed.

Lemma min_step_attained c acc l :
  fold_left (min_step c) l acc < acc ->
  exists it, it ∈ l /\ mf_ChainType it = c /\ mf_Height it = fold_left (min_step c) l acc.
Proof.
  revert acc. induction l as [|it l IH]; intros acc H; cbn [fold_left] in *; [lia|].
  destruct (Z_lt_dec (fold_left (min_step c) l (min_step c acc it)) (min_step c acc it)) as [Hlt|Hge].
  - destruct (IH _ Hlt) as (it' & Hin & ?). exists it'. split; [by right|done].
  - pose proof (min_step_le c (min_step c acc it) l) as Hle.
    assert (fold_left (min_step c) l (min_step c acc it) = min_step c acc it) as Heq by lia.
    rewrite Heq in *. unfold min_step in *. case_match; bool_to_prop; [|lia].
    exists it. split; [by left|]. by split.
Qed.

Section Lemmas.
Context `{R : GoRuntime} `{LR : !GoRuntimeLaws R}.

Lemma range_elem (q : MoveFundQueue) it : it ∈ map snd (map_range q) <-> exists k, q !! k = Some it.
Proof.
  rewrite list_elem_of_fmap. split.
  - intros ([k it'] & -> & H). rewrite map_range_perm in H. exists k. by apply elem_of_map_to_list.
  - intros [k H]. exists (k, it). split; [done|]. rewrite map_range_perm. by apply elem_of_map_to_list.
Qed.

Lemma min_height_lower c q k it : q !! k = Some it -> mf_ChainType it = c -> min_height c q <= mf_Height it.
Proof. intros H Hc. apply min_step_lower; [|done]. apply range_elem. eauto. Qed.

Lemma min_height_attained c q : mf_wf q -> min_height c q < MaxInt64 ->
  exists it, q !! move_key (min_height c q) c = Some it /\ mf_ChainType it = c /\ mf_Height it = min_height c q.
Proof.
  intros Hq H. apply min_step_attained in H as (it & Hin & Hc & Hh). fold (min_height c q) in Hh.
  apply range_elem in Hin as [k Hk]. destruct (Hq _ _ Hk) as [Hkey _].
  exists it. rewrite <- Hh, <- Hc. by rewrite <- Hkey.
Qed.

(** What the pop does, by the least height pending for the chain. *)
Lemma Pop_eq h c q : mf_wf q ->
  (PopMoveFundItemAfterBlock h c q = (q, Ret (None, 0)) /\
    (min_height c q = MaxInt64 \/ i64 (h - min_height c q) <= MINCHECKBLOCKGAP)) \/
  (exists it, q !! move_key (mf_Height it) c = Some it /\ mf_ChainType it = c /\
    mf_Height it = min_height c q /\ MINCHECKBLOCKGAP < i64 (h - mf_Height it) /\
    PopMoveFundItemAfterBlock h c q = (delete (move_key (mf_Height it) c) q, Ret (Some it, mf_Height it))).
Proof.
  intros Hq. unfold PopMoveFundItemAfterBlock. unfold_go.
  pose proof (min_step_le c MaxInt64 (map snd (map_range q))) as Hle. fold (min_height c q) in Hle.
  destruct (Z.ltb_spec (min_height c q) MaxInt64) as [Hlt|Hge]; cbn [andb].
  2: { left. split; [done|]. left. lia. }
  destruct (Z.ltb_spec MINCHECKBLOCKGAP (i64 (h - min_height c q))) as [Hg|Hg].
  2: { left. split; [done|]. by right. }
  right. destruct (min_height_attained c q Hq Hlt) as (it & Hit & Hc & Hh).
  exists it. rewrite Hh, Hit. done.
Qed.

Lemma Pop_wf h c q q' r : mf_wf q -> PopMoveFundItemAfterBlock h c q = (q', r) -> mf_wf q'.
Proof.
  intros Hq H. destruct (Pop_eq h c q Hq) as [[E _]|(it & _ & _ & _ & _ & E)]; rewrite E in H; simplify_eq; [done|].
  intros k it' Hk. apply lookup_delete_Some in Hk as [_ Hk]. by apply Hq.
Qed.
End Lemmas.

#[export] Hint Resolve AddMoveFundItem_wf Pop_wf : bridge.

(** ** Properties *)

Section Properties.
Context `{R : GoRuntime} `{LR : !GoRuntimeLaws R}.

(** Fact (popping a fund movement). On a well-formed queue the pop never
    panics.  It returns the entry of its chain with the least height, once
    more than [MINCHECKBLOCKGAP] blocks have passed since that height, and
    removes that entry only; otherwise it changes nothing, and then every
    entry of the chain is still too recent. *)
Theorem PopMoveFundItem_spec h c q :
  mf_wf q -> 0 <= h <= MaxInt64 -> (forall k it, q !! k = Some it -> 0 <= mf_Height it) ->
  (exists it, PopMoveFundItemAfterBlock h c q =
      (delete (move_key (mf_Height it) c) q, Ret (Some it, mf_Height it)) /\
    q !! move_key (mf_Height it) c = Some it /\ mf_ChainType it = c /\
    MINCHECKBLOCKGAP < h - mf_Height it /\
    (forall k it', q !! k = Some it' -> mf_ChainType it' = c -> mf_Height it <= mf_Height it')) \/
  (PopMoveFundItemAfterBlock h c q = (q, Ret (None, 0)) /\
    (forall k it', q !! k = Some it' -> mf_ChainType it' = c -> h - mf_Height it' <= MINCHECKBLOCKGAP)).
Proof.
  intros Hq Hh Hpos.
  destruct (Pop_eq h c q Hq) as [[E Hmin]|(it & Hit & Hc & Hm & Hg & E)].
  - right. split; [done|]. intros k it' Hk Hc.
    pose proof (min_height_lower c q k it' Hk Hc) as Hle.
    destruct (Hq _ _ Hk) as [_ Hr]. destruct Hmin as [Hmin|Hmin]; [lia|].
    destruct (decide (min_height c q < MaxInt64)) as [Hlt|]; [|lia].
    destruct (min_height_attained c q Hq Hlt) as (it & Hit & _ & Hih). apply Hpos in Hit.
    rewrite i64_small in Hmin by (unfold in_i64, MinInt64, MaxInt64 in *; lia). lia.
  - left. exists it. pose proof (Hpos _ _ Hit). destruct (Hq _ _ Hit) as [_ Hr].
    rewrite i64_small in Hg by (unfold in_i64, MinInt64, MaxInt64 in *; lia).
    repeat split; [done..|]. intros. rewrite Hm. by eapply min_height_lower.
Qed.

(** Fact (a colliding fund movement is lost). Adding a movement whose height
    and chain are those of a pending one replaces it: when the pools
    differ, no entry of the queue names the first pool any more. *)
Theorem AddMoveFundItem_overwrites (p p' : option PoolInfo) h c :
  p <> p' ->
  let q := (AddMoveFundItem p' h c (AddMoveFundItem p h c ∅).1).1 in
  forall it, it ∈ ExportMoveFundItems q -> mf_PoolInfo it <> p.
Proof.
  intros Hne q it Hin. unfold ExportMoveFundItems in Hin. apply range_elem in Hin as [k Hk].
  unfold q in Hk. rewrite !AddMoveFundItem_eq in Hk. cbn [fst] in Hk. rewrite insert_insert_eq in Hk.
  apply lookup_insert_Some in Hk as [[_ <-]|[_ Hk]]; [cbn; congruence|]. by rewrite lookup_empty in Hk.
Qed.

(** Fact (the movements of one rotation never collide). The entries a
    rotation creates for its two pools and their retries, each
    [movefundretrygap] blocks after the entry it repeats, have different
    keys, so neither pool replaces the other. *)
Theorem rotation_keys_distinct latest c k k' :
  move_key (latest - MINCHECKBLOCKGAP + 5 + movefundretrygap * k) c <>
  move_key (latest - MINCHECKBLOCKGAP + 10 + movefundretrygap * k') c.
Proof. intros H. apply move_key_inj in H as [H _]. unfold MINCHECKBLOCKGAP, movefundretrygap in H. lia. Qed.
End Properties.

(** ** Witnesses *)

Section Witnesses.
#[local] Existing Instance go_runtime_ref.

Definition queue_ab : MoveFundQueue :=
  (AddMoveFundItem None 12 "BSC" (AddMoveFundItem None 10 "BSC" ∅).1).1.

Lemma queue_ab_wf : mf_wf queue_ab.
Proof.
  apply AddMoveFundItem_wf; [apply AddMoveFundItem_wf|]; [|done..].
  intros k it H. by rewrite lookup_empty in H.
Qed.

Lemma PopMoveFundItem_spec_witness :
  (PopMoveFundItemAfterBlock 41 "BSC" queue_ab).2 = Ret (Some (mkMoveFundItem None "BSC" 10), 10) /\
  exists it, PopMoveFundItemAfterBlock 41 "BSC" queue_ab =
    (delete (move_key (mf_Height it) "BSC") queue_ab, Ret (Some it, mf_Height it)).
Proof.
  split; [vm_compute; reflexivity|].
  destruct (PopMoveFundItem_spec 41 "BSC" queue_ab queue_ab_wf) as [(it & H & _)|[H _]].
  - unfold MaxInt64. lia.
  - intros k it Hk. unfold queue_ab in Hk. rewrite !AddMoveFundItem_eq in Hk. cbn [fst] in Hk.
    apply lookup_insert_Some in Hk as [[_ <-]|[_ Hk]]; [done|].
    apply lookup_insert_Some in Hk as [[_ <-]|[_ Hk]]; [done|]. by rewrite lookup_empty in Hk.
  - by exists it.
  - exfalso. apply (f_equal snd) in H. revert H. vm_compute. discriminate.
Defined.

Lemma AddMoveFundItem_overwrites_witness :
  let p := Some (mkPoolInfo "a" [] [] (mkVaultPool "1" "a" [] [])) in
  forall it, it ∈ ExportMoveFundItems (AddMoveFundItem None 5 "ETH" (AddMoveFundItem p 5 "ETH" ∅).1).1 ->
    mf_PoolInfo it <> p.
Proof. intros p. apply (AddMoveFundItem_overwrites p None 5 "ETH"). discriminate. Defined.
End Witnesses.
