(* ===== verification/Pools.v ===== *)
(** * The pool caches: UpdatePool, GetPool, checkToBridge, NeedUpdate

    Both chain instances keep the last two pools in a slice of length two,
    the latest at index 1.  The event loop (bridge/bridge_service.go) fills the
    two caches from the pools the chain reports, latest first, replaces them
    when a key rotation is seen and then orders the fund movements. *)

From Stdlib Require Import Ascii String.
From S2P Require Import Prelude GoLib Sdk Requests Signature MoveFundQueue.

#[local] Open Scope string_scope.
#[local] Open Scope Z_scope.
#[local] Open Scope go_scope.

(** ** Definitions *)

(** [lastTwoPools], made by [make([]*PoolInfo, 2)]. *)
Record Slots := mkSlots {
  slot0 : option PoolInfo;
  slot1 : option PoolInfo;
}.

Definition empty_slots : Slots := mkSlots None None.

(** The write both versions of [UpdatePool] end with. *)
Definition push_pool (p : PoolInfo) (s : Slots) : Slots :=
  mkSlots (match slot1 s with Some q => Some q | None => slot0 s end) (Some p).

(** The part of the bridge's state the refresh works on. *)
Record PoolState := mkPoolState {
  pi_pools : Slots;               (* pubchain.Instance.lastTwoPools *)
  jc_pools : Slots;               (* cosbridge.JoltChainInstance.lastTwoPools *)
  moveFundReq : MoveFundQueue;
}.

Section Pools.
Context `{B : Bech32} `{E : Eth}.

(** pubchain/tx_inbound.go *)
Definition pub_UpdatePool (pool : option VaultPool) : M Slots unit :=
  match pool with
  | None => fail "nil pool"
  | Some pool =>
      let poolPubKey := PoolPubKey pool in
      let! addr := lift (PoolPubKeyToOppyAddress poolPubKey) in
      let! ethAddr := lift (PoolPubKeyToEthAddress poolPubKey) in
      modify (push_pool (mkPoolInfo poolPubKey addr ethAddr pool))
  end.

(** cosbridge/tx_outbound.go: the result is the pool that leaves slot 0, nil
    when a conversion fails. *)
Definition jolt_UpdatePool (pool : VaultPool) : M Slots (option PoolInfo) :=
  let poolPubKey := PoolPubKey pool in
  let! r := try (lift (PoolPubKeyToEthAddress poolPubKey)) in
  match r with
  | inr _ => ret None
  | inl ethAddr =>
      let! r := try (lift (PoolPubKeyToOppyAddress poolPubKey)) in
      match r with
      | inr _ => ret None
      | inl addr =>
          let! s := get in
          let previousPool := slot0 s in
          do! modify (push_pool (mkPoolInfo poolPubKey addr ethAddr pool)) in
          ret previousPool
      end
  end.

(** Both [GetPool]s copy the slice. *)
Definition GetPool (s : Slots) : list (option PoolInfo) := [slot0 s; slot1 s].

Definition checkToBridge (dest : bytes) (s : Slots) : bool :=
  existsb (fun el => match el with
    | Some p => bool_decide (Address_Hex dest = Address_Hex (EthAddress p))
    | None => false
    end) (GetPool s).

(** One turn of the loop of [NeedUpdate]; [None] is the early [return false]. *)
Definition query_pool (q : VaultPool) : outcome (option PoolInfo) :=
  let pk := PoolPubKey q in
  let? r := ocatch (PoolPubKeyToEthAddress pk) in
  match r with
  | inr _ => Ret None
  | inl ethAddr =>
      let? r := ocatch (PoolPubKeyToOppyAddress pk) in
      match r with
      | inr _ => Ret None
      | inl addr => Ret (Some (mkPoolInfo pk addr ethAddr q))
      end
  end.

(** bridge/helper.go.  [qc0] and [qc1] are the two pools the chain reports,
    the latest first; [cur] is the cache, the latest second. *)
Definition NeedUpdate (qc0 qc1 : VaultPool) (cur : Slots) : outcome bool :=
  match slot0 cur, slot1 cur with
  | Some cur0, Some cur1 =>
      let? q0 := query_pool qc0 in
      match q0 with
      | None => Ret false
      | Some q0 =>
          let? q1 := query_pool qc1 in
          match q1 with
          | None => Ret false
          | Some q1 => Ret (negb (bool_decide (CosAddress q0 = CosAddress cur1) &&
                                  bool_decide (CosAddress q1 = CosAddress cur0)))
          end
      end
  | _, _ => Ret true
  end.

(** Runs a method of one of the two instances inside the event loop. *)
Definition on_pi {A} (m : M Slots A) : M PoolState A := fun s =>
  let '(sl, r) := m (pi_pools s) in (mkPoolState sl (jc_pools s) (moveFundReq s), r).
Definition on_jc {A} (m : M Slots A) : M PoolState A := fun s =>
  let '(sl, r) := m (jc_pools s) in (mkPoolState (pi_pools s) sl (moveFundReq s), r).
Definition on_mf {A} (m : M MoveFundQueue A) : M PoolState A := fun s =>
  let '(q, r) := m (moveFundReq s) in (mkPoolState (pi_pools s) (jc_pools s) q, r).

Definition BSC : string := "BSC".
Definition ETH : string := "ETH".

(** The fund movements a rotation orders (bridge_service.go, inside the
    refresh); [theSecondPool] is the pool that was latest before it. *)
Definition order_movements (previousPool theSecondPool : option PoolInfo) (latestHeight : Z) : M PoolState unit :=
  let first := i64 (latestHeight - MINCHECKBLOCKGAP + 5) in
  let second := i64 (latestHeight - MINCHECKBLOCKGAP + 10) in
  do! on_mf (AddMoveFundItem previousPool first BSC) in
  do! on_mf (AddMoveFundItem previousPool first ETH) in
  do! on_mf (AddMoveFundItem theSecondPool second BSC) in
  on_mf (AddMoveFundItem theSecondPool second ETH).

(** The refresh of the new-block handler; the result tells whether the
    handler goes on ([true]) or leaves with [continue]. *)
Definition refresh_pools (qc0 qc1 : VaultPool) (latestHeight : Z) : M PoolState bool :=
  let! st := get in
  let currentPool := pi_pools st in
  match slot0 currentPool with
  | None =>
      do! forM [qc0; qc1] (fun el =>
        do! try (on_pi (pub_UpdatePool (Some el))) in
        do! on_jc (jolt_UpdatePool el) in
        ret tt) in
      ret false
  | Some _ =>
      let! need := lift (NeedUpdate qc0 qc1 currentPool) in
      if need then
        do! try (on_pi (pub_UpdatePool (Some qc0))) in
        let! previousPool := on_jc (jolt_UpdatePool qc0) in
        match previousPool with
        | None => panic
        | Some prev =>
            if bool_decide (Pk prev = PoolPubKey qc0) then ret true
            else
              do! order_movements (Some prev) (slot1 currentPool) latestHeight in
              ret true
        end
      else ret true
  end.
End Pools.

(** The cached form of a pool whose key decodes. *)
Definition cached `{B : Bech32} (v : VaultPool) (p : PoolInfo) : Prop :=
  PoolPubKeyToOppyAddress (PoolPubKey v) = Ret (CosAddress p) /\
  PoolPubKeyToEthAddress (PoolPubKey v) = Ret (EthAddress p) /\
  Pk p = PoolPubKey v /\ pi_PoolInfo p = v.

(** Both caches hold [a] and [b], [b] the later one. *)
Definition both (a b : PoolInfo) (q : MoveFundQueue) : PoolState :=
  mkPoolState (mkSlots (Some a) (Some b)) (mkSlots (Some a) (Some b)) q.

(** ** Lemmas *)

Section Lemmas.
Context `{B : Bech32} `{E : Eth}.

Lemma pub_UpdatePool_ret v p s : cached v p -> pub_UpdatePool (Some v) s = (push_pool p s, Ret tt).
Proof.
  intros (H1 & H2 & H3 & H4). unfold pub_UpdatePool. unfold_go. rewrite H1, H2.
  destruct p; cbn in *; by subst.
Qed.

Lemma jolt_UpdatePool_ret v p s : cached v p -> jolt_UpdatePool v s = (push_pool p s, Ret (slot0 s)).
Proof.
  intros (H1 & H2 & H3 & H4). unfold jolt_UpdatePool. unfold_go. rewrite H2. cbn. rewrite H1.
  destruct p; cbn in *; by subst.
Qed.

Lemma query_pool_ret v p : cached v p -> query_pool v = Ret (Some p).
Proof.
  intros (H1 & H2 & H3 & H4). unfold query_pool. unfold_go. rewrite H2. cbn. rewrite H1.
  destruct p; cbn in *; by subst.
Qed.

Lemma NeedUpdate_ret v0 v1 p0 p1 a b : cached v0 p0 -> cached v1 p1 ->
  NeedUpdate v0 v1 (mkSlots (Some a) (Some b)) =
  Ret (negb (bool_decide (CosAddress p0 = CosAddress b) && bool_decide (CosAddress p1 = CosAddress a))).
Proof. intros H0 H1. unfold NeedUpdate. cbn. by rewrite (query_pool_ret _ _ H0), (query_pool_ret _ _ H1). Qed.

Lemma refresh_fill v0 v1 p0 p1 h q : cached v0 p0 -> cached v1 p1 ->
  refresh_pools v0 v1 h (mkPoolState empty_slots empty_slots q) = (both p0 p1 q, Ret false).
Proof.
  intros H0 H1. unfold refresh_pools, forM, on_pi, on_jc, bind, get, try, ret.
  cbn [pi_pools jc_pools moveFundReq slot0 empty_slots].
  rewrite (pub_UpdatePool_ret _ _ _ H0). cbn -[pub_UpdatePool jolt_UpdatePool].
  rewrite (jolt_UpdatePool_ret _ _ _ H0). cbn -[pub_UpdatePool jolt_UpdatePool].
  rewrite (pub_UpdatePool_ret _ _ _ H1). cbn -[pub_UpdatePool jolt_UpdatePool].
  by rewrite (jolt_UpdatePool_ret _ _ _ H1).
Qed.

(** The queue after the movements of a rotation. *)
Definition with_movements (prev second : option PoolInfo) (h : Z) (q : MoveFundQueue) : MoveFundQueue :=
  moveFundReq (order_movements prev second h (mkPoolState empty_slots empty_slots q)).1.

Lemma order_insert prev second h st :
  order_movements prev second h st =
  (mkPoolState (pi_pools st) (jc_pools st)
    (<[move_key (i64 (h - MINCHECKBLOCKGAP + 10)) ETH := mkMoveFundItem second ETH (i64 (h - MINCHECKBLOCKGAP + 10))]>
    (<[move_key (i64 (h - MINCHECKBLOCKGAP + 10)) BSC := mkMoveFundItem second BSC (i64 (h - MINCHECKBLOCKGAP + 10))]>
    (<[move_key (i64 (h - MINCHECKBLOCKGAP + 5)) ETH := mkMoveFundItem prev ETH (i64 (h - MINCHECKBLOCKGAP + 5))]>
    (<[move_key (i64 (h - MINCHECKBLOCKGAP + 5)) BSC := mkMoveFundItem prev BSC (i64 (h - MINCHECKBLOCKGAP + 5))]>
      (moveFundReq st))))), Ret tt).
Proof. reflexivity. Qed.

Lemma order_movements_ret prev second h st :
  order_movements prev second h st =
  (mkPoolState (pi_pools st) (jc_pools st) (with_movements prev second h (moveFundReq st)), Ret tt).
Proof. destruct st. reflexivity. Qed.

(** A refresh of filled caches, in one equation. *)
Lemma refresh_filled v0 v1 p0 p1 a b h q : cached v0 p0 -> cached v1 p1 ->
  refresh_pools v0 v1 h (both a b q) =
  if bool_decide (CosAddress p0 = CosAddress b) && bool_decide (CosAddress p1 = CosAddress a)
  then (both a b q, Ret true)
  else (both b p0 (if bool_decide (Pk a = PoolPubKey v0) then q else with_movements (Some a) (Some b) h q), Ret true).
Proof.
  intros H0 H1. unfold refresh_pools, both. unfold bind, get, lift. cbn [pi_pools slot0].
  rewrite (NeedUpdate_ret _ _ _ _ _ _ H0 H1). cbn iota beta.
  destruct (_ && _); cbn [negb]; [done|].
  unfold on_pi, on_jc, try. cbn [pi_pools jc_pools moveFundReq].
  rewrite (pub_UpdatePool_ret _ _ _ H0), (jolt_UpdatePool_ret _ _ _ H0). cbn -[order_movements with_movements].
  case_bool_decide; [done|]. rewrite order_movements_ret. done.
Qed.

Lemma cached_inj v p p' : cached v p -> cached v p' -> p = p'.
Proof.
  intros (H1 & H2 & H3 & H4) (H1' & H2' & H3' & H4'). destruct p, p'; cbn in *. congruence.
Qed.
End Lemmas.

(** ** Properties *)

Section Properties.
Context `{B : Bech32} `{E : Eth} `{LE : !EthLaws E}.

(** Fact (deposit addresses). A transfer is taken for a deposit exactly when its
    destination is the address of one of the two cached pools. *)
Theorem checkToBridge_spec dest s :
  length dest = 20%nat ->
  (forall p, Some p ∈ GetPool s -> length (EthAddress p) = 20%nat) ->
  checkToBridge dest s = true <-> exists p, Some p ∈ GetPool s /\ EthAddress p = dest.
Proof.
  intros Hd Hp. unfold checkToBridge. rewrite existsb_exists. split.
  - intros ([p|] & Hin & H); [|done]. apply bool_decide_eq_true in H. apply list_elem_of_In in Hin.
    exists p. split; [done|]. symmetry. apply (Address_Hex_inj (E := E)); auto.
  - intros (p & Hin & <-). exists (Some p). rewrite <- list_elem_of_In. split; [done|].
    by apply bool_decide_eq_true.
Qed.

(** C35 (the caches follow the chain). Starting with empty caches, two blocks
    bring both caches to the chain's two pools in the right order without
    ordering any fund movement, and no further block changes them.  When the
    chain then rotates to a new pool, one block replaces the oldest pool and
    orders the movements of the two retired pools, and the caches are again
    stable. *)
Theorem pools_follow_chain v0 v1 v2 p0 p1 p2 h h' q :
  cached v0 p0 -> cached v1 p1 -> cached v2 p2 ->
  CosAddress p0 <> CosAddress p1 -> CosAddress p2 <> CosAddress p0 -> PoolPubKey v2 <> PoolPubKey v1 ->
  let fill := (refresh_pools v0 v1 h (mkPoolState empty_slots empty_slots q)).1 in
  let settled := (refresh_pools v0 v1 h fill).1 in
  let rotated := (refresh_pools v2 v0 h' settled).1 in
  settled = both p1 p0 q /\
  refresh_pools v0 v1 h settled = (settled, Ret true) /\
  rotated = both p0 p2 (with_movements (Some p1) (Some p0) h' q) /\
  refresh_pools v2 v0 h' rotated = (rotated, Ret true).
Proof.
  intros H0 H1 H2 H01 H20 Hpk fill settled rotated.
  assert (fill = both p0 p1 q) as Hf by (unfold fill; by rewrite (refresh_fill v0 v1 p0 p1)).
  assert (settled = both p1 p0 q) as Hs.
  { unfold settled. rewrite Hf, (refresh_filled v0 v1 p0 p1) by done.
    rewrite bool_decide_false by done. cbn [andb fst].
    rewrite bool_decide_true by (apply H0). done. }
  assert (rotated = both p0 p2 (with_movements (Some p1) (Some p0) h' q)) as Hr.
  { unfold rotated. rewrite Hs, (refresh_filled v2 v0 p2 p0) by done.
    rewrite bool_decide_false by done. cbn [andb fst].
    rewrite bool_decide_false; [done|]. destruct H1 as (_ & _ & -> & _). congruence. }
  split; [done|]. split.
  { rewrite Hs, (refresh_filled v0 v1 p0 p1) by done. by rewrite 2!bool_decide_true by done. }
  split; [done|]. rewrite Hr, (refresh_filled v2 v0 p2 p0) by done. by rewrite 2!bool_decide_true by done.
Qed.

(** Fact (a missed rotation is not repaired). When the later cached pool is not
    the chain's older one, because a rotation went unseen, two blocks leave
    the chain's latest pool in both slots; every following block finds the
    caches outdated and leaves them so.  The chain's older pool, whose
    deposits are still due, is never cached, and when the pool in the first
    slot was none of the chain's a movement of the latest pool's own funds is
    among those ordered. *)
Theorem missed_rotation v0 v1 p0 p1 a b h q :
  cached v0 p0 -> cached v1 p1 ->
  CosAddress p0 <> CosAddress p1 -> CosAddress b <> CosAddress p1 -> CosAddress p0 <> CosAddress b ->
  Pk b <> PoolPubKey v0 ->
  let once := (refresh_pools v0 v1 h (both a b q)).1 in
  let twice := (refresh_pools v0 v1 h once).1 in
  pi_pools twice = mkSlots (Some p0) (Some p0) /\
  NeedUpdate v0 v1 (pi_pools twice) = Ret true /\
  refresh_pools v0 v1 h twice = (twice, Ret true) /\
  (forall c, c = BSC \/ c = ETH ->
    moveFundReq twice !! move_key (i64 (h - MINCHECKBLOCKGAP + 10)) c =
    Some (mkMoveFundItem (Some p0) c (i64 (h - MINCHECKBLOCKGAP + 10)))).
Proof.
  intros H0 H1 H01 Hb Hb0 Hpk once twice.
  set (q1 := if bool_decide (Pk a = PoolPubKey v0) then q else with_movements (Some a) (Some b) h q).
  assert (once = both b p0 q1) as Ho.
  { unfold once. rewrite (refresh_filled v0 v1 p0 p1) by done. rewrite bool_decide_false by done. done. }
  assert (twice = both p0 p0 (with_movements (Some b) (Some p0) h q1)) as Ht.
  { unfold twice. rewrite Ho, (refresh_filled v0 v1 p0 p1) by done.
    rewrite bool_decide_true by done. rewrite bool_decide_false by done. cbn [andb fst].
    by rewrite bool_decide_false. }
  split; [by rewrite Ht|]. split.
  { rewrite Ht. unfold both. cbn [pi_pools]. rewrite (NeedUpdate_ret v0 v1 p0 p1) by done.
    rewrite bool_decide_true by done. by rewrite bool_decide_false. }
  split.
  { rewrite Ht, (refresh_filled v0 v1 p0 p1) by done.
    rewrite bool_decide_true by done. rewrite bool_decide_false by done. cbn [andb].
    destruct H0 as (_ & _ & Hpk0 & _). by rewrite bool_decide_true. }
  intros c Hc. rewrite Ht. unfold both. cbn [moveFundReq]. unfold with_movements.
  rewrite order_insert. cbn [moveFundReq fst].
  destruct Hc as [->| ->].
  - rewrite lookup_insert_ne; [by rewrite lookup_insert_eq|].
    intros [_ Hc]%move_key_inj. discriminate.
  - by rewrite lookup_insert_eq.
Qed.
End Properties.

(** ** Witnesses *)

Section Witnesses.
#[local] Existing Instance bech32_ref.
#[local] Existing Instance eth_ref.

Definition vault (k : string) : VaultPool := mkVaultPool "1" k [] [].
Definition pool_of (k : string) : PoolInfo :=
  mkPoolInfo k
    (match PoolPubKeyToOppyAddress k with Ret a => a | _ => [] end)
    (match PoolPubKeyToEthAddress k with Ret a => a | _ => [] end) (vault k).

Lemma checkToBridge_spec_witness :
  checkToBridge (EthAddress (pool_of "k0102")) (mkSlots None (Some (pool_of "k0102"))) = true.
Proof.
  apply (checkToBridge_spec (EthAddress (pool_of "k0102"))).
  - reflexivity.
  - intros p Hp. apply elem_of_cons in Hp as [Hp|Hp]; [discriminate|].
    apply list_elem_of_singleton in Hp. injection Hp as ->. reflexivity.
  - exists (pool_of "k0102"). split; [right; left|]; reflexivity.
Defined.

Lemma pools_follow_chain_witness :
  let fill := (refresh_pools (vault "k01") (vault "k02") 100 (mkPoolState empty_slots empty_slots ∅)).1 in
  let settled := (refresh_pools (vault "k01") (vault "k02") 100 fill).1 in
  settled = both (pool_of "k02") (pool_of "k01") ∅.
Proof.
  apply (pools_follow_chain (vault "k01") (vault "k02") (vault "k03")
    (pool_of "k01") (pool_of "k02") (pool_of "k03") 100 200 ∅).
  1-3: repeat split.
  all: vm_compute; discriminate.
Defined.

Lemma missed_rotation_witness :
  let once := (refresh_pools (vault "k01") (vault "k02") 100 (both (pool_of "k04") (pool_of "k03") ∅)).1 in
  let twice := (refresh_pools (vault "k01") (vault "k02") 100 once).1 in
  pi_pools twice = mkSlots (Some (pool_of "k01")) (Some (pool_of "k01")).
Proof.
  apply (missed_rotation (vault "k01") (vault "k02") (pool_of "k01") (pool_of "k02")
    (pool_of "k04") (pool_of "k03") 100 ∅).
  1-2: repeat split.
  all: vm_compute; discriminate.
Defined.
End Witnesses.
