(* ===== verification/Validators.v ===== *)
(** * Validators, signers and the outbound quorum

    validators/validator.go, validators/types.go, the validator part of
    cosbridge/validator.go, and the vote count of
    cosbridge/submit_outboundtx.go. *)

From Stdlib Require Import Ascii String SpecFloat.
From S2P Require Import Prelude GoLib Sdk Requests.

#[local] Open Scope string_scope.
#[local] Open Scope Z_scope.
#[local] Open Scope go_scope.

(** ** Definitions *)

Record Validator := mkValidator {
  Address : bytes;
  PubKey : bytes;
  VotingPower : Z;
}.

Record ValidatorSet := mkValidatorSet {
  activeValidators : gmap string Validator;
  vs_blockHeight : Z;
}.

Definition NewValidator : ValidatorSet := mkValidatorSet ∅ 0.

(** A validator as the vault module reports it. *)
Record VaultValidator := mkVaultValidator {
  Pubkey : bytes;
  Power : Z;
}.

(** A validator as the consensus service reports it; the public key is packed. *)
Record TmValidator := mkTmValidator {
  tm_Address : string;
  tm_PubKey : bytes;
  tm_VotingPower : Z;
}.

Section Validators.
Context `{R : GoRuntime}.
(** [types.GetConsAddress], the printer and the parser of consensus addresses
    and the unpacking of a public key are the Cosmos SDK's. *)
Context (GetConsAddress : bytes -> bytes) (Address_String : bytes -> string).
Context (ConsAddressFromBech32 : string -> outcome bytes) (UnpackAny : bytes -> outcome bytes).

Definition SetupValidatorSet (validators : list Validator) (blockHeight : Z) : M ValidatorSet unit :=
  do! modify (fun v => mkValidatorSet (activeValidators v) blockHeight) in
  forM validators (fun el =>
    modify (fun v => mkValidatorSet
      (<[Address_String (Address el) := mkValidator (Address el) (PubKey el) (VotingPower el)]> (activeValidators v))
      (vs_blockHeight v))).

Definition add_update (m : gmap string Validator) (el : VaultValidator) : gmap string Validator :=
  let addr := GetConsAddress (Pubkey el) in
  <[Address_String addr := mkValidator addr (Pubkey el) (Power el)]> m.

Definition UpdateValidatorSet (validatorUpdates : list VaultValidator) (blockHeight : Z) : M ValidatorSet unit :=
  do! modify (fun v => mkValidatorSet (activeValidators v) blockHeight) in
  let newValidatorSet := fold_left add_update validatorUpdates ∅ in
  modify (fun v => mkValidatorSet newValidatorSet (vs_blockHeight v)).

Definition GetActiveValidators (v : ValidatorSet) : list Validator * Z :=
  (map snd (map_range (activeValidators v)), vs_blockHeight v).

(** cosbridge/validator.go: the loop of [doInitValidator]. *)
Definition init_values (values : list TmValidator) : outcome (list Validator) :=
  omapM (fun el =>
    let? pk := UnpackAny (tm_PubKey el) in
    let? adr := ConsAddressFromBech32 (tm_Address el) in
    Ret (mkValidator adr pk (tm_VotingPower el))) values.

(** The fields of the instance it writes: the node's own validator key, as the
    text of the "status" answer, and the set, which an error leaves empty. *)
Definition doInitValidator (i : string) (blockHeight : Z) (values : list TmValidator)
    : M (string * ValidatorSet) unit :=
  do! modify (fun _ => (i, NewValidator)) in
  let! localVals := lift (init_values values) in
  fun s => let '(vs, r) := SetupValidatorSet localVals blockHeight (snd s) in ((fst s, vs), r).

(** [CheckWhetherSigner]: [operator] is the outcome of [Keyring.Key]. *)
Definition CheckWhetherSigner (operator : outcome bytes) (lastPoolInfo : option VaultPool) : outcome bool :=
  let? creator := operator in
  match lastPoolInfo with
  | None => Panic
  | Some p => Ret (existsb (fun eachValidator => bool_decide (eachValidator = creator)) (Nodes p))
  end.

(** The answer of a query about a token issue: an error, an empty answer or
    the record. *)
Definition CheckWhetherAlreadyExist {T} (queryGivenToeknIssueTx : outcome (option T)) : bool :=
  match queryGivenToeknIssueTx with
  | Ret (Some _) => true
  | _ => false
  end.

(** [CheckTxStatus]: the query is repeated while the chain moves on, which is
    the state [St]. *)
Definition CheckTxStatus `{K : Backoff} {St T} (query : string -> M St (outcome (option T)))
    (index : string) (retryNum : nat) : M St unit :=
  Retry retryNum (
    let! ret' := query index in
    if CheckWhetherAlreadyExist ret' then ret tt else fail "fail to find the tx").
End Validators.

(** ** The outbound quorum

    float32 arithmetic is IEEE-754 binary32: 24 bits of precision, exponent
    bound 128. *)
Definition float32 (z : Z) : spec_float := binary_normalize 24 128 z 0 false.
Definition float32_div (a b : spec_float) : spec_float := SFdiv 24 128 a b.
(** The conversion to int truncates. *)
Definition int_of_float (f : spec_float) : Z :=
  match f with
  | S754_finite s m e =>
      let v := if 0 <=? e then Z.pos m * 2 ^ e else Z.pos m / 2 ^ (- e) in
      if s then - v else v
  | _ => 0
  end.

(** [int(float32(n*2) / float32(3))] *)
Definition quorum (n : Z) : Z := int_of_float (float32_div (float32 (n * 2)) (float32 3)).

(** The submitted transactions recorded for a request: for each transaction
    hash the validators that reported it. *)
Definition Entries : Type := list bytes.

Definition first_with_quorum (min : Z) (items : list (string * Entries)) : string :=
  match List.find (fun kv => min <=? Z.of_nat (length (snd kv))) items with
  | Some kv => fst kv
  | None => ""
  end.

Definition GetPubChainSubmittedTx `{E : Eth} `{R : GoRuntime}
    (OutboundTx : string -> outcome (gmap string Entries)) (v : ValidatorSet) (req : OutBoundReq) : outcome string :=
  let? h := OutBoundReq_Hash req in
  let? items := OutboundTx (Hash_Hex h) in
  let '(validators, _) := GetActiveValidators v in
  Ret (first_with_quorum (quorum (Z.of_nat (length validators))) (map_range items)).

(** Each active validator reports at most one hash. *)
Definition one_vote (voters : list bytes) (items : gmap string Entries) : Prop :=
  forall k e, items !! k = Some e -> NoDup e /\ e ⊆ voters /\
    forall k' e', items !! k' = Some e' -> k <> k' -> e ## e'.

(** ** Lemmas *)

Lemma quorum_table : forallb (fun n => quorum (Z.of_nat n) =? 2 * Z.of_nat n / 3) (seq 0 1000) = true.
Proof. vm_compute. reflexivity. Qed.

Lemma quorum_floor n : 0 <= n < 1000 -> quorum n = 2 * n / 3.
Proof.
  intros H. pose proof quorum_table as Ht. rewrite forallb_forall in Ht.
  specialize (Ht (Z.to_nat n)). rewrite Z2Nat.id in Ht by lia. apply Z.eqb_eq, Ht, in_seq. lia.
Qed.

Lemma length_map_range `{R : GoRuntime} `{LR : !GoRuntimeLaws R} {A} (m : gmap string A) :
  length (map_range m) = size m.
Proof. rewrite (Permutation_length (map_range_perm m)). apply length_map_to_list. Qed.

Lemma disjoint_voters (voters e e' : list bytes) :
  NoDup e -> NoDup e' -> e ⊆ voters -> e' ⊆ voters -> e ## e' -> (length e + length e' <= length voters)%nat.
Proof.
  intros Hn Hn' Hs Hs' Hd. rewrite <- length_app. apply NoDup_incl_length.
  - apply NoDup_ListNoDup, NoDup_app. split; [done|]. split; [|done]. intros x Hx Hx'. exact (Hd x Hx Hx').
  - intros x Hx. apply list_elem_of_In in Hx. apply elem_of_app in Hx as [Hx|Hx].
    + apply list_elem_of_In. by apply Hs.
    + apply list_elem_of_In. by apply Hs'.
Qed.

Lemma find_some_perm {A} (f : A -> bool) l x : List.find f l = Some x -> x ∈ l /\ f x = true.
Proof. intros H. apply find_some in H as [H Hf]. split; [by apply list_elem_of_In|done]. Qed.

Lemma SetupValidatorSet_ret f vals h v :
  exists m, SetupValidatorSet f vals h v = (mkValidatorSet m h, Ret tt).
Proof.
  unfold SetupValidatorSet, bind, modify. set (s0 := mkValidatorSet (activeValidators v) h).
  change h with (vs_blockHeight s0). clearbody s0. clear v. revert s0.
  induction vals as [|el vals IH]; intros s0; cbn [forM].
  - exists (activeValidators s0). by destruct s0.
  - unfold bind. apply (IH (mkValidatorSet (<[_ := _]> (activeValidators s0)) (vs_blockHeight s0))).
Qed.

Lemma UpdateValidatorSet_ret f g ups h v :
  UpdateValidatorSet f g ups h v = (mkValidatorSet (fold_left (add_update f g) ups ∅) h, Ret tt).
Proof. reflexivity. Qed.

(** ** Properties *)

Section Properties.
Context `{R : GoRuntime} `{LR : !GoRuntimeLaws R} `{E : Eth}.

(** C34 (the quorum and its uniqueness). The float32 threshold is two thirds
    of the number of validators rounded down, for every set the chain can
    have.  When each validator reports one hash per request and there are
    three, five or more of them, at most one hash reaches the threshold, so
    the answer does not depend on the order the map is ranged over: it is the
    hash with that many reports, or the empty string when there is none. *)
Theorem submitted_tx_unique OutboundTx v req h items voters k e :
  OutBoundReq_Hash req = Ret h -> OutboundTx (Hash_Hex h) = Ret items ->
  let n := size (activeValidators v) in
  (n = 3 \/ 5 <= n < 1000)%nat -> length voters = n -> one_vote voters items ->
  quorum (Z.of_nat n) = 2 * Z.of_nat n / 3 /\
  (items !! k = Some e -> quorum (Z.of_nat n) <= Z.of_nat (length e) ->
   GetPubChainSubmittedTx OutboundTx v req = Ret k) /\
  ((forall k e, items !! k = Some e -> Z.of_nat (length e) < quorum (Z.of_nat n)) ->
   GetPubChainSubmittedTx OutboundTx v req = Ret "").
Proof.
  intros Hh Hi n Hn Hv Hone.
  assert (length (GetActiveValidators v).1 = n) as Hlen.
  { unfold GetActiveValidators. cbn [fst]. rewrite length_map, length_map_range. done. }
  assert (quorum (Z.of_nat n) = 2 * Z.of_nat n / 3) as Hq by (apply quorum_floor; lia).
  split; [done|].
  unfold GetPubChainSubmittedTx. rewrite Hh. cbn [obind]. rewrite Hi. cbn [obind].
  destruct (GetActiveValidators v) as [vals ?]. cbn [fst] in Hlen. rewrite Hlen.
  unfold first_with_quorum. split.
  - intros Hk He. destruct (List.find _ _) as [[k' e']|] eqn:Ef.
    + apply find_some_perm in Ef as [Hin Hq']. cbn in *. rewrite map_range_perm in Hin.
      apply elem_of_map_to_list in Hin. apply Z.leb_le in Hq'. f_equal.
      destruct (decide (k' = k)) as [|Hne]; [done|]. exfalso.
      destruct (Hone _ _ Hk) as (Hnd & Hs & Hd). destruct (Hone _ _ Hin) as (Hnd' & Hs' & _).
      pose proof (disjoint_voters voters e e' Hnd Hnd' Hs Hs' (Hd _ _ Hin (not_eq_sym Hne))).
      assert (2 * (2 * Z.of_nat n / 3) > Z.of_nat n); [|lia].
      pose proof (Z.div_mod (2 * Z.of_nat n) 3). pose proof (Z.mod_pos_bound (2 * Z.of_nat n) 3). lia.
    + exfalso. apply (find_none _ _) with (x := (k, e)) in Ef.
      * cbn in Ef. apply Z.leb_gt in Ef. lia.
      * apply list_elem_of_In. rewrite map_range_perm. by apply elem_of_map_to_list.
  - intros Hno. destruct (List.find _ _) as [[k' e']|] eqn:Ef; [|done]. exfalso.
    apply find_some_perm in Ef as [Hin Hq']. cbn in *. rewrite map_range_perm in Hin.
    apply elem_of_map_to_list in Hin. apply Z.leb_le in Hq'. specialize (Hno _ _ Hin). lia.
Qed.
End Properties.

(** Fact (the quorum is below a majority for small sets). With one validator a
    hash nobody reported is accepted, and with two or four validators two
    hashes with disjoint reporters can both reach the threshold: which one is
    returned then depends on the map's iteration order. *)
Theorem quorum_too_small :
  quorum 1 = 0 /\
  (forall (k : string), first_with_quorum (quorum 1) [(k, [])] = k) /\
  forall n (k k' : string) (e e' : Entries), n = 2 \/ n = 4 ->
    Z.of_nat (length e) = n / 2 -> Z.of_nat (length e') = n / 2 ->
    first_with_quorum (quorum n) [(k, e); (k', e')] = k /\
    first_with_quorum (quorum n) [(k', e'); (k, e)] = k'.
Proof.
  split; [done|]. split; [done|]. intros n k k' e e' Hn He He'.
  assert (quorum n = n / 2) as Hq by (destruct Hn as [->| ->]; done).
  unfold first_with_quorum. cbn [List.find snd fst]. rewrite Hq, He, He', Z.leb_refl. done.
Qed.

Section Sets.
Context `{R : GoRuntime} `{LR : !GoRuntimeLaws R}.
Context (GetConsAddress : bytes -> bytes) (Address_String : bytes -> string).

(** Fact (the validator set is replaced). After an update the active validators
    are those of the update and no others: each reported key is stored under
    its consensus address with the power of its last occurrence, and the
    height is the one given, whatever the set held before. *)
Theorem UpdateValidatorSet_exact ups h v :
  (forall p p', Address_String (GetConsAddress p) = Address_String (GetConsAddress p') -> p = p') ->
  exists v', UpdateValidatorSet GetConsAddress Address_String ups h v = (v', Ret tt) /\
    snd (GetActiveValidators v') = h /\
    forall a, a ∈ fst (GetActiveValidators v') <->
      Address a = GetConsAddress (PubKey a) /\
      exists before after, ups = (before ++ mkVaultValidator (PubKey a) (VotingPower a) :: after)%list /\
        Forall (fun u => Pubkey u <> PubKey a) after.
Proof.
  intros Hinj. eexists. split; [apply UpdateValidatorSet_ret|]. cbn [snd GetActiveValidators vs_blockHeight]. split; [done|].
  intros a. cbn [fst GetActiveValidators activeValidators].
  rewrite list_elem_of_fmap.
  transitivity (fold_left (add_update GetConsAddress Address_String) ups ∅ !!
    Address_String (GetConsAddress (PubKey a)) = Some a).
  - split.
    + intros ([k b] & -> & Hin). rewrite map_range_perm in Hin. apply elem_of_map_to_list in Hin. cbn [snd].
      assert (k = Address_String (GetConsAddress (PubKey b))) as ->; [|done].
      revert Hin. clear. induction ups as [|u ups IH] using rev_ind; [cbn [fold_left]; by rewrite lookup_empty|].
      rewrite fold_left_app. cbn [fold_left]. unfold add_update at 1. rewrite lookup_insert_Some.
      intros [[<- <-]|[_ H]]; [done|]. by apply IH.
    + intros H. exists (Address_String (GetConsAddress (PubKey a)), a). split; [done|].
      rewrite map_range_perm. by apply elem_of_map_to_list.
  - induction ups as [|u ups IH] using rev_ind.
    + cbn [fold_left]. rewrite lookup_empty. split; [done|]. intros (_ & before & after & H & _). by destruct before.
    + rewrite fold_left_app. cbn [fold_left]. unfold add_update at 1.
      rewrite lookup_insert_Some. destruct (decide (Pubkey u = PubKey a)) as [Heq|Hne].
      * rewrite Heq. split.
        -- intros [[_ <-]|[? _]]; [|done]. cbn. split; [done|].
           exists ups, []. destruct u; cbn in *. by subst.
        -- intros (Ha & before & after & H & Hf). left. split; [done|].
           destruct after as [|u' after _] using rev_ind.
           ++ apply app_inj_tail in H as [_ ->]. cbn. destruct a; cbn in *. by subst.
           ++ exfalso. rewrite app_comm_cons, app_assoc in H. apply app_inj_tail in H as [_ ->].
              apply Forall_app in Hf as [_ Hf]. apply Forall_cons in Hf as [Hf _]. done.
      * assert (Address_String (GetConsAddress (Pubkey u)) <> Address_String (GetConsAddress (PubKey a))) as Hk
          by (intros ?%Hinj; done).
        split.
        -- intros [[? _]|[_ H]]; [done|]. apply IH in H as (Ha & before & after & -> & Hf). split; [done|].
           exists before, (after ++ [u])%list. split; [by rewrite <- app_assoc|]. apply Forall_app. by repeat constructor.
        -- intros (Ha & before & after & H & Hf). right. split; [done|]. apply IH. split; [done|].
           destruct after as [|u' after _] using rev_ind.
           ++ apply app_inj_tail in H as [_ ->]. by destruct Hne.
           ++ rewrite app_comm_cons, app_assoc in H. apply app_inj_tail in H as [-> ->].
              apply Forall_app in Hf as [Hf _]. eauto.
Qed.
End Sets.

(** ** Witnesses *)

Section Witnesses.
#[local] Existing Instance go_runtime_ref.
#[local] Existing Instance eth_ref.

Definition req1 : OutBoundReq :=
  mkOutBoundReq "00" zero_address zero_address (mkCoin "a" 1) "" 1 0 "" [] "BSC" true.

Definition hash1 : bytes := match OutBoundReq_Hash req1 with Ret h => h | _ => [] end.

Definition set3 : ValidatorSet :=
  mkValidatorSet (list_to_map [("a", mkValidator [Byte.x01] [] 1); ("b", mkValidator [Byte.x02] [] 1);
    ("c", mkValidator [Byte.x03] [] 1)]) 5.

Definition items1 : gmap string Entries := {[ "0xaa" := [[Byte.x01]; [Byte.x02]] ]}.

Lemma items1_one_vote : one_vote [[Byte.x01]; [Byte.x02]; [Byte.x03]] items1.
Proof.
  unfold items1. intros k e Hk. apply lookup_singleton_Some in Hk as [<- <-].
  split; [apply NoDup_ListNoDup; repeat constructor; cbn; intuition discriminate|].
  split; [intros x Hx; apply list_elem_of_In in Hx; apply list_elem_of_In; cbn in *; tauto|].
  intros k' e' Hk' Hne. apply lookup_singleton_Some in Hk' as [<- _]. done.
Qed.

Lemma submitted_tx_unique_witness :
  GetPubChainSubmittedTx (fun _ => Ret items1) set3 req1 = Ret "0xaa".
Proof.
  apply (submitted_tx_unique (fun _ => Ret items1) set3 req1 hash1 items1
    [[Byte.x01]; [Byte.x02]; [Byte.x03]] "0xaa" [[Byte.x01]; [Byte.x02]]); try reflexivity.
  - left. reflexivity.
  - exact items1_one_vote.
Defined.

Lemma quorum_too_small_witness :
  first_with_quorum (quorum 4) [("a", [[Byte.x01]; [Byte.x02]]); ("b", [[Byte.x03]; [Byte.x04]])] = "a".
Proof. apply quorum_too_small with (n := 4); [right; reflexivity|reflexivity|reflexivity]. Defined.

Lemma UpdateValidatorSet_exact_witness :
  exists v', UpdateValidatorSet (fun b => b) hex_EncodeToString [mkVaultValidator [Byte.x07] 3] 9 NewValidator = (v', Ret tt) /\
    snd (GetActiveValidators v') = 9.
Proof.
  destruct (UpdateValidatorSet_exact (fun b => b) hex_EncodeToString [mkVaultValidator [Byte.x07] 3] 9 NewValidator)
    as (v' & H & Hh & _).
  - intros p p'. apply hex_EncodeToString_inj.
  - exists v'. split; assumption.
Defined.
End Witnesses.
