(* ===== verification/JoltQueries.v ===== *)
(** * The queries of the joltify node: cosbridge/helper.go,
    cosbridge/validator.go and the [Handler] of pubchain/helper.go

    Each query goes through a gRPC connection.  Three of them dial one
    themselves when they are given none and close it when they return.  The
    services of the node are the class [JoltServices]; the connections the
    process holds open are part of the state, so that leaks can be stated. *)

From Stdlib Require Import Ascii String.
From S2P Require Import Prelude GoLib Sdk Requests Fees Validators.

#[local] Open Scope string_scope.
#[local] Open Scope Z_scope.
#[local] Open Scope go_scope.

(** ** Definitions *)

(** [W] is the state of the node, [Acc] an unpacked account, [Tok] the record
    of a token issue. *)
Class JoltServices (W Acc Tok : Type) `{SdkMath} := {
  svc_Dial : string -> M W unit;
  svc_Account : string -> M W bytes;
  svc_UnpackAny : bytes -> outcome Acc;
  svc_GetLastPool : M W (list VaultPool);
  svc_Price : string -> M W Dec;
  svc_IssueToken : string -> M W (option Tok);
  svc_GetLatestValidatorSet : M W (Z * list TmValidator);
  svc_GetLatestBlock : M W Z;
  svc_GetBlockByHeight : Z -> M W (list bytes);
  svc_GetValidators : string -> M W (list VaultValidator);
  svc_Simulate : bytes -> M W Z;
}.

(** The node, the connections that are open, and the number the next one
    gets. *)
Record Net (W : Type) := mkNet { net_node : W; open : gset nat; next_conn : nat }.
Arguments mkNet {W}. Arguments net_node {W}. Arguments open {W}. Arguments next_conn {W}.

Section Queries.
Context {W Acc Tok : Type} `{S : SdkMath} `{JV : !JoltServices W Acc Tok}.
#[local] Notation NT := (Net W).

(** A call through a connection that is open; the library refuses to use one
    that was closed. *)
Definition on_conn {A} (conn : nat) (m : M W A) : M NT A := fun s =>
  if decide (conn ∈ open s) then
    let '(w, r) := m (net_node s) in (mkNet w (open s) (next_conn s), r)
  else (s, Fail "grpc: the client connection is closing").

Definition grpc_Dial (addr : string) : M NT nat := fun s =>
  match svc_Dial addr (net_node s) with
  | (w, Ret _) => (mkNet w ({[ next_conn s ]} ∪ open s) (Datatypes.S (next_conn s)), Ret (next_conn s))
  | (w, Fail e) => (mkNet w (open s) (next_conn s), Fail e)
  | (w, Panic) => (mkNet w (open s) (next_conn s), Panic)
  end.

Definition grpc_Close (conn : nat) : M NT unit := modify (fun s => mkNet (net_node s) (open s ∖ {[ conn ]}) (next_conn s)).

(** [defer f()]: [f] runs whatever way the rest ends. *)
Definition deferred {A} (f : M NT unit) (m : M NT A) : M NT A := fun s =>
  let '(s, r) := m s in
  match f s with
  | (s, Panic) => (s, Panic)
  | (s, _) => (s, r)
  end.

(** The client that was given, or one dialled for this query. *)
Definition with_client {A} (grpcClient : option nat) (grpcAddr : string) (k : nat -> M NT A) : M NT A :=
  match grpcClient with
  | Some conn => k conn
  | None =>
      let! conn := grpc_Dial grpcAddr in
      deferred (grpc_Close conn) (k conn)
  end.

(** *** cosbridge/helper.go *)

Definition queryAccount (grpcClient : option nat) (addr grpcAddr : string) : M NT Acc :=
  with_client grpcClient grpcAddr (fun conn =>
    let! accResp := on_conn conn (svc_Account addr) in
    lift (svc_UnpackAny accResp)).

Definition queryLastValidatorSet (conn : nat) : M NT (list VaultPool) := on_conn conn svc_GetLastPool.

(** [denom[1:]] of an empty denomination panics. *)
Definition QueryTokenPrice (grpcClient : option nat) (grpcAddr denom : string) : M NT Dec :=
  with_client grpcClient grpcAddr (fun conn =>
    let! marketID := lift (market_id denom) in
    on_conn conn (svc_Price marketID)).

Definition queryGivenToeknIssueTx (conn : nat) (index : string) : M NT (option Tok) := on_conn conn (svc_IssueToken index).

Definition QueryTipValidator (conn : nat) : M NT (Z * list TmValidator) := on_conn conn svc_GetLatestValidatorSet.

Definition GetLastBlockHeight (conn : nat) : M NT Z := on_conn conn svc_GetLatestBlock.

Definition GetBlockByHeight (conn : nat) (height : Z) : M NT (list bytes) := on_conn conn (svc_GetBlockByHeight height).

(** *** cosbridge/validator.go and bridge.go *)

Definition getValidators (conn : nat) (height : string) : M NT (list VaultValidator) := on_conn conn (svc_GetValidators height).

Definition QueryLastPoolAddress (conn : nat) : M NT (list VaultPool) := queryLastValidatorSet conn.

Definition jc_CheckWhetherAlreadyExist (conn : nat) (index : string) : M NT bool := fun s =>
  match queryGivenToeknIssueTx conn index s with
  | (s, Panic) => (s, Panic)
  | (s, r) => (s, Ret (CheckWhetherAlreadyExist r))
  end.

Definition SimBroadcastTx (conn : nat) (txbytes : bytes) : M NT Z := on_conn conn (svc_Simulate txbytes).

(** *** [Handler] of pubchain/helper.go *)

Definition Handler_queryTokenPrice (grpcClient : option nat) (grpcAddr denom : string) : M NT Dec :=
  with_client grpcClient grpcAddr (fun conn =>
    let! marketID := lift (market_id denom) in
    on_conn conn (svc_Price marketID)).

Definition Handler_QueryJoltBlockHeight (grpcAddr : string) : M NT Z :=
  let! conn := grpc_Dial grpcAddr in
  deferred (grpc_Close conn) (on_conn conn svc_GetLatestBlock).

(** *** What a query may do to the connections *)

(** Connections are numbered in the order they are dialled. *)
Definition numbered (s : NT) : Prop := forall c, c ∈ open s -> (c < next_conn s)%nat.

(** However it ends, it closes what it opened and nothing else. *)
Definition leaves_no_connection {A} (m : M NT A) : Prop :=
  forall s, numbered s -> open (m s).1 = open s /\ numbered (m s).1.
End Queries.

(** ** Lemmas *)

Section Lemmas.
Context {W Acc Tok : Type} `{S : SdkMath} `{JV : !JoltServices W Acc Tok}.
#[local] Notation NT := (Net W).

Lemma on_conn_leaves {A} conn (m : M W A) : leaves_no_connection (on_conn conn m).
Proof.
  intros s Hs. unfold on_conn. destruct (decide (conn ∈ open s)); [|done]. by destruct (m (net_node s)).
Qed.

Lemma lift_leaves {A} (o : outcome A) : leaves_no_connection (W := W) (lift o).
Proof. by intros s Hs. Qed.

Lemma bind_leaves {A B} (m : M NT A) (k : A -> M NT B) :
  leaves_no_connection m -> (forall a, leaves_no_connection (k a)) -> leaves_no_connection (bind m k).
Proof.
  intros Hm Hk s Hs. destruct (Hm s Hs) as [H1 H2]. unfold bind. destruct (m s) as [s1 [a|e|]]; cbn in *; [|done..].
  destruct (Hk a s1 H2) as [H3 H4]. by rewrite H3.
Qed.

(** A connection dialled for one query is closed with it, even by a panic. *)
Lemma dialled_leaves {A} addr (k : nat -> M NT A) :
  (forall conn, leaves_no_connection (k conn)) ->
  leaves_no_connection (let! conn := grpc_Dial (Tok := Tok) addr in deferred (grpc_Close conn) (k conn)).
Proof.
  intros Hk s Hs. unfold bind, grpc_Dial. destruct (svc_Dial addr (net_node s)) as [w [[]|e|]]; cbn; [|done..].
  set (s1 := mkNet w ({[next_conn s]} ∪ open s) (Datatypes.S (next_conn s))).
  assert (numbered s1) as H1.
  { intros c Hc. cbn in Hc. apply elem_of_union in Hc as [->%elem_of_singleton|Hc]; cbn; [lia|]. specialize (Hs c Hc). lia. }
  destruct (Hk (next_conn s) s1 H1) as [H2 H3]. unfold deferred, grpc_Close, modify.
  destruct (k (next_conn s) s1) as [s2 r]. cbn in *. split.
  - rewrite H2. unfold numbered in Hs. specialize (Hs (next_conn s)).
    assert (next_conn s ∉ open s) by (intros Hin; specialize (Hs Hin); lia). set_solver.
  - intros c Hc. apply H3. set_solver.
Qed.

Lemma with_client_leaves {A} client addr (k : nat -> M NT A) :
  (forall conn, leaves_no_connection (k conn)) -> leaves_no_connection (with_client (Tok := Tok) client addr k).
Proof. intros Hk. destruct client as [conn|]; [apply Hk|by apply dialled_leaves]. Qed.
End Lemmas.

Create HintDb connections.
#[export] Hint Resolve on_conn_leaves lift_leaves bind_leaves dialled_leaves with_client_leaves : connections.

(** ** Properties *)

Section Properties.
Context {W Acc Tok : Type} `{S : SdkMath} `{JV : !JoltServices W Acc Tok}.

(** Fact (the queries leak no connection). From every state in which the
    connections are numbered, each query that may dial a connection of its
    own ends with exactly the connections open that were open before, on
    every path: when dialling fails, when the call or the decoding fails, and
    when the query panics. *)
Theorem queries_leave_no_connection client addr grpcAddr denom :
  leaves_no_connection (W := W) (queryAccount client addr grpcAddr) /\
  leaves_no_connection (W := W) (QueryTokenPrice client grpcAddr denom) /\
  leaves_no_connection (W := W) (Handler_queryTokenPrice client grpcAddr denom) /\
  leaves_no_connection (W := W) (Handler_QueryJoltBlockHeight grpcAddr).
Proof.
  unfold queryAccount, QueryTokenPrice, Handler_queryTokenPrice, Handler_QueryJoltBlockHeight.
  split_and!; eauto with connections.
Qed.

(** Fact (a dialled connection is used while it is open). A query that was given
    no connection and could dial one gets the node's own answer: the closing
    comes after the call. *)
Theorem dialled_query_answers grpcAddr (s : Net W) w :
  svc_Dial grpcAddr (net_node s) = (w, Ret tt) ->
  (Handler_QueryJoltBlockHeight grpcAddr s).2 = (svc_GetLatestBlock w).2.
Proof.
  intros Hd. unfold Handler_QueryJoltBlockHeight, bind, grpc_Dial. rewrite Hd. unfold deferred, on_conn. cbn.
  rewrite decide_True by set_solver. by destruct (svc_GetLatestBlock w) as [w' r].
Qed.
End Properties.

(** ** Witnesses *)

Section Witnesses.
#[local] Existing Instance sdk_math_ref.

#[local] Instance services_ref : JoltServices nat string unit := {|
  svc_Dial := fun _ w => (Datatypes.S w, if (w <? 2)%nat then Ret tt else Fail "connection refused");
  svc_Account := fun _ => ret [];
  svc_UnpackAny := fun _ => Ret "account";
  svc_GetLastPool := ret [];
  svc_Price := fun _ => fail "no price";
  svc_IssueToken := fun _ => ret None;
  svc_GetLatestValidatorSet := ret (1, []);
  svc_GetLatestBlock := ret 12;
  svc_GetBlockByHeight := fun _ => ret [];
  svc_GetValidators := fun _ => ret [];
  svc_Simulate := fun _ => ret 1;
|}.
#[local] Definition net_ref : Net nat := mkNet 0%nat {[ 4%nat ]} 5.

Lemma queries_leave_no_connection_witness :
  open (QueryTokenPrice None "127.0.0.1:9090" "" net_ref).1 = {[ 4%nat ]}.
Proof.
  destruct (queries_leave_no_connection None "jolt1" "127.0.0.1:9090" "") as (_ & H & _).
  refine (proj1 (H net_ref _)). intros c Hc. cbn in Hc. apply elem_of_singleton in Hc as ->. cbn. lia.
Defined.

Lemma dialled_query_answers_witness : (Handler_QueryJoltBlockHeight "127.0.0.1:9090" net_ref).2 = Ret 12.
Proof. rewrite (dialled_query_answers "127.0.0.1:9090" net_ref 1%nat); [reflexivity|reflexivity]. Defined.
End Witnesses.
