(* ===== verification/PubClient.v ===== *)
(** * The public-chain client: pubchain/helper.go, pubchain/retry.go and
    [waitToSend] of pubchain/tx_send.go

    Every remote call goes through the reader side of [ChainLocker]; a failing
    call starts a goroutine that checks the connection and, under the writer
    side, replaces the client.  The go-ethereum client is the class
    [EthClient] over an abstract state of the remote world; the lock is a
    count of readers and a writer flag, the goroutines started a counter. *)

From Stdlib Require Import Ascii String.
From S2P Require Import Prelude GoLib Sdk.

#[local] Open Scope string_scope.
#[local] Open Scope Z_scope.
#[local] Open Scope go_scope.

(** ** Definitions *)

(** config/types.go *)
Definition DEFAULTNATIVEGAS : Z := 21000.
Definition NativeSign : string := "native".
Definition ROUNDBLOCK : Z := 50.

(** What the source reads of go-ethereum's transactions and blocks. *)
Record EthTx := mkEthTx {
  tx_Hash : bytes;
  tx_To : option bytes;
  tx_Data : bytes;
  tx_Value : Z;
}.

Record EthBlock := mkEthBlock {
  NumberU64 : Z;
  Transactions : list EthTx;
}.

(** [types.LegacyTx], and the transaction it becomes once signed. *)
Record LegacyTx := mkLegacyTx {
  lt_Nonce : Z;
  lt_GasPrice : Z;
  lt_Gas : Z;
  lt_To : bytes;
  lt_Value : Z;
  lt_Data : bytes;
}.

Record SignedTx := mkSignedTx {
  stx_tx : LegacyTx;
  stx_sig : bytes;
}.

(** The remote calls: [W] is the state of the world they act on, [C] a client
    handle. *)
Class EthClient (W C : Type) := {
  Dial : string -> M W C;
  BlockByNumber : C -> option Z -> M W EthBlock;
  BlockNumber : C -> M W Z;
  ReceiptStatus : C -> bytes -> M W Z;
  SuggestGasPrice : C -> M W Z;
  BalanceAt : C -> bytes -> M W Z;
  PendingNonceAt : C -> bytes -> M W Z;
  SendTransaction : C -> SignedTx -> M W unit;
  SubscribeNewHead : C -> M W unit;
  (** [generated.NewToken] followed by [BalanceOf] *)
  TokenBalanceOf : C -> bytes -> bytes -> M W Z;
  (** the raw transaction the bound contract's [Transfer] builds from sender,
      token, receiver, amount and nonce *)
  TransferTx : C -> bytes -> bytes -> bytes -> Z -> Z -> M W LegacyTx;
}.

Record BlockHead := mkBlockHead {
  Head : Z;
  head_ChainType : string;
}.

Record ChainInfo (W C : Type) := mkChainInfo {
  node : W;
  Client : C;
  WsAddr : string;
  contractAddress : string;
  ChainType : string;
  ChainID : option Z;
  readers : Z;              (* holders of ChainLocker.RLock *)
  writer : bool;            (* ChainLocker.Lock is held *)
  resets : nat;             (* RetryPubChain goroutines started *)
  SubChannelNow : list Z;   (* headers waiting in the subscription channel *)
  ChannelQueue : list BlockHead;
}.
Arguments mkChainInfo {W C}.
Arguments node {W C}. Arguments Client {W C}. Arguments WsAddr {W C}.
Arguments contractAddress {W C}. Arguments ChainType {W C}. Arguments ChainID {W C}.
Arguments readers {W C}. Arguments writer {W C}. Arguments resets {W C}.
Arguments SubChannelNow {W C}. Arguments ChannelQueue {W C}.

Section Client.
Context {W C : Type} `{EC : EthClient W C}.
#[local] Notation CI := (ChainInfo W C).

Definition with_node (w : W) (c : CI) : CI :=
  mkChainInfo w (Client c) (WsAddr c) (contractAddress c) (ChainType c) (ChainID c)
    (readers c) (writer c) (resets c) (SubChannelNow c) (ChannelQueue c).
Definition with_locks (r : Z) (w : bool) (c : CI) : CI :=
  mkChainInfo (node c) (Client c) (WsAddr c) (contractAddress c) (ChainType c) (ChainID c)
    r w (resets c) (SubChannelNow c) (ChannelQueue c).
Definition with_resets (n : nat) (c : CI) : CI :=
  mkChainInfo (node c) (Client c) (WsAddr c) (contractAddress c) (ChainType c) (ChainID c)
    (readers c) (writer c) n (SubChannelNow c) (ChannelQueue c).
Definition with_client (cl : C) (c : CI) : CI :=
  mkChainInfo (node c) cl (WsAddr c) (contractAddress c) (ChainType c) (ChainID c)
    (readers c) (writer c) (resets c) (SubChannelNow c) (ChannelQueue c).
Definition with_channels (sub : list Z) (q : list BlockHead) (c : CI) : CI :=
  mkChainInfo (node c) (Client c) (WsAddr c) (contractAddress c) (ChainType c) (ChainID c)
    (readers c) (writer c) (resets c) sub q.

Definition RLock : M CI unit := modify (fun c => with_locks (readers c + 1) (writer c) c).
Definition RUnlock : M CI unit := modify (fun c => with_locks (readers c - 1) (writer c) c).
Definition Lock : M CI unit := modify (fun c => with_locks (readers c) true c).
Definition Unlock : M CI unit := modify (fun c => with_locks (readers c) false c).

(** [c.wg.Add(1); go func() { c.RetryPubChain() }()] *)
Definition spawn_reset : M CI unit := modify (fun c => with_resets (S (resets c)) c).

(** A remote call through the current client. *)
Definition call {A} (f : C -> M W A) : M CI A := fun c =>
  let '(w, r) := f (Client c) (node c) in (with_node w c, r).

(** The call between [RLock] and [RUnlock]; the error is kept. *)
Definition locked {A} (f : C -> M W A) : M CI (A + string) :=
  do! RLock in
  let! r := try (call f) in
  do! RUnlock in
  ret r.

Definition of_result {A} (r : A + string) : M CI A :=
  match r with inl a => ret a | inr e => fail e end.

Definition CheckChainHealthWithLock : M CI unit :=
  let! r := locked (fun cl => BlockByNumber cl None) in
  match r with inl _ => ret tt | inr e => fail e end.

Definition GetBlockByNumberWithLock (number : option Z) : M CI EthBlock :=
  let! r := locked (fun cl => BlockByNumber cl number) in
  match r with
  | inl b => ret b
  | inr e => do! spawn_reset in fail e
  end.

Definition getTransactionReceiptWithLock (txHash : bytes) : M CI Z :=
  let! r := locked (fun cl => ReceiptStatus cl txHash) in
  match r with
  | inl b => ret b
  | inr e => if negb (bool_decide (e = "not found")) then do! spawn_reset in fail e else fail e
  end.

(** Fee, gas price and gas limit. *)
Definition GetFeeLimitWithLock : M CI (Z * Z * Z) :=
  let! r := locked SuggestGasPrice in
  match r with
  | inr _ => do! spawn_reset in fail "fail to get the fee"
  | inl gasPrice =>
      let totalFee := gasPrice * DEFAULTNATIVEGAS in
      ret (totalFee, gasPrice, DEFAULTNATIVEGAS)
  end.

Definition GetGasPriceWithLock : M CI Z :=
  let! r := locked SuggestGasPrice in
  match r with
  | inl p => ret p
  | inr e => do! spawn_reset in fail e
  end.

Definition getBalanceWithLock (ethAddr : bytes) : M CI Z :=
  let! r := locked (fun cl => BalanceAt cl ethAddr) in
  match r with
  | inl b => ret b
  | inr e => do! spawn_reset in fail e
  end.

Definition getPendingNonceWithLock (poolAddress : bytes) : M CI Z :=
  let! r := locked (fun cl => PendingNonceAt cl poolAddress) in
  match r with
  | inl n => ret n
  | inr e => do! spawn_reset in fail e
  end.

Definition sendTransactionWithLock (tx : SignedTx) : M CI unit :=
  let! r := locked (fun cl => SendTransaction cl tx) in
  match r with
  | inl _ => ret tt
  | inr e =>
      if bool_decide (e = "already known") then ret tt
      else do! spawn_reset in fail e
  end.

(** pubchain/retry.go.  The old subscription's headers are moved to the
    shared queue before its channel is replaced. *)
Definition UpdateSubscription : M CI unit :=
  do! call SubscribeNewHead in
  modify (fun c => with_channels []
    (ChannelQueue c ++ map (fun b => mkBlockHead b (ChainType c)) (SubChannelNow c))%list c).

Definition StartSubscription : M CI unit :=
  do! modify (fun c => with_channels [] (ChannelQueue c) c) in
  call SubscribeNewHead.

Definition renewEthClientWithLock (ethclient : C) : M CI unit :=
  do! Lock in
  do! modify (with_client ethclient) in
  let! r := try UpdateSubscription in
  do! Unlock in
  of_result r.

Definition dial_and_renew : M CI unit :=
  let! c := get in
  let! cl := call (fun _ => Dial (WsAddr c)) in
  renewEthClientWithLock cl.

Definition RetryPubChain `{K : Backoff} : M CI unit :=
  let! h := try CheckChainHealthWithLock in
  match h with
  | inl _ => ret tt
  | inr _ => Retry 3 dial_and_renew
  end.

(** Reads the client without the lock. *)
Definition HealthCheckAndReset `{K : Backoff} : M CI unit :=
  let! r := try (call BlockNumber) in
  match r with
  | inl _ => ret tt
  | inr _ => do! try RetryPubChain in ret tt
  end.

Definition checkEachTx (h : bytes) : M CI Z := getTransactionReceiptWithLock h.

(** One attempt stores the status it found. *)
Definition check_status_op (txHash : bytes) : M (CI * Z) unit := fun '(c, status) =>
  match checkEachTx txHash c with
  | (c', Ret s) => ((c', s), Ret tt)
  | (c', Fail e) => ((c', status), Fail e)
  | (c', Panic) => ((c', status), Panic)
  end.

Definition CheckTxStatus `{E : Eth} `{K : Backoff} (HexToHash : string -> bytes) (hashStr : string) : M CI unit := fun c =>
  match Retry 30 (check_status_op (HexToHash hashStr)) (c, 0) with
  | ((c', status), Ret _) => (c', if negb (status =? 1) then Fail "tx failed" else Ret tt)
  | ((c', _), Fail e) => (c', Fail e)
  | ((c', _), Panic) => (c', Panic)
  end.

(** pubchain/tx_send.go.  The attempts are bounded by the elapsed time, not by
    a count: [attempts] is how many of them fit. *)
Definition wait_op (poolAddress : bytes) (targetNonce : Z) : M (CI * bool) unit := fun '(c, alreadyPassed) =>
  match getPendingNonceWithLock poolAddress c with
  | (c', Fail e) => ((c', alreadyPassed), Fail e)
  | (c', Panic) => ((c', alreadyPassed), Panic)
  | (c', Ret nonce) =>
      if nonce =? targetNonce then ((c', alreadyPassed), Ret tt)
      else if targetNonce <? nonce then ((c', true), Ret tt)
      else ((c', alreadyPassed), Fail "not our round")
  end.

Definition waitToSend `{K : Backoff} (attempts : nat) (poolAddress : bytes) (targetNonce : Z) : M CI unit := fun c =>
  match Retry attempts (wait_op poolAddress targetNonce) (c, false) with
  | ((c', _), Panic) => (c', Panic)
  | ((c', true), _) => (c', Fail "already passed the seq")
  | ((c', false), r) => (c', r)
  end.

(** What a call leaves of the lock and the goroutine counter. *)
Definition unlocked_like (c c' : CI) : Prop := readers c' = readers c /\ writer c' = writer c.
End Client.

(** [GetChainClient]: which of the two clients serves a chain type. *)
Definition GetChainClient {I : Type} (EthChain BSCChain : I) (chainType : string) : option I :=
  if bool_decide (chainType = "ETH") then Some EthChain
  else if bool_decide (chainType = "BSC") then Some BSCChain
  else None.

(** [CheckPubChainHealthWithLock]: both checks run; the error variable is
    written by whichever fails last, and the order is the scheduler's. *)
Definition CheckPubChainHealthWithLock {W C} `{EC : EthClient W C} (bsc_last : bool)
    : M (ChainInfo W C * ChainInfo W C) unit := fun '(bsc, eth) =>
  let '(bsc', r1) := CheckChainHealthWithLock bsc in
  let '(eth', r2) := CheckChainHealthWithLock eth in
  ((bsc', eth'),
   match r1, r2 with
   | Panic, _ | _, Panic => Panic
   | Fail e1, Fail e2 => Fail (if bsc_last then e1 else e2)
   | Fail e1, Ret _ => Fail e1
   | Ret _, Fail e2 => Fail e2
   | Ret _, Ret _ => Ret tt
   end).

(** ** Lemmas *)

Section Lemmas.
Context {W C : Type} `{EC : EthClient W C}.
#[local] Notation CI := (ChainInfo W C).
Implicit Types (c : CI).

Lemma locked_eq {A} (f : C -> M W A) c :
  locked f c = (with_node (f (Client c) (node c)).1 c,
                match (f (Client c) (node c)).2 with
                | Ret a => Ret (inl a) | Fail e => Ret (inr e) | Panic => Panic
                end) \/
  ((f (Client c) (node c)).2 = Panic /\ exists c', locked f c = (c', Panic)).
Proof.
  unfold locked, call, RLock, RUnlock. unfold_go. destruct c; cbn.
  destruct (f Client0 node0) as [w [a|e|]]; cbn; [left|left|right; eauto];
  unfold with_node, with_locks; cbn; do 2 f_equal; lia.
Qed.

(** No remote call panics. *)
Definition client_total : Prop :=
  (forall cl n w, is_panic (BlockByNumber cl n w).2 = false) /\
  (forall cl h w, is_panic (ReceiptStatus cl h w).2 = false) /\
  (forall cl w, is_panic (SuggestGasPrice cl w).2 = false) /\
  (forall cl a w, is_panic (BalanceAt cl a w).2 = false) /\
  (forall cl a w, is_panic (PendingNonceAt cl a w).2 = false) /\
  (forall cl t w, is_panic (SendTransaction cl t w).2 = false) /\
  (forall cl w, is_panic (SubscribeNewHead cl w).2 = false).

Lemma locked_total {A} (f : C -> M W A) c :
  is_panic (f (Client c) (node c)).2 = false ->
  locked f c = (with_node (f (Client c) (node c)).1 c,
                match (f (Client c) (node c)).2 with
                | Ret a => Ret (inl a) | Fail e => Ret (inr e) | Panic => Panic
                end).
Proof. intros H. destruct (locked_eq f c) as [E|[E _]]; [done|]. by rewrite E in H. Qed.

(** The shape all the [WithLock] methods share: lock, call, unlock, and one
    goroutine for an error that is not excused. *)
Lemma locked_reset {A B} (f : C -> M W A) (g : A -> outcome B) (h : string -> outcome B) (excused : string -> bool) c :
  is_panic (f (Client c) (node c)).2 = false ->
  (forall e, is_ret (h e) = true -> excused e = true) ->
  let r := bind (locked f) (fun r => match r with
    | inl a => lift (g a)
    | inr e => if excused e then lift (h e) else bind spawn_reset (fun _ => lift (h e)) end) c in
  unlocked_like c r.1 /\
  resets r.1 = match (f (Client c) (node c)).2 with
    | Fail e => if excused e then resets c else Datatypes.S (resets c)
    | _ => resets c end /\
  r.2 = match (f (Client c) (node c)).2 with Ret a => g a | Fail e => h e | Panic => Panic end.
Proof.
  intros Hp _ r. subst r. unfold bind. rewrite (locked_total f c Hp).
  destruct (f (Client c) (node c)) as [w [a|e|]]; cbn in *; [done| |done].
  destruct (excused e); done.
Qed.

Lemma check_status_readers h c s c' s' r :
  is_panic (ReceiptStatus (Client c) h (node c)).2 = false ->
  check_status_op h (c, s) = ((c', s'), r) -> readers c' = readers c /\ writer c' = writer c /\ Client c' = Client c.
Proof.
  intros Hp. unfold check_status_op, checkEachTx, getTransactionReceiptWithLock, bind.
  rewrite (locked_total (fun cl => ReceiptStatus cl h) c Hp).
  destruct (ReceiptStatus _ _ _) as [w [a|e|]]; cbn; intros H; simplify_eq/=; [done|].
  destruct (negb _); simplify_eq/=; done.
Qed.

Lemma getPendingNonce_eq a c :
  is_panic (PendingNonceAt (Client c) a (node c)).2 = false ->
  exists c', getPendingNonceWithLock a c = (c', (PendingNonceAt (Client c) a (node c)).2) /\
    node c' = (PendingNonceAt (Client c) a (node c)).1 /\ Client c' = Client c /\
    readers c' = readers c /\ writer c' = writer c.
Proof.
  intros Hp. unfold getPendingNonceWithLock, bind.
  rewrite (locked_total (fun cl => PendingNonceAt cl a) c Hp).
  destruct (PendingNonceAt _ _ _) as [w [n|e|]]; cbn in *; [| |done]; eexists; split; try done.
Qed.
End Lemmas.

(** ** Properties *)

Section Properties.
Context {W C : Type} `{EC : EthClient W C} `{K : Backoff} `{LK : !BackoffLaws K}.
#[local] Notation CI := (ChainInfo W C).

(** Fact (the client lock is balanced). Every locked remote call leaves the
    lock as it found it, on success and on error; it starts one reconnection
    goroutine exactly when the call fails, except for a receipt that is "not
    found" and a transaction the chain already knows, and the last is then
    reported as sent. *)
Theorem locked_calls_balanced (c : CI) number h a tx :
  client_total ->
  (let r := GetBlockByNumberWithLock number c in
   unlocked_like c r.1 /\ r.2 = (BlockByNumber (Client c) number (node c)).2 /\
   resets r.1 = (if is_ret r.2 then 0 else 1) + resets c)%nat /\
  (let r := getTransactionReceiptWithLock h c in
   unlocked_like c r.1 /\ r.2 = (ReceiptStatus (Client c) h (node c)).2 /\
   resets r.1 = (match r.2 with Fail e => if bool_decide (e = "not found") then 0 else 1 | _ => 0 end) + resets c)%nat /\
  (let r := getBalanceWithLock a c in
   unlocked_like c r.1 /\ r.2 = (BalanceAt (Client c) a (node c)).2 /\
   resets r.1 = (if is_ret r.2 then 0 else 1) + resets c)%nat /\
  (let r := sendTransactionWithLock tx c in
   unlocked_like c r.1 /\
   r.2 = match (SendTransaction (Client c) tx (node c)).2 with
     | Fail e => if bool_decide (e = "already known") then Ret tt else Fail e
     | o => o end /\
   resets r.1 = (if is_ret r.2 then 0 else 1) + resets c)%nat.
Proof.
  intros (H1 & H2 & _ & H4 & _ & H6 & _). repeat apply conj.
  all: unfold GetBlockByNumberWithLock, getTransactionReceiptWithLock, getBalanceWithLock, sendTransactionWithLock, bind.
  1-4: rewrite (locked_total (fun cl => BlockByNumber cl number) c (H1 _ _ _));
    specialize (H1 (Client c) number (node c)); by destruct (BlockByNumber _ _ _) as [w [b|e|]].
  1-4: rewrite (locked_total (fun cl => ReceiptStatus cl h) c (H2 _ _ _));
    specialize (H2 (Client c) h (node c)); destruct (ReceiptStatus _ _ _) as [w [b|e|]]; cbn;
    repeat (case_bool_decide; cbn); done.
  1-4: rewrite (locked_total (fun cl => BalanceAt cl a) c (H4 _ _ _));
    specialize (H4 (Client c) a (node c)); by destruct (BalanceAt _ _ _) as [w [b|e|]].
  all: rewrite (locked_total (fun cl => SendTransaction cl tx) c (H6 _ _ _));
    specialize (H6 (Client c) tx (node c)); destruct (SendTransaction _ _ _) as [w [[]|e|]]; cbn;
    repeat (case_bool_decide; cbn); done.
Qed.

(** Fact (replacing the client loses no header). Whether or not the new
    subscription succeeds, the writer lock is released; on success the headers
    that waited in the old channel are appended in order to the queue of
    blocks to process, on failure they stay where they are. *)
Theorem renew_keeps_headers (c : CI) cl :
  client_total ->
  let r := renewEthClientWithLock cl c in
  readers r.1 = readers c /\ writer r.1 = false /\ Client r.1 = cl /\
  (ChannelQueue r.1 ++ map (fun b => mkBlockHead b (ChainType c)) (SubChannelNow r.1) =
   ChannelQueue c ++ map (fun b => mkBlockHead b (ChainType c)) (SubChannelNow c))%list /\
  (is_ret r.2 = true -> SubChannelNow r.1 = []).
Proof.
  intros (_ & _ & _ & _ & _ & _ & H) r. subst r.
  unfold renewEthClientWithLock, UpdateSubscription, call, Lock, Unlock. unfold_go.
  specialize (H cl (node c)). destruct (SubscribeNewHead cl (node c)) as [w [[]|e|]]; cbn in *; [|done|done].
  by rewrite app_nil_r.
Qed.

(** Fact (a transaction waits for its nonce). [waitToSend] returns nil only
    when the pending nonce it last read is the target, and reports "already
    passed" only when that nonce is beyond the target: a transaction is never
    released ahead of its turn. *)
Theorem waitToSend_in_turn (c c' : CI) attempts addr target r :
  client_total -> (0 < attempts)%nat ->
  waitToSend attempts addr target c = (c', r) ->
  r <> Panic /\ unlocked_like c c' /\
  (r = Ret tt -> exists b, (PendingNonceAt (Client c) addr b).2 = Ret target) /\
  (r = Fail "already passed the seq" ->
    exists b n, (PendingNonceAt (Client c) addr b).2 = Ret n /\ target < n \/
    (PendingNonceAt (Client c) addr b).2 = Fail "already passed the seq").
Proof.
  intros (_ & _ & _ & _ & Hp & _) Ha. unfold waitToSend. rewrite Retry_spec by done. clear Ha.
  assert (forall n (c1 : CI), Client c1 = Client c -> unlocked_like c c1 ->
    forall s f r, retry_loop n (wait_op addr target) (c1, false) = ((s, f), r) ->
    r <> Panic /\ unlocked_like c s /\
    (f = false -> r = Ret tt -> exists b, (PendingNonceAt (Client c) addr b).2 = Ret target) /\
    (f = false -> r = Fail "already passed the seq" ->
      exists b, (PendingNonceAt (Client c) addr b).2 = Fail "already passed the seq") /\
    (f = true -> exists b n, (PendingNonceAt (Client c) addr b).2 = Ret n /\ target < n)) as Hloop.
  { induction n as [|n IH]; intros c1 Hc Hu s f r0; cbn [retry_loop]; unfold wait_op at 1;
    destruct (getPendingNonce_eq addr c1 (Hp _ _ _)) as (c2 & E & _ & Hc2 & Hr & Hw); rewrite E, Hc;
    pose proof (Hp (Client c) addr (node c1)) as Hpp;
    destruct (PendingNonceAt (Client c) addr (node c1)) as [w [m|e|]] eqn:EP; cbn [snd] in *; try done;
    assert (unlocked_like c c2) as Hu2 by (destruct Hu; split; congruence);
    try destruct (Z.eqb_spec m target) as [->|]; try destruct (Z.ltb_spec target m).
    all: try (intros; simplify_eq; split_and!; try done; intros; simplify_eq;
      try (exists (node c1); rewrite EP; done); exists (node c1), m; rewrite EP; done).
    all: intros; eapply (IH c2); [congruence|done|eassumption]. }
  destruct (retry_loop attempts _ _) as [[s f] r0] eqn:E.
  destruct (Hloop attempts c eq_refl (conj eq_refl eq_refl) _ _ _ E) as (Hn & Hu & H1 & H2 & H3).
  destruct r0 as [[]|e|]; [| |done]; destruct f; intros; simplify_eq; split_and!; try done; intros; simplify_eq.
  - destruct (H3 eq_refl) as (b & n & ? & ?). exists b, n. by left.
  - by apply H1.
  - destruct (H3 eq_refl) as (b & n & ? & ?). exists b, n. by left.
  - destruct (H2 eq_refl eq_refl) as (b & ?). exists b, 0. by right.
Qed.
End Properties.

(** ** A reference client, for the examples

    The world is the list of pending nonces the next queries read (the last
    one is repeated) with the transactions sent so far. *)
Definition ref_world : Type := list Z * list SignedTx.

Definition eth_client_ref : EthClient ref_world unit := {|
  Dial := fun _ => ret tt;
  BlockByNumber := fun _ n => ret (mkEthBlock (default 1000 n) []);
  BlockNumber := fun _ => ret 1000;
  ReceiptStatus := fun _ _ => ret 1;
  SuggestGasPrice := fun _ => ret 5;
  BalanceAt := fun _ _ => ret 1000000;
  PendingNonceAt := fun _ _ => fun w =>
    match w.1 with
    | [] => (w, Fail "no answer")
    | [n] => (w, Ret n)
    | n :: l => ((l, w.2), Ret n)
    end;
  SendTransaction := fun _ t => modify (fun w => (w.1, w.2 ++ [t])%list);
  SubscribeNewHead := fun _ => ret tt;
  TokenBalanceOf := fun _ _ _ => ret 7;
  TransferTx := fun _ _ token _ _ nonce => ret (mkLegacyTx nonce 5 60000 token 0 []);
|}.

Lemma client_total_ref : @client_total ref_world unit eth_client_ref.
Proof. repeat apply conj; try done. intros ? a [[|n [|m l]] s]; done. Qed.

Section Witnesses.
#[local] Existing Instance eth_client_ref.
#[local] Existing Instance backoff_ref.

Definition chain_ref (nonces : list Z) : ChainInfo ref_world unit :=
  mkChainInfo (nonces, []) tt "ws" "0xc0" "BSC" (Some 56) 0 false 0 [7; 8] [].

Lemma locked_calls_balanced_witness : (GetBlockByNumberWithLock (Some 4) (chain_ref [])).2 = Ret (mkEthBlock 4 []).
Proof.
  apply (locked_calls_balanced (chain_ref []) (Some 4) [] [] (mkSignedTx (mkLegacyTx 0 0 0 [] 0 []) []) client_total_ref).
Defined.

Lemma renew_keeps_headers_witness :
  writer (renewEthClientWithLock tt (chain_ref [])).1 = false.
Proof. apply (renew_keeps_headers (chain_ref []) tt client_total_ref). Defined.

Lemma waitToSend_in_turn_witness :
  (waitToSend 5 [] 9 (chain_ref [7; 8; 9])).2 = Ret tt /\ exists b, (PendingNonceAt tt [] b).2 = Ret 9.
Proof.
  assert ((waitToSend 5 [] 9 (chain_ref [7; 8; 9])).2 = Ret tt) as Hr by (vm_compute; reflexivity).
  split; [exact Hr|]. destruct (waitToSend 5 [] 9 (chain_ref [7; 8; 9])) as [c' r] eqn:E. cbn [snd] in Hr.
  apply (waitToSend_in_turn (chain_ref [7; 8; 9]) c' 5 [] 9 r client_total_ref); [|exact E|exact Hr].
  apply Nat.lt_0_succ.
Defined.
End Witnesses.
