(* ===== verification/Keysign.v ===== *)
(** * Batched key signing: pubchain/broadcast.go and the rounds of
    bridge/bridge_service.go ([processEachOutBound]) and pubchain/move_fund.go
    ([MoveFound])

    A round has [n] worker goroutines and one collector.  A worker subscribes
    to the broadcaster, puts the hash it wants signed on the request channel
    (capacity [n]) and waits for the broadcast; when it is through, signed or
    not, it puts "done" on the channel and unsubscribes.  The collector reads
    until it has heard from [n] workers, has the batch signed and broadcasts
    the result.  The round is a step relation over every interleaving. *)

From Stdlib Require Import Ascii String.
From S2P Require Import Prelude GoLib.

#[local] Open Scope string_scope.
#[local] Open Scope Z_scope.

(** ** Definitions *)

(** pubchain/broadcast.go: the buffer of each subscriber's channel, which has
    capacity one. *)
Definition Broadcaster (A : Type) : Type := gmap Z (list A).

Definition NewBroadcaster {A} : Broadcaster A := (∅ : gmap Z (list A)).

Definition Subscribe {A} (id : Z) (b : gmap Z (list A)) : outcome (gmap Z (list A)) :=
  match b !! id with
  | Some _ => Fail "signal already exist"
  | None => Ret (<[id := []]> b)
  end.

Definition Unsubscribe {A} (id : Z) (b : gmap Z (list A)) : gmap Z (list A) := delete id b.

Definition Broadcast {A} (r : A) (b : gmap Z (list A)) : gmap Z (list A) :=
  (fun buf => if (length buf =? 0)%nat then (buf ++ [r])%list else buf) <$> b.

Definition done_msg : bytes := bytes_of_string "done".
Definition none_msg : bytes := bytes_of_string "none".

(** A worker: not subscribed yet, before its request, waiting for the
    answer, answered, through with its work ([late] when it had asked for a
    signature), gone. *)
Inductive wstate (A : Type) :=
| WStart
| WRun
| WWait
| WFin (r : A)
| WPost (late : bool)
| WExit (late : bool).
Arguments WStart {A}. Arguments WRun {A}. Arguments WWait {A}.
Arguments WFin {A}. Arguments WPost {A}. Arguments WExit {A}.

(** The collector: reading, about to sign and broadcast, finished. *)
Inductive cstate (A : Type) :=
| Collect (received : gmap nat bytes)
| Sign (received : gmap nat bytes)
| Finished (received : gmap nat bytes) (r : A).
Arguments Collect {A}. Arguments Sign {A}. Arguments Finished {A}.

Record round (A : Type) := mkRound {
  workers : list (wstate A);
  tssReqChan : list (nat * bytes);
  bc : gmap Z (list A);
  collector : cstate A;
}.
Arguments mkRound {A}. Arguments workers {A}. Arguments tssReqChan {A}. Arguments bc {A}. Arguments collector {A}.

Definition start {A} (n : nat) : round A := mkRound (replicate n WStart) [] ∅ (Collect ∅).

(** What the collector passes to the signing service. *)
Definition batch (received : gmap nat bytes) : list bytes :=
  map snd (List.filter (fun kv => negb (bool_decide (none_msg = kv.2))) (map_to_list received)).

Section Round.
Context {A : Type} (n : nat).
(** The hash worker [i] wants signed, and what signing a batch answers: an
    error or a failed lookup of the latest block is an answer too. *)
Context (msg : nat -> bytes) (answer : list bytes -> A).

Inductive step : round A -> round A -> Prop :=
| step_subscribe i ws ch b b' c :
    ws !! i = Some WStart -> Subscribe (Z.of_nat i) b = Ret b' ->
    step (mkRound ws ch b c) (mkRound (<[i := WRun]> ws) ch b' c)
| step_request i ws ch b c :
    ws !! i = Some WRun -> (length ch < n)%nat ->
    step (mkRound ws ch b c) (mkRound (<[i := WWait]> ws) (ch ++ [(i, msg i)])%list b c)
| step_fail_early i ws ch b c :
    ws !! i = Some WRun -> (length ch < n)%nat ->
    step (mkRound ws ch b c) (mkRound (<[i := WPost false]> ws) (ch ++ [(i, done_msg)])%list b c)
| step_receive i r buf ws ch b c :
    ws !! i = Some WWait -> b !! Z.of_nat i = Some (r :: buf) ->
    step (mkRound ws ch b c) (mkRound (<[i := WFin r]> ws) ch (<[Z.of_nat i := buf]> b) c)
| step_done i r ws ch b c :
    ws !! i = Some (WFin r) -> (length ch < n)%nat ->
    step (mkRound ws ch b c) (mkRound (<[i := WPost true]> ws) (ch ++ [(i, done_msg)])%list b c)
| step_unsubscribe i late ws ch b c :
    ws !! i = Some (WPost late) ->
    step (mkRound ws ch b c) (mkRound (<[i := WExit late]> ws) ch (Unsubscribe (Z.of_nat i) b) c)
| step_collect i d ws ch b rcv :
    step (mkRound ws ((i, d) :: ch) b (Collect rcv))
      (mkRound ws ch b (if (n <=? size (<[i := d]> rcv))%nat then Sign (<[i := d]> rcv) else Collect (<[i := d]> rcv)))
| step_broadcast ws ch b rcv :
    step (mkRound ws ch b (Sign rcv))
      (mkRound ws ch (Broadcast (answer (batch rcv)) b) (Finished rcv (answer (batch rcv)))).

Inductive reached : round A -> Prop :=
| reached_start : reached (start n)
| reached_step s s' : reached s -> step s s' -> reached s'.

(** The round is over: the wait group's counter is zero. *)
Definition over (s : round A) : Prop :=
  Forall (fun w => exists late, w = WExit late) (workers s) /\ exists rcv r, collector s = Finished rcv r.
End Round.

(** ** The invariant *)

Definition sent {A} (w : wstate A) : nat :=
  match w with
  | WStart | WRun => 0
  | WWait | WFin _ => 1
  | WPost late | WExit late => if late then 2 else 1
  end.

Definition total_sent {A} (ws : list (wstate A)) : nat := sum_list (sent <$> ws).

Definition is_late {A} (w : wstate A) : bool :=
  match w with WFin _ => true | WPost late | WExit late => late | _ => false end.

(** The first message of a worker that has sent one. *)
Definition first_msg {A} (msg : nat -> bytes) (i : nat) (w : wstate A) : bytes :=
  match w with WPost false | WExit false => done_msg | _ => msg i end.

Definition received_of {A} (c : cstate A) : gmap nat bytes :=
  match c with Collect r | Sign r | Finished r _ => r end.

Definition finished {A} (c : cstate A) : bool := match c with Finished _ _ => true | _ => false end.

(** What the subscription of a worker holds. *)
Definition buffer_ok {A} (c : cstate A) (w : wstate A) (buf : option (list A)) : Prop :=
  match w with
  | WStart | WExit _ => buf = None
  | WWait => match c with Finished _ r => buf = Some [r] | _ => buf = Some [] end
  | WFin r => buf = Some [] /\ exists rcv, c = Finished rcv r
  | WRun => finished c = false /\ buf = Some []
  | WPost late => exists l, buf = Some l
  end.

Record inv {A} (n : nat) (msg : nat -> bytes) (s : round A) : Prop := mkInv {
  inv_len : length (workers s) = n;
  inv_buf : forall i w, workers s !! i = Some w -> buffer_ok (collector s) w (bc s !! Z.of_nat i);
  inv_early : finished (collector s) = false -> Forall (fun w => is_late w = false) (workers s);
  inv_count : (length (tssReqChan s) + size (received_of (collector s)) = total_sent (workers s))%nat;
  inv_senders : finished (collector s) = false -> forall i,
    (i ∈ map fst (tssReqChan s) \/ is_Some (received_of (collector s) !! i)) <->
    exists w, workers s !! i = Some w /\ sent w = 1%nat;
  inv_nodup : finished (collector s) = false ->
    NoDup (map fst (tssReqChan s)) /\ forall i, i ∈ map fst (tssReqChan s) -> received_of (collector s) !! i = None;
  inv_data : finished (collector s) = false -> forall i d,
    (i, d) ∈ tssReqChan s \/ received_of (collector s) !! i = Some d ->
    exists w, workers s !! i = Some w /\ d = first_msg msg i w;
  inv_coll : match collector s with
    | Collect rcv => (size rcv < n)%nat
    | Sign rcv | Finished rcv _ => size rcv = n /\ forall i, (i < n)%nat -> is_Some (rcv !! i)
    end;
  inv_fin : finished (collector s) = true -> Forall (fun w => (1 <= sent w)%nat) (workers s);
  (* the batch holds the first message of every worker, also once finished *)
  inv_batch : match collector s with
    | Finished rcv _ => forall i d w, rcv !! i = Some d -> workers s !! i = Some w -> d = first_msg msg i w
    | _ => True
    end;
}.

(** ** Lemmas *)

#[local] Arguments total_sent {A} ws : simpl never.
#[local] Arguments done_msg : simpl never.

Lemma sum_list_insert_le (l : list nat) i x y :
  l !! i = Some x -> (sum_list (<[i := y]> l) + x = sum_list l + y)%nat.
Proof.
  revert i. induction l as [|z l IH]; intros [|i] H; cbn in H; simplify_eq.
  - change (y + sum_list l + x = x + sum_list l + y)%nat. lia.
  - specialize (IH _ H). change (z + sum_list (<[i := y]> l) + x = z + sum_list l + y)%nat. lia.
Qed.

Lemma total_insert {A} (ws : list (wstate A)) i w w' :
  ws !! i = Some w -> (total_sent (<[i := w']> ws) + sent w = total_sent ws + sent w')%nat.
Proof.
  intros H. unfold total_sent. rewrite list_fmap_insert.
  apply sum_list_insert_le. by rewrite list_lookup_fmap, H.
Qed.

Lemma total_bound {A} (ws : list (wstate A)) k i w :
  Forall (fun w => (sent w <= k)%nat) ws -> ws !! i = Some w -> (sent w < k)%nat ->
  (total_sent ws < k * length ws)%nat.
Proof.
  intros H. revert i. induction H as [|x ws Hx H IH]; intros [|i] Hi Hw; try done.
  - cbn in Hi. simplify_eq. unfold total_sent. cbn.
    assert (sum_list (sent <$> ws) <= k * length ws)%nat; [|lia].
    clear -H. induction H; cbn; lia.
  - specialize (IH _ Hi Hw). unfold total_sent in *. cbn. lia.
Qed.

Lemma sent_le2 {A} (w : wstate A) : (sent w <= 2)%nat.
Proof. by destruct w as [| | | |[]|[]]; cbn; lia. Qed.

Lemma early_le1 {A} (ws : list (wstate A)) :
  Forall (fun w => is_late w = false) ws -> Forall (fun w => (sent w <= 1)%nat) ws.
Proof. intros H. eapply Forall_impl; [exact H|]. intros [| | | |[]|[]]; cbn; done || lia. Qed.

Lemma Broadcast_lookup {A} (r : A) b i :
  Broadcast r b !! i = (fun buf => if (length buf =? 0)%nat then (buf ++ [r])%list else buf) <$> (b !! i).
Proof. apply lookup_fmap. Qed.

Lemma Subscribe_ret {A} id (b b' : gmap Z (list A)) : Subscribe id b = Ret b' -> b !! id = None /\ b' = <[id := []]> b.
Proof. unfold Subscribe. destruct (b !! id); [done|]. by intros [= <-]. Qed.

Section Facts.
Context {A : Type} (n : nat) (msg : nat -> bytes) (answer : list bytes -> A).
Implicit Types (s : round A).

(** No send ever blocks: the channel has room for whoever may write to it. *)
Lemma room s i w : inv n msg s -> workers s !! i = Some w ->
  (w = WRun \/ exists r, w = WFin r) -> (length (tssReqChan s) < n)%nat.
Proof.
  intros HI Hi Hw. pose proof (inv_count _ _ _ HI) as Hc. pose proof (inv_buf _ _ _ HI _ _ Hi) as Hb.
  pose proof (inv_coll _ _ _ HI) as Hcoll. pose proof (inv_len _ _ _ HI) as Hlen.
  destruct Hw as [->|[r ->]]; cbn in Hb.
  - destruct Hb as [Hf _]. pose proof (early_le1 _ (inv_early _ _ _ HI Hf)) as He.
    pose proof (total_bound _ 1 _ _ He Hi). cbn in *. lia.
  - destruct Hb as (_ & rcv & Hr). rewrite Hr in *. cbn in *. destruct Hcoll as [Hs _].
    assert (Forall (fun w => (sent w <= 2)%nat) (workers s)) as H2 by (apply Forall_forall; intros; apply sent_le2).
    pose proof (total_bound _ 2 _ _ H2 Hi). cbn in *. lia.
Qed.

(** The buffers after a step of worker [i] that touches only its own. *)
Lemma buffers_insert (ws : list (wstate A)) (b b' : gmap Z (list A)) c i w' :
  (forall j w, ws !! j = Some w -> buffer_ok c w (b !! Z.of_nat j)) ->
  (forall j, j <> i -> b' !! Z.of_nat j = b !! Z.of_nat j) ->
  buffer_ok c w' (b' !! Z.of_nat i) ->
  forall j w, <[i := w']> ws !! j = Some w -> buffer_ok c w (b' !! Z.of_nat j).
Proof.
  intros Hb Hne Hi j w. destruct (decide (j = i)) as [->|Hji].
  - intros H. assert (w = w') as ->; [|done].
    apply list_lookup_insert_Some in H as [(_ & -> & _)|[? _]]; done.
  - rewrite list_lookup_insert_ne by done. intros H. rewrite Hne by done. by apply Hb.
Qed.

Lemma exists_insert (P : wstate A -> Prop) (ws : list (wstate A)) i w w' j :
  ws !! i = Some w -> (P w' <-> P w) ->
  (exists w0, <[i := w']> ws !! j = Some w0 /\ P w0) <-> (exists w0, ws !! j = Some w0 /\ P w0).
Proof.
  intros Hi HP. destruct (decide (j = i)) as [->|Hne].
  - rewrite list_lookup_insert_eq by (by eapply lookup_lt_Some). rewrite Hi.
    split; intros (w0 & [= <-] & H); eexists; (split; [done|]); by apply HP.
  - by rewrite list_lookup_insert_ne.
Qed.

Lemma Forall_insert_one (P : wstate A -> Prop) (ws : list (wstate A)) i w' :
  Forall P ws -> P w' -> Forall P (<[i := w']> ws).
Proof. intros. by apply Forall_insert. Qed.

(** A step of a worker that sends nothing. *)
Lemma inv_quiet i w w' ws ch (b b' : gmap Z (list A)) c :
  inv n msg (mkRound ws ch b c) -> ws !! i = Some w ->
  sent w' = sent w -> (forall j, first_msg msg j w' = first_msg msg j w) ->
  (finished c = false -> is_late w' = false) ->
  (forall j, j <> i -> b' !! Z.of_nat j = b !! Z.of_nat j) ->
  buffer_ok c w' (b' !! Z.of_nat i) ->
  inv n msg (mkRound (<[i := w']> ws) ch b' c).
Proof.
  intros HI Hi Hs Hf Hl Hb Hbi. destruct HI as [I1 I2 I3 I4 I5 I6 I7 I8 I9 I10]. cbn in *.
  split; cbn [workers tssReqChan bc collector].
  - by rewrite length_insert.
  - by eapply buffers_insert.
  - intros H. apply Forall_insert_one; auto.
  - rewrite I4. pose proof (total_insert ws i w w' Hi). lia.
  - intros H j. rewrite (I5 H j). symmetry. eapply (exists_insert (fun w => sent w = 1%nat)); [done|]. by rewrite Hs.
  - exact I6.
  - intros H j d Hd. apply (I7 H j d) in Hd. eapply (exists_insert (fun w => d = first_msg msg j w)); [done| |done]. by rewrite Hf.
  - exact I8.
  - intros H. apply Forall_insert_one; [by apply I9|]. rewrite Hs. specialize (I9 H). rewrite Forall_lookup in I9. by eapply I9.
  - destruct c as [|?|rcv r]; [done..|]. intros j d w0 Hj Hw0. destruct (decide (j = i)) as [->|Hne].
    + rewrite list_lookup_insert_eq in Hw0 by (by eapply lookup_lt_Some). injection Hw0 as <-. rewrite Hf. by apply I10.
    + rewrite list_lookup_insert_ne in Hw0 by done. by apply I10.
Qed.

(** The first message of a worker. *)
Lemma inv_send i w' ws ch (b : gmap Z (list A)) c :
  inv n msg (mkRound ws ch b c) -> ws !! i = Some WRun ->
  sent w' = 1%nat -> is_late w' = false -> buffer_ok c w' (b !! Z.of_nat i) ->
  inv n msg (mkRound (<[i := w']> ws) (ch ++ [(i, first_msg msg i w')])%list b c).
Proof.
  intros HI Hi Hs Hl Hb. destruct HI as [I1 I2 I3 I4 I5 I6 I7 I8 I9 I10]. cbn in *.
  destruct (I2 _ _ Hi) as [Hfin _]. specialize (I3 Hfin). specialize (I5 Hfin). specialize (I6 Hfin). specialize (I7 Hfin).
  assert (forall j, j <> i -> <[i := w']> ws !! j = ws !! j) as Hne by (intros; by apply list_lookup_insert_ne).
  assert (<[i := w']> ws !! i = Some w') as Heq by (apply list_lookup_insert_eq; by eapply lookup_lt_Some).
  assert (~ (i ∈ map fst ch \/ is_Some (received_of c !! i))) as Hnot.
  { rewrite I5. intros (w & Hw & Hs1). rewrite Hi in Hw. by injection Hw as <-. }
  split; cbn [workers tssReqChan bc collector].
  - by rewrite length_insert.
  - eapply buffers_insert; done.
  - intros _. by apply Forall_insert_one.
  - rewrite length_app. cbn. pose proof (total_insert ws i WRun w' Hi). cbn in *. lia.
  - intros _ j. rewrite map_app, elem_of_app. cbn. destruct (decide (j = i)) as [->|Hji].
    + split; [intros _|intros _; left; right; by left]. by exists w'.
    + rewrite list_elem_of_singleton, (Hne j Hji). specialize (I5 j). tauto.
  - intros _. destruct I6 as [Hnd Hn]. split.
    + rewrite map_app. apply NoDup_app. split; [done|]. split; [|apply NoDup_singleton].
      intros j Hj. cbn. rewrite list_elem_of_singleton. intros ->. tauto.
    + intros j. rewrite map_app, elem_of_app. cbn. rewrite list_elem_of_singleton. intros [Hj| ->]; [by apply Hn|].
      apply eq_None_not_Some. tauto.
  - intros _ j d. rewrite elem_of_app, list_elem_of_singleton. intros [[Hj|[= -> ->]]|Hj].
    + destruct (decide (j = i)) as [->|Hji]; [|rewrite (Hne j Hji); by apply I7; left].
      exfalso. apply Hnot. left. apply list_elem_of_fmap. by exists (i, d).
    + by exists w'.
    + destruct (decide (j = i)) as [->|Hji]; [|rewrite (Hne j Hji); by apply I7; right].
      exfalso. apply Hnot. right. by exists d.
  - exact I8.
  - intros H. by rewrite Hfin in H.
  - by destruct c.
Qed.

(** The last message of a worker that had its answer. *)
Lemma inv_late i r ws ch (b : gmap Z (list A)) c :
  inv n msg (mkRound ws ch b c) -> ws !! i = Some (WFin r) ->
  inv n msg (mkRound (<[i := WPost true]> ws) (ch ++ [(i, done_msg)])%list b c).
Proof.
  intros HI Hi. destruct HI as [I1 I2 I3 I4 I5 I6 I7 I8 I9 I10]. cbn in *.
  destruct (I2 _ _ Hi) as (Hb & rcv & ->).
  split; cbn [workers tssReqChan bc collector finished received_of] in *; try done.
  - by rewrite length_insert.
  - eapply buffers_insert; [done..|]. cbn. eauto.
  - rewrite length_app. cbn. pose proof (total_insert ws i (WFin r) (WPost true) Hi). cbn in *. lia.
  - intros H. apply Forall_insert_one; [by apply I9|]. cbn. lia.
  - intros j d w0 Hj Hw0. destruct (decide (j = i)) as [->|Hne].
    + rewrite list_lookup_insert_eq in Hw0 by (by eapply lookup_lt_Some). injection Hw0 as <-. by apply (I10 i d (WFin r)).
    + rewrite list_lookup_insert_ne in Hw0 by done. by apply I10.
Qed.

(** When the collector has heard from [n] workers it has heard from all. *)
Lemma collect_all (ws : list (wstate A)) (ch : list (nat * bytes)) (rcv : gmap nat bytes) :
  length ws = n -> Forall (fun w => is_late w = false) ws ->
  (length ch + size rcv = total_sent ws)%nat -> size rcv = n ->
  (forall i, (i ∈ map fst ch \/ is_Some (rcv !! i)) <-> exists w, ws !! i = Some w /\ sent w = 1%nat) ->
  forall i, (i < n)%nat -> is_Some (rcv !! i).
Proof.
  intros Hlen Hl%early_le1 Hc Hs Hsend i Hi.
  assert (total_sent ws <= n)%nat as Hle.
  { rewrite <- Hlen. clear -Hl. unfold total_sent. induction Hl; cbn; lia. }
  assert (ch = []) as -> by (destruct ch; [done|cbn in Hc; lia]).
  destruct (lookup_lt_is_Some_2 ws i) as [w Hw]; [lia|].
  assert (sent w = 1%nat) as Hs1.
  { destruct (decide (sent w < 1)%nat) as [Hlt|].
    - pose proof (total_bound ws 1 i w Hl Hw Hlt). cbn in *. lia.
    - rewrite Forall_lookup in Hl. specialize (Hl _ _ Hw). cbn in Hl. lia. }
  destruct (proj2 (Hsend i)) as [H|H]; [eauto|by apply not_elem_of_nil in H|done].
Qed.

Lemma inv_collected i d ws ch (b : gmap Z (list A)) rcv :
  inv n msg (mkRound ws ((i, d) :: ch) b (Collect rcv)) ->
  inv n msg (mkRound ws ch b
    (if (n <=? size (<[i := d]> rcv))%nat then Sign (<[i := d]> rcv) else Collect (<[i := d]> rcv))).
Proof.
  intros HI. destruct HI as [I1 I2 I3 I4 I5 I6 I7 I8 I9 I10]. cbn in *.
  specialize (I3 eq_refl). specialize (I5 eq_refl). specialize (I6 eq_refl). specialize (I7 eq_refl).
  destruct I6 as [[Hni Hnd]%NoDup_cons Hnone].
  assert (rcv !! i = None) as Hi by (apply Hnone; by left).
  assert (size (<[i := d]> rcv) = S (size rcv)) as Hsize by (by apply map_size_insert_None).
  assert (forall j, j ∈ map fst ch -> j <> i) as Hdiff by (intros j Hj ->; done).
  assert (length ch + size (<[i := d]> rcv) = total_sent ws)%nat as J4 by lia.
  assert (forall j, (j ∈ map fst ch \/ is_Some (<[i := d]> rcv !! j)) <-> exists w, ws !! j = Some w /\ sent w = 1%nat) as J5.
  { intros j. rewrite <- (I5 j), elem_of_cons, lookup_insert_is_Some'.
    clear. assert (i = j <-> j = i) by (split; congruence). tauto. }
  assert (NoDup (map fst ch) /\ forall j, j ∈ map fst ch -> <[i := d]> rcv !! j = None) as J6.
  { split; [done|]. intros j Hj. rewrite lookup_insert_ne; [|by apply not_eq_sym, Hdiff]. apply Hnone. by right. }
  assert (forall j e, (j, e) ∈ ch \/ <[i := d]> rcv !! j = Some e ->
    exists w, ws !! j = Some w /\ e = first_msg msg j w) as J7.
  { intros j e [H|H]; [apply I7; left; by right|].
    apply lookup_insert_Some in H as [[<- <-]|[_ H]]; apply I7; [left; by left|by right]. }
  assert (forall c, finished c = false -> forall j w, ws !! j = Some w -> buffer_ok c w (b !! Z.of_nat j)) as J2.
  { intros c Hc j w Hw. specialize (I2 _ _ Hw). destruct w; cbn in *; try done.
    - destruct I2 as [_ ?]. done.
    - by destruct c.
    - destruct I2 as (_ & ? & ?). done. }
  destruct (Nat.leb_spec n (size (<[i := d]> rcv))).
  - split; cbn [workers tssReqChan bc collector finished received_of]; auto; try done.
    assert (size (<[i := d]> rcv) = n) as Hs by lia. split; [done|]. by eapply (collect_all ws ch).
  - split; cbn [workers tssReqChan bc collector finished received_of]; auto; done.
Qed.

Lemma inv_broadcasted ws ch (b : gmap Z (list A)) rcv :
  inv n msg (mkRound ws ch b (Sign rcv)) ->
  inv n msg (mkRound ws ch (Broadcast (answer (batch rcv)) b) (Finished rcv (answer (batch rcv)))).
Proof.
  intros HI. destruct HI as [I1 I2 I3 I4 I5 I6 I7 I8 I9 I10]. cbn in *.
  specialize (I3 eq_refl). specialize (I5 eq_refl). specialize (I7 eq_refl). destruct I8 as [Hs Hall].
  assert (forall i w, ws !! i = Some w -> sent w = 1%nat) as Hsent.
  { intros i w Hw. destruct (proj1 (I5 i)) as (w' & Hw' & ?).
    - right. apply Hall. apply lookup_lt_Some in Hw. lia.
    - congruence. }
  split; cbn [workers tssReqChan bc collector finished received_of] in *; try done.
  - intros i w Hw. specialize (I2 _ _ Hw). specialize (Hsent _ _ Hw). rewrite Forall_lookup in I3. specialize (I3 _ _ Hw).
    rewrite Broadcast_lookup. destruct w as [| | |?|?|?]; cbn in *; try done.
    + by rewrite I2.
    + destruct I2 as [l ->]. cbn. eauto.
    + by rewrite I2.
  - intros _. apply Forall_lookup. intros i w Hw. rewrite (Hsent _ _ Hw). lia.
  - intros i d w Hd Hw. destruct (I7 i d) as (w' & Hw' & ->); [by right|]. congruence.
Qed.

Lemma inv_start : (0 < n)%nat -> inv n msg (start (A := A) n).
Proof.
  intros Hn. split; cbn.
  - apply length_replicate.
  - intros i w Hw. apply lookup_replicate in Hw as [-> _]. apply lookup_empty.
  - intros _. by apply Forall_replicate.
  - rewrite map_size_empty. unfold total_sent. clear. induction n; cbn; auto.
  - intros _ i. split.
    + intros [H|[d H]]; [by apply not_elem_of_nil in H|]. by rewrite lookup_empty in H.
    + intros (w & Hw & Hs). apply lookup_replicate in Hw as [-> _]. done.
  - intros _. split; [constructor|]. intros i H. by apply not_elem_of_nil in H.
  - intros _ i d [H|H]; [by apply not_elem_of_nil in H|]. by rewrite lookup_empty in H.
  - by rewrite map_size_empty.
  - done.
  - done.
Qed.

Lemma inv_step s s' : inv n msg s -> step n msg answer s s' -> inv n msg s'.
Proof.
  intros HI Hstep. destruct Hstep as
    [i ws ch b b' c Hi [Hb ->]%Subscribe_ret|i ws ch b c Hi Hl|i ws ch b c Hi Hl|i r buf ws ch b c Hi Hb
    |i r ws ch b c Hi Hl|i late ws ch b c Hi|i d ws ch b rcv|ws ch b rcv].
  - assert (finished c = false) as Hc.
    { destruct (finished c) eqn:Hc; [|done]. pose proof (inv_fin _ _ _ HI Hc) as Hf. cbn in Hf.
      rewrite Forall_lookup in Hf. specialize (Hf _ _ Hi). cbn in Hf. lia. }
    eapply inv_quiet; [exact HI|exact Hi|done..| |].
    + intros j Hj. apply lookup_insert_ne. lia.
    + cbn. split; [done|]. apply lookup_insert_eq.
  - pose proof (inv_buf _ _ _ HI _ _ Hi) as [Hc Hb]. cbn in Hc, Hb.
    apply (inv_send i WWait); try done. cbn. by destruct c.
  - pose proof (inv_buf _ _ _ HI _ _ Hi) as [Hc Hb]. cbn in Hc, Hb.
    apply (inv_send i (WPost false)); try done. cbn. eauto.
  - pose proof (inv_buf _ _ _ HI _ _ Hi) as Hw. cbn in Hw.
    destruct c as [rcv|rcv|rcv r0]; rewrite Hb in Hw; simplify_eq.
    eapply inv_quiet; [exact HI|exact Hi|done..| |].
    + intros j Hj. apply lookup_insert_ne. lia.
    + cbn. rewrite lookup_insert_eq. eauto.
  - eapply inv_late; done.
  - eapply inv_quiet; [exact HI|exact Hi|by destruct late|by destruct late| | |].
    + intros Hc. pose proof (inv_early _ _ _ HI Hc) as He. rewrite Forall_lookup in He. by apply (He _ _ Hi).
    + intros j Hj. apply lookup_delete_ne. lia.
    + apply lookup_delete_eq.
  - by apply inv_collected.
  - by apply inv_broadcasted.
Qed.

Lemma reached_inv s : (0 < n)%nat -> reached n msg answer s -> inv n msg s.
Proof. intros Hn. induction 1; [by apply inv_start|]. by eapply inv_step. Qed.

(** The answer a finished round carries is that of its batch. *)
Lemma reached_answer s : reached n msg answer s ->
  match collector s with Finished rcv r => r = answer (batch rcv) | _ => True end.
Proof.
  induction 1 as [|s s' _ IH Hstep]; [done|]. destruct Hstep; cbn in *; try done. by destruct (_ <=? _)%nat.
Qed.

(** *** Termination *)

Definition rank (w : wstate A) : nat :=
  match w with WStart => 5 | WRun => 4 | WWait => 3 | WFin _ => 2 | WPost _ => 1 | WExit _ => 0 end.

Definition measure s : nat :=
  2 * sum_list (rank <$> workers s) + length (tssReqChan s) +
  match collector s with Collect _ => 2 | Sign _ => 1 | Finished _ _ => 0 end.

Lemma rank_insert (ws : list (wstate A)) i w w' :
  ws !! i = Some w -> (sum_list (rank <$> <[i := w']> ws) + rank w = sum_list (rank <$> ws) + rank w')%nat.
Proof. intros H. rewrite list_fmap_insert. apply sum_list_insert_le. by rewrite list_lookup_fmap, H. Qed.

Lemma measure_step s s' : step n msg answer s s' -> (measure s' < measure s)%nat.
Proof.
  intros Hstep. destruct Hstep; unfold measure; cbn [workers tssReqChan bc collector];
    try (match goal with |- context [<[?i := ?w']> ?ws] => pose proof (rank_insert ws i _ w' ltac:(eassumption)) end;
         cbn [rank] in *); rewrite ?length_app; cbn [length]; try lia.
  destruct (_ <=? _)%nat; lia.
Qed.

(** *** Progress *)

Lemma busy_worker (ws : list (wstate A)) :
  Forall (fun w => exists late, w = WExit late) ws \/
  exists i w, ws !! i = Some w /\ forall late, w <> WExit late.
Proof.
  induction ws as [|w ws IH]; [by left|].
  destruct w as [| | |r|l|l]; try (right; exists 0%nat; eexists; split; [reflexivity|done]).
  destruct IH as [H|(i & w & Hi & Hw)]; [left; constructor; eauto|right; by exists (S i), w].
Qed.

Lemma silent_worker (ws : list (wstate A)) :
  (total_sent ws < length ws)%nat -> exists i w, ws !! i = Some w /\ sent w = 0%nat.
Proof.
  unfold total_sent. induction ws as [|w ws IH]; cbn; [lia|]. intros H.
  destruct (sent w) eqn:E; [by exists 0%nat, w|].
  destruct IH as (i & w' & Hi & Hs); [lia|]. by exists (S i), w'.
Qed.

Lemma progress s : inv n msg s -> over s \/ exists s', step n msg answer s s'.
Proof.
  intros HI. destruct s as [ws ch b c].
  assert (forall i, ws !! i = Some WStart -> exists s', step n msg answer (mkRound ws ch b c) s') as HStart.
  { intros i Hi. pose proof (inv_buf _ _ _ HI _ _ Hi) as Hb. cbn in Hb.
    eexists. eapply step_subscribe; [done|]. unfold Subscribe. by rewrite Hb. }
  assert (forall i, ws !! i = Some WRun -> exists s', step n msg answer (mkRound ws ch b c) s') as HRun.
  { intros i Hi. eexists. apply step_request; [done|].
    exact (room (mkRound ws ch b c) i WRun HI Hi (or_introl eq_refl)). }
  destruct c as [rcv|rcv|rcv r].
  - right. destruct ch as [|[i d] ch]; [|eexists; apply step_collect].
    pose proof (inv_count _ _ _ HI) as Hc. pose proof (inv_coll _ _ _ HI) as Hs. pose proof (inv_len _ _ _ HI) as Hl.
    cbn in Hc, Hs, Hl. destruct (silent_worker ws) as (i & w & Hi & Hw); [lia|].
    destruct w as [| | | |[]|[]]; cbn in Hw; try done; eauto.
  - right. eexists. apply step_broadcast.
  - destruct (busy_worker ws) as [H|(i & w & Hi & Hw)].
    { left. split; [done|]. eauto. }
    right. pose proof (inv_buf _ _ _ HI _ _ Hi) as Hb. cbn in Hb.
    destruct w as [| | |r'|l|l]; eauto.
    + eexists. by eapply step_receive.
    + eexists. eapply step_done; [done|].
      exact (room (mkRound ws ch b (Finished rcv r)) i (WFin r') HI Hi (or_intror (ex_intro _ r' eq_refl))).
    + eexists. by apply step_unsubscribe.
    + by destruct (Hw l).
Qed.
End Facts.

(** Executions of a given length. *)
Inductive steps {A} n msg (answer : list bytes -> A) : nat -> round A -> round A -> Prop :=
| steps_nil s : steps n msg answer 0 s s
| steps_cons k s s1 s' : step n msg answer s s1 -> steps n msg answer k s1 s' -> steps n msg answer (S k) s s'.

Lemma steps_bound {A} n msg (answer : list bytes -> A) k s s' :
  steps n msg answer k s s' -> (k + measure s' <= measure s)%nat.
Proof. induction 1 as [|k s s1 s' H _ IH]; [lia|]. apply measure_step in H. lia. Qed.

Lemma measure_start {A} n : measure (start (A := A) n) = (10 * n + 2)%nat.
Proof.
  unfold measure. cbn [start workers tssReqChan collector length]. rewrite fmap_replicate.
  assert (sum_list (replicate n (rank (@WStart A))) = 5 * n)%nat as ->; [|lia].
  induction n; cbn in *; lia.
Qed.

(** ** Properties *)

Section Properties.
Context {A : Type} (n : nat) (msg : nat -> bytes) (answer : list bytes -> A).

(** Fact (a signing round always ends). Whatever the interleaving and whichever
    workers fail before asking for a signature, a round with at least one
    worker never deadlocks: a state that is not the end of the round has a
    step, in particular no send on the request channel blocks for good, and
    no execution is longer than [10 * n + 2] steps. *)
Theorem round_ends k s :
  (0 < n)%nat -> steps n msg answer k (start n) s ->
  (k <= 10 * n + 2)%nat /\ (over s \/ exists s', step n msg answer s s').
Proof.
  intros Hn H. split.
  - pose proof (steps_bound _ _ _ _ _ _ H) as Hb. rewrite measure_start in Hb. lia.
  - apply progress. apply (reached_inv n msg answer); [done|].
    assert (forall k s s', reached n msg answer s -> steps n msg answer k s s' -> reached n msg answer s') as Hr.
    { intros k0 s0 s1 Hs0 Hs1. revert Hs0. induction Hs1; [done|]. intros ?. apply IHHs1. by eapply reached_step. }
    eapply Hr; [constructor|done].
Qed.

(** C33 (what a round signs). Once the broadcast is made, the batch was built
    from exactly one message of every worker: the hash it asked to have
    signed, or "done" when it failed before asking.  Every worker that asked
    gets the same answer, that of the batch. *)
Theorem round_batch s rcv r :
  (0 < n)%nat -> reached n msg answer s -> collector s = Finished rcv r ->
  r = answer (batch rcv) /\
  (forall i, (i < n)%nat -> exists w, workers s !! i = Some w /\ rcv !! i = Some (first_msg msg i w)) /\
  (forall i r', workers s !! i = Some (WFin r') -> r' = r) /\
  (forall i, workers s !! i = Some WWait -> bc s !! Z.of_nat i = Some [r]).
Proof.
  intros Hn Hr Hc. pose proof (reached_answer n msg answer s Hr) as Ha. rewrite Hc in Ha.
  pose proof (reached_inv n msg answer s Hn Hr) as HI.
  pose proof (inv_coll _ _ _ HI) as Hcoll. rewrite Hc in Hcoll.
  pose proof (inv_batch _ _ _ HI) as Hb. rewrite Hc in Hb.
  split; [done|]. split; [|split].
  - intros i Hi. destruct (proj2 Hcoll i Hi) as [d Hd].
    destruct (lookup_lt_is_Some_2 (workers s) i) as [w Hw]; [by rewrite (inv_len _ _ _ HI)|].
    exists w. split; [done|]. rewrite Hd. f_equal. by eapply Hb.
  - intros i r' Hi. pose proof (inv_buf _ _ _ HI _ _ Hi) as Hw. cbn in Hw.
    destruct Hw as (_ & rcv' & Hw). congruence.
  - intros i Hi. pose proof (inv_buf _ _ _ HI _ _ Hi) as Hw. cbn in Hw. by rewrite Hc in Hw.
Qed.

(** Fact ("done" is signed). A worker that fails before asking for a signature
    makes the collector pass the four bytes "done" to the signing service as
    if they were a hash: the filter looks for "none", which no worker sends. *)
Theorem failed_worker_is_signed s rcv r i late :
  (0 < n)%nat -> reached n msg answer s -> collector s = Finished rcv r ->
  late = false -> workers s !! i = Some (WPost late) \/ workers s !! i = Some (WExit late) ->
  done_msg ∈ batch rcv /\ r = answer (batch rcv).
Proof.
  intros Hn Hr Hc -> Hw. pose proof (reached_answer n msg answer s Hr) as Ha. rewrite Hc in Ha.
  pose proof (reached_inv n msg answer s Hn Hr) as HI. split; [|done].
  assert (i < n)%nat as Hi.
  { rewrite <- (inv_len _ _ _ HI). destruct Hw as [H|H]; by eapply lookup_lt_Some. }
  pose proof (inv_coll _ _ _ HI) as Hcoll. rewrite Hc in Hcoll. destruct (proj2 Hcoll i Hi) as [d Hd].
  pose proof (inv_batch _ _ _ HI) as Hb. rewrite Hc in Hb.
  assert (d = done_msg) as ->.
  { destruct Hw as [H|H]; by rewrite (Hb _ _ _ Hd H). }
  unfold batch. apply list_elem_of_fmap. exists (i, done_msg). split; [done|].
  apply list_elem_of_In, filter_In. split; [|done]. apply list_elem_of_In. by apply elem_of_map_to_list.
Qed.
End Properties.

(** ** Witnesses: one worker, that fails, and one that is served *)

Definition msg0 (i : nat) : bytes := [byte_of (Z.of_nat i)].

Definition run_failed : round nat :=
  mkRound [WPost false] [] {[ 0 := [1%nat] ]} (Finished {[ 0%nat := done_msg ]} 1%nat).

Lemma run_failed_reached : reached 1 msg0 (fun l => length l) run_failed.
Proof.
  eapply reached_step; [|exact (step_broadcast 1 msg0 (fun l => length l) [WPost false] [] {[ 0 := [] ]} {[ 0%nat := done_msg ]})].
  eapply reached_step; [|exact (step_collect 1 msg0 (fun l => length l) 0 done_msg [WPost false] [] {[ 0 := [] ]} ∅)].
  eapply reached_step; [|exact (step_fail_early 1 msg0 (fun l => length l) 0 [WRun] [] {[ 0 := [] ]} (Collect ∅) eq_refl (Nat.lt_0_succ 0))].
  eapply reached_step; [apply reached_start|].
  exact (step_subscribe 1 msg0 (fun l => length l) 0 [WStart] [] ∅ {[ 0 := [] ]} (Collect ∅) eq_refl eq_refl).
Qed.

Lemma round_ends_witness : (0 <= 10 * 3 + 2)%nat /\
  (over (start (A := nat) 3) \/ exists s', step 3 msg0 (fun l => length l) (start 3) s').
Proof. apply (round_ends 3 msg0 (fun l => length l) 0 (start 3)); [lia|constructor]. Defined.

Lemma round_batch_witness : exists w, workers run_failed !! 0%nat = Some w /\
  ({[ 0%nat := done_msg ]} : gmap nat bytes) !! 0%nat = Some (first_msg msg0 0 w).
Proof.
  apply (round_batch 1 msg0 (fun l => length l) run_failed {[ 0%nat := done_msg ]} 1%nat);
    [lia|exact run_failed_reached|reflexivity|lia].
Defined.

Lemma failed_worker_is_signed_witness : done_msg ∈ batch {[ 0%nat := done_msg ]}.
Proof.
  apply (failed_worker_is_signed 1 msg0 (fun l => length l) run_failed {[ 0%nat := done_msg ]} 1%nat 0 false);
    [lia|exact run_failed_reached|reflexivity|reflexivity|left; reflexivity].
Defined.
