(* ===== verification/Goroutine.v ===== *)
(** * Goroutines: groups of them behind a wait group, and signing rounds

    The source starts a goroutine per request in five places and waits for
    all of them.  A goroutine is a program of atomic actions on the shared
    state ([Act]: one remote call, one queue operation behind its lock, one
    atomic counter) and, in the signing rounds, of operations on the
    broadcaster and the request channel.  A group runs under any
    interleaving.  This file holds the language, the two interleaving
    semantics, a rely-guarantee logic for the shared state, termination, and
    the refinement from a signing round of programs to the protocol of
    Keysign.v. *)

From Stdlib Require Import Ascii String.
From S2P Require Import Prelude GoLib Sdk Keysign.

#[local] Open Scope Z_scope.
#[local] Open Scope go_scope.

(** ** Definitions *)

(** [St] is what the goroutines share, [Rp] what the broadcaster delivers.  The
    continuation of an action gets its result or its error; a panic ends the
    process and has none. *)
Inductive go (St Rp A : Type) : Type :=
| Return (a : A)
| Act {B : Type} (m : M St B) (k : B + string -> go St Rp A)
| Sub (k : go St Rp A)
| Send (d : bytes) (k : go St Rp A)
| Recv (k : Rp -> go St Rp A)
| Unsub (k : go St Rp A).
Arguments Return {St Rp A}. Arguments Act {St Rp A B}. Arguments Sub {St Rp A}.
Arguments Send {St Rp A}. Arguments Recv {St Rp A}. Arguments Unsub {St Rp A}.

Section Programs.
Context {St Rp : Type}.

Fixpoint gbind {A B} (p : go St Rp A) (f : A -> go St Rp B) : go St Rp B :=
  match p with
  | Return a => f a
  | Act m k => Act m (fun r => gbind (k r) f)
  | Sub k => Sub (gbind k f)
  | Send d k => Send d (gbind k f)
  | Recv k => Recv (fun r => gbind (k r) f)
  | Unsub k => Unsub (gbind k f)
  end.

Definition act {B} (m : M St B) : go St Rp (B + string) := Act m Return.

(** The documented behaviour of [backoff.Retry] with [n] retries, between whose
    runs of [op] the other goroutines may act.  What a successful run leaves
    in the variables of the closure is its result. *)
Fixpoint retry_go_loop {A} (n : nat) (op : go St Rp (A + string)) : go St Rp (A + string) :=
  gbind op (fun r =>
    match r, n with
    | inr _, Datatypes.S n => retry_go_loop n op
    | _, _ => Return r
    end).

(** The program with nothing in between, [resp] being what it receives. *)
Fixpoint alone {A} (resp : Rp) (p : go St Rp A) : M St A :=
  match p with
  | Return a => ret a
  | Act m k => let! r := try m in alone resp (k r)
  | Sub k | Send _ k | Unsub k => alone resp k
  | Recv k => alone resp (k resp)
  end.
End Programs.

Class GoBackoff := {
  retry_go : forall {St Rp A : Type}, nat -> go St Rp (A + string) -> go St Rp (A + string);
}.
Class GoBackoffLaws (K : GoBackoff) : Prop := {
  retry_go_spec : forall (St Rp A : Type) n (op : go St Rp (A + string)), (0 < n)%nat -> retry_go n op = retry_go_loop n op;
}.
Definition go_backoff_ref : GoBackoff := {| retry_go := fun St Rp A n op => retry_go_loop n op |}.

Notation "'let^' x ':=' m 'in' k" := (gbind m (fun x => k))
  (at level 10, x pattern, m at level 100, k at level 200) : go_scope.
Notation "'do^' m 'in' k" := (gbind m (fun _ => k))
  (at level 10, m at level 100, k at level 200) : go_scope.

(** *** A group: [wg.Add(n)], [n] goroutines, [wg.Wait()]

    Only actions: the goroutines of a group do not talk to each other. *)
Section Group.
Context {St Rp : Type}.
#[local] Notation P := (go St Rp unit).

Inductive gstep : St * list P -> St * list P -> Prop :=
| gstep_act i B (m : M St B) k r s s' ts :
    ts !! i = Some (Act m k) -> try m s = (s', Ret r) -> gstep (s, ts) (s', <[i := k r]> ts).

(** Some goroutine's next action panics. *)
Definition gcrash (c : St * list P) : Prop :=
  exists i B (m : M St B) k, c.2 !! i = Some (Act m k) /\ (m c.1).2 = Panic.

(** [wg.Wait()] has returned in [s']. *)
Definition group_runs (ts : list P) (s s' : St) : Prop :=
  exists ts', rtc gstep (s, ts) (s', ts') /\ Forall (fun p => p = Return tt) ts'.

(** A schedule names the goroutine to move next; one that cannot move is
    skipped. *)
Definition gmove (i : nat) (c : St * list P) : St * list P :=
  match c.2 !! i with
  | Some (Act m k) =>
      match try m c.1 with
      | (s', Ret r) => (s', <[i := k r]> c.2)
      | _ => c
      end
  | _ => c
  end.
Definition gsched (l : list nat) (c : St * list P) : St * list P := fold_left (fun c i => gmove i c) l c.
Definition all_returned (ts : list P) : bool := forallb (fun p => match p with Return _ => true | _ => false end) ts.
End Group.

(** *** A signing round of programs

    [n] workers, the request channel of capacity [n], the broadcaster, and the
    collector: it reads until it has heard from [n] workers, then runs
    [sign] and broadcasts its result. *)
Inductive collecting (St Rp : Type) : Type :=
| Reading (received : gmap nat bytes)
| Signing (received : gmap nat bytes) (p : go St Rp Rp)
| Stopped (received : gmap nat bytes) (r : Rp).
Arguments Reading {St Rp}. Arguments Signing {St Rp}. Arguments Stopped {St Rp}.

Record sys (St Rp : Type) := mkSys {
  shared : St;
  progs : list (go St Rp unit);
  reqs : list (nat * bytes);
  subs : gmap Z (list Rp);
  coll : collecting St Rp;
}.
Arguments mkSys {St Rp}. Arguments shared {St Rp}. Arguments progs {St Rp}. Arguments reqs {St Rp}.
Arguments subs {St Rp}. Arguments coll {St Rp}.

Section Rounds.
Context {St Rp : Type} (n : nat) (sign : gmap nat bytes -> go St Rp Rp).
#[local] Notation SY := (sys St Rp).

Definition boot (s : St) (ps : list (go St Rp unit)) : SY := mkSys s ps [] NewBroadcaster (Reading ∅).

Inductive sstep : SY -> SY -> Prop :=
| sstep_act i B (m : M St B) k r s s' ps ch b c :
    ps !! i = Some (Act m k) -> try m s = (s', Ret r) ->
    sstep (mkSys s ps ch b c) (mkSys s' (<[i := k r]> ps) ch b c)
| sstep_sub i k s ps ch b b' c :
    ps !! i = Some (Sub k) -> Subscribe (Z.of_nat i) b = Ret b' ->
    sstep (mkSys s ps ch b c) (mkSys s (<[i := k]> ps) ch b' c)
| sstep_send i d k s ps ch b c :
    ps !! i = Some (Send d k) -> (length ch < n)%nat ->
    sstep (mkSys s ps ch b c) (mkSys s (<[i := k]> ps) (ch ++ [(i, d)])%list b c)
| sstep_recv i k r buf s ps ch b c :
    ps !! i = Some (Recv k) -> b !! Z.of_nat i = Some (r :: buf) ->
    sstep (mkSys s ps ch b c) (mkSys s (<[i := k r]> ps) ch (<[Z.of_nat i := buf]> b) c)
| sstep_unsub i k s ps ch b c :
    ps !! i = Some (Unsub k) ->
    sstep (mkSys s ps ch b c) (mkSys s (<[i := k]> ps) ch (Unsubscribe (Z.of_nat i) b) c)
| sstep_collect i d s ps ch b rcv :
    sstep (mkSys s ps ((i, d) :: ch) b (Reading rcv))
      (mkSys s ps ch b (if (n <=? size (<[i := d]> rcv))%nat
        then Signing (<[i := d]> rcv) (sign (<[i := d]> rcv)) else Reading (<[i := d]> rcv)))
| sstep_sign B (m : M St B) k r s s' ps ch b rcv :
    try m s = (s', Ret r) ->
    sstep (mkSys s ps ch b (Signing rcv (Act m k))) (mkSys s' ps ch b (Signing rcv (k r)))
| sstep_broadcast r s ps ch b rcv :
    sstep (mkSys s ps ch b (Signing rcv (Return r))) (mkSys s ps ch (Broadcast r b) (Stopped rcv r)).

(** A schedule names a worker or the collector; one that cannot move is
    skipped. *)
Definition smove (w : option nat) (y : SY) : SY :=
  let '(mkSys s ps ch b c) := y in
  match w with
  | Some i =>
      match ps !! i with
      | Some (Act m k) =>
          match try m s with (s', Ret r) => mkSys s' (<[i := k r]> ps) ch b c | _ => y end
      | Some (Sub k) =>
          match Subscribe (Z.of_nat i) b with Ret b' => mkSys s (<[i := k]> ps) ch b' c | _ => y end
      | Some (Send d k) =>
          if (length ch <? n)%nat then mkSys s (<[i := k]> ps) (ch ++ [(i, d)])%list b c else y
      | Some (Recv k) =>
          match b !! Z.of_nat i with
          | Some (r :: buf) => mkSys s (<[i := k r]> ps) ch (<[Z.of_nat i := buf]> b) c
          | _ => y
          end
      | Some (Unsub k) => mkSys s (<[i := k]> ps) ch (Unsubscribe (Z.of_nat i) b) c
      | _ => y
      end
  | None =>
      match c, ch with
      | Reading rcv, (i, d) :: ch =>
          mkSys s ps ch b (if (n <=? size (<[i := d]> rcv))%nat
            then Signing (<[i := d]> rcv) (sign (<[i := d]> rcv)) else Reading (<[i := d]> rcv))
      | Signing rcv (Act m k), _ =>
          match try m s with (s', Ret r) => mkSys s' ps ch b (Signing rcv (k r)) | _ => y end
      | Signing rcv (Return r), _ => mkSys s ps ch (Broadcast r b) (Stopped rcv r)
      | _, _ => y
      end
  end.
Definition ssched (l : list (option nat)) (y : SY) : SY := fold_left (fun y w => smove w y) l y.
Definition sover_b (y : SY) : bool :=
  all_returned (progs y) && match coll y with Stopped _ _ => true | _ => false end.

(** The next action of some goroutine panics. *)
Inductive scrash : SY -> Prop :=
| scrash_act i B (m : M St B) k s ps ch b c :
    ps !! i = Some (Act m k) -> (m s).2 = Panic -> scrash (mkSys s ps ch b c)
| scrash_sign B (m : M St B) k s ps ch b rcv :
    (m s).2 = Panic -> scrash (mkSys s ps ch b (Signing rcv (Act m k))).

(** [tssWaitGroup.Wait()] has returned. *)
Definition sover (y : SY) : Prop :=
  Forall (fun p => p = Return tt) (progs y) /\ exists rcv r, coll y = Stopped rcv r.
End Rounds.

(** *** Which programs follow the workers' protocol of Keysign.v

    [steps_to w p Q]: started in the phase [w], the program takes the steps of
    the protocol, and ends with a value and a phase that satisfy [Q]. *)
Section Protocol.
Context {St Rp : Type}.

Fixpoint steps_to {A} (w : wstate Rp) (p : go St Rp A) (Q : wstate Rp -> A -> Prop) : Prop :=
  match p with
  | Return a => Q w a
  | Act m k => forall r, steps_to w (k r) Q
  | Sub k => w = WStart /\ steps_to WRun k Q
  | Send d k =>
      (w = WRun /\ (steps_to WWait k Q \/ d = done_msg /\ steps_to (WPost false) k Q)) \/
      (exists r, w = WFin r /\ d = done_msg /\ steps_to (WPost true) k Q)
  | Recv k => w = WWait /\ forall r, steps_to (WFin r) (k r) Q
  | Unsub k => exists late, w = WPost late /\ steps_to (WExit late) k Q
  end.

Definition worker_of (w : wstate Rp) (p : go St Rp unit) : Prop :=
  steps_to w p (fun w _ => exists late, w = WExit late).

(** What the collector runs does not touch the channels. *)
Fixpoint only_acts {A} (p : go St Rp A) : Prop :=
  match p with
  | Return _ => True
  | Act m k => forall r, only_acts (k r)
  | _ => False
  end.
End Protocol.

(** No action of the program can panic, in any state and whatever was received. *)
Fixpoint calm {St Rp A} (p : go St Rp A) : Prop :=
  match p with
  | Return _ => True
  | Act m k => (forall s, (m s).2 <> Panic) /\ forall r, calm (k r)
  | Sub k | Send _ k | Unsub k => calm k
  | Recv k => forall r, calm (k r)
  end.

(** Every action of the program satisfies [P]. *)
Fixpoint acts {St Rp A} (P : forall B, M St B -> Prop) (p : go St Rp A) : Prop :=
  match p with
  | Return _ => True
  | Act m k => P _ m /\ forall r, acts P (k r)
  | Sub k | Send _ k | Unsub k => acts P k
  | Recv k => forall r, acts P (k r)
  end.

(** The value the program ends with satisfies [Q], whatever its actions find
    and whatever it receives. *)
Fixpoint yields {St Rp A} (p : go St Rp A) (Q : A -> Prop) : Prop :=
  match p with
  | Return a => Q a
  | Act m k => forall s s' r, try m s = (s', Ret r) -> yields (k r) Q
  | Sub k | Send _ k | Unsub k => yields k Q
  | Recv k => forall r, yields (k r) Q
  end.

(** Whatever its actions find, what the program puts on the request channel
    satisfies [D]. *)
Fixpoint sends {St Rp A} (D : bytes -> Prop) (p : go St Rp A) : Prop :=
  match p with
  | Return _ => True
  | Act m k => forall s s' r, try m s = (s', Ret r) -> sends D (k r)
  | Sub k | Unsub k => sends D k
  | Send d k => D d /\ sends D k
  | Recv k => forall r, sends D (k r)
  end.

(** The program on a larger state, of which [on] gives it its part. *)
Fixpoint glift {St St' Rp A} (on : forall B, M St B -> M St' B) (p : go St Rp A) : go St' Rp A :=
  match p with
  | Return a => Return a
  | Act m k => Act (on _ m) (fun r => glift on (k r))
  | Sub k => Sub (glift on k)
  | Send d k => Send d (glift on k)
  | Recv k => Recv (fun r => glift on (k r))
  | Unsub k => Unsub (glift on k)
  end.

(** [on] runs a computation on its part of the state. *)
Class OnPart {St St'} (on : forall B, M St B -> M St' B) (part : St' -> St) (put : St -> St' -> St') : Prop := {
  on_part : forall B (m : M St B) s, on B m s = (put (m (part s)).1 s, (m (part s)).2);
  part_put : forall a s, part (put a s) = a;
  put_put : forall a b s, put b (put a s) = put b s;
  put_part : forall s, put (part s) s = s;
}.

(** *** A rely-guarantee logic

    [G] is what every action does to the shared state, of whichever
    goroutine; [safe p Q s]: from a state [s] on, with actions of the others
    between any two of its own, the program's actions are in [G] and it ends
    in [Q]. *)
Section Safe.
Context {St Rp : Type} (G : St -> St -> Prop).

Fixpoint safe {A} (p : go St Rp A) (Q : A -> St -> Prop) (s : St) : Prop :=
  match p with
  | Return a => Q a s
  | Act m k => forall s1, G s s1 -> forall s2 r, try m s1 = (s2, Ret r) -> G s1 s2 /\ safe (k r) Q s2
  | Sub k | Send _ k | Unsub k => safe k Q s
  | Recv k => forall r, safe (k r) Q s
  end.
End Safe.

(** ** Lemmas: programs *)

Section ProgramLemmas.
Context {St Rp : Type}.

Lemma alone_bind {A B} resp (p : go St Rp A) (f : A -> go St Rp B) s :
  alone resp (gbind p f) s = bind (alone resp p) (fun a => alone resp (f a)) s.
Proof.
  revert s. induction p as [a|B' m k IH|k IH|d k IH|k IH|k IH]; intros s; cbn [gbind alone]; auto.
  unfold bind. destruct (try m s) as [s1 [r|e|]]; [apply IH|done..].
Qed.

Lemma alone_bind_same {A B} resp (p : go St Rp A) (f : A -> go St Rp B) m k s :
  alone resp p s = m s -> (forall a s, alone resp (f a) s = k a s) -> alone resp (gbind p f) s = bind m k s.
Proof. intros Hp Hf. rewrite alone_bind. unfold bind. rewrite Hp. destruct (m s) as [s1 [a|e|]]; done || apply Hf. Qed.

(** A deferred [Unsubscribe]. *)
Lemma alone_deferred resp (p : go St Rp unit) s : alone resp (gbind p (fun _ => Unsub (Return tt))) s = alone resp p s.
Proof. rewrite alone_bind. unfold bind. by destruct (alone resp p s) as [s1 [[]|e|]]. Qed.

Lemma alone_act {B} resp (m : M St B) s : alone (Rp := Rp) resp (act m) s = try m s.
Proof. unfold act. cbn [alone]. unfold bind, ret. by destruct (try m s) as [s1 [r|e|]]. Qed.

Lemma try_not_fail {B} (m : M St B) s s' e : try m s <> (s', Fail e).
Proof. unfold try. destruct (m s) as [s1 [b|e'|]]; by intros [=]. Qed.

Lemma alone_no_fail {A} resp (p : go St Rp A) s s' e : alone resp p s <> (s', Fail e).
Proof.
  revert s. induction p as [a|B' m k IH|k IH|d k IH|k IH|k IH]; intros s; cbn [alone]; [by intros [=]| |apply IH..].
  unfold bind. destruct (try m s) as [s1 [r|e'|]] eqn:Em; [apply IH|by apply try_not_fail in Em|by intros [=]].
Qed.

(** Retrying with nothing in between is [retry_loop]; [x] is the closure's
    variable, which only a successful run writes. *)
Lemma alone_retry {X} resp n (op : go St Rp (X + string)) (m : M (St * X) unit) s x :
  (forall s, alone resp op s = (fst (fst (m (s, x))),
     match snd (m (s, x)) with Ret _ => Ret (inl (snd (fst (m (s, x))))) | Fail e => Ret (inr e) | Panic => Panic end) /\
     (is_ret (snd (m (s, x))) = false -> snd (fst (m (s, x))) = x)) ->
  alone resp (retry_go_loop n op) s = (fst (fst (retry_loop n m (s, x))),
     match snd (retry_loop n m (s, x)) with
     | Ret _ => Ret (inl (snd (fst (retry_loop n m (s, x))))) | Fail e => Ret (inr e) | Panic => Panic end) /\
  (is_ret (snd (retry_loop n m (s, x))) = false -> snd (fst (retry_loop n m (s, x))) = x).
Proof.
  intros Hop. revert s. induction n as [|n IH]; intros s; cbn [retry_go_loop retry_loop];
    rewrite alone_bind; unfold bind; destruct (Hop s) as [-> Hx]; destruct (m (s, x)) as [[s1 x1] [[]|e|]]; cbn in *;
    try (by split; [|auto]).
  rewrite (Hx eq_refl). apply IH.
Qed.

(** Actions that leave no result behind need no closure variable. *)
Lemma alone_retry_act resp n (m : M St unit) s :
  alone (Rp := Rp) resp (retry_go_loop n (act m)) s = try (retry_loop n m) s.
Proof.
  revert s. induction n as [|n IH]; intros s; cbn [retry_go_loop retry_loop]; rewrite alone_bind; unfold bind;
    rewrite alone_act; unfold try at 1; destruct (m s) as [s1 [[]|e|]] eqn:Em; cbn [ocatch];
    try rewrite IH; unfold try; cbn [retry_loop]; rewrite Em; reflexivity.
Qed.

(** A loop that starts one goroutine per element. *)
Lemma alone_forM {X} resp (f : X -> go St Rp unit) (g : X -> M St unit) l s :
  (forall x s, x ∈ l -> alone resp (f x) s = g x s) -> forM (map f l) (alone resp) s = forM l g s.
Proof.
  revert s. induction l as [|x l IH]; intros s H; cbn [map forM]; [done|]. unfold bind. rewrite H by left.
  destruct (g x s) as [s1 [[]|e|]]; [|done..]. apply IH. intros. apply H. by right.
Qed.

Lemma steps_to_bind {A B} (p : go St Rp A) (f : A -> go St Rp B) w Q :
  steps_to w p (fun w' a => steps_to w' (f a) Q) -> steps_to w (gbind p f) Q.
Proof.
  revert w. induction p as [a|B' m k IH|k IH|d k IH|k IH|k IH]; intros w; cbn [gbind steps_to]; auto.
  - intros [? ?]; auto.
  - intros [(? & [?|[? ?]])|(r & ? & ? & ?)]; [left; auto|left; auto|right; eauto].
  - intros [? ?]; auto.
  - intros (l & ? & ?); eauto.
Qed.

Lemma steps_to_mono {A} (p : go St Rp A) w (Q Q' : wstate Rp -> A -> Prop) :
  (forall w a, Q w a -> Q' w a) -> steps_to w p Q -> steps_to w p Q'.
Proof.
  intros HQ. revert w. induction p as [a|B' m k IH|k IH|d k IH|k IH|k IH]; intros w; cbn [steps_to]; auto.
  - intros [? ?]; auto.
  - intros [(? & [?|[? ?]])|(r & ? & ? & ?)]; [left; auto|left; auto|right; eauto].
  - intros [? ?]; auto.
  - intros (l & ? & ?); eauto.
Qed.

(** A program of actions stays in its phase. *)
Lemma only_acts_steps {A} (p : go St Rp A) w (Q : wstate Rp -> A -> Prop) :
  only_acts p -> (forall a, Q w a) -> steps_to w p Q.
Proof. induction p; cbn; try done; auto. Qed.

Lemma only_acts_bind {A B} (p : go St Rp A) (f : A -> go St Rp B) :
  only_acts p -> (forall a, only_acts (f a)) -> only_acts (gbind p f).
Proof. induction p; cbn; try done; auto. Qed.

Lemma only_acts_retry {A} n (op : go St Rp (A + string)) : only_acts op -> only_acts (retry_go_loop n op).
Proof. intros Hop. induction n as [|n IH]; cbn; apply only_acts_bind; try done; by intros [a|e]. Qed.

Lemma acts_bind P {A B} (p : go St Rp A) (f : A -> go St Rp B) : acts P p -> (forall a, acts P (f a)) -> acts P (gbind p f).
Proof. intros Hp Hf. induction p; cbn in *; try done; auto. split; [apply Hp|]. intros r. apply H, Hp. Qed.

Lemma acts_mono (P Q : forall B, M St B -> Prop) {A} (p : go St Rp A) : (forall B m, P B m -> Q B m) -> acts P p -> acts Q p.
Proof. intros HPQ. induction p; cbn; try done; auto. intros [? ?]. auto. Qed.

Lemma acts_retry P {A} n (op : go St Rp (A + string)) : acts P op -> acts P (retry_go_loop n op).
Proof. intros Hop. induction n as [|n IH]; cbn; apply acts_bind; try done; by intros [a|e]. Qed.

Lemma acts_glift_if {St'} P (on : forall B, M St' B -> M St B) {A} (p : go St' Rp A) : acts (fun B m => P B (on B m)) p -> acts P (glift on p).
Proof. induction p; cbn; try done; auto. intros [? ?]. auto. Qed.

Lemma acts_glift {St'} P (on : forall B, M St' B -> M St B) {A} (p : go St' Rp A) : (forall B (m : M St' B), P B (on B m)) -> acts P (glift on p).
Proof. intros HP. induction p; cbn; try done; auto. Qed.

Lemma calm_bind {A B} (p : go St Rp A) (f : A -> go St Rp B) : calm p -> (forall a, calm (f a)) -> calm (gbind p f).
Proof. intros Hp Hf. induction p; cbn in *; try done; auto. split; [apply Hp|]. intros r. apply H, Hp. Qed.

Lemma calm_retry {A} n (op : go St Rp (A + string)) : calm op -> calm (retry_go_loop n op).
Proof. intros Hop. induction n as [|n IH]; cbn; apply calm_bind; try done; by intros [a|e]. Qed.
End ProgramLemmas.

(** ** Lemmas: results and larger states *)

Section YieldLemmas.
Context {St Rp : Type}.

Lemma yields_bind {A B} (p : go St Rp A) (f : A -> go St Rp B) Q :
  yields p (fun a => yields (f a) Q) -> yields (gbind p f) Q.
Proof. induction p as [a|B' m k IH|k IH|d k IH|k IH|k IH]; cbn [yields gbind]; eauto. Qed.

Lemma yields_mono {A} (p : go St Rp A) (Q Q' : A -> Prop) : (forall a, Q a -> Q' a) -> yields p Q -> yields p Q'.
Proof. intros HQ. induction p as [a|B' m k IH|k IH|d k IH|k IH|k IH]; cbn [yields]; eauto. Qed.

Lemma yields_any {A} (p : go St Rp A) (Q : A -> Prop) : (forall a, Q a) -> yields p Q.
Proof. intros HQ. induction p as [a|B' m k IH|k IH|d k IH|k IH|k IH]; cbn [yields]; eauto. Qed.

Lemma yields_retry {A} n (op : go St Rp (A + string)) (Q : A + string -> Prop) :
  yields op Q -> (forall e, Q (inr e)) -> yields (retry_go_loop n op) Q.
Proof.
  intros Hop HQ. induction n as [|n IH]; cbn [retry_go_loop]; apply yields_bind; (eapply yields_mono; [|exact Hop]);
    intros [a|e] Ha; cbn; done || apply IH.
Qed.

Lemma sends_bind {A B} D (p : go St Rp A) (f : A -> go St Rp B) :
  sends D p -> yields p (fun a => sends D (f a)) -> sends D (gbind p f).
Proof.
  induction p as [a|B' m k IH|k IH|d k IH|k IH|k IH]; cbn [sends yields gbind]; eauto. intros [? ?] ?. auto.
Qed.

Lemma sends_mono {A} (D D' : bytes -> Prop) (p : go St Rp A) : (forall d, D d -> D' d) -> sends D p -> sends D' p.
Proof.
  intros HD. induction p as [a|B' m k IH|k IH|d k IH|k IH|k IH]; cbn [sends]; eauto. intros [? ?]. auto.
Qed.

Lemma only_acts_sends {A} D (p : go St Rp A) : only_acts p -> sends D p.
Proof. induction p; cbn; try done; auto. Qed.

Context {St' : Type} (on : forall B, M St B -> M St' B) {part : St' -> St} {put : St -> St' -> St'} `{HO : !OnPart on part put}.

Lemma on_try {B} (m : M St B) s : try (on _ m) s = on _ (try m) s.
Proof. rewrite on_part. unfold try. rewrite on_part. by destruct (m (part s)) as [a [b|e|]]. Qed.

Lemma alone_glift {A} resp (p : go St Rp A) s : alone resp (glift on p) s = on _ (alone resp p) s.
Proof.
  revert s. induction p as [a|B' m k IH|k IH|d k IH|k IH|k IH]; intros s; cbn [glift alone]; auto.
  - rewrite on_part. unfold ret. cbn. by rewrite put_part.
  - unfold bind. rewrite on_try, !on_part. destruct (try m (part s)) as [a [r|e|]]; cbn [fst snd]; [|done..].
    by rewrite IH, on_part, part_put, put_put.
Qed.

(** A program of actions on a part is as safe as its results are, as long as
    the guarantee does not look at that part. *)
Lemma yields_safe {A} (G : St' -> St' -> Prop) (p : go St Rp A) (Q : A -> Prop) s :
  (forall a s, G s (put a s)) -> yields p Q -> safe G (glift on p) (fun a _ => Q a) s.
Proof.
  intros HG. revert s. induction p as [a|B' m k IH|k IH|d k IH|k IH|k IH]; intros s; cbn [yields glift safe]; eauto.
  intros H s1 _ s2 r Hr. rewrite on_try, on_part in Hr. destruct (try m (part s1)) as [a o] eqn:Em.
  cbn in Hr. injection Hr as <- ->. split; [apply HG|]. apply IH. by eapply H.
Qed.

Lemma steps_to_glift {A} (p : go St Rp A) w (Q : wstate Rp -> A -> Prop) : steps_to w p Q -> steps_to w (glift on p) Q.
Proof.
  revert w. induction p as [a|B' m k IH|k IH|d k IH|k IH|k IH]; intros w; cbn [glift steps_to]; auto.
  - intros [? ?]; auto.
  - intros [(? & [?|[? ?]])|(r & ? & ? & ?)]; [left; auto|left; auto|right; eauto].
  - intros [? ?]; auto.
  - intros (l & ? & ?); eauto.
Qed.

Lemma sends_glift {A} D (p : go St Rp A) : sends D p -> sends D (glift on p).
Proof.
  induction p as [a|B' m k IH|k IH|d k IH|k IH|k IH]; cbn [sends glift]; auto; [|by intros [? ?]; auto].
  intros H s s' r Hr. rewrite on_try, on_part in Hr. apply IH.
  destruct (try m (part s)) as [a o] eqn:Em. cbn in Hr. injection Hr as _ ->. by eapply H.
Qed.

Lemma only_acts_glift {A} (p : go St Rp A) : only_acts p -> only_acts (glift on p).
Proof. induction p; cbn; try done; auto. Qed.
End YieldLemmas.

(** ** Lemmas: the rely-guarantee logic *)

Section SafeLemmas.
Context {St Rp : Type} (G : St -> St -> Prop) `{HG : !PreOrder G}.

Lemma safe_stable {A} (p : go St Rp A) Q s s' :
  (forall a s s', G s s' -> Q a s -> Q a s') -> G s s' -> safe G p Q s -> safe G p Q s'.
Proof.
  intros HQ Hs. induction p as [a|B m k IH|k IH|d k IH|k IH|k IH]; cbn [safe]; auto.
  - by apply HQ.
  - intros H s1 Hs1. apply H. by etrans.
Qed.

Lemma safe_bind {A B} (p : go St Rp A) (f : A -> go St Rp B) Q s :
  safe G p (fun a s => safe G (f a) Q s) s -> safe G (gbind p f) Q s.
Proof.
  revert s. induction p as [a|B' m k IH|k IH|d k IH|k IH|k IH]; intros s; cbn [safe gbind]; auto.
  intros H s1 Hs1 s2 r Hr. destruct (H s1 Hs1 s2 r Hr) as [? ?]. auto.
Qed.

Lemma safe_mono {A} (p : go St Rp A) (Q Q' : A -> St -> Prop) s :
  (forall a s', G s s' -> Q a s' -> Q' a s') -> safe G p Q s -> safe G p Q' s.
Proof.
  revert s. induction p as [a|B' m k IH|k IH|d k IH|k IH|k IH]; intros s HQ; cbn [safe]; auto.
  { by apply HQ. }
  intros H s1 Hs1 s2 r Hr. destruct (H s1 Hs1 s2 r Hr) as [H1 H2]. split; [done|].
  apply IH; [|done]. intros a s' Hs'. apply HQ. etrans; [exact Hs1|]. by etrans.
Qed.

(** One action that satisfies the guarantee. *)
Lemma safe_act {B} (m : M St B) (Q : B + string -> St -> Prop) s :
  (forall s1, G s s1 -> forall s2 r, try m s1 = (s2, Ret r) -> G s1 s2 /\ Q r s2) -> safe (Rp := Rp) G (act m) Q s.
Proof. done. Qed.

Lemma safe_retry {A} n (op : go St Rp (A + string)) (Q : A + string -> St -> Prop) s :
  (forall s, safe G op Q s) -> safe G (retry_go_loop n op) Q s.
Proof.
  intros Hop. revert s. induction n as [|n IH]; intros s; cbn [retry_go_loop]; apply safe_bind;
    (eapply safe_mono; [|apply Hop]); intros [a|e] s' _ H; cbn; done || apply IH.
Qed.

(** A group of safe programs: every interleaving stays in the guarantee and
    leaves every program safe. *)
Lemma group_safe (Q : nat -> St -> Prop) s ts s' ts' :
  rtc gstep (s, ts) (s', ts') ->
  (forall i s s', G s s' -> Q i s -> Q i s') ->
  (forall i (p : go St Rp unit), ts !! i = Some p -> safe G p (fun _ => Q i) s) ->
  G s s' /\ length ts' = length ts /\ forall i p, ts' !! i = Some p -> safe G p (fun _ => Q i) s'.
Proof.
  intros Hr HQ. remember (s, ts) as c eqn:Ec. remember (s', ts') as c' eqn:Ec'. revert s ts Ec.
  induction Hr as [c|c c1 c' Hstep Hr IH]; intros s ts -> Hs; [by simplify_eq|].
  inversion Hstep as [i B m k r s0 s1 ts0 Hi Hm]; simplify_eq.
  destruct (Hs _ _ Hi s ltac:(reflexivity) s1 r Hm) as [Hg Hk].
  destruct (IH eq_refl s1 (<[i := k r]> ts) eq_refl) as (H1 & H2 & H3).
  { intros j p Hj. destruct (decide (j = i)) as [->|Hne].
    - rewrite list_lookup_insert_eq in Hj by (by eapply lookup_lt_Some). by simplify_eq.
    - rewrite list_lookup_insert_ne in Hj by done. eapply safe_stable; [|exact Hg|by apply Hs]. intros _. apply HQ. }
  split; [by etrans|]. by rewrite length_insert in H2.
Qed.

(** Once the wait group is done, every program's postcondition holds. *)
Lemma group_post (Q : nat -> St -> Prop) s (ts : list (go St Rp unit)) s' :
  group_runs ts s s' ->
  (forall i s s', G s s' -> Q i s -> Q i s') ->
  (forall i p, ts !! i = Some p -> safe G p (fun _ => Q i) s) ->
  G s s' /\ forall i, (i < length ts)%nat -> Q i s'.
Proof.
  intros (ts' & Hr & Hf) HQ Hs. destruct (group_safe Q _ _ _ _ Hr HQ Hs) as (H1 & H2 & H3).
  split; [done|]. intros i Hi. destruct (lookup_lt_is_Some_2 ts' i) as [p Hp]; [lia|].
  specialize (H3 _ _ Hp). rewrite Forall_lookup in Hf. by rewrite (Hf _ _ Hp) in H3.
Qed.

(** The same for a signing round. *)
Definition coll_safe (c : collecting St Rp) (s : St) : Prop :=
  match c with Signing _ p => safe G p (fun _ _ => True) s | _ => True end.

Lemma round_safe n sign (Q : nat -> St -> Prop) (y y' : sys St Rp) :
  rtc (sstep n sign) y y' ->
  (forall i s s', G s s' -> Q i s -> Q i s') ->
  (forall rcv s, safe G (sign rcv) (fun _ _ => True) s) ->
  (forall i p, progs y !! i = Some p -> safe G p (fun _ => Q i) (shared y)) -> coll_safe (coll y) (shared y) ->
  G (shared y) (shared y') /\ length (progs y') = length (progs y) /\
  forall i p, progs y' !! i = Some p -> safe G p (fun _ => Q i) (shared y').
Proof.
  intros Hr HQ Hsign. induction Hr as [y|y y1 y' Hstep Hr IH]; intros Hs Hc; [done|].
  assert (G (shared y) (shared y1) /\ length (progs y1) = length (progs y) /\
    (forall i p, progs y1 !! i = Some p -> safe G p (fun _ => Q i) (shared y1)) /\ coll_safe (coll y1) (shared y1)) as (H1 & H2 & H3 & H4).
  { assert (forall i p' s (ps : list (go St Rp unit)) p, ps !! i = Some p -> safe G p' (fun _ => Q i) s ->
      (forall j q, ps !! j = Some q -> safe G q (fun _ => Q j) s) ->
      forall j q, <[i := p']> ps !! j = Some q -> safe G q (fun _ => Q j) s) as Hins.
    { intros i p' s ps p Hi Hp' Hall j q Hj. destruct (decide (j = i)) as [->|Hne].
      - rewrite list_lookup_insert_eq in Hj by (by eapply lookup_lt_Some). by simplify_eq.
      - rewrite list_lookup_insert_ne in Hj by done. auto. }
    assert (forall s s' c, G s s' -> coll_safe c s -> coll_safe c s') as Hcs.
    { intros s0 s1 [|rcv p|] Hg; cbn; try done. intros Hp. by eapply safe_stable. }
    destruct Hstep as [i B m k r s s' ps ch b c Hi Hm|i k s ps ch b b' c Hi Hb|i d k s ps ch b c Hi Hl
      |i k r buf s ps ch b c Hi Hb|i k s ps ch b c Hi|i d s ps ch b rcv|B m k r s s' ps ch b rcv Hm|r s ps ch b rcv];
      cbn [shared progs coll] in *; rewrite ?length_insert; split_and!; try done.
    - by apply (Hs _ _ Hi s ltac:(reflexivity) s' r).
    - destruct (Hs _ _ Hi s ltac:(reflexivity) s' r Hm) as [Hg Hk]. eapply Hins; [exact Hi|done|].
      intros j q Hj. eapply safe_stable; [|exact Hg|by apply Hs]. intros _. apply HQ.
    - destruct (Hs _ _ Hi s ltac:(reflexivity) s' r Hm) as [Hg Hk]. by eapply Hcs.
    - eapply Hins; [exact Hi|by apply (Hs _ _ Hi)|done].
    - eapply Hins; [exact Hi|by apply (Hs _ _ Hi)|done].
    - eapply Hins; [exact Hi|by apply (Hs _ _ Hi)|done].
    - eapply Hins; [exact Hi|by apply (Hs _ _ Hi)|done].
    - destruct (_ <=? _)%nat; [apply Hsign|done].
    - by apply (Hc s ltac:(reflexivity) s' r).
    - destruct (Hc s ltac:(reflexivity) s' r Hm) as [Hg _]. intros j q Hj.
      eapply safe_stable; [|exact Hg|by apply Hs]. intros _. apply HQ.
    - by apply (Hc s ltac:(reflexivity) s' r). }
  destruct (IH H3 H4) as (H5 & H6 & H7). split; [by etrans|]. split; [congruence|done].
Qed.

Lemma round_post n sign (Q : nat -> St -> Prop) s ps (y : sys St Rp) :
  rtc (sstep n sign) (boot s ps) y -> sover y ->
  (forall i s s', G s s' -> Q i s -> Q i s') ->
  (forall rcv s, safe G (sign rcv) (fun _ _ => True) s) ->
  (forall i p, ps !! i = Some p -> safe G p (fun _ => Q i) s) ->
  G s (shared y) /\ forall i, (i < length ps)%nat -> Q i (shared y).
Proof.
  intros Hr [Hf _] HQ Hsign Hs. destruct (round_safe n sign Q _ _ Hr HQ Hsign Hs I) as (H1 & H2 & H3).
  split; [done|]. intros i Hi. destruct (lookup_lt_is_Some_2 (progs y) i) as [p Hp]; [cbn in H2; lia|].
  specialize (H3 _ _ Hp). rewrite Forall_lookup in Hf. by rewrite (Hf _ _ Hp) in H3.
Qed.
End SafeLemmas.

(** *** What the collector hears *)

Definition heard {St Rp} (c : collecting St Rp) : gmap nat bytes :=
  match c with Reading rcv | Signing rcv _ | Stopped rcv _ => rcv end.

Lemma round_heard {St Rp} n sign (D : nat -> bytes -> Prop) s ps (y : sys St Rp) :
  rtc (sstep n sign) (boot s ps) y -> (forall i p, ps !! i = Some p -> sends (D i) p) ->
  forall i d, heard (coll y) !! i = Some d -> D i d.
Proof.
  intros Hr Hps.
  assert ((forall i p, progs y !! i = Some p -> sends (D i) p) /\ (forall i d, (i, d) ∈ reqs y -> D i d) /\
    (forall i d, heard (coll y) !! i = Some d -> D i d)) as (_ & _ & H); [|exact H].
  revert y Hr. apply (rtc_ind_r (fun y => (forall i p, progs y !! i = Some p -> sends (D i) p) /\
    (forall i d, (i, d) ∈ reqs y -> D i d) /\ (forall i d, heard (coll y) !! i = Some d -> D i d))).
  { split_and!; [done|by intros i d ?%not_elem_of_nil|intros i d Hd; cbn in Hd; by apply lookup_empty_Some in Hd]. }
  intros y y' _ Hstep (Hp & Hq & Hh).
  assert (forall i q (ps : list (go St Rp unit)), (forall j p, ps !! j = Some p -> sends (D j) p) -> sends (D i) q ->
    forall j p, <[i := q]> ps !! j = Some p -> sends (D j) p) as Hins.
  { intros i q qs Hqs Hi j p Hj. destruct (decide (j = i)) as [->|Hne].
    - destruct (decide (i < length qs)%nat) as [Hlt|Hge]; [|by rewrite list_insert_ge in Hj by lia; apply Hqs].
      rewrite list_lookup_insert_eq in Hj by done. by simplify_eq.
    - rewrite list_lookup_insert_ne in Hj by done. by apply Hqs. }
  destruct Hstep as [i B m k r s1 s2 qs ch b c Hi Hm|i k s1 qs ch b b' c Hi Hb|i d k s1 qs ch b c Hi Hl
    |i k r buf s1 qs ch b c Hi Hb|i k s1 qs ch b c Hi|i d s1 qs ch b rcv|B m k r s1 s2 qs ch b rcv Hm|r s1 qs ch b rcv];
    cbn [progs reqs coll heard] in *; try (pose proof (Hp _ _ Hi) as Hpi; cbn [sends] in Hpi).
  - split_and!; [|done|done]. apply Hins; [done|]. by eapply Hpi.
  - split_and!; [|done|done]. by apply Hins.
  - split_and!; [|intros j e [Hj|Hj%list_elem_of_singleton]%elem_of_app; [by apply Hq|simplify_eq; apply Hpi]|done].
    apply Hins; [done|apply Hpi].
  - split_and!; [|done|done]. apply Hins; [done|apply Hpi].
  - split_and!; [|done|done]. by apply Hins.
  - split_and!; [done|intros j e Hj; apply Hq; by right|]. intros j e Hj.
    assert (<[i := d]> rcv !! j = Some e) as Hj' by (by destruct (_ <=? _)%nat).
    apply lookup_insert_Some in Hj' as [[-> ->]|[_ Hj']]; [apply Hq; left|by apply Hh].
  - by split_and!.
  - by split_and!.
Qed.

(** ** Lemmas: termination

    A program is well founded, so a step that replaces one program of a list
    by a continuation of it cannot be repeated for ever. *)

Section Termination.
Context {St Rp : Type}.

(** The programs one step can lead to. *)
Definition next {A} (q p : go St Rp A) : Prop :=
  match p with
  | Return _ => False
  | Act _ k => exists r, q = k r
  | Sub k | Send _ k | Unsub k => q = k
  | Recv k => exists r, q = k r
  end.

Lemma next_wf {A} (p : go St Rp A) : Acc next p.
Proof.
  induction p as [a|B m k IH|k IH|d k IH|k IH|k IH]; constructor; intros q Hq; cbn in Hq.
  - destruct Hq.
  - destruct Hq as [r ->]. apply IH.
  - by subst.
  - by subst.
  - destruct Hq as [r ->]. apply IH.
  - by subst.
Qed.

Definition list_next (ps' ps : list (go St Rp unit)) : Prop :=
  exists i p q, ps !! i = Some p /\ next q p /\ ps' = <[i := q]> ps.

Lemma list_next_wf ps : Acc list_next ps.
Proof.
  induction ps as [|p ps IH].
  { constructor. intros ps' (i & p & q & Hi & _). by destruct i. }
  revert ps IH. induction (next_wf p) as [p _ IHp]. intros ps IH. induction IH as [ps Hps IHps].
  constructor. intros ps' ([|i] & p0 & q & Hi & Hn & ->); cbn in Hi; simplify_eq.
  - apply IHp; [done|]. by constructor.
  - apply IHps. by exists i, p0, q.
Qed.

(** No interleaving of a group runs for ever. *)
Lemma group_terminates (c : St * list (go St Rp unit)) : Acc (fun c' c => gstep c c') c.
Proof.
  destruct c as [s ps]. revert s. induction (list_next_wf ps) as [ps _ IH]. intros s. constructor.
  intros c' Hc. inversion Hc; simplify_eq. apply IH. eexists _, _, _. split; [eassumption|]. split; [by eexists|done].
Qed.

Lemma group_members (Q : go St Rp unit -> Prop) s ts s' ts' :
  rtc gstep (s, ts) (s', ts') -> (forall B (m : M St B) k r, Q (Act m k) -> Q (k r)) -> Forall Q ts -> Forall Q ts'.
Proof.
  intros Hr HQ. remember (s, ts) as c eqn:Ec. remember (s', ts') as c' eqn:Ec'. revert s ts Ec.
  induction Hr as [c|c c1 c' Hstep Hr IH]; intros s ts -> Hall; [by simplify_eq|].
  inversion Hstep as [i B m k r s0 s1 ts0 Hi Hm]; simplify_eq. eapply IH; [done|done|].
  apply Forall_insert; [done|]. eapply HQ, (Forall_lookup_1 _ _ _ _ Hall Hi).
Qed.

(** Until all of its programs have returned, a group of calm programs of
    actions can go on. *)
Lemma group_moves s (ts : list (go St Rp unit)) :
  Forall only_acts ts -> Forall (fun p => p = Return tt) ts \/ gcrash (s, ts) \/ exists c', gstep (s, ts) c'.
Proof.
  intros Ha. assert (Forall (fun p => p = Return tt) ts \/ exists i B (m : M St B) k, ts !! i = Some (Act m k)) as [?|(i & B & m & k & Hi)].
  { induction Ha as [|p ts Hp _ IH]; [by left|]. destruct IH as [IH|(i & B & m & k & Hi)].
    - destruct p as [[]|B m k|k|d k|k|k]; try done; [left; by constructor|]. right. by exists 0%nat, B, m, k.
    - right. by exists (Datatypes.S i), B, m, k. }
  - by left.
  - right. destruct (m s) as [s' [b|e|]] eqn:Em; [right|right|left; exists i, B, m, k; cbn; by rewrite Em];
      eexists; eapply gstep_act; [exact Hi| |exact Hi|]; unfold try; rewrite Em; reflexivity.
Qed.

Lemma group_goes_on s (ts : list (go St Rp unit)) :
  Forall only_acts ts -> Forall calm ts -> Forall (fun p => p = Return tt) ts \/ exists c', gstep (s, ts) c'.
Proof.
  intros Ha Hc. destruct (group_moves s ts Ha) as [?|[(i & B & m & k & Hi & Hm)|?]]; [by left| |by right].
  destruct (Forall_lookup_1 _ _ _ _ Hc Hi) as [Hn _]. by destruct (Hn s).
Qed.

(** Such a group always ends, whatever the interleaving. *)
Lemma group_ends s (ts : list (go St Rp unit)) c :
  Forall only_acts ts -> Forall calm ts -> rtc gstep (s, ts) c ->
  Acc (fun c' c => gstep c c') c /\ (Forall (fun p => p = Return tt) c.2 \/ exists c', gstep c c').
Proof.
  intros Ha Hc Hr. destruct c as [s' ts']. split; [apply group_terminates|]. apply group_goes_on.
  - eapply group_members; [exact Hr| |exact Ha]. intros B m k r H. apply H.
  - eapply group_members; [exact Hr| |exact Hc]. intros B m k r [_ H]. apply H.
Qed.

(** Nor does a signing round run for ever, whatever its programs are and
    whatever others do to the shared state between two of its steps. *)
Definition round_shrinks n sign (y' y : sys St Rp) : Prop :=
  exists s s', sstep n sign (mkSys s (progs y) (reqs y) (subs y) (coll y)) (mkSys s' (progs y') (reqs y') (subs y') (coll y')).

Lemma round_shrinks_wf n sign (y : sys St Rp) : Acc (round_shrinks n sign) y.
Proof.
  destruct y as [s ps ch b c]. revert s ch b c. induction (list_next_wf ps) as [ps _ IH].
  assert (forall (s' : St) i p q (ch' : list (nat * bytes)) (b' : gmap Z (list Rp)) c, ps !! i = Some p -> next q p ->
    Acc (round_shrinks n sign) (mkSys s' (<[i := q]> ps) ch' b' c)) as Hw.
  { intros. apply IH. by exists i, p, q. }
  assert (forall rcv r s ch b, Acc (round_shrinks n sign) (mkSys s ps ch b (Stopped rcv r))) as Hstop.
  { intros. constructor. intros [s0 ps0 ch0 b0 c0] (s1 & s2 & Hy). cbn in Hy. inversion Hy; simplify_eq; eapply Hw; eauto; by eexists. }
  assert (forall p rcv s ch b, Acc (round_shrinks n sign) (mkSys s ps ch b (Signing rcv p))) as Hsign.
  { intros p. induction (next_wf p) as [p _ IHp]. intros. constructor. intros [s0 ps0 ch0 b0 c0] (s1 & s2 & Hy). cbn in Hy.
    inversion Hy; simplify_eq; try (eapply Hw; eauto; by eexists); [|apply Hstop]. apply IHp. by eexists. }
  assert (forall ch rcv s b, Acc (round_shrinks n sign) (mkSys s ps ch b (Reading rcv))) as Hread.
  { induction ch as [|[i d] ch IHch]; intros; constructor; intros [s0 ps0 ch0 b0 c0] (s1 & s2 & Hy); cbn in Hy; inversion Hy; simplify_eq;
      try (eapply Hw; eauto; by eexists). destruct (_ <=? _)%nat; auto. }
  intros s ch b [rcv|rcv p|rcv r]; auto.
Qed.

Lemma round_terminates n sign (y : sys St Rp) : Acc (fun y' y => sstep n sign y y') y.
Proof.
  induction (round_shrinks_wf n sign y) as [y _ IH]. constructor. intros y' Hy. apply IH. exists (shared y), (shared y'). by destruct y, y'.
Qed.
End Termination.

(** ** Lemmas: running the programs in a given order *)

#[export] Instance go_backoff_ref_laws : GoBackoffLaws go_backoff_ref.
Proof. by split. Qed.

Section Sequential.
Context {St Rp : Type}.

Lemma gsched_steps l (c : St * list (go St Rp unit)) : rtc gstep c (gsched l c).
Proof.
  revert c. induction l as [|i l IH]; intros [s ts]; cbn [gsched fold_left]; [done|].
  etrans; [|apply IH]. unfold gmove. cbn. destruct (ts !! i) as [[a|B m k|k|d k|k|k]|] eqn:Ei; try done.
  destruct (try m s) as [s' [r|e|]] eqn:Em; try done. apply rtc_once. by eapply gstep_act.
Qed.

Lemma all_returned_spec (ts : list (go St Rp unit)) : all_returned ts = true -> Forall (fun p => p = Return tt) ts.
Proof.
  unfold all_returned. rewrite forallb_forall. intros H. apply Forall_forall. intros p Hp%list_elem_of_In%H.
  by destruct p as [[]|B m k|k|d k|k|k].
Qed.

(** A schedule that brings every program to its end is a run of the group. *)
Lemma gsched_runs l s (ts : list (go St Rp unit)) :
  all_returned (gsched l (s, ts)).2 = true -> group_runs ts s (gsched l (s, ts)).1.
Proof.
  intros H. exists (gsched l (s, ts)).2. split; [rewrite <- surjective_pairing; apply gsched_steps|].
  by apply all_returned_spec.
Qed.

Lemma ssched_steps n sign l (y : sys St Rp) : rtc (sstep n sign) y (ssched n sign l y).
Proof.
  revert y. induction l as [|w l IH]; intros y; cbn [ssched fold_left]; [done|]. etrans; [|apply IH].
  destruct y as [s ps ch b c]. unfold smove. destruct w as [i|].
  - destruct (ps !! i) as [[a|B m k|k|d k|k|k]|] eqn:Ei; try done.
    + destruct (try m s) as [s' [r|e|]] eqn:Em; try done. apply rtc_once. by eapply sstep_act.
    + destruct (Subscribe (Z.of_nat i) b) as [b'|e|] eqn:Es; try done. apply rtc_once. by eapply sstep_sub.
    + destruct (Nat.ltb_spec (length ch) n); [|done]. apply rtc_once. by apply sstep_send.
    + destruct (b !! Z.of_nat i) as [[|r buf]|] eqn:Eb; try done. apply rtc_once. by eapply sstep_recv.
    + apply rtc_once. by apply sstep_unsub.
  - destruct c as [rcv|rcv p|rcv r].
    + destruct ch as [|[i d] ch]; [done|]. apply rtc_once, sstep_collect.
    + destruct p as [a|B m k|k|d k|k|k]; try done.
      * apply rtc_once, sstep_broadcast.
      * destruct (try m s) as [s' [r|e|]] eqn:Em; try done. apply rtc_once. by eapply sstep_sign.
    + done.
Qed.

Lemma sover_b_spec (y : sys St Rp) : sover_b y = true -> sover y.
Proof.
  unfold sover_b. intros [Hp Hc]%andb_true_iff. split; [by apply all_returned_spec|].
  destruct (coll y) as [|rcv p|rcv r]; try done. eauto.
Qed.

Lemma group_alone (resp : Rp) (p : go St Rp unit) s s' ts i :
  only_acts p -> ts !! i = Some p -> alone resp p s = (s', Ret tt) ->
  rtc gstep (s, ts) (s', <[i := Return tt]> ts).
Proof.
  revert s ts. induction p as [[]|B m k IH|k IH|d k IH|k IH|k IH]; intros s ts Ha Hi; cbn in Ha; try done; cbn [alone].
  - intros [= <-]. by rewrite list_insert_id.
  - unfold bind. destruct (try m s) as [s1 [r|e|]] eqn:Em; [|done..]. intros H.
    eapply rtc_l; [by eapply gstep_act|]. assert (<[i := Return tt]> ts = <[i := Return tt]> (<[i := k r]> ts)) as -> by (by rewrite list_insert_insert_eq).
    eapply IH; [apply Ha| |exact H]. apply list_lookup_insert_eq. by eapply lookup_lt_Some.
Qed.

(** The order of the list is one of the interleavings. *)
Lemma group_sequential (resp : Rp) (ps : list (go St Rp unit)) s s' :
  Forall only_acts ps -> forM ps (alone resp) s = (s', Ret tt) -> group_runs ps s s'.
Proof.
  intros Ha H. exists (replicate (length ps) (Return tt)). split; [|by apply Forall_replicate].
  assert (forall done s, forM ps (alone resp) s = (s', Ret tt) ->
    rtc gstep (s, (replicate done (Return tt) ++ ps)%list) (s', (replicate (done + length ps) (Return tt))%list)) as Hg.
  { clear H s. induction Ha as [|p ps Hp _ IH]; intros d s; cbn [forM length].
    - unfold ret. intros [= <-]. by rewrite app_nil_r, Nat.add_0_r.
    - intros (s1 & [] & H1 & H2)%bind_ret_inv. etrans; [eapply (group_alone resp p _ _ _ d); [done| |exact H1]|].
      + rewrite lookup_app_r, length_replicate by (by rewrite length_replicate). by rewrite Nat.sub_diag.
      + rewrite insert_app_r_alt, length_replicate, Nat.sub_diag by (by rewrite length_replicate). cbn [insert list_insert].
        specialize (IH (d + 1)%nat s1 H2). rewrite replicate_add, <- app_assoc in IH. cbn in IH.
        replace (d + Datatypes.S (length ps))%nat with (d + 1 + length ps)%nat by lia. exact IH. }
  exact (Hg 0%nat s H).
Qed.
End Sequential.

(** ** The refinement to Keysign.v *)

Section Refinement.
Context {St Rp : Type} (n : nat) (sign : gmap nat bytes -> go St Rp Rp).
#[local] Notation SY := (sys St Rp).

(** The collector's program position and its state in the protocol. *)
Definition coll_abs (c : collecting St Rp) (a : cstate Rp) : Prop :=
  match c, a with
  | Reading rcv, Collect rcv' => rcv = rcv'
  | Signing rcv p, Sign rcv' => rcv = rcv' /\ only_acts p
  | Stopped rcv r, Finished rcv' r' => rcv = rcv' /\ r = r'
  | _, _ => False
  end.

(** [y] is a state of programs, [k] one of the protocol. *)
Definition refines (y : SY) (k : round Rp) : Prop :=
  Forall2 worker_of (workers k) (progs y) /\ reqs y = tssReqChan k /\ subs y = bc k /\
  coll_abs (coll y) (collector k).

Definition says (msg : nat -> bytes) (i : nat) (d : bytes) : nat -> bytes :=
  fun j => if (j =? i)%nat then d else msg j.

(** The protocol fixes the request of every worker in advance; one that has
    not asked yet may still ask for anything. *)
Lemma reached_says msg answer (k : round Rp) i d :
  reached n msg answer k -> workers k !! i = Some WRun \/ workers k !! i = Some WStart ->
  reached n (says msg i d) answer k.
Proof.
  intros H. induction H as [|k k' Hr IH Hstep]; intros Hi; [constructor|].
  assert (forall (ws : list (wstate Rp)) j w, (j < length ws)%nat -> j <> i \/ w <> WRun /\ w <> WStart ->
    <[j := w]> ws !! i = Some WRun \/ <[j := w]> ws !! i = Some WStart -> ws !! i = Some WRun \/ ws !! i = Some WStart) as Hback.
  { intros ws j w Hj Hw. destruct (decide (j = i)) as [->|Hne]; [|by rewrite list_lookup_insert_ne].
    rewrite list_lookup_insert_eq by done. destruct Hw as [|[? ?]]; [done|]. by intros [[= ?]|[= ?]]. }
  destruct Hstep as [j ws ch b b' c Hj Hb|j ws ch b c Hj Hl|j ws ch b c Hj Hl|j r buf ws ch b c Hj Hb
    |j r ws ch b c Hj Hl|j late ws ch b c Hj|j e ws ch b rcv|ws ch b rcv]; cbn [workers] in *;
    try (pose proof (lookup_lt_Some _ _ _ Hj) as Hlt).
  - eapply reached_step; [apply IH|by apply step_subscribe]. destruct (decide (j = i)) as [->|Hne]; [by right|].
    by rewrite list_lookup_insert_ne in Hi by done.
  - assert (j <> i) as Hne by (intros ->; rewrite list_lookup_insert_eq in Hi by done; by destruct Hi).
    eapply reached_step; [apply IH; eapply Hback; [exact Hlt| |exact Hi]; by left|].
    assert (msg j = says msg i d j) as ->. { unfold says. by destruct (Nat.eqb_spec j i). }
    by apply step_request.
  - eapply reached_step; [apply IH; eapply Hback; [exact Hlt| |exact Hi]; by right|by apply step_fail_early].
  - eapply reached_step; [apply IH; eapply Hback; [exact Hlt| |exact Hi]; by right|by eapply step_receive].
  - eapply reached_step; [apply IH; eapply Hback; [exact Hlt| |exact Hi]; by right|by eapply step_done].
  - eapply reached_step; [apply IH; eapply Hback; [exact Hlt| |exact Hi]; by right|by apply step_unsubscribe].
  - eapply reached_step; [by apply IH|apply step_collect].
  - eapply reached_step; [by apply IH|apply step_broadcast].
Qed.

(** Nor is the answer fixed before it is given. *)
Lemma reached_any_answer msg answer answer' (k : round Rp) :
  reached n msg answer k -> finished (collector k) = false -> reached n msg answer' k.
Proof.
  intros H. induction H as [|k k' Hr IH Hstep]; intros Hf; [constructor|].
  destruct Hstep as [j ws ch b b' c Hj Hb|j ws ch b c Hj Hl|j ws ch b c Hj Hl|j r buf ws ch b c Hj Hb
    |j r ws ch b c Hj Hl|j late ws ch b c Hj|j e ws ch b rcv|ws ch b rcv]; cbn in *; try done.
  all: eapply reached_step; [by apply IH|].
  - by apply step_subscribe.
  - by apply step_request.
  - by apply step_fail_early.
  - by eapply step_receive.
  - by eapply step_done.
  - by apply step_unsubscribe.
  - apply step_collect.
Qed.

Lemma worker_at (ws : list (wstate Rp)) (ps : list (go St Rp unit)) i p :
  Forall2 worker_of ws ps -> ps !! i = Some p -> exists w, ws !! i = Some w /\ worker_of w p.
Proof. intros H Hi. destruct (Forall2_lookup_r _ _ _ _ _ H Hi) as (w & ? & ?). eauto. Qed.

Lemma worker_moves (ws : list (wstate Rp)) (ps : list (go St Rp unit)) i w q :
  Forall2 worker_of ws ps -> worker_of w q -> Forall2 worker_of (<[i := w]> ws) (<[i := q]> ps).
Proof. intros. by apply Forall2_insert. Qed.

Lemma worker_stays (ws : list (wstate Rp)) (ps : list (go St Rp unit)) i w q :
  Forall2 worker_of ws ps -> ws !! i = Some w -> worker_of w q -> Forall2 worker_of ws (<[i := q]> ps).
Proof. intros H Hi Hq. rewrite <- (list_insert_id ws i w Hi). by apply worker_moves. Qed.

Context (nil_resp : Rp) (sign_acts : forall rcv, only_acts (sign rcv)).

Lemma refines_step msg answer (y y' : SY) k :
  reached n msg answer k -> refines y k -> sstep n sign y y' ->
  exists msg' answer' k', reached n msg' answer' k' /\ refines y' k'.
Proof.
  intros Hk (Hw & Hch & Hb & Hc) Hstep. destruct k as [ws ch0 b0 c0]. cbn in *.
  destruct Hstep as [i B m k r s s' ps ch b c Hi Hm|i k s ps ch b b' c Hi Hs|i d k s ps ch b c Hi Hl
    |i k r buf s ps ch b c Hi Hbuf|i k s ps ch b c Hi|i d s ps ch b rcv|B m k r s s' ps ch b rcv Hm|r s ps ch b rcv];
    cbn in *; subst ch0 b0;
    try (destruct (worker_at _ _ _ _ Hw Hi) as (w & Hwi & Hwp); cbn in Hwp).
  - exists msg, answer, (mkRound ws ch b c0). split; [done|]. split_and!; try done. eapply worker_stays; [done|done|apply Hwp].
  - destruct Hwp as [-> Hk']. exists msg, answer, (mkRound (<[i := WRun]> ws) ch b' c0).
    split; [eapply reached_step; [exact Hk|by apply step_subscribe]|]. split_and!; try done. by apply worker_moves.
  - destruct Hwp as [(-> & [Hk'|[-> Hk']])|(r & -> & -> & Hk')].
    + exists (says msg i d), answer, (mkRound (<[i := WWait]> ws) (ch ++ [(i, says msg i d i)])%list b c0).
      split; [eapply reached_step; [eapply reached_says; [exact Hk|by left]|by apply step_request]|].
      split_and!; try done; [by apply worker_moves|]. cbn. unfold says. by rewrite Nat.eqb_refl.
    + exists msg, answer, (mkRound (<[i := WPost false]> ws) (ch ++ [(i, done_msg)])%list b c0).
      split; [eapply reached_step; [exact Hk|by apply step_fail_early]|]. split_and!; try done. by apply worker_moves.
    + exists msg, answer, (mkRound (<[i := WPost true]> ws) (ch ++ [(i, done_msg)])%list b c0).
      split; [eapply reached_step; [exact Hk|by eapply step_done]|]. split_and!; try done. by apply worker_moves.
  - destruct Hwp as [-> Hk']. exists msg, answer, (mkRound (<[i := WFin r]> ws) ch (<[Z.of_nat i := buf]> b) c0).
    split; [eapply reached_step; [exact Hk|by eapply step_receive]|]. split_and!; try done. apply worker_moves; [done|apply Hk'].
  - destruct Hwp as (late & -> & Hk'). exists msg, answer, (mkRound (<[i := WExit late]> ws) ch (Unsubscribe (Z.of_nat i) b) c0).
    split; [eapply reached_step; [exact Hk|by apply step_unsubscribe]|]. split_and!; try done. by apply worker_moves.
  - destruct c0 as [rcv0|rcv0|rcv0 r0]; try done. subst rcv0. eexists msg, answer, _.
    split; [eapply reached_step; [exact Hk|apply step_collect]|]. split_and!; try done. cbn. by destruct (_ <=? _)%nat.
  - destruct c0 as [rcv0|rcv0|rcv0 r0]; try done. destruct Hc as [-> Hp]. exists msg, answer, (mkRound ws ch b (Sign rcv0)).
    split; [done|]. by split_and!.
  - destruct c0 as [rcv0|rcv0|rcv0 r0]; try done. destruct Hc as [-> _]. eexists msg, (fun _ => r), _.
    split; [eapply reached_step; [by eapply reached_any_answer|apply step_broadcast]|]. by split_and!.
Qed.

(** Every state a round of programs reaches is one of the protocol. *)
Lemma refines_reached s ps (y : SY) :
  length ps = n -> Forall (worker_of WStart) ps -> rtc (sstep n sign) (boot s ps) y ->
  exists msg answer k, reached n msg answer k /\ refines y k.
Proof.
  intros Hn Hps. revert y. apply (rtc_ind_r (fun y => exists msg answer k, reached n msg answer k /\ refines y k)).
  - exists (fun _ => []), (fun _ => nil_resp), (start n). split; [constructor|]. split_and!; try done.
    cbn. rewrite <- Hn. clear -Hps. induction Hps; constructor; done.
  - intros y y' _ Hstep (msg & answer & k & Hk & Hy). by eapply refines_step.
Qed.

(** A round of programs does not deadlock: unless it is over, some program can
    move, or the next action of one panics and ends the process. *)
Lemma refines_progress msg answer k (y : SY) :
  (0 < n)%nat -> reached n msg answer k -> refines y k -> sover y \/ scrash y \/ exists y', sstep n sign y y'.
Proof.
  intros Hpos Hk (Hw & Hch & Hb & Hc).
  pose proof (progress n msg answer k (reached_inv n msg answer k Hpos Hk)) as Hprog.
  destruct y as [st qs ch b c]. cbn in *. subst ch b.
  assert (forall B (m : M St B), (m st).2 = Panic \/ exists st' r, try m st = (st', Ret r)) as Hact.
  { intros B m. unfold try. destruct (m st) as [st' [v|e|]]; [right|right|by left]; by eexists _, _. }
  assert ((exists i B (m : M St B) k0, qs !! i = Some (Act m k0)) \/
    forall i p, qs !! i = Some p -> match p with Act _ _ => False | _ => True end) as [(i & B & m & k0 & Hi)|Hq].
  { clear. induction qs as [|p qs IH]; [by right|]. destruct IH as [(i & B & m & k0 & Hi)|IH]; [left; by exists (Datatypes.S i), B, m, k0|].
    destruct p as [a|B m k0|k0|d k0|k0|k0]; try (right; intros [|i] q Hi; cbn in Hi; simplify_eq; [done|by eapply IH]).
    left. by exists 0%nat, B, m, k0. }
  { destruct (Hact B m) as [Hp|(st' & r & Hm)]; right; [left; by eapply scrash_act|right]. eexists. by eapply sstep_act. }
  destruct Hprog as [[Hexit (rcv & r & Hf)]|[k' Hstep]].
  { left. rewrite Hf in Hc. destruct c as [?|?|rcv' r']; try done. split; [|cbn; eauto]. cbn. apply Forall_lookup. intros i p Hi.
    destruct (worker_at _ _ _ _ Hw Hi) as (w & Hwi & Hp). rewrite Forall_lookup in Hexit. destruct (Hexit _ _ Hwi) as [late ->].
    specialize (Hq _ _ Hi). destruct p as [[]|B m k0|k0|d k0|k0|k0]; cbn in Hp; try done; try (by destruct Hp).
    - by destruct Hp as [[? _]|(? & ? & _)].
    - by destruct Hp as (? & ? & _). }
  right. destruct Hstep as [i ws ch b b' c0 Hi Hs|i ws ch b c0 Hi Hl|i ws ch b c0 Hi Hl|i r buf ws ch b c0 Hi Hbuf
    |i r ws ch b c0 Hi Hl|i late ws ch b c0 Hi|i d ws ch b rcv|ws ch b rcv]; cbn in *;
    try (destruct (Forall2_lookup_l _ _ _ _ _ Hw Hi) as (p & Hpi & Hp); specialize (Hq _ _ Hpi);
         destruct p as [[]|B m k0|k0|d k0|k0|k0]; cbn in Hp; try done).
  all: try (by destruct Hp as [? ?]); try (by destruct Hp as (? & ? & ?)); try (by destruct Hp as [[? _]|(? & ? & _)]).
  all: try (right; eexists; (by eapply sstep_sub) || (by eapply sstep_send) || (by eapply sstep_recv) || (by eapply sstep_unsub)).
  - destruct c as [rcv'|?|?]; try done. right. eexists. apply sstep_collect.
  - destruct c as [?|rcv' p|?]; try done. destruct Hc as [-> Hp]. destruct p as [r|B m k0|k0|d k0|k0|k0]; cbn in Hp; try done.
    + right. eexists. apply sstep_broadcast.
    + destruct (Hact B m) as [Hpn|(st' & r & Hm)]; [left; by apply scrash_sign|right]. eexists. by eapply sstep_sign.
Qed.

Lemma round_progress s ps (y : SY) :
  (0 < n)%nat -> length ps = n -> Forall (worker_of WStart) ps -> rtc (sstep n sign) (boot s ps) y ->
  sover y \/ scrash y \/ exists y', sstep n sign y y'.
Proof.
  intros Hpos Hn Hps Hr. destruct (refines_reached _ _ _ Hn Hps Hr) as (msg & answer & k & Hk & Hy). by eapply refines_progress.
Qed.
End Refinement.
