(* ===== verification/Threads.v ===== *)
(** * Threads: the goroutines of a whole process

    A [thread] is a goroutine of the service as the source writes it: single
    actions on the shared state, groups of goroutines behind a wait group,
    signing rounds, and [go] statements that start further threads.  A
    [service] is the event loop's thread, which takes the next event when it
    has handled the last, next to the threads it has started, all of them
    interleaved action by action.  This file holds the language, its
    semantics, a logic for invariants that speak of what the running threads
    still owe, and the theorem that between two events nothing runs for
    ever. *)

From Stdlib Require Import Ascii String.
From S2P Require Import Prelude GoLib Sdk Keysign Goroutine.

#[local] Open Scope Z_scope.
#[local] Open Scope go_scope.

(** ** Definitions *)

(** [Kd] names the kinds of threads.  The goroutines of a group share, next
    to the state, the local variables [L] of the function that waits for
    them; it goes on with their last value. *)
Inductive thread (Kd St : Type) : Type :=
| Finished
| Do {B : Type} (m : M St B) (k : B + string -> thread Kd St)
| WaitGroup {L Rp : Type} (l : L) (ts : list (go (St * L) Rp unit)) (k : L -> thread Kd St)
| SignRound {L Rp : Type} (n : nat) (sign : gmap nat bytes -> go (St * L) Rp Rp) (l : L) (ps : list (go (St * L) Rp unit))
    (ch : list (nat * bytes)) (b : gmap Z (list Rp)) (c : collecting (St * L) Rp) (k : L -> thread Kd St)
| Spawn (kd : Kd) (t k : thread Kd St).
Arguments Finished {Kd St}. Arguments Do {Kd St B}. Arguments WaitGroup {Kd St L Rp}. Arguments SignRound {Kd St L Rp}.
Arguments Spawn {Kd St}.

(** The action, then the rest with its result or its error; [do*] where the
    source drops both. *)
Notation "'let*' x ':=' m 'in' k" := (Do m (fun x => k))
  (at level 10, x pattern, m at level 100, k at level 200) : go_scope.
Notation "'do*' m 'in' k" := (Do m (fun _ => k))
  (at level 10, m at level 100, k at level 200) : go_scope.

Section Threads.
Context {Kd St Ev : Type}.
#[local] Notation T := (thread Kd St).

(** A round at its start: nothing on the request channel, nobody subscribed. *)
Definition sign_round_thread {L Rp} (n : nat) (sign : gmap nat bytes -> go (St * L) Rp Rp) (l : L) (ps : list (go (St * L) Rp unit))
    (k : L -> T) : T := SignRound n sign l ps [] NewBroadcaster (Reading ∅) k.

Fixpoint do_all {A} (f : A -> M St unit) (l : list A) (k : T) : T :=
  match l with
  | [] => k
  | x :: l => do* f x in do_all f l k
  end.

(** One action of a thread, with the threads it starts. *)
Inductive tstep : St -> T -> St -> T -> list (Kd * T) -> Prop :=
| t_do B (m : M St B) k s s' r : try m s = (s', Ret r) -> tstep s (Do m k) s' (k r) []
| t_group L Rp (l l' : L) (ts ts' : list (go (St * L) Rp unit)) k s s' :
    gstep ((s, l), ts) ((s', l'), ts') -> tstep s (WaitGroup l ts k) s' (WaitGroup l' ts' k) []
| t_wait L Rp (l : L) (ts : list (go (St * L) Rp unit)) k s :
    Forall (fun p => p = Return tt) ts -> tstep s (WaitGroup l ts k) s (k l) []
| t_round L Rp n sign (l l' : L) (ps ps' : list (go (St * L) Rp unit)) ch ch' b b' c c' k s s' :
    sstep n sign (mkSys (s, l) ps ch b c) (mkSys (s', l') ps' ch' b' c') ->
    tstep s (SignRound n sign l ps ch b c k) s' (SignRound n sign l' ps' ch' b' c' k) []
| t_waited L Rp n sign (l : L) (ps : list (go (St * L) Rp unit)) ch b c k s :
    sover (mkSys (s, l) ps ch b c) -> tstep s (SignRound n sign l ps ch b c k) s (k l) []
| t_spawn kd t k s : tstep s (Spawn kd t k) s k [(kd, t)].

Record service := mkSvc { mem : St; loop : T; others : list (Kd * T) }.

Context (handler : Ev -> T).

Inductive svc_step : service -> service -> Prop :=
| svc_event e s os : svc_step (mkSvc s Finished os) (mkSvc s (handler e) os)
| svc_loop s t s' t' new os : tstep s t s' t' new -> svc_step (mkSvc s t os) (mkSvc s' t' (os ++ new))
| svc_other i kd t s s' t' new lp os :
    os !! i = Some (kd, t) -> tstep s t s' t' new -> svc_step (mkSvc s lp os) (mkSvc s' lp (<[i := (kd, t')]> os ++ new)).

(** Nothing runs: the loop waits for an event, every started thread is over. *)
Definition at_rest (c : service) : Prop := loop c = Finished /\ Forall (fun p => p.2 = Finished) (others c).
End Threads.
Arguments service : clear implicits.

(** *** A logic for what the threads owe

    [G] is what a goroutine may hold on to; [I s gs] is an invariant of the
    state [s] and of what all running goroutines together hold, in any order.
    Every action of a goroutine has to keep the invariant, whatever the
    others hold, and may change what it holds itself. *)
Section Logic.
Context {Kd G : Type}.

Fixpoint holds {St Rp A} (J : St -> list G -> Prop) (Q : A -> G -> Prop) (p : go St Rp A) (g : G) : Prop :=
  match p with
  | Return a => Q a g
  | Act m k => forall s rest s' r, J s (g :: rest) -> try m s = (s', Ret r) -> exists g', J s' (g' :: rest) /\ holds J Q (k r) g'
  | Sub k | Send _ k | Unsub k => holds J Q k g
  | Recv k => forall r, holds J Q (k r) g
  end.

Context {St : Type} (I : St -> list G -> Prop).
#[local] Notation T := (thread Kd St).

(** What may be forgotten. *)
Definition drops (g : G) : Prop := forall s rest, I s (g :: rest) -> I s rest.
(** What may be exchanged. *)
Definition trades (g : G) (gs : list G) : Prop := forall s rest, I s (g :: rest) -> I s (gs ++ rest)%list.

(** The goroutines of a group work next to [own l], held for the local
    variables, of which [LI] is an invariant. *)
Definition beside {L} (own : L -> G) (LI : L -> Prop) (x : St * L) (gs : list G) : Prop := LI x.2 /\ I x.1 (own x.2 :: gs).

Definition coll_holds {St' Rp} (J : St' -> list G -> Prop) (sign : gmap nat bytes -> go St' Rp Rp) (c : collecting St' Rp) (g : G) : Prop :=
  match c with
  | Reading _ => forall rcv, holds J (fun _ => drops) (sign rcv) g
  | Signing _ p => holds J (fun _ => drops) p g
  | Stopped _ _ => drops g
  end.

Definition group_holds {L Rp} (own : L -> G) (LI : L -> Prop) (ts : list (go (St * L) Rp unit)) (gs : list G) : Prop :=
  Forall2 (holds (beside own LI) (fun _ => drops)) ts gs.

Context (Owns : Kd -> G -> Prop).

(** The thread, holding [g] now, keeps the invariant; as long as it runs it
    holds something in [Lab], and in the end something in [E]. *)
Fixpoint keeps_thread (E Lab : G -> Prop) (t : T) (g : G) : Prop :=
  match t with
  | Finished => E g
  | Do m k => Lab g /\ forall s rest s' r, I s (g :: rest) -> try m s = (s', Ret r) ->
      exists g', I s' (g' :: rest) /\ keeps_thread E Lab (k r) g'
  | WaitGroup l ts k => exists own LI gs, trades g (own l :: gs) /\ LI l /\ group_holds own LI ts gs /\
      forall l, LI l -> Lab (own l) /\ keeps_thread E Lab (k l) (own l)
  | SignRound n sign l ps ch b c k => exists own LI gc gs, trades g (own l :: gc :: gs) /\ LI l /\
      coll_holds (beside own LI) sign c gc /\ group_holds own LI ps gs /\ forall l, LI l -> Lab (own l) /\ keeps_thread E Lab (k l) (own l)
  | Spawn kd t k => exists g1 g2, trades g [g1; g2] /\ Lab g /\ keeps_thread drops (Owns kd) t g1 /\ keeps_thread E Lab k g2
  end.

(** The same for a thread on its way, with what its goroutines hold. *)
Definition running (E Lab : G -> Prop) (t : T) (gl : list G) : Prop :=
  match t with
  | Finished => exists g, gl = [g] /\ E g
  | Do _ _ | Spawn _ _ _ => exists g, gl = [g] /\ keeps_thread E Lab t g
  | WaitGroup l ts k => exists own LI gs, gl = own l :: gs /\ LI l /\ group_holds own LI ts gs /\
      forall l, LI l -> Lab (own l) /\ keeps_thread E Lab (k l) (own l)
  | SignRound n sign l ps ch b c k => exists own LI gc gs, gl = own l :: gc :: gs /\ LI l /\
      coll_holds (beside own LI) sign c gc /\ group_holds own LI ps gs /\ forall l, LI l -> Lab (own l) /\ keeps_thread E Lab (k l) (own l)
  end.

(** [g0]: what the loop holds between two events; [frame]: what somebody
    holds who does nothing. *)
Definition svc_ok (g0 : G) (Lab : G -> Prop) (frame : list G) (c : service Kd St) : Prop :=
  exists gl gls, running (fun g => trades g [g0]) Lab (loop c) gl /\
    Forall2 (fun p => running drops (Owns p.1) p.2) (others c) gls /\ I (mem c) (gl ++ concat gls ++ frame)%list.
End Logic.

(** ** Lemmas *)

Section LogicLemmas.
Context {Kd G St : Type} (I : St -> list G -> Prop) (I_perm : forall s gs gs', gs ≡ₚ gs' -> I s gs -> I s gs').
Context (Owns : Kd -> G -> Prop).
#[local] Notation T := (thread Kd St).

Lemma beside_perm {L} (own : L -> G) LI x gs gs' : gs ≡ₚ gs' -> beside I own LI x gs -> beside I own LI x gs'.
Proof. intros Hp [? H]. split; [done|]. revert H. apply I_perm. by rewrite Hp. Qed.

Lemma drops_all gs s rest : Forall (drops I) gs -> I s (gs ++ rest)%list -> I s rest.
Proof. intros H. induction H as [|g gs Hg _ IH]; cbn; [done|]. intros. apply IH. by apply Hg. Qed.

(** A goroutine of a group acts. *)
Lemma group_act {St' Rp A} (J : St' -> list G -> Prop) (Q : unit -> G -> Prop) (ts : list (go St' Rp unit)) gs i (m : M St' A) k x x' r rest :
  (forall s gs gs', gs ≡ₚ gs' -> J s gs -> J s gs') ->
  Forall2 (holds J Q) ts gs -> ts !! i = Some (Act m k) -> J x (gs ++ rest)%list -> try m x = (x', Ret r) ->
  exists gs', Forall2 (holds J Q) (<[i := k r]> ts) gs' /\ J x' (gs' ++ rest)%list.
Proof.
  intros HJ Hts Hi HJx Hm. destruct (Forall2_lookup_l _ _ _ _ _ Hts Hi) as (g & Hg & Hh). cbn [holds] in Hh.
  pose proof (take_drop_middle _ _ _ Hg) as Hgs.
  destruct (Hh x (take i gs ++ drop (Datatypes.S i) gs ++ rest)%list x' r) as (g' & HJ' & Hk'); [|done|].
  { revert HJx. apply HJ. rewrite <- Hgs at 1. rewrite <- app_assoc. cbn. symmetry. apply Permutation_middle. }
  exists (<[i := g']> gs). split; [by apply Forall2_insert|]. revert HJ'. apply HJ.
  rewrite insert_take_drop by (by eapply lookup_lt_Some). rewrite <- app_assoc. cbn. apply Permutation_middle.
Qed.

Lemma group_move {St' Rp} (J : St' -> list G -> Prop) (Q : unit -> G -> Prop) (ts : list (go St' Rp unit)) gs i p p' :
  Forall2 (holds J Q) ts gs -> ts !! i = Some p -> (forall g, holds J Q p g -> holds J Q p' g) -> Forall2 (holds J Q) (<[i := p']> ts) gs.
Proof.
  intros Hts Hi Hp. destruct (Forall2_lookup_l _ _ _ _ _ Hts Hi) as (g & Hg & Hh).
  rewrite <- (list_insert_id gs i g Hg). apply Forall2_insert; auto.
Qed.

Lemma group_step {L Rp} own LI (ts ts' : list (go (St * L) Rp unit)) gs x x' rest :
  gstep (x, ts) (x', ts') -> group_holds I own LI ts gs -> beside I own LI x (gs ++ rest)%list ->
  exists gs', group_holds I own LI ts' gs' /\ beside I own LI x' (gs' ++ rest)%list.
Proof. intros H Hts HJ. inversion H; simplify_eq. eapply group_act; [apply beside_perm|exact Hts|eassumption|exact HJ|eassumption]. Qed.

Lemma group_returned {L Rp} own LI (ts : list (go (St * L) Rp unit)) gs :
  Forall (fun p => p = Return tt) ts -> group_holds I own LI ts gs -> Forall (drops I) gs.
Proof. intros Hf Hts. induction Hts as [|p g ts gs Hp _ IH]; [done|]. apply Forall_cons in Hf as [-> Hf]. constructor; [exact Hp|auto]. Qed.

Lemma round_step {L Rp} n sign own LI (ps ps' : list (go (St * L) Rp unit)) ch ch' b b' c c' x x' gc gs rest :
  sstep n sign (mkSys x ps ch b c) (mkSys x' ps' ch' b' c') ->
  coll_holds I (beside I own LI) sign c gc -> group_holds I own LI ps gs -> beside I own LI x (gc :: gs ++ rest)%list ->
  exists gc' gs', coll_holds I (beside I own LI) sign c' gc' /\ group_holds I own LI ps' gs' /\ beside I own LI x' (gc' :: gs' ++ rest)%list.
Proof.
  intros H Hc Hps HJ. inversion H as [i B m k r ? ? ? ? ? ? Hi Hm|i k ? ? ? ? ? ? Hi Hb|i d k ? ? ? ? ? Hi Hl
    |i k r buf ? ? ? ? ? Hi Hb|i k ? ? ? ? ? Hi|i d ? ? ? ? rcv|B m k r ? ? ? ? ? rcv Hm|r ? ? ? ? rcv]; simplify_eq.
  - destruct (group_act (beside I own LI) (fun _ => drops I) ps gs i m k x x' r (gc :: rest)) as (gs' & H1 & H2);
      [apply beside_perm|done|done| |done|].
    { revert HJ. apply beside_perm, Permutation_middle. }
    exists gc, gs'. split_and!; [done|done|]. revert H2. apply beside_perm. symmetry. apply Permutation_middle.
  - exists gc, gs. split_and!; [done| |done]. eapply group_move; [done|exact Hi|done].
  - exists gc, gs. split_and!; [done| |done]. eapply group_move; [done|exact Hi|done].
  - exists gc, gs. split_and!; [done| |done]. eapply group_move; [done|exact Hi|by intros g Hg].
  - exists gc, gs. split_and!; [done| |done]. eapply group_move; [done|exact Hi|done].
  - exists gc, gs. split_and!; [|done|done]. destruct (_ <=? _)%nat; [apply Hc|exact Hc].
  - cbn [coll_holds holds] in Hc. destruct (Hc x (gs ++ rest)%list x' r) as (gc' & H1 & H2); [done|done|]. by exists gc', gs.
  - by exists gc, gs.
Qed.

(** A thread that is about to start a group splits what it holds. *)
Lemma running_start E Lab (t : T) g s rest : keeps_thread I Owns E Lab t g -> I s (g :: rest) ->
  exists gl, running I Owns E Lab t gl /\ I s (gl ++ rest)%list.
Proof.
  intros Ht HI. destruct t as [|B m k|L Rp l ts k|L Rp n sign l ps ch b c k|kd t k].
  - exists [g]. split; [by exists g|done].
  - exists [g]. split; [by exists g|done].
  - destruct Ht as (own & LI & gs & Hg & Hl & Hrest). exists (own l :: gs). split; [by exists own, LI, gs|]. by apply Hg.
  - destruct Ht as (own & LI & gc & gs & Hg & Hl & Hrest). exists (own l :: gc :: gs). split; [by exists own, LI, gc, gs|]. by apply Hg.
  - exists [g]. split; [by exists g|done].
Qed.

(** One action of a thread. *)
Lemma running_step E Lab s (t : T) s' t' new gl rest : tstep s t s' t' new ->
  running I Owns E Lab t gl -> I s (gl ++ rest)%list ->
  exists gl' gls, running I Owns E Lab t' gl' /\ Forall2 (fun p => running I Owns (drops I) (Owns p.1) p.2) new gls /\
    I s' (gl' ++ concat gls ++ rest)%list.
Proof.
  intros Hstep Ht HI. destruct Hstep as [B m k s s' r Hm|L Rp l l' ts ts' k s s' Hg|L Rp l ts k s Hf
    |L Rp n sign l l' ps ps' ch ch' b b' c c' k s s' Hr|L Rp n sign l ps ch b c k s [Hf (rcv & rp & Hc)]|kd t k s].
  - destruct Ht as (g & -> & _ & H). destruct (H s rest s' r HI Hm) as (g' & HI' & Hk).
    destruct (running_start _ _ _ _ _ _ Hk HI') as (gl' & H1 & H2). by exists gl', [].
  - destruct Ht as (own & LI & gs & -> & Hl & Hts & Hk). destruct (group_step own LI ts ts' gs _ _ rest Hg Hts) as (gs' & H1 & Hl' & H2); [by split|].
    exists (own l' :: gs'), []. split; [by exists own, LI, gs'|]. by split.
  - destruct Ht as (own & LI & gs & -> & Hl & Hts & Hk). destruct (Hk l Hl) as [_ Hkl].
    destruct (running_start E Lab (k l) (own l) s rest Hkl) as (gl' & H1 & H2); [|by exists gl', []].
    apply (drops_all gs); [by apply (group_returned own LI ts)|]. revert HI. apply I_perm. cbn. apply Permutation_middle.
  - destruct Ht as (own & LI & gc & gs & -> & Hl & Hc & Hps & Hk).
    destruct (round_step n sign own LI ps ps' ch ch' b b' c c' _ _ gc gs rest Hr Hc Hps) as (gc' & gs' & H1 & H2 & Hl' & H3); [by split|].
    exists (own l' :: gc' :: gs'), []. split; [by exists own, LI, gc', gs'|]. by split.
  - destruct Ht as (own & LI & gc & gs & -> & Hl & Hcl & Hps & Hk). destruct (Hk l Hl) as [_ Hkl]. cbn in Hc, Hf. subst c.
    destruct (running_start E Lab (k l) (own l) s rest Hkl) as (gl' & H1 & H2); [|by exists gl', []].
    apply (drops_all (gc :: gs)); [constructor; [done|by apply (group_returned own LI ps)]|]. revert HI. apply I_perm. exact (Permutation_middle (gc :: gs) rest (own l)).
  - destruct Ht as (g & -> & g1 & g2 & Hg & _ & H1 & H2).
    destruct (running_start _ _ t g1 s (g2 :: rest) H1) as (gt & Ht & HI1); [by apply Hg|].
    destruct (running_start E Lab k g2 s (gt ++ rest) H2) as (gk & Hk & HI2).
    { revert HI1. apply I_perm. symmetry. apply Permutation_middle. }
    exists gk, [gt]. split; [done|]. split; [by repeat constructor|]. cbn. by rewrite app_nil_r.
Qed.

(** Whatever happens in whatever order, the invariant and the threads' own
    keep holding. *)
Theorem svc_sound {Ev} (handler : Ev -> T) g0 Lab frame (c c' : service Kd St) :
  (forall e, keeps_thread I Owns (fun g => trades I g [g0]) Lab (handler e) g0) ->
  rtc (svc_step handler) c c' -> svc_ok I Owns g0 Lab frame c -> svc_ok I Owns g0 Lab frame c'.
Proof.
  intros Hev. induction 1 as [c|c c1 c' Hstep _ IH]; [done|]. intros (gl & gls & Hl & Ho & HI). apply IH. clear IH.
  destruct Hstep as [e s os|s t s' t' new os Ht|i kd t s s' t' new lp os Hi Ht]; cbn [loop others mem] in *.
  - destruct Hl as (g & -> & Hg). cbn in HI. apply Hg in HI. cbn in HI.
    destruct (running_start _ _ _ _ _ _ (Hev e) HI) as (gl' & H1 & H2). by exists gl', gls.
  - destruct (running_step _ _ _ _ _ _ _ gl (concat gls ++ frame) Ht Hl HI) as (gl' & new' & H1 & H2 & H3).
    exists gl', (gls ++ new')%list. split; [done|]. split; [by apply Forall2_app|]. cbn. revert H3. apply I_perm.
    rewrite concat_app. solve_Permutation.
  - destruct (Forall2_lookup_l _ _ _ _ _ Ho Hi) as (gi & Hgi & Hri). cbn in Hri. pose proof (take_drop_middle _ _ _ Hgi) as Hgs.
    destruct (running_step _ _ _ _ _ _ _ gi (gl ++ concat (take i gls ++ drop (Datatypes.S i) gls) ++ frame) Ht Hri) as (gi' & new' & H1 & H2 & H3).
    { revert HI. apply I_perm. rewrite <- Hgs at 1. rewrite !concat_app. cbn. solve_Permutation. }
    exists gl, (<[i := gi']> gls ++ new')%list. split; [done|]. split; [apply Forall2_app; [|done]; by apply Forall2_insert|]. cbn.
    revert H3. apply I_perm. rewrite insert_take_drop by (by eapply lookup_lt_Some). rewrite !concat_app. cbn. solve_Permutation.
Qed.

(** A thread that has not ended holds what its kind holds. *)
Lemma running_holds E Lab (t : T) gl : running I Owns E Lab t gl -> t <> Finished -> exists g gl', gl = g :: gl' /\ Lab g.
Proof.
  intros H Ht. destruct t as [|B m k|L Rp l ts k|L Rp n sign l ps ch b c k|kd t k]; [done|..].
  - destruct H as (g & -> & Hg & _). eauto.
  - destruct H as (own & LI & gs & -> & Hl & _ & Hk). eexists _, _. split; [done|]. by apply Hk.
  - destruct H as (own & LI & gc & gs & -> & Hl & _ & _ & Hk). eexists _, _. split; [done|]. by apply Hk.
  - destruct H as (g & -> & g1 & g2 & _ & Hg & _). eauto.
Qed.

(** When everything has ended only what the loop holds is left. *)
Lemma svc_ok_rest g0 Lab frame (c : service Kd St) : svc_ok I Owns g0 Lab frame c -> at_rest c -> I (mem c) (g0 :: frame).
Proof.
  intros (gl & gls & Hl & Ho & HI) [Hr Hrs]. rewrite Hr in Hl. destruct Hl as (g & -> & Hg). apply Hg in HI. cbn in HI.
  assert (Forall (drops I) (concat gls)) as Hdr.
  { clear -Hrs Ho. induction Ho as [|[kd t] gi os gls Hr _ IH]; [constructor|]. apply Forall_cons in Hrs as [Ht Hrs]. cbn in *. subst t.
    destruct Hr as (g & -> & Hg). constructor; auto. }
  apply (drops_all (concat gls) _ (g0 :: frame)); [done|]. revert HI. apply I_perm. apply Permutation_middle.
Qed.

(** The start of a service on [s]. *)
Lemma svc_ok_start g0 Lab frame s : I s (g0 :: frame) -> svc_ok I Owns g0 Lab frame (mkSvc s Finished []).
Proof. intros HI. exists [g0], []. split; [exists g0; split; [done|by intros s' rest]|]. split; [constructor|exact HI]. Qed.

(** A state on the way, at which the invariant holds without the frame. *)
Lemma svc_ok_frame g0 Lab frame (c : service Kd St) :
  (forall gs, I (mem c) (gs ++ frame)%list -> I (mem c) gs) -> svc_ok I Owns g0 Lab frame c -> svc_ok I Owns g0 Lab [] c.
Proof.
  intros Hf (gl & gls & Hl & Ho & HI). exists gl, gls. split; [done|]. split; [done|]. rewrite app_nil_r. apply Hf. by rewrite <- app_assoc.
Qed.

(** From a start on [s] over [c1] to a state in which nothing runs. *)
Lemma svc_sound_rest {Ev} (handler : Ev -> T) g0 Lab frame s (c1 c : service Kd St) :
  (forall e, keeps_thread I Owns (fun g => trades I g [g0]) Lab (handler e) g0) ->
  rtc (svc_step handler) (mkSvc s Finished []) c1 -> rtc (svc_step handler) c1 c -> at_rest c ->
  I s (g0 :: frame) -> (forall gs, I (mem c1) (gs ++ frame)%list -> I (mem c1) gs) -> I (mem c) [g0].
Proof.
  intros Hev Hc1 Hc Hr HI Hf. apply (svc_ok_rest g0 Lab []); [|exact Hr]. eapply svc_sound; [exact Hev|exact Hc|].
  apply (svc_ok_frame _ _ frame); [exact Hf|]. eapply svc_sound; [exact Hev|exact Hc1|]. by apply svc_ok_start.
Qed.
End LogicLemmas.

(** ** Rules for programs *)

Section HoldsRules.
Context {G St Rp : Type} (J : St -> list G -> Prop).

Lemma holds_bind {A B} (p : go St Rp A) (f : A -> go St Rp B) Q g :
  holds J (fun a g => holds J Q (f a) g) p g -> holds J Q (gbind p f) g.
Proof.
  revert g. induction p as [a|B' m k IH|k IH|d k IH|k IH|k IH]; intros g; cbn [holds gbind]; auto.
  intros H s rest s' r HJ Hm. destruct (H s rest s' r HJ Hm) as (g' & ? & ?). eauto.
Qed.

Lemma holds_mono {A} (p : go St Rp A) (Q Q' : A -> G -> Prop) g :
  (forall a g, Q a g -> Q' a g) -> holds J Q p g -> holds J Q' p g.
Proof.
  intros HQ. revert g. induction p as [a|B' m k IH|k IH|d k IH|k IH|k IH]; intros g; cbn [holds]; auto.
  intros H s rest s' r HJ Hm. destruct (H s rest s' r HJ Hm) as (g' & ? & ?). eauto.
Qed.

(** An action that keeps the invariant whatever is held. *)
Lemma holds_keep {B} (m : M St B) (k : B + string -> go St Rp unit) Q g :
  (forall gs, keeps (fun s => J s gs) m) -> (forall r, holds J Q (k r) g) -> holds J Q (gbind (act m) k) g.
Proof.
  intros Hm Hk s rest s' r HJ H. exists g. split; [|apply Hk]. specialize (Hm (g :: rest) s HJ). unfold try in H.
  destruct (m s) as [s1 o]. cbn in *. by injection H as <- _.
Qed.

Lemma holds_retry {A} n (op : go St Rp (A + string)) (Q : A + string -> G -> Prop) g :
  holds J (fun r g' => Q r g' /\ g' = g) op g -> holds J (fun r g' => Q r g' /\ g' = g) (retry_go_loop n op) g.
Proof.
  intros Hop. induction n as [|n IH]; cbn [retry_go_loop]; apply holds_bind;
    (eapply holds_mono; [|exact Hop]); intros [a|e] g' [? ->]; cbn; done || apply IH.
Qed.

(** A program whose every action keeps the invariant, whatever its results. *)
Lemma holds_acts {A} (p : go St Rp A) g : acts (fun B m => forall gs, keeps (fun s => J s gs) m) p -> holds J (fun _ g' => g' = g) p g.
Proof.
  induction p as [a|B' m k IH|k IH|d k IH|k IH|k IH]; cbn [holds acts]; auto.
  intros [Hm Hk] s rest s' r HJ H. exists g. split; [|by apply IH]. specialize (Hm (g :: rest) s HJ). unfold try in H.
  destruct (m s) as [s1 o]. cbn in *. by injection H as <- _.
Qed.

Context {St' : Type} (on : forall B, M St' B -> M St B).
(** What a lifted computation returns is what it returned on some state. *)
Context (on_result : forall B (m : M St' B) s s' r, on B m s = (s', r) -> r <> Panic -> exists a a', m a = (a', r)).

Lemma on_try_result {B} (m : M St' B) s s' r : try (on B m) s = (s', Ret r) -> exists a a', try m a = (a', Ret r).
Proof.
  unfold try. destruct (on B m s) as [s1 o] eqn:E. intros [= <- Ho].
  destruct (on_result _ _ _ _ _ E) as (a & a' & Ha); [by destruct o|]. exists a, a'. by rewrite Ha, Ho.
Qed.

Lemma holds_glift_bind {A B} (p : go St' Rp A) (f : A -> go St' Rp B) Q g :
  holds J (fun a g => holds J Q (glift on (f a)) g) (glift on p) g -> holds J Q (glift on (gbind p f)) g.
Proof.
  revert g. induction p as [a|B' m k IH|k IH|d k IH|k IH|k IH]; intros g; cbn [holds gbind glift]; auto.
  intros H s rest s' r HJ Hm. destruct (H s rest s' r HJ Hm) as (g' & ? & ?). eauto.
Qed.

Lemma holds_glift_retry {A} n (op : go St' Rp (A + string)) (Q : A + string -> G -> Prop) g :
  holds J (fun r g' => Q r g' /\ g' = g) (glift on op) g ->
  holds J (fun r g' => Q r g' /\ g' = g) (glift on (retry_go_loop n op)) g.
Proof.
  intros Hop. induction n as [|n IH]; cbn [retry_go_loop]; apply holds_glift_bind;
    (eapply holds_mono; [|exact Hop]); intros [a|e] g' [? ->]; cbn; done || apply IH.
Qed.

(** A program lifted twice. *)
Lemma holds_glift_twice {St2 A} (on2 : forall B, M St2 B -> M St' B) (p : go St2 Rp A) Q g :
  holds J Q (glift (fun B m => on B (on2 B m)) p) g -> holds J Q (glift on (glift on2 p)) g.
Proof.
  revert g. induction p as [a|B' m k IH|k IH|d k IH|k IH|k IH]; intros g; cbn [holds glift]; auto.
  intros H s rest s' r HJ Hm. destruct (H s rest s' r HJ Hm) as (g' & ? & ?). eauto.
Qed.

(** A program whose every action keeps the invariant. *)
Lemma holds_quiet {A} (p : go St' Rp A) (Q : A -> Prop) g :
  (forall B (m : M St' B) gs, keeps (fun s => J s gs) (on B m)) -> yields p Q -> holds J (fun a g' => Q a /\ g' = g) (glift on p) g.
Proof.
  intros HJ. induction p as [a|B' m k IH|k IH|d k IH|k IH|k IH]; cbn [holds glift yields]; auto.
  intros H s rest s' r Hs Hm. exists g. split.
  - specialize (HJ _ m (g :: rest) s Hs). unfold try in Hm. destruct (on B' m s) as [s1 o]. by injection Hm as <- _.
  - apply IH. destruct (on_try_result _ _ _ _ Hm) as (a & a' & Ha). by eapply H.
Qed.
End HoldsRules.

(** ** Rules for threads *)

Section ThreadRules.
Context {Kd G St : Type} (I : St -> list G -> Prop) (Owns : Kd -> G -> Prop) (E Lab : G -> Prop).
#[local] Notation T := (thread Kd St).
#[local] Notation keeps_thread := (keeps_thread I Owns E Lab).

(** An action that keeps the invariant whatever is held. *)
Lemma thread_keep {B} (m : M St B) (k : B + string -> T) g :
  (forall gs, keeps (fun s => I s gs) m) -> Lab g -> (forall r, keeps_thread (k r) g) -> keeps_thread (Do m k) g.
Proof.
  intros Hm Hg Hk. split; [done|]. intros s rest s' r HI H. exists g. split; [|apply Hk].
  specialize (Hm (g :: rest) s HI). unfold try in H. destruct (m s) as [s1 o]. cbn in *. by injection H as <- _.
Qed.

(** The same, with what the result tells. *)
Lemma thread_keep_result {B} (m : M St B) (k : B + string -> T) (Q : B + string -> Prop) g :
  (forall gs, keeps (fun s => I s gs) m) -> Lab g -> (forall gs s s' r, I s gs -> try m s = (s', Ret r) -> Q r) ->
  (forall r, Q r -> keeps_thread (k r) g) -> keeps_thread (Do m k) g.
Proof.
  intros Hm Hg HQ Hk. split; [done|]. intros s rest s' r HI H. exists g. split; [|apply Hk; by eapply HQ].
  specialize (Hm (g :: rest) s HI). unfold try in H. destruct (m s) as [s1 o]. cbn in *. by injection H as <- _.
Qed.

Lemma thread_do_all {A} (f : A -> M St unit) l (k : T) g :
  (forall x gs, x ∈ l -> keeps (fun s => I s gs) (f x)) -> Lab g -> keeps_thread k g -> keeps_thread (do_all f l k) g.
Proof.
  intros Hf Hg Hk. induction l as [|x l IH]; cbn [do_all]; [done|]. apply thread_keep; [intros gs; apply Hf; left|done|].
  intros _. apply IH. intros y gs Hy. apply Hf. by right.
Qed.

Lemma trades_refl g : trades I g [g].
Proof. by intros s rest. Qed.

(** A thread that may start with [g'] may start with what can be exchanged
    for it. *)
Lemma thread_trade (t : T) g g' : trades I g [g'] -> (E g' -> E g) -> (Lab g' -> Lab g) -> keeps_thread t g' -> keeps_thread t g.
Proof.
  intros Hg HE HL. destruct t as [|B m k|L Rp l ts k|L Rp n sign l ps ch b c k|kd t k]; cbn.
  - exact HE.
  - intros [Hl Hk]. split; [auto|]. intros s rest s' r HI. apply Hk. by apply Hg.
  - intros (own & LI & gs & Ht & H). exists own, LI, gs. split; [|done]. intros s rest HI. by apply Ht, Hg.
  - intros (own & LI & gc & gs & Ht & H). exists own, LI, gc, gs. split; [|done]. intros s rest HI. by apply Ht, Hg.
  - intros (g1 & g2 & Ht & Hl & H). exists g1, g2. split; [|auto]. intros s rest HI. by apply Ht, Hg.
Qed.
End ThreadRules.

(** *** A property of the state alone

    Kept by every action whoever takes it, it holds at every moment. *)

Section Always.
Context {Kd St : Type} (P : St -> Prop).
#[local] Notation T := (thread Kd St).

Definition tame {L Rp A} (p : go (St * L) Rp A) : Prop := acts (fun B (m : M (St * L) B) => keeps (fun x => P x.1) m) p.

Definition coll_tame {L Rp} (sign : gmap nat bytes -> go (St * L) Rp Rp) (c : collecting (St * L) Rp) : Prop :=
  match c with
  | Reading _ => forall rcv, tame (sign rcv)
  | Signing _ p => tame p
  | Stopped _ _ => True
  end.

Fixpoint always (t : T) : Prop :=
  match t with
  | Finished => True
  | Do m k => keeps P m /\ forall s s' r, P s -> try m s = (s', Ret r) -> always (k r)
  | WaitGroup l ts k => Forall tame ts /\ forall l, always (k l)
  | SignRound n sign l ps ch b c k => coll_tame sign c /\ Forall tame ps /\ forall l, always (k l)
  | Spawn kd t k => always t /\ always k
  end.

(** Nobody holds anything. *)
#[local] Notation I := (fun s (_ : list unit) => P s).
#[local] Notation inside := (beside (L := _) I (fun _ => tt) (fun _ => True)).

Lemma tame_holds {L Rp A} (p : go (St * L) Rp A) g : tame p -> holds inside (fun _ => drops I) p g.
Proof.
  intros H. apply (holds_mono _ _ (fun _ g' => g' = g)); [by intros a g' _ s rest HP|]. apply holds_acts.
  revert H. apply acts_mono. intros B m Hm gs x [_ HP]. split; [done|]. by apply Hm.
Qed.

Lemma tame_group {L Rp} (ps : list (go (St * L) Rp unit)) :
  Forall tame ps -> group_holds I (fun _ => tt) (fun _ => True) ps (replicate (length ps) tt).
Proof. intros H. induction H as [|p ps Hp _ IH]; cbn; constructor; [by apply tame_holds|exact IH]. Qed.

Lemma always_keeps_thread (E : unit -> Prop) (t : T) : E tt -> always t -> keeps_thread I (fun _ _ => True) E (fun _ => True) t tt.
Proof.
  revert E. induction t as [|B m k IH|L Rp l ts k IH|L Rp n sign l ps ch b c k IH|kd t IHt k IHk]; intros E HE H; cbn [always] in H.
  - exact HE.
  - destruct H as [Hm Hk]. split; [done|]. intros s rest s' r HP Hr. exists tt. split; [|by eapply IH, Hk].
    specialize (Hm s HP). unfold try in Hr. destruct (m s) as [s1 o]. cbn in *. by injection Hr as <- _.
  - destruct H as [Hts Hk]. exists (fun _ => tt), (fun _ => True), (replicate (length ts) tt). split_and!; [by intros s rest HP|done|by apply tame_group|].
    intros l' _. split; [done|]. by apply IH.
  - destruct H as (Hc & Hps & Hk). exists (fun _ => tt), (fun _ => True), tt, (replicate (length ps) tt).
    split_and!; [by intros s rest HP|done| |by apply tame_group|].
    + destruct c as [|? p|]; [intros rcv; by apply tame_holds|by apply tame_holds|by intros s rest HP].
    + intros l' _. split; [done|]. by apply IH.
  - destruct H as [Ht Hk]. exists tt, tt. split_and!; [by intros s rest HP|done| |by apply IHk]. apply IHt; [by intros s rest HP|done].
Qed.

Lemma always_all {A} (f : A -> M St unit) l (k : T) : (forall x, keeps P (f x)) -> always k -> always (do_all f l k).
Proof. intros Hf Hk. induction l as [|x l IH]; cbn [do_all always]; [done|]. split; [apply Hf|by intros ? ? ? _ _]. Qed.

Lemma always_do {B} (m : M St B) (k : B + string -> T) : keeps P m -> (forall r, always (k r)) -> always (Do m k).
Proof. intros Hm Hk. split; [done|]. intros s s' r _ _. apply Hk. Qed.

Theorem svc_always {Ev} (handler : Ev -> T) s (c : service Kd St) :
  (forall e, always (handler e)) -> rtc (svc_step handler) (mkSvc s Finished []) c -> P s -> P (mem c).
Proof.
  intros Hev Hc Hs.
  assert (svc_ok I (fun _ _ => True) tt (fun _ => True) [] c) as (gl & gls & _ & _ & H); [|exact H].
  eapply svc_sound; [by intros ? ? ?| |exact Hc|by apply svc_ok_start]. intros e. apply always_keeps_thread; [by intros s' rest HP|apply Hev].
Qed.
End Always.

(** ** Termination *)

Section Rest.
Context {Kd St : Type}.
#[local] Notation T := (thread Kd St).

(** One action of one of the threads, whatever the shared state is. *)
Definition fewer (l' l : list T) : Prop :=
  exists s t s' t' new rest, tstep s t s' t' new /\ l ≡ₚ t :: rest /\ l' ≡ₚ t' :: map snd new ++ rest.

Lemma fewer_perm l m : l ≡ₚ m -> Acc fewer l -> Acc fewer m.
Proof.
  intros Hp [H]. constructor. intros m' (s & t & s' & t' & new & rest & Ht & H1 & H2). apply H.
  exists s, t, s', t', new, rest. split; [done|]. by rewrite Hp.
Qed.

(** Threads that end whenever the rest do. *)
Definition ends (t : T) : Prop := forall l, Acc fewer l -> Acc fewer (t :: l).

Lemma ends_step (t : T) l : Acc fewer l ->
  (forall s s' t' new, tstep s t s' t' new -> Acc fewer (t' :: map snd new ++ l)) ->
  (forall l', fewer l' l -> Acc fewer (t :: l')) -> Acc fewer (t :: l).
Proof.
  intros Hl Ht Hrest. constructor. intros l' (s & t0 & s' & t' & new & rest & Hs & H1 & H2).
  eapply fewer_perm; [symmetry; exact H2|].
  assert (t0 ∈ t :: l) as [->|Hin]%elem_of_cons by (rewrite H1; left).
  - apply Permutation_cons_inv in H1. eapply fewer_perm; [|by eapply Ht]. by rewrite H1.
  - apply elem_of_Permutation in Hin as [l1 Hl1]. rewrite Hl1 in H1.
    assert (rest ≡ₚ t :: l1) as Hr.
    { apply (Permutation_cons_inv (a := t0)). rewrite <- H1. apply perm_swap. }
    eapply fewer_perm; [|apply (Hrest (t' :: map snd new ++ l1))].
    + rewrite Hr. solve_Permutation.
    + by exists s, t0, s', t', new, l1.
Qed.

(** Induction on the other threads, for a thread that stays as it is. *)
Lemma ends_by (t : T) :
  (forall s s' t' new l, Acc fewer l -> tstep s t s' t' new -> Acc fewer (t' :: map snd new ++ l)) -> ends t.
Proof. intros Ht l Hl. induction Hl as [l Hl IH]. apply ends_step; [by constructor|intros; eapply Ht; [by constructor|done]|exact IH]. Qed.

(** The steps of a given thread. *)
Lemma tstep_cases s (t : T) s' t' new : tstep s t s' t' new ->
  match t with
  | Finished => False
  | Do m k => exists r, t' = k r /\ new = []
  | WaitGroup l ts k => new = [] /\ ((exists l' ts', gstep ((s, l), ts) ((s', l'), ts') /\ t' = WaitGroup l' ts' k) \/ t' = k l)
  | SignRound n sign l ps ch b c k => new = [] /\
      ((exists l' ps' ch' b' c', sstep n sign (mkSys (s, l) ps ch b c) (mkSys (s', l') ps' ch' b' c') /\
        t' = SignRound n sign l' ps' ch' b' c' k) \/ t' = k l)
  | Spawn kd t k => t' = k /\ new = [(kd, t)]
  end.
Proof. destruct 1; eauto 10. Qed.

Lemma gstep_next {St' Rp} (x x' : St') (ts ts' : list (go St' Rp unit)) : gstep (x, ts) (x', ts') -> list_next ts' ts.
Proof. intros H. inversion H; simplify_eq. eexists _, _, _. split; [eassumption|]. split; [by eexists|done]. Qed.

Lemma thread_ends (t : T) : ends t.
Proof.
  induction t as [|B m k IH|L Rp l ts k IH|L Rp n sign l ps ch b c k IH|kd t IHt k IHk].
  - by apply ends_by; intros s s' t' new l Hl ?%tstep_cases.
  - apply ends_by. intros s s' t' new l Hl (r & -> & ->)%tstep_cases. by apply IH.
  - revert l. induction (list_next_wf ts) as [ts _ IHts]. intros l. apply ends_by.
    intros s s' t' new l0 Hl [-> [(l' & ts' & Hg%gstep_next & ->)| ->]]%tstep_cases; [by apply IHts|by apply IH].
  - assert (forall (y : sys (St * L) Rp) l, ends (SignRound n sign l (progs y) (reqs y) (subs y) (coll y) k)) as H.
    { intros y. induction (round_shrinks_wf n sign y) as [y _ IHy]. intros l0. apply ends_by.
      intros s s' t' new l1 Hl [-> [(l' & ps' & ch' & b' & c' & Hr & ->)| ->]]%tstep_cases; [|by apply IH].
      refine (IHy (mkSys (s', l') ps' ch' b' c') _ l' _ Hl). by exists (s, l0), (s', l'). }
    intros l0 Hl0. constructor. intros l1 H1. assert (Acc fewer (SignRound n sign l ps ch b c k :: l0)) as [Ha]; [|by apply Ha].
    destruct H1 as (s & _). exact (H (mkSys (s, l) ps ch b c) l l0 Hl0).
  - by apply ends_by; intros s s' t' new l Hl [-> ->]%tstep_cases; apply IHk, IHt.
Qed.

Lemma threads_end (l : list T) : Acc fewer l.
Proof.
  induction l as [|t l IH]; [|by apply thread_ends]. constructor. intros l' (s & t & s' & t' & new & rest & _ & H & _).
  by apply Permutation_nil_cons in H.
Qed.

Definition all_threads (c : service Kd St) : list T := loop c :: map snd (others c).

(** Between two events nothing runs for ever. *)
Theorem svc_comes_to_rest (c : service Kd St) : Acc (fun c' c => svc_step (Ev := Empty_set) (fun e => match e with end) c c') c.
Proof.
  remember (all_threads c) as l eqn:El. revert c El. induction (threads_end l) as [l _ IH]. intros c ->. constructor. intros c' Hc.
  eapply IH; [|done]. destruct Hc as [[]|s t s' t' new os Ht|i kd t s s' t' new lp os Hi Ht]; unfold all_threads; cbn.
  - exists s, t, s', t', new, (map snd os). split; [done|]. split; [done|]. rewrite map_app. solve_Permutation.
  - pose proof (take_drop_middle _ _ _ Hi) as Hos.
    exists s, t, s', t', new, (lp :: map snd (take i os ++ drop (Datatypes.S i) os)). split; [done|]. split.
    + rewrite <- Hos at 1. rewrite !map_app. cbn. solve_Permutation.
    + rewrite insert_take_drop by (by eapply lookup_lt_Some). rewrite !map_app. cbn. solve_Permutation.
Qed.
End Rest.

(** ** Progress *)

Section Progress.
Context {Kd St : Type}.
#[local] Notation T := (thread Kd St).

(** The goroutines of groups only act, those of a round are in a state of the
    signing protocol, and its collector only acts. *)
Fixpoint lively (t : T) : Prop :=
  match t with
  | Finished => True
  | Do m k => forall s s' r, try m s = (s', Ret r) -> lively (k r)
  | WaitGroup l ts k => Forall only_acts ts /\ forall l, lively (k l)
  | SignRound n sign l ps ch b c k => (0 < n)%nat /\ (forall rcv, only_acts (sign rcv)) /\
      (exists msg answer w, reached n msg answer w /\ forall s, refines (mkSys s ps ch b c) w) /\ forall l, lively (k l)
  | Spawn kd t k => lively t /\ lively k
  end.

(** The next action of the thread panics. *)
Definition tcrash (s : St) (t : T) : Prop :=
  match t with
  | Do m _ => (m s).2 = Panic
  | WaitGroup l ts _ => gcrash ((s, l), ts)
  | SignRound n sign l ps ch b c _ => scrash (mkSys (s, l) ps ch b c)
  | _ => False
  end.

Definition svc_crash (c : service Kd St) : Prop := exists t, t ∈ all_threads c /\ tcrash (mem c) t.

Lemma lively_boot {L Rp} n sign (l : L) (ps : list (go (St * L) Rp unit)) k :
  (0 < n)%nat -> length ps = n -> Forall (worker_of WStart) ps -> (forall rcv, only_acts (sign rcv)) -> (forall l, lively (k l)) ->
  Rp -> lively (sign_round_thread n sign l ps k).
Proof.
  intros Hn Hl Hps Hs Hk nil_resp. split; [done|]. split; [done|]. split; [|done].
  exists (fun _ => []), (fun _ => nil_resp), (start n). split; [constructor|]. intros s. split_and!; try done.
  cbn. rewrite <- Hl. clear -Hps. induction Hps; constructor; done.
Qed.

Lemma lively_step s (t : T) s' t' new : tstep s t s' t' new -> lively t -> lively t' /\ Forall lively (map snd new).
Proof.
  intros [B m k s0 s1 r Hm|L Rp l l' ts ts' k s0 s1 Hg|L Rp l ts k s0 Hf
    |L Rp n sign l l' ps ps' ch ch' b b' c c' k s0 s1 Hr|L Rp n sign l ps ch b c k s0 Ho|kd t0 k s0].
  - intros H. split; [by eapply H|constructor].
  - intros [Ha Hk]. split; [|constructor]. split; [|done].
    eapply group_members; [apply rtc_once; exact Hg| |exact Ha]. intros B m k0 r H. apply H.
  - intros [_ Hk]. split; [apply Hk|constructor].
  - intros (Hn & Hs & (msg & answer & w & Hw & Hy) & Hk). split; [|constructor].
    destruct (refines_step n sign Hs msg answer _ _ w Hw (Hy (s0, l)) Hr) as (msg' & answer' & w' & Hw' & Hy').
    split_and!; [done|done| |done]. exists msg', answer', w'. split; [done|]. intros s2. exact Hy'.
  - intros (_ & _ & _ & Hk). split; [apply Hk|constructor].
  - intros [H1 H2]. split; [done|]. by repeat constructor.
Qed.

Lemma lively_progress s (t : T) : lively t -> t = Finished \/ tcrash s t \/ exists s' t' new, tstep s t s' t' new.
Proof.
  destruct t as [|B m k|L Rp l ts k|L Rp n sign l ps ch b c k|kd t k]; cbn [lively tcrash].
  - by left.
  - intros _. right. destruct (m s) as [s' [a|e|]] eqn:Em; [right|right|by left]; eexists _, _, _; apply t_do; unfold try; rewrite Em; reflexivity.
  - intros [Ha _]. right. destruct (group_moves (s, l) ts Ha) as [Hf|[Hc|([[s' l'] ts'] & Hg)]].
    + right. eexists _, _, _. by apply t_wait.
    + by left.
    + right. eexists _, _, _. by apply t_group.
  - intros (Hn & Hs & (msg & answer & w & Hw & Hy) & _). right.
    destruct (refines_progress n sign msg answer w _ Hn Hw (Hy (s, l))) as [Ho|[Hc|[[[s' l'] ps' ch' b' c'] Hr]]].
    + right. eexists _, _, _. by apply t_waited.
    + by left.
    + right. eexists _, _, _. by apply t_round.
  - intros _. right. right. eexists _, _, _. apply t_spawn.
Qed.

Lemma svc_lively {Ev} (handler : Ev -> T) (c c' : service Kd St) : (forall e, lively (handler e)) ->
  rtc (svc_step handler) c c' -> Forall lively (all_threads c) -> Forall lively (all_threads c').
Proof.
  intros He. induction 1 as [c|c c1 c' Hs _ IH]; [done|]. intros H. apply IH. clear IH. unfold all_threads in *.
  destruct Hs as [e s os|s t s' t' new os Ht|i kd t s s' t' new lp os Hi Ht]; cbn in *; apply Forall_cons in H as [H1 H2].
  - constructor; [apply He|done].
  - destruct (lively_step _ _ _ _ _ Ht H1) as [? ?]. constructor; [done|]. rewrite map_app. by apply Forall_app.
  - assert (lively t) as Hl by (rewrite Forall_lookup in H2; apply (H2 i); by rewrite list_lookup_fmap, Hi).
    destruct (lively_step _ _ _ _ _ Ht Hl) as [? ?]. constructor; [done|]. rewrite map_app. apply Forall_app. split; [|done].
    change (Forall lively (snd <$> <[i:=(kd, t')]> os)). rewrite list_fmap_insert. by apply Forall_insert.
Qed.

(** As long as something runs, something can act, unless an action panics. *)
Theorem svc_goes_on {Ev} (handler : Ev -> T) (c0 c : service Kd St) : (forall e, lively (handler e)) ->
  Forall lively (all_threads c0) -> rtc (svc_step handler) c0 c ->
  at_rest c \/ svc_crash c \/ exists c', svc_step (Ev := Empty_set) (fun e => match e with end) c c'.
Proof.
  intros He H0 Hr. pose proof (svc_lively _ _ _ He Hr H0) as H. clear H0 Hr. destruct c as [s lp os]. unfold svc_crash, at_rest, all_threads in *.
  cbn in *. apply Forall_cons in H as [H1 H2].
  destruct (lively_progress s lp H1) as [->|[Hc|(s' & t' & new & Ht)]].
  - assert (Forall (fun p : Kd * T => p.2 = Finished) os \/ exists i kd t, os !! i = Some (kd, t) /\ t <> Finished) as [?|(i & kd & t & Hi & Hn)].
    { clear. induction os as [|[kd t] os IH]; [by left|]. destruct IH as [IH|(i & kd' & t' & Hi & Hn)].
      - destruct t; [left; by constructor|..]; right; by eexists 0%nat, _, _.
      - right. by exists (Datatypes.S i), kd', t'. }
    + by left.
    + right. assert (lively t) as Hl by (rewrite Forall_lookup in H2; apply (H2 i); by rewrite list_lookup_fmap, Hi).
      destruct (lively_progress s t Hl) as [?|[Hc|(s' & t' & new & Ht)]]; [done| |].
      * left. exists t. split; [|done]. right. apply list_elem_of_fmap. exists (kd, t). split; [done|]. by eapply list_elem_of_lookup_2.
      * right. eexists. by eapply svc_other.
  - right. left. exists lp. split; [left|done].
  - right. right. eexists. by apply svc_loop.
Qed.
End Progress.

(** ** Running the threads by a schedule *)

(** A schedule lets an event come, or names the thread to move next and, for
    a group or a round, the goroutine of it; one that cannot move is skipped. *)
Inductive pick (Ev : Type) := PickEvent (e : Ev) | PickLoop (w : option nat) | PickOther (i : nat) (w : option nat).
Arguments PickEvent {Ev}. Arguments PickLoop {Ev}. Arguments PickOther {Ev}.

Section Schedule.
Context {Kd St Ev : Type}.
#[local] Notation T := (thread Kd St).

Definition tmove (w : option nat) (s : St) (t : T) : St * T * list (Kd * T) :=
  match t with
  | Finished => (s, t, [])
  | Do m k => match try m s with (s', Ret r) => (s', k r, []) | _ => (s, t, []) end
  | WaitGroup l ts k =>
      if all_returned ts then (s, k l, [])
      else match w with
        | None => (s, t, [])
        | Some i => let '((s', l'), ts') := gmove i ((s, l), ts) in (s', WaitGroup l' ts' k, [])
        end
  | SignRound n sign l ps ch b c k =>
      if sover_b (mkSys (s, l) ps ch b c) then (s, k l, [])
      else let '(mkSys (s', l') ps' ch' b' c') := smove n sign w (mkSys (s, l) ps ch b c) in (s', SignRound n sign l' ps' ch' b' c' k, [])
  | Spawn kd t k => (s, k, [(kd, t)])
  end.

Context (handler : Ev -> T).

Definition svc_move (c : service Kd St) (p : pick Ev) : service Kd St :=
  match p with
  | PickEvent e => match loop c with Finished => mkSvc (mem c) (handler e) (others c) | _ => c end
  | PickLoop w => let '(s, t, new) := tmove w (mem c) (loop c) in mkSvc s t (others c ++ new)
  | PickOther i w =>
      match others c !! i with
      | Some (kd, t) => let '(s, t', new) := tmove w (mem c) t in mkSvc s (loop c) (<[i := (kd, t')]> (others c) ++ new)
      | None => c
      end
  end.

Definition svc_sched (l : list (pick Ev)) (c : service Kd St) : service Kd St := fold_left svc_move l c.

Definition rests (c : service Kd St) : bool :=
  match loop c with Finished => true | _ => false end && forallb (fun p => match p.2 with Finished => true | _ => false end) (others c).

Lemma rests_spec c : rests c = true -> at_rest c.
Proof.
  unfold rests, at_rest. intros [Hl Ho]%andb_true_iff. split; [by destruct (loop c)|]. rewrite forallb_forall in Ho.
  apply Forall_forall. intros p Hp%list_elem_of_In%Ho. by destruct (p.2).
Qed.

Lemma tmove_step w s (t : T) : tmove w s t = (s, t, []) \/
  tstep s t (fst (fst (tmove w s t))) (snd (fst (tmove w s t))) (snd (tmove w s t)).
Proof.
  destruct t as [|B m k|L Rp l ts k|L Rp n sign l ps ch b c k|kd t k]; cbn [tmove].
  - by left.
  - destruct (try m s) as [s' [r|e|]] eqn:Em; [right|by left..]. cbn. by apply t_do.
  - destruct (all_returned ts) eqn:Ea; [right; cbn; apply t_wait; by apply all_returned_spec|]. destruct w as [i|]; [|by left].
    unfold gmove. cbn [fst snd]. destruct (ts !! i) as [[|B m k0| | | |]|] eqn:Ei; try (by left).
    destruct (try m (s, l)) as [[s' l'] [r|e|]] eqn:Em; try (by left). right. cbn. apply t_group. by eapply gstep_act.
  - destruct (sover_b _) eqn:Eo; [right; cbn; apply t_waited; by apply sover_b_spec|].
    assert (smove n sign w (mkSys (s, l) ps ch b c) = mkSys (s, l) ps ch b c \/
      sstep n sign (mkSys (s, l) ps ch b c) (smove n sign w (mkSys (s, l) ps ch b c))) as [->|H]; [|by left|].
    { unfold smove. destruct w as [i|].
      - destruct (ps !! i) as [[a|B m k0|k0|d k0|k0|k0]|] eqn:Ei; try (by left).
        + destruct (try m (s, l)) as [s' [r|e|]] eqn:Em; try (by left). right. by eapply sstep_act.
        + destruct (Subscribe (Z.of_nat i) b) as [b'|e|] eqn:Es; try (by left). right. by eapply sstep_sub.
        + destruct (Nat.ltb_spec (length ch) n); [|by left]. right. by apply sstep_send.
        + destruct (b !! Z.of_nat i) as [[|r buf]|] eqn:Eb; try (by left). right. by eapply sstep_recv.
        + right. by apply sstep_unsub.
      - destruct c as [rcv|rcv p|rcv r].
        + destruct ch as [|[i d] ch]; [by left|]. right. apply sstep_collect.
        + destruct p as [a|B m k0|k0|d k0|k0|k0]; try (by left).
          * right. apply sstep_broadcast.
          * destruct (try m (s, l)) as [s' [r|e|]] eqn:Em; try (by left). right. by eapply sstep_sign.
        + by left. }
    destruct (smove n sign w (mkSys (s, l) ps ch b c)) as [[s' l'] ps' ch' b' c']. right. cbn. by apply t_round.
  - right. cbn. apply t_spawn.
Qed.

(** A schedule is a run. *)
Lemma svc_sched_runs l (c : service Kd St) : rtc (svc_step handler) c (svc_sched l c).
Proof.
  revert c. induction l as [|p l IH]; intros c; [done|]. etrans; [|apply IH]. clear IH. destruct c as [s lp os].
  destruct p as [e|w|i w]; cbn [svc_move mem loop others].
  - destruct lp; try done. apply rtc_once, svc_event.
  - destruct (tmove_step w s lp) as [->|H]; [by rewrite app_nil_r|]. destruct (tmove w s lp) as [[s' t'] new]. by apply rtc_once, svc_loop.
  - destruct (os !! i) as [[kd t]|] eqn:Ei; [|done]. destruct (tmove_step w s t) as [->|H]; [by rewrite list_insert_id, app_nil_r|].
    destruct (tmove w s t) as [[s' t'] new]. apply rtc_once. by eapply svc_other.
Qed.
End Schedule.
