(* ===== verification/TxSend.v ===== *)
(** * Sending to the public chains: pubchain/tx_send.go

    The signing service and the go-ethereum signer are the classes
    [TssServer] and [EthSigner].  A method that returns a hash and an error
    returns both here, since its callers use the hash of a failed sending.
    The two channels of a batch round appear from the side of one worker: the
    messages it has put on the request channel ([outbox]) and the map it will
    receive ([tssResp], nil when signing failed); Keysign.v has the round. *)

From Stdlib Require Import Ascii String.
From S2P Require Import Prelude GoLib Sdk Requests Signature Pools PubClient Keysign.

#[local] Open Scope string_scope.
#[local] Open Scope Z_scope.
#[local] Open Scope go_scope.

(** ** Definitions *)

(** [keysign.Response]: the status, and each message with its signature. *)
Record KeysignResponse := mkKeysignResponse {
  Success : bool;
  Signatures : list (string * TssSignature);
}.

Class TssServer (W : Type) := {
  KeySign : string -> list string -> Z -> M W KeysignResponse;
}.

(** [types.LatestSignerForChainID]. *)
Class EthSigner := {
  signer_Hash : Z -> LegacyTx -> bytes;
  WithSignature : Z -> LegacyTx -> bytes -> outcome SignedTx;
  SignedTx_Hash : SignedTx -> bytes;
}.

Class EthSignerLaws (G : EthSigner) : Prop := {
  WithSignature_tx : forall c t s st, WithSignature c t s = Ret st -> stx_tx st = t /\ stx_sig st = s;
}.

Record SendState (W C : Type) := mkSendState {
  chain : ChainInfo W C;
  outbox : list (nat * bytes);
}.
Arguments mkSendState {W C}. Arguments chain {W C}. Arguments outbox {W C}.

Section Send.
Context {W C : Type} `{EC : EthClient W C} `{T : TssServer W} `{G : EthSigner} `{E : Eth} `{K : Backoff}.
(** How many times the backoff of [waitToSend] tries. *)
Context (attempts : nat).
#[local] Notation CI := (ChainInfo W C).
#[local] Notation SS := (SendState W C).

Definition on_chain {A} (m : M CI A) : M SS A := fun s =>
  let '(c, r) := m (chain s) in (mkSendState c (outbox s), r).

Definition on_node {A} (m : M W A) : M CI A := fun c =>
  let '(w, r) := m (node c) in (with_node w c, r).

Definition send_req (index : nat) (data : bytes) : M SS unit :=
  modify (fun s => mkSendState (chain s) (outbox s ++ [(index, data)])%list).

(** [common.Hash{}, err] and the like. *)
Definition no_hash {St} (e : string) : M St (bytes * option string) := ret (zero_hash, Some e).

(** *** Signing *)

(** A response that is not a success returns a nil signature with a nil error. *)
Definition tssSign (msg : bytes) (pk : string) (blockHeight : Z) : M W (option bytes) :=
  let encodedMsg := base64_EncodeToString msg in
  let! resp := KeySign pk [encodedMsg] blockHeight in
  if negb (Success resp) then ret None
  else match Signatures resp with
    | [(_, sig)] =>
        let! signature := lift (SerializeSig sig true) in
        ret (Some signature)
    | _ => fail "more than 1 signature received"
    end.

Fixpoint collect_signatures (l : list (string * TssSignature)) (signatureMap : gmap string bytes)
    : outcome (gmap string bytes) :=
  match l with
  | [] => Ret signatureMap
  | (m, s) :: l =>
      match SerializeSig s true with
      | Ret signature => collect_signatures l (<[m := signature]> signatureMap)
      | Fail _ => collect_signatures l signatureMap
      | Panic => Panic
      end
  end.

Definition TssSignBatch (msgs : list bytes) (pk : string) (blockHeight : Z) : M W (option (gmap string bytes)) :=
  let encodedMSgs := map base64_EncodeToString msgs in
  let! resp := KeySign pk encodedMSgs blockHeight in
  if negb (Success resp) then ret None
  else
    let! signatureMap := lift (collect_signatures (Signatures resp) ∅) in
    ret (Some signatureMap).

(** The [Signer] closure of [composeTx]. *)
Definition single_signer (signerPk : string) (sender : bytes) (chainID : Z) (blockHeight : Z)
    (address : bytes) (tx : LegacyTx) : M CI SignedTx :=
  if negb (bool_decide (address = sender)) then fail "the address is different from the sender"
  else
    let msg := signer_Hash chainID tx in
    let! signature := try (on_node (tssSign msg signerPk blockHeight)) in
    match signature with
    | inl (Some sg) =>
        if negb (length sg =? 65)%nat then fail "fail to sign the tx"
        else lift (WithSignature chainID tx sg)
    | _ => fail "fail to sign the tx"
    end.

(** The [Signer] closure of [composeTxBatch]. *)
Definition batch_signer (index : nat) (sender : bytes) (chainID : Z) (tssResp : option (gmap string bytes))
    (address : bytes) (tx : LegacyTx) : M SS SignedTx :=
  if negb (bool_decide (address = sender)) then fail "the address is different from the sender"
  else
    let msg := signer_Hash chainID tx in
    do! send_req index msg in
    match tssResp with
    | None => fail "fail to sign the tx"
    | Some signature =>
        let expected := base64_EncodeToString msg in
        match signature !! expected with
        | None => fail "fail to sign the tx"
        | Some sig => lift (WithSignature chainID tx sig)
        end
    end.

(** [composeTx] and [composeTxBatch] fail on a chain without an identifier. *)
Definition chain_id : M CI Z :=
  let! c := get in
  match ChainID c with Some i => ret i | None => fail "no chain id specified" end.

(** *** Sending *)

(** The end all four methods share: wait for the nonce's turn, then send. *)
Definition wait_and_send (sender : bytes) (nonce : option Z) (signedTx : SignedTx) : M CI (bytes * option string) :=
  let! w := try (match nonce with Some n => waitToSend attempts sender (Uint64 n) | None => ret tt end) in
  match w with
  | inr e => ret (SignedTx_Hash signedTx, Some e)
  | inl _ =>
      let! r := try (sendTransactionWithLock signedTx) in
      match r with
      | inl _ => ret (SignedTx_Hash signedTx, None)
      | inr e => ret (SignedTx_Hash signedTx, Some e)
      end
  end.

(** The dereference [nonce.Uint64()]. *)
Definition deref (nonce : option Z) : outcome Z :=
  match nonce with Some n => Ret (Uint64 n) | None => Panic end.

Definition SendNativeTokenBatch (index : nat) (sender receiver : bytes) (amount : Z) (nonce : option Z)
    (tssResp : option (gmap string bytes)) : M SS (bytes * option string) :=
  let! fee := try (on_chain GetFeeLimitWithLock) in
  match fee with
  | inr e => no_hash e
  | inl (_, gasPrice, gas) =>
      let! cid := try (on_chain chain_id) in
      match cid with
      | inr e => no_hash e
      | inl chainID =>
          let! n := lift (deref nonce) in
          let tx := mkLegacyTx n gasPrice gas receiver amount [] in
          let! signed := try (batch_signer index sender chainID tssResp sender tx) in
          match signed with
          | inr e => no_hash e
          | inl signedTx => on_chain (wait_and_send sender nonce signedTx)
          end
      end
  end.

(** The middle result tells that the account is as good as empty. *)
Definition SendNativeTokenForMoveFund (GetPool : list (option PoolInfo)) (signerPk : string) (sender receiver : bytes)
    (amount : Z) (nonce : option Z) : M CI (bytes * bool * option string) :=
  match nonce with
  | None => ret (zero_hash, false, Some "invalid nonce")
  | Some _ =>
      let! fee := try GetFeeLimitWithLock in
      match fee with
      | inr e => ret (zero_hash, false, Some e)
      | inl (fee, price, gas) =>
          if negb (fee <? amount) then ret (zero_hash, true, None)
          else
            let! signerPk := (if bool_decide (signerPk = "") then
              match GetPool !! 1%nat with
              | Some (Some lastPool) => ret (Pk lastPool)
              | _ => panic
              end else ret signerPk) in
            let! latest := try (GetBlockByNumberWithLock None) in
            match latest with
            | inr e => ret (zero_hash, false, Some e)
            | inl latest =>
                let blockHeight := Z.quot (i64 (NumberU64 latest)) ROUNDBLOCK in
                let! cid := try chain_id in
                match cid with
                | inr e => ret (zero_hash, false, Some e)
                | inl chainID =>
                    let sendAmount := amount - fee in
                    let! n := lift (deref nonce) in
                    let tx := mkLegacyTx n price gas receiver sendAmount [] in
                    let! signed := try (single_signer signerPk sender chainID blockHeight sender tx) in
                    match signed with
                    | inr e => ret (zero_hash, false, Some e)
                    | inl signedTx =>
                        let! r := wait_and_send sender nonce signedTx in
                        ret (fst r, false, snd r)
                    end
                end
            end
      end
  end.

(** [tokenInstance.Transfer(txo, receiver, amount)] with [NoSend] set: the raw
    transaction, then the signer.  A nil nonce is left to the client. *)
Definition token_nonce (nonce : option Z) : Z := match nonce with Some n => n | None => -1 end.

Definition SendTokenBatch (index : nat) (sender receiver : bytes) (amount : Z) (nonce : option Z)
    (tokenAddr : string) (tssResp : option (gmap string bytes)) : M SS (bytes * option string) :=
  let! cid := try (on_chain chain_id) in
  match cid with
  | inr e => no_hash e
  | inl chainID =>
      let! ready := try (
        let! raw := on_chain (call (fun cl =>
          TransferTx cl sender (HexToAddress tokenAddr) receiver amount (token_nonce nonce))) in
        batch_signer index sender chainID tssResp sender raw) in
      match ready with
      | inr e => no_hash e
      | inl readyTx => on_chain (wait_and_send sender nonce readyTx)
      end
  end.

Definition SendToken (GetPool : list (option PoolInfo)) (signerPk : string) (sender receiver : bytes) (amount : Z)
    (nonce : option Z) (tokenAddr : string) : M CI (bytes * option string) :=
  let! signerPk := (if bool_decide (signerPk = "") then
    match GetPool !! 1%nat with
    | Some (Some lastPool) => ret (Pk lastPool)
    | _ => panic
    end else ret signerPk) in
  let! latest := try (GetBlockByNumberWithLock None) in
  match latest with
  | inr e => no_hash e
  | inl latest =>
      let blockHeight := Z.quot (i64 (NumberU64 latest)) ROUNDBLOCK in
      let! cid := try chain_id in
      match cid with
      | inr e => no_hash e
      | inl chainID =>
          let! ready := try (
            let! raw := call (fun cl =>
              TransferTx cl sender (HexToAddress tokenAddr) receiver amount (token_nonce nonce)) in
            single_signer signerPk sender chainID blockHeight sender raw) in
          match ready with
          | inr e => no_hash e
          | inl readyTx => wait_and_send sender nonce readyTx
          end
      end
  end.

(** The hash, and nil or the error. *)
Definition ProcessOutBound (index : nat) (toAddr fromAddr : bytes) (tokenAddr : string) (amount nonce : Z)
    (tssResp : option (gmap string bytes)) : M SS (string * option string) :=
  let! r := (if bool_decide (tokenAddr = NativeSign) then
      let! r := SendNativeTokenBatch index fromAddr toAddr amount (Some nonce) tssResp in
      do! send_req index done_msg in
      ret r
    else
      let! r := SendTokenBatch index fromAddr toAddr amount (Some nonce) tokenAddr tssResp in
      do! send_req index done_msg in
      ret r) in
  let '(txHash, err) := r in
  match err with
  | Some e =>
      if bool_decide (e = "already known") then ret (Hash_Hex txHash, None)
      else ret (Hash_Hex txHash, Some e)
  | None => ret (Hash_Hex txHash, None)
  end.

(** A worker's messages: at most one request, for the hash of [tx]. *)
Definition requested (chainID : Z) (index : nat) (tx : LegacyTx) (l : list (nat * bytes)) : Prop :=
  l = [] \/ l = [(index, signer_Hash chainID tx)].
End Send.

(** ** Lemmas *)

Section Lemmas.
Context {W C : Type} `{EC : EthClient W C} `{T : TssServer W} `{G : EthSigner} `{LG : !EthSignerLaws G}.
Context `{E : Eth} `{K : Backoff} (attempts : nat).
#[local] Notation CI := (ChainInfo W C).
#[local] Notation SS := (SendState W C).

Lemma on_chain_outbox {A} (m : M CI A) (s : SS) : outbox (on_chain m s).1 = outbox s.
Proof. unfold on_chain. by destruct (m (chain s)). Qed.

Lemma try_state {St A} (m : M St A) s : (try m s).1 = (m s).1.
Proof. unfold try. by destruct (m s). Qed.

Lemma bind_state_ind {St A B} (P : St -> St -> Prop) (m : M St A) (k : A -> M St B) s :
  (forall a b c, P a b -> P b c -> P a c) ->
  P s (m s).1 -> (forall a s', P s' (k a s').1) -> P s (bind m k s).1.
Proof.
  intros Ht Hm Hk. unfold bind. destruct (m s) as [s' [a|e|]]; cbn in *; [|done|done]. eapply Ht; [exact Hm|apply Hk].
Qed.

(** The signer's traffic, whatever its result. *)
Lemma batch_signer_outbox index sender cid resp tx (s : SS) :
  outbox (batch_signer index sender cid resp sender tx s).1 = (outbox s ++ [(index, signer_Hash cid tx)])%list.
Proof.
  unfold batch_signer. rewrite bool_decide_true by done. cbn [negb]. unfold bind, send_req, modify. cbn.
  destruct resp as [m|]; [|done]. destruct (m !! _); done.
Qed.

Lemma batch_signer_ret index sender cid resp tx (s s' : SS) st :
  batch_signer index sender cid resp sender tx s = (s', Ret st) ->
  stx_tx st = tx /\ exists m, resp = Some m /\ m !! base64_EncodeToString (signer_Hash cid tx) = Some (stx_sig st).
Proof.
  unfold batch_signer. rewrite bool_decide_true by done. cbn [negb]. unfold_go.
  destruct resp as [m|]; [|intros H; by simplify_eq]. destruct (m !! _) as [sig|] eqn:Hm; [|intros H; by simplify_eq].
  intros H. simplify_eq. match goal with h : WithSignature _ _ _ = _ |- _ => apply WithSignature_tx in h as [-> <-] end. eauto.
Qed.

Lemma single_signer_ret pk sender cid h tx (c c' : CI) st :
  single_signer pk sender cid h sender tx c = (c', Ret st) -> stx_tx st = tx.
Proof.
  unfold single_signer. rewrite bool_decide_true by done. cbn [negb]. unfold bind.
  destruct (try _ c) as [c1 [[[sg|]|e]|e|]]; try (cbn; intros; by simplify_eq).
  destruct (length sg =? 65)%nat; cbn [negb]; [|cbn; intros; by simplify_eq].
  unfold lift. intros [= _ H]. by apply WithSignature_tx in H as [-> _].
Qed.

(** The outcome of the shared end is that of its one transaction. *)
Lemma wait_and_send_hash sender nonce st (c : CI) c' h e :
  wait_and_send attempts sender nonce st c = (c', Ret (h, e)) -> h = SignedTx_Hash st.
Proof.
  unfold wait_and_send. unfold bind, try, ret, ocatch.
  destruct nonce as [n|]; cbn.
  - destruct (waitToSend attempts sender (Uint64 n) c) as [c1 [[]|e1|]]; cbn; [|intros H; by simplify_eq|done].
    destruct (sendTransactionWithLock st c1) as [c2 [[]|e2|]]; cbn; intros H; by simplify_eq.
  - destruct (sendTransactionWithLock st c) as [c2 [[]|e2|]]; cbn; intros H; by simplify_eq.
Qed.

(** Success of the shared end: the nonce's turn had come and the node took
    the transaction, or already had it. *)
Lemma wait_and_send_ok sender n st (c : CI) c' h :
  wait_and_send attempts sender (Some n) st c = (c', Ret (h, None)) ->
  exists c1, waitToSend attempts sender (Uint64 n) c = (c1, Ret tt) /\
    sendTransactionWithLock st c1 = (c', Ret tt) /\ h = SignedTx_Hash st.
Proof.
  unfold wait_and_send. unfold bind, try, ret, ocatch.
  destruct (waitToSend attempts sender (Uint64 n) c) as [c1 [[]|e1|]]; cbn; [|intros H; by simplify_eq|done].
  destruct (sendTransactionWithLock st c1) as [c2 [[]|e2|]] eqn:Es; cbn; intros H; simplify_eq. by exists c1.
Qed.

Lemma collect_signatures_lookup l m m' k sg :
  collect_signatures l m = Ret m' -> m' !! k = Some sg ->
  m !! k = Some sg \/ exists s, (k, s) ∈ l /\ SerializeSig s true = Ret sg.
Proof.
  revert m. induction l as [|[j s] l IH]; intros m; cbn [collect_signatures].
  - intros H Hk. simplify_eq. by left.
  - destruct (SerializeSig s true) as [b|e|] eqn:Es; [| |done].
    + intros H Hk. destruct (IH _ H Hk) as [Hm|(s' & Hin & Hs)].
      * apply lookup_insert_Some in Hm as [[-> ->]|[_ Hm]]; [|by left]. right. exists s. split; [by left|done].
      * right. exists s'. split; [by right|done].
    + intros H Hk. destruct (IH _ H Hk) as [Hm|(s' & Hin & Hs)]; [by left|]. right. exists s'. split; [by right|done].
Qed.

Lemma on_chain_eq {A} (m : M CI A) (s : SS) :
  on_chain m s = (mkSendState (m (chain s)).1 (outbox s), (m (chain s)).2).
Proof. unfold on_chain. by destruct (m (chain s)). Qed.

(** A transaction that was signed by the round's answer, waited for the turn
    of its nonce and was accepted by the node. *)
Definition accepted (sender : bytes) (cid nonce : Z) (resp : option (gmap string bytes)) (tx : LegacyTx) (h : bytes) : Prop :=
  exists m sg (c0 c1 c2 : CI), resp = Some m /\ m !! base64_EncodeToString (signer_Hash cid tx) = Some sg /\
    h = SignedTx_Hash (mkSignedTx tx sg) /\
    waitToSend attempts sender (Uint64 nonce) c0 = (c1, Ret tt) /\
    sendTransactionWithLock (mkSignedTx tx sg) c1 = (c2, Ret tt).

Lemma accepted_of st sender cid nonce resp tx m h (c0 c' : CI) :
  resp = Some m -> m !! base64_EncodeToString (signer_Hash cid tx) = Some (stx_sig st) -> stx_tx st = tx ->
  wait_and_send attempts sender (Some nonce) st c0 = (c', Ret (h, None)) ->
  accepted sender cid nonce resp tx h.
Proof.
  intros Hr Hm Htx H. apply wait_and_send_ok in H as (c1 & Hw & Hs & ->).
  destruct st as [t sg]; cbn in *; subst t. exists m, sg, c0, c1, c'. done.
Qed.

Lemma GetFeeLimit_gas c fee gp gas : (GetFeeLimitWithLock c).2 = Ret (fee, gp, gas) -> gas = DEFAULTNATIVEGAS.
Proof.
  unfold GetFeeLimitWithLock, bind. destruct (locked SuggestGasPrice c) as [c1 [[p|e]|e|]]; cbn; intros H; simplify_eq. done.
Qed.

(** Closes the paths that end before the signer. *)
Ltac quiet := left; split; [reflexivity | let h := fresh in let H := fresh in intros h H; unfold no_hash, ret in H; cbn in H; discriminate H].

Lemma SendNativeTokenBatch_spec index sender receiver amount nonce resp (s : SS) :
  let tx gp := mkLegacyTx (Uint64 nonce) gp DEFAULTNATIVEGAS receiver amount [] in
  let r := SendNativeTokenBatch attempts index sender receiver amount (Some nonce) resp s in
  (outbox r.1 = outbox s /\ (forall h, r.2 <> Ret (h, None))) \/
  exists cid gp, outbox r.1 = (outbox s ++ [(index, signer_Hash cid (tx gp))])%list /\
    forall h, r.2 = Ret (h, None) -> accepted sender cid nonce resp (tx gp) h.
Proof.
  intros tx r. remember (SendNativeTokenBatch attempts index sender receiver amount (Some nonce) resp s) as r' eqn:Hr.
  subst r. revert Hr. unfold SendNativeTokenBatch. unfold bind at 1. unfold try at 1. rewrite on_chain_eq.
  pose proof (GetFeeLimit_gas (chain s)) as Hgas.
  destruct (GetFeeLimitWithLock (chain s)) as [c1 [[[fee gp] gas]|e|]]; cbn; [|intros ->; quiet|intros ->; quiet].
  rewrite (Hgas _ _ _ eq_refl). clear Hgas. unfold bind at 1. unfold try at 1. rewrite on_chain_eq. cbn [chain outbox].
  destruct (chain_id c1) as [c2 [cid|e|]]; cbn -[batch_signer wait_and_send]; [|intros ->; quiet|intros ->; quiet].
  unfold bind, lift, try. fold (tx gp).
  pose proof (batch_signer_outbox index sender cid resp (tx gp) (mkSendState c2 (outbox s))) as Hout.
  pose proof (batch_signer_ret index sender cid resp (tx gp) (mkSendState c2 (outbox s))) as Hret.
  destruct (batch_signer index sender cid resp sender (tx gp) (mkSendState c2 (outbox s))) as [s3 [st|e|]]; cbn in Hout |- *;
    intros ->; right; exists cid, gp; [|by split|by split].
  rewrite on_chain_eq. cbn. split; [done|]. intros h Hh.
  destruct (Hret _ _ eq_refl) as (Htx & m & Hm & Hk).
  destruct (wait_and_send attempts sender (Some nonce) st (chain s3)) as [c4 r4] eqn:Ew. cbn in Hh. subst r4.
  by eapply accepted_of.
Qed.

Lemma SendTokenBatch_spec index sender receiver amount nonce tokenAddr resp (s : SS) :
  let r := SendTokenBatch attempts index sender receiver amount (Some nonce) tokenAddr resp s in
  (outbox r.1 = outbox s /\ (forall h, r.2 <> Ret (h, None))) \/
  exists cid cl w tx, (TransferTx cl sender (HexToAddress tokenAddr) receiver amount nonce w).2 = Ret tx /\
    outbox r.1 = (outbox s ++ [(index, signer_Hash cid tx)])%list /\
    forall h, r.2 = Ret (h, None) -> accepted sender cid nonce resp tx h.
Proof.
  intros r. remember (SendTokenBatch attempts index sender receiver amount (Some nonce) tokenAddr resp s) as r' eqn:Hr.
  subst r. revert Hr. unfold SendTokenBatch. unfold bind at 1. unfold try at 1. rewrite on_chain_eq.
  destruct (chain_id (chain s)) as [c1 [cid|e|]]; cbn -[batch_signer wait_and_send]; [|intros ->; quiet|intros ->; quiet].
  unfold bind at 1. unfold try at 1. unfold bind at 1. rewrite on_chain_eq. cbn [chain outbox token_nonce]. unfold call.
  destruct (TransferTx (Client c1) sender (HexToAddress tokenAddr) receiver amount nonce (node c1)) as [w [tx|e|]] eqn:ET;
    cbn -[batch_signer wait_and_send]; [|intros ->; quiet|intros ->; quiet].
  pose proof (batch_signer_outbox index sender cid resp tx (mkSendState (with_node w c1) (outbox s))) as Hout.
  pose proof (batch_signer_ret index sender cid resp tx (mkSendState (with_node w c1) (outbox s))) as Hret.
  destruct (batch_signer index sender cid resp sender tx _) as [s3 [st|e|]]; cbn in Hout |- *;
    intros ->; right; exists cid, (Client c1), (node c1), tx; rewrite ET; (split; [done|]); [|by split|by split].
  rewrite on_chain_eq. cbn. split; [done|]. intros h Hh.
  destruct (Hret _ _ eq_refl) as (Htx & m & Hm & Hk).
  destruct (wait_and_send attempts sender (Some nonce) st (chain s3)) as [c4 r4] eqn:Ew. cbn in Hh. subst r4.
  by eapply accepted_of.
Qed.
End Lemmas.

(** ** Properties *)

Section Properties.
Context {W C : Type} `{EC : EthClient W C} `{T : TssServer W} `{G : EthSigner} `{LG : !EthSignerLaws G}.
Context `{E : Eth} `{K : Backoff} (attempts : nat).

(** Fact (what a worker does on the request channel). Whatever fails,
    [ProcessOutBound] writes at most one signing request to the channel, and
    then, last, its one "done": the worker protocol of the signing round. *)
Theorem ProcessOutBound_protocol index toAddr fromAddr tokenAddr amount nonce resp (s s' : SendState W C) h err :
  ProcessOutBound attempts index toAddr fromAddr tokenAddr amount nonce resp s = (s', Ret (h, err)) ->
  exists reqs, outbox s' = (outbox s ++ reqs ++ [(index, done_msg)])%list /\
    (reqs = [] \/ exists data, reqs = [(index, data)]).
Proof.
  unfold ProcessOutBound.
  assert (forall (sb : SendState W C) (o : list (nat * bytes)) h0 e0 r,
    (exists reqs, o = (outbox s ++ reqs)%list /\ (reqs = [] \/ exists data, reqs = [(index, data)])) ->
    outbox sb = (o ++ [(index, done_msg)])%list ->
    bind (ret (h0, e0)) (fun r : bytes * option string => let '(txHash, err) := r in
      match err with
      | Some e => if bool_decide (e = "already known") then ret (Hash_Hex txHash, None) else ret (Hash_Hex txHash, Some e)
      | None => ret (Hash_Hex txHash, None) end) sb = (s', Ret r) ->
    exists reqs, outbox s' = (outbox s ++ reqs ++ [(index, done_msg)])%list /\ (reqs = [] \/ exists data, reqs = [(index, data)])) as Hend.
  { intros sb o h0 e0 r (reqs & Ho & Hreqs) Hsb H. exists reqs. split; [|done].
    assert (s' = sb) as -> by (unfold bind, ret in H; destruct e0; [destruct (bool_decide _)|]; by simplify_eq).
    rewrite Hsb, Ho. by rewrite app_assoc. }
  case_bool_decide as Hnat; unfold bind at 1; unfold bind at 1.
  - pose proof (SendNativeTokenBatch_spec attempts index fromAddr toAddr amount nonce resp s) as Hspec.
    destruct (SendNativeTokenBatch _ _ _ _ _ _ _ s) as [s1 [[h1 e1]|e|]]; [|done|done]. cbn in Hspec.
    intros H. eapply (Hend (mkSendState (chain s1) (outbox s1 ++ [(index, done_msg)])%list) (outbox s1)); [|reflexivity|exact H].
    destruct Hspec as [[-> _]|(cid & gp & -> & _)]; [exists []; rewrite app_nil_r; auto|]. eexists. split; [done|]. eauto.
  - pose proof (SendTokenBatch_spec attempts index fromAddr toAddr amount nonce tokenAddr resp s) as Hspec.
    destruct (SendTokenBatch _ _ _ _ _ _ _ _ s) as [s1 [[h1 e1]|e|]]; [|done|done]. cbn in Hspec.
    intros H. eapply (Hend (mkSendState (chain s1) (outbox s1 ++ [(index, done_msg)])%list) (outbox s1)); [|reflexivity|exact H].
    destruct Hspec as [[-> _]|(cid & cl & w & tx & _ & -> & _)]; [exists []; rewrite app_nil_r; auto|]. eexists. split; [done|]. eauto.
Qed.

(** C30 (native payments are the ones asked for). When a native sending is
    successful, the accepted transaction pays exactly the requested amount to
    the requested receiver with the assigned nonce and 21000 gas, it carries
    the signature the round answered for its own hash, it was released when
    its nonce was the pending one, and the hash returned is its hash. *)
Theorem SendNativeTokenBatch_pays index sender receiver amount nonce resp (s s' : SendState W C) h :
  in_u64 nonce ->
  SendNativeTokenBatch attempts index sender receiver amount (Some nonce) resp s = (s', Ret (h, None)) ->
  exists cid gp m sg (c0 c1 c2 : ChainInfo W C),
    let tx := mkLegacyTx nonce gp DEFAULTNATIVEGAS receiver amount [] in
    resp = Some m /\ m !! base64_EncodeToString (signer_Hash cid tx) = Some sg /\
    h = SignedTx_Hash (mkSignedTx tx sg) /\
    waitToSend attempts sender nonce c0 = (c1, Ret tt) /\
    sendTransactionWithLock (mkSignedTx tx sg) c1 = (c2, Ret tt).
Proof.
  intros Hn H. pose proof (SendNativeTokenBatch_spec attempts index sender receiver amount nonce resp s) as Hspec.
  rewrite H in Hspec. cbn in Hspec.
  assert (Uint64 nonce = nonce) as Hu.
  { unfold Uint64. destruct Hn. rewrite Z.abs_eq by lia. by apply u64_small. }
  rewrite Hu in Hspec.
  destruct Hspec as [[_ Hno]|(cid & gp & _ & Hacc)]; [by destruct (Hno h)|].
  destruct (Hacc h eq_refl) as (m & sg & c0 & c1 & c2 & Hacc'). rewrite Hu in Hacc'.
  exists cid, gp, m, sg, c0, c1, c2. exact Hacc'.
Qed.

(** Fact (fund movements spend the whole balance). [SendNativeTokenForMoveFund]
    reports an empty account exactly when the amount does not exceed the fee,
    and then signs nothing; when it succeeds otherwise the accepted
    transaction's value and fee add up to the amount, with a positive value. *)
Theorem SendNativeTokenForMoveFund_spends GetPool signerPk sender receiver amount nonce (c c' : ChainInfo W C) h empty :
  in_u64 nonce ->
  SendNativeTokenForMoveFund attempts GetPool signerPk sender receiver amount (Some nonce) c = (c', Ret (h, empty, None)) ->
  exists gp, (SuggestGasPrice (Client c) (node c)).2 = Ret gp /\
    (empty = true <-> amount <= gp * DEFAULTNATIVEGAS) /\
    (empty = false -> exists st (c1 c2 : ChainInfo W C),
      sendTransactionWithLock st c1 = (c2, Ret tt) /\ h = SignedTx_Hash st /\
      lt_To (stx_tx st) = receiver /\ lt_Nonce (stx_tx st) = nonce /\ 0 < lt_Value (stx_tx st) /\
      lt_Value (stx_tx st) + lt_Gas (stx_tx st) * lt_GasPrice (stx_tx st) = amount).
Proof.
  intros Hn. unfold SendNativeTokenForMoveFund. unfold bind at 1. unfold try at 1.
  assert (Uint64 nonce = nonce) as Hu.
  { unfold Uint64. destruct Hn. rewrite Z.abs_eq by lia. by apply u64_small. }
  unfold GetFeeLimitWithLock. unfold bind at 1.
  destruct (locked_eq SuggestGasPrice c) as [->|[_ [c1 ->]]]; [|done].
  destruct (SuggestGasPrice (Client c) (node c)) as [w [gp|e|]]; cbn [fst snd]; [|cbn; intros; by simplify_eq|done].
  cbn [ret ocatch]. intros H. exists gp. split; [done|].
  destruct (Z.ltb_spec (gp * DEFAULTNATIVEGAS) amount) as [Hlt|Hge]; cbn [negb] in H.
  2: { unfold ret in H. simplify_eq. split; [split; [lia|done]|done]. }
  revert H. set (c1 := with_node w c). clearbody c1.
  unfold bind at 1. destruct (bool_decide (signerPk = "")).
  1: destruct (GetPool !! 1%nat) as [[pool|]|]; cbn [ret panic]; [|done|done].
  all: cbn [ret]; unfold bind at 1; unfold try at 1;
    destruct (GetBlockByNumberWithLock None c1) as [c2 [b|e|]]; cbn [ocatch]; [|cbn; intros; by simplify_eq|done];
    unfold bind at 1; unfold try at 1; destruct (chain_id c2) as [c3 [cid|e|]]; cbn [ocatch]; [|cbn; intros; by simplify_eq|done];
    unfold bind at 1; cbn [lift deref]; rewrite Hu; unfold bind at 1; unfold try at 1;
    match goal with |- context [single_signer ?a ?b ?c ?d ?e ?t ?s] =>
      pose proof (single_signer_ret a b c d t s) as Hsig; destruct (single_signer a b c d e t s) as [c4 [st|e0|]] end;
    cbn [ocatch]; [|cbn; intros; by simplify_eq|done];
    specialize (Hsig _ _ eq_refl);
    unfold bind at 1; destruct (wait_and_send attempts sender (Some nonce) st c4) as [c5 [[h5 e5]|e0|]] eqn:Ew; cbn [ret]; [|done|done];
    cbn [fst snd]; intros H; unfold ret in H; simplify_eq;
    (split; [split; [done|lia]|]); intros _; apply wait_and_send_ok in Ew as (c6 & _ & Hs & ->);
    exists st, c6, c'; rewrite Hsig; cbn; (split; [done|]); repeat split; unfold DEFAULTNATIVEGAS in *; lia.
Qed.
End Properties.

(** ** Reference signer and signing service, for the examples *)

Definition eth_signer_ref : EthSigner := {|
  signer_Hash := fun c t => Bytes (c * 1000000 + lt_Nonce t * 1000 + lt_Value t);
  WithSignature := fun _ t s => Ret (mkSignedTx t s);
  SignedTx_Hash := fun st => (lt_Data (stx_tx st) ++ Bytes (lt_Nonce (stx_tx st)))%list;
|}.

#[export] Instance eth_signer_ref_laws : EthSignerLaws eth_signer_ref.
Proof. split. intros c t s st H. by injection H as <-. Qed.

Definition sig_ref : TssSignature :=
  mkTssSignature (base64_EncodeToString [Byte.x05]) (base64_EncodeToString [Byte.x06]) (base64_EncodeToString []).

Definition tss_ref : TssServer ref_world := {|
  KeySign := fun pk msgs _ => ret (mkKeysignResponse true (map (fun m => (m, sig_ref)) msgs));
|}.

Section Witnesses.
#[local] Existing Instance eth_client_ref.
#[local] Existing Instance backoff_ref.
#[local] Existing Instance eth_ref.
#[local] Existing Instance eth_signer_ref.
#[local] Existing Instance tss_ref.

Definition send_state (nonces : list Z) : SendState ref_world unit := mkSendState (chain_ref nonces) [].

(** The answer of a round for the one transaction of the examples. *)
Definition answer_ref (nonce amount : Z) : option (gmap string bytes) :=
  Some {[ base64_EncodeToString (signer_Hash 56 (mkLegacyTx nonce 5 DEFAULTNATIVEGAS [Byte.x09] amount [])) := [Byte.x01] ]}.

Lemma ProcessOutBound_protocol_witness : exists reqs,
  outbox (ProcessOutBound 4 0 [Byte.x09] [Byte.x08] "native" 40 3 (answer_ref 3 40) (send_state [3])).1 =
  (outbox (send_state [3]) ++ reqs ++ [(0%nat, done_msg)])%list /\ (reqs = [] \/ exists data, reqs = [(0%nat, data)]).
Proof.
  destruct (ProcessOutBound 4 0 [Byte.x09] [Byte.x08] "native" 40 3 (answer_ref 3 40) (send_state [3])) as [s' r] eqn:E.
  assert (is_ret r = true) as Hr by (apply (f_equal snd) in E; cbn [snd] in E; subst r; vm_compute; reflexivity).
  destruct r as [[h err]|e|]; [|discriminate|discriminate].
  exact (ProcessOutBound_protocol 4 0 [Byte.x09] [Byte.x08] "native" 40 3 (answer_ref 3 40) (send_state [3]) s' h err E).
Defined.

Lemma SendNativeTokenBatch_pays_witness :
  exists cid gp m sg, answer_ref 3 40 = Some m /\
    m !! base64_EncodeToString (signer_Hash cid (mkLegacyTx 3 gp DEFAULTNATIVEGAS [Byte.x09] 40 [])) = Some sg.
Proof.
  destruct (SendNativeTokenBatch 4 0 [Byte.x08] [Byte.x09] 40 (Some 3) (answer_ref 3 40) (send_state [3])) as [s' r] eqn:E.
  assert (match r with Ret (_, None) => true | _ => false end = true) as Hr
    by (apply (f_equal snd) in E; cbn [snd] in E; subst r; vm_compute; reflexivity).
  destruct r as [[h [e|]]|e|]; try discriminate.
  destruct (SendNativeTokenBatch_pays 4 0 [Byte.x08] [Byte.x09] 40 3 (answer_ref 3 40) (send_state [3]) s' h)
    as (cid & gp & m & sg & c0 & c1 & c2 & H1 & H2 & _); [unfold in_u64, two64; lia|exact E|].
  exists cid, gp, m, sg. split; assumption.
Defined.

Lemma SendNativeTokenForMoveFund_spends_witness :
  exists st : SignedTx, lt_To (stx_tx st) = [Byte.x09] /\
    lt_Value (stx_tx st) + lt_Gas (stx_tx st) * lt_GasPrice (stx_tx st) = 1000000.
Proof.
  destruct (SendNativeTokenForMoveFund 4 [] "pk" [Byte.x08] [Byte.x09] 1000000 (Some 3) (chain_ref [3])) as [c' r] eqn:E.
  assert (match r with Ret (_, false, None) => true | _ => false end = true) as Hr
    by (apply (f_equal snd) in E; cbn [snd] in E; subst r; vm_compute; reflexivity).
  destruct r as [[[h [|]] [e|]]|e|]; try discriminate.
  destruct (SendNativeTokenForMoveFund_spends 4 [] "pk" [Byte.x08] [Byte.x09] 1000000 3 (chain_ref [3]) c' h false)
    as (gp & _ & _ & H); [unfold in_u64, two64; lia|exact E|].
  destruct (H eq_refl) as (st & c1 & c2 & _ & _ & H1 & _ & _ & H2). exists st. split; assumption.
Defined.
End Witnesses.
