(* ===== verification/Config.v ===== *)
(** * Configuration: config/config.go

    The command-line flags with their defaults, and the parser of Go's [flag]
    package as far as the source uses it.  Multiaddresses are those of
    libp2p, the class [MultiAddr]. *)

From Stdlib Require Import Ascii String.
From S2P Require Import Prelude GoLib.

#[local] Open Scope string_scope.
#[local] Open Scope Z_scope.
#[local] Open Scope go_scope.

(** ** Definitions *)

Class MultiAddr := {
  Multiaddr : Type;
  NewMultiaddr : string -> outcome Multiaddr;
  Multiaddr_String : Multiaddr -> string;
}.

Class MultiAddrLaws (A : MultiAddr) : Prop := {
  (** the text of an address parses to it *)
  NewMultiaddr_String : forall a, NewMultiaddr (Multiaddr_String a) = Ret a;
}.

Record CosChainConfig := mkCosChainConfig {
  GrpcAddress : string;
  WsAddress : string;
  WsEndpoint : string;
  HTTPAddress : string;
  cos_RollbackGap : Z;
}.

Record PubChainConfig := mkPubChainConfig {
  WsAddressBSC : string;
  WsAddressETH : string;
  pub_RollbackGap : Z;
}.

(** Durations are in nanoseconds. *)
Definition Second : Z := 1000000000.
Definition Minute : Z := 60 * Second.

(** [strings.Join]. *)
Fixpoint Join (l : list string) (sep : string) : string :=
  match l with
  | [] => ""
  | [x] => x
  | x :: l => x ++ sep ++ Join l sep
  end.

Section Config.
Context `{MA : MultiAddr}.
(** [time.ParseDuration], whose fractions are floating-point arithmetic. *)
Context (ParseDuration : string -> outcome Z).

Definition AddrList : Type := list Multiaddr.

Definition AddrList_String (al : AddrList) : string := Join (map Multiaddr_String al) ",".

Definition AddrList_Set (value : string) : M AddrList unit :=
  let! addr := lift (NewMultiaddr value) in
  modify (fun al => al ++ [addr])%list.

Record TssConfig := mkTssConfig {
  PartyTimeout : Z;
  KeyGenTimeout : Z;
  KeySignTimeout : Z;
  PreParamTimeout : Z;
  RendezvousString : string;
  Port : Z;
  BootstrapPeers : AddrList;
  ExternalIP : string;
  HTTPAddr : string;
}.

Record Config := mkConfig {
  CosChain : CosChainConfig;
  PubChain : PubChainConfig;
  Tss : TssConfig;
  KeyringAddress : string;
  HomeDir : string;
  TokenListPath : string;
  Version : bool;
  TokenListUpdateGap : Z;
  EnableMonitor : bool;
}.

Definition zero_Config : Config :=
  mkConfig (mkCosChainConfig "" "" "" "" 0) (mkPubChainConfig "" "" 0) (mkTssConfig 0 0 0 0 "" 0 [] "" "") "" "" "" false 0 false.

(** *** Fields by address: reading and writing one of them *)

Definition set_Cos f c := mkConfig (f (CosChain c)) (PubChain c) (Tss c) (KeyringAddress c) (HomeDir c) (TokenListPath c) (Version c) (TokenListUpdateGap c) (EnableMonitor c).
Definition set_Pub f c := mkConfig (CosChain c) (f (PubChain c)) (Tss c) (KeyringAddress c) (HomeDir c) (TokenListPath c) (Version c) (TokenListUpdateGap c) (EnableMonitor c).
Definition set_Tss f c := mkConfig (CosChain c) (PubChain c) (f (Tss c)) (KeyringAddress c) (HomeDir c) (TokenListPath c) (Version c) (TokenListUpdateGap c) (EnableMonitor c).
Definition with_GrpcAddress v := set_Cos (fun c => mkCosChainConfig v (WsAddress c) (WsEndpoint c) (HTTPAddress c) (cos_RollbackGap c)).
Definition with_WsAddress v := set_Cos (fun c => mkCosChainConfig (GrpcAddress c) v (WsEndpoint c) (HTTPAddress c) (cos_RollbackGap c)).
Definition with_WsEndpoint v := set_Cos (fun c => mkCosChainConfig (GrpcAddress c) (WsAddress c) v (HTTPAddress c) (cos_RollbackGap c)).
Definition with_HTTPAddress v := set_Cos (fun c => mkCosChainConfig (GrpcAddress c) (WsAddress c) (WsEndpoint c) v (cos_RollbackGap c)).
Definition with_cos_RollbackGap v := set_Cos (fun c => mkCosChainConfig (GrpcAddress c) (WsAddress c) (WsEndpoint c) (HTTPAddress c) v).
Definition with_WsAddressBSC v := set_Pub (fun c => mkPubChainConfig v (WsAddressETH c) (pub_RollbackGap c)).
Definition with_WsAddressETH v := set_Pub (fun c => mkPubChainConfig (WsAddressBSC c) v (pub_RollbackGap c)).
Definition with_pub_RollbackGap v := set_Pub (fun c => mkPubChainConfig (WsAddressBSC c) (WsAddressETH c) v).
Definition with_PartyTimeout v := set_Tss (fun c => mkTssConfig v (KeyGenTimeout c) (KeySignTimeout c) (PreParamTimeout c) (RendezvousString c) (Port c) (BootstrapPeers c) (ExternalIP c) (HTTPAddr c)).
Definition with_KeyGenTimeout v := set_Tss (fun c => mkTssConfig (PartyTimeout c) v (KeySignTimeout c) (PreParamTimeout c) (RendezvousString c) (Port c) (BootstrapPeers c) (ExternalIP c) (HTTPAddr c)).
Definition with_KeySignTimeout v := set_Tss (fun c => mkTssConfig (PartyTimeout c) (KeyGenTimeout c) v (PreParamTimeout c) (RendezvousString c) (Port c) (BootstrapPeers c) (ExternalIP c) (HTTPAddr c)).
Definition with_PreParamTimeout v := set_Tss (fun c => mkTssConfig (PartyTimeout c) (KeyGenTimeout c) (KeySignTimeout c) v (RendezvousString c) (Port c) (BootstrapPeers c) (ExternalIP c) (HTTPAddr c)).
Definition with_RendezvousString v := set_Tss (fun c => mkTssConfig (PartyTimeout c) (KeyGenTimeout c) (KeySignTimeout c) (PreParamTimeout c) v (Port c) (BootstrapPeers c) (ExternalIP c) (HTTPAddr c)).
Definition with_Port v := set_Tss (fun c => mkTssConfig (PartyTimeout c) (KeyGenTimeout c) (KeySignTimeout c) (PreParamTimeout c) (RendezvousString c) v (BootstrapPeers c) (ExternalIP c) (HTTPAddr c)).
Definition with_BootstrapPeers v := set_Tss (fun c => mkTssConfig (PartyTimeout c) (KeyGenTimeout c) (KeySignTimeout c) (PreParamTimeout c) (RendezvousString c) (Port c) v (ExternalIP c) (HTTPAddr c)).
Definition with_ExternalIP v := set_Tss (fun c => mkTssConfig (PartyTimeout c) (KeyGenTimeout c) (KeySignTimeout c) (PreParamTimeout c) (RendezvousString c) (Port c) (BootstrapPeers c) v (HTTPAddr c)).
Definition with_HTTPAddr v := set_Tss (fun c => mkTssConfig (PartyTimeout c) (KeyGenTimeout c) (KeySignTimeout c) (PreParamTimeout c) (RendezvousString c) (Port c) (BootstrapPeers c) (ExternalIP c) v).
Definition with_KeyringAddress v c := mkConfig (CosChain c) (PubChain c) (Tss c) v (HomeDir c) (TokenListPath c) (Version c) (TokenListUpdateGap c) (EnableMonitor c).
Definition with_HomeDir v c := mkConfig (CosChain c) (PubChain c) (Tss c) (KeyringAddress c) v (TokenListPath c) (Version c) (TokenListUpdateGap c) (EnableMonitor c).
Definition with_TokenListPath v c := mkConfig (CosChain c) (PubChain c) (Tss c) (KeyringAddress c) (HomeDir c) v (Version c) (TokenListUpdateGap c) (EnableMonitor c).
Definition with_Version v c := mkConfig (CosChain c) (PubChain c) (Tss c) (KeyringAddress c) (HomeDir c) (TokenListPath c) v (TokenListUpdateGap c) (EnableMonitor c).
Definition with_TokenListUpdateGap v c := mkConfig (CosChain c) (PubChain c) (Tss c) (KeyringAddress c) (HomeDir c) (TokenListPath c) (Version c) v (EnableMonitor c).
Definition with_EnableMonitor v c := mkConfig (CosChain c) (PubChain c) (Tss c) (KeyringAddress c) (HomeDir c) (TokenListPath c) (Version c) (TokenListUpdateGap c) v.

(** *** Go's [flag] package *)

(** [strconv.ParseBool]. *)
Definition ParseBool (s : string) : outcome bool :=
  if bool_decide (s ∈ ["1"; "t"; "T"; "true"; "TRUE"; "True"]) then Ret true
  else if bool_decide (s ∈ ["0"; "f"; "F"; "false"; "FALSE"; "False"]) then Ret false
  else Fail "parse error".

(** The digit [c] of a base up to 36. *)
Definition digit_of (base : Z) (c : ascii) : option Z :=
  let c := Z.of_N (N_of_ascii (lower_char c)) in
  let d := if (48 <=? c) && (c <=? 57) then c - 48 else if (97 <=? c) && (c <=? 122) then c - 87 else 99 in
  if d <? base then Some d else None.

Fixpoint base_value (base acc : Z) (s : string) : option Z :=
  match s with
  | EmptyString => Some acc
  | String c s =>
      if bool_decide (c = "_"%char) then base_value base acc s
      else match digit_of base c with
        | Some d => base_value base (acc * base + d) s
        | None => None
        end
  end.

Fixpoint has_underscore (s : string) : bool :=
  match s with EmptyString => false | String c s => bool_decide (c = "_"%char) || has_underscore s end.

(** Underscores only between digits, or between the prefix and a digit:
    [prev] is whether the last character was a digit (or the prefix). *)
Fixpoint underscores_ok (hex prev last_underscore : bool) (s : string) : bool :=
  match s with
  | EmptyString => negb last_underscore
  | String c s =>
      if bool_decide (c = "_"%char) then prev && underscores_ok hex false true s
      else match digit_of (if hex then 16 else 10) c with
        | Some _ => underscores_ok hex true false s
        | None => negb last_underscore && underscores_ok hex false false s
        end
  end.

(** Base and digits of an unsigned literal. *)
Definition literal (s : string) : Z * string * bool :=
  match s with
  | String "0" (String c (String d rest)) =>
      if bool_decide (lower_char c = "b"%char) then (2, String d rest, true)
      else if bool_decide (lower_char c = "o"%char) then (8, String d rest, true)
      else if bool_decide (lower_char c = "x"%char) then (16, String d rest, true)
      else (8, String c (String d rest), false)
  | String "0" rest => (8, rest, false)
  | _ => (10, s, false)
  end.

(** [strconv.ParseInt(s, 0, 64)]. *)
Definition ParseInt0 (s : string) : outcome Z :=
  let '(neg, u) := match s with
    | String "-" s => (true, s)
    | String "+" s => (false, s)
    | _ => (false, s)
    end in
  match u with
  | EmptyString => Fail "parse error"
  | _ =>
      let '(base, ds, prefixed) := literal u in
      match base_value base 0 ds with
      | None => Fail "parse error"
      | Some n =>
          if has_underscore u && negb (underscores_ok (base =? 16) prefixed false (if prefixed then ds else u)) then Fail "parse error"
          else if (if neg then two63 <? n else two63 <=? n) then Fail "value out of range"
          else Ret (if neg then - n else n)
      end
  end.

Record Flag := mkFlag {
  flag_name : string;
  IsBoolFlag : bool;
  flag_Set : string -> M Config unit;
}.

(** The configuration behind the pointers and the flags that are registered. *)
Definition FlagSet : Type := Config * list Flag.

Definition lookup_flag (name : string) (fs : list Flag) : option Flag :=
  List.find (fun f => bool_decide (flag_name f = name)) fs.

(** A name that is registered already panics. *)
Definition Var (f : Flag) : M FlagSet unit := fun '(c, fs) =>
  match lookup_flag (flag_name f) fs with
  | Some _ => ((c, fs), Panic)
  | None => ((c, f :: fs), Ret tt)
  end.

Definition typed_flag {A} (is_bool : bool) (parse : string -> outcome A) (field : A -> Config -> Config) (name : string) (value : A) : M FlagSet unit :=
  do! modify (fun s : FlagSet => (field value (fst s), snd s)) in
  Var (mkFlag name is_bool (fun s => let! v := lift (parse s) in modify (field v))).

Definition BoolVar := typed_flag true ParseBool.
Definition StringVar := typed_flag false Ret.
Definition IntVar := typed_flag false ParseInt0.
Definition DurationVar := typed_flag false ParseDuration.

(** What one argument is: the end of the flags, a malformed flag, or a name
    with the value after [=], if any. *)
Inductive argument :=
| NotFlag
| BadSyntax
| Named (name : string) (value : option string).

Fixpoint split_eq (s : string) : string * option string :=
  match s with
  | EmptyString => ("", None)
  | String c s =>
      if bool_decide (c = "="%char) then ("", Some s)
      else let '(n, v) := split_eq s in (String c n, v)
  end.

Definition named (s : string) : argument :=
  match s with
  | EmptyString | String "-" _ | String "=" _ => BadSyntax
  | _ => let '(n, v) := split_eq s in Named n v
  end.

Definition argument_of (s : string) : argument :=
  match s with
  | String "-" EmptyString => NotFlag
  | String "-" (String "-" EmptyString) => NotFlag
  | String "-" (String "-" rest) => named rest
  | String "-" rest => named rest
  | _ => NotFlag
  end.

(** [flag.Parse]; an error ends the process. *)
Fixpoint Parse (fs : list Flag) (args : list string) : M Config unit :=
  match args with
  | [] => ret tt
  | s :: args =>
      match argument_of s with
      | NotFlag => ret tt
      | BadSyntax => fail "bad flag syntax"
      | Named name value =>
          match lookup_flag name fs with
          | None => fail "flag provided but not defined"
          | Some f =>
              if IsBoolFlag f then
                do! flag_Set f (default "true" value) in Parse fs args
              else
                match value, args with
                | Some v, _ => do! flag_Set f v in Parse fs args
                | None, v :: args => do! flag_Set f v in Parse fs args
                | None, [] => fail "flag needs an argument"
                end
          end
      end
  end.

Definition peer_flag : Flag := mkFlag "peer" false (fun s c =>
  let '(l, r) := AddrList_Set s (BootstrapPeers (Tss c)) in (with_BootstrapPeers l c, r)).

Definition register : M FlagSet unit :=
  do! BoolVar with_Version "v" false in
  do! StringVar with_GrpcAddress "grpc-port" "127.0.0.1:9090" in
  do! StringVar with_WsAddress "ws-port" "tcp://localhost:26657" in
  do! StringVar with_HTTPAddress "http-port" "http://localhost:26657" in
  do! StringVar with_WsEndpoint "ws-endpoint" "/websocket" in
  do! IntVar with_cos_RollbackGap "joltify-rollback-gap" 1 in
  do! StringVar with_WsAddressBSC "pub-ws-endpoint" "ws://127.0.0.1:8456/" in
  do! StringVar with_WsAddressETH "pub-ws-ETHendpoint" "ws://127.0.0.1:8546/" in
  do! IntVar with_pub_RollbackGap "pubchain-rollback-gap" 1 in
  do! StringVar with_KeyringAddress "key" "./keyring.key" in
  do! StringVar with_HomeDir "home" "/root/.joltify/config" in
  do! StringVar with_TokenListPath "token-list" "tokenlist.json" in
  do! IntVar with_TokenListUpdateGap "tokenlist-update-gap" 30 in
  do! StringVar with_HTTPAddr "tss-http-port" "0.0.0.0:8321" in
  do! DurationVar with_KeyGenTimeout "gentimeout" (30 * Second) in
  do! DurationVar with_KeySignTimeout "signtimeout" (50 * Second) in
  do! DurationVar with_PartyTimeout "joinpartytimeout" (45 * Second) in
  do! DurationVar with_PreParamTimeout "preparamtimeout" (5 * Minute) in
  do! BoolVar with_EnableMonitor "enablemonitor" true in
  do! StringVar with_RendezvousString "rendezvous" "joltifyChainTss" in
  do! IntVar with_Port "p2p-port" 6668 in
  do! StringVar with_ExternalIP "external-ip" "" in
  Var peer_flag.

Definition DefaultConfig (args : list string) : outcome Config :=
  match register (zero_Config, []) with
  | ((config, fs), Ret _) => snd ((do! Parse fs args in get) config)
  | (_, Fail e) => Fail e
  | (_, Panic) => Panic
  end.
End Config.

(** ** Lemmas *)

Section Lemmas.
Context `{MA : MultiAddr} `{LA : !MultiAddrLaws MA} (ParseDuration : string -> outcome Z).

(** The configuration without arguments. *)
Definition defaults : Config :=
  mkConfig (mkCosChainConfig "127.0.0.1:9090" "tcp://localhost:26657" "/websocket" "http://localhost:26657" 1)
    (mkPubChainConfig "ws://127.0.0.1:8456/" "ws://127.0.0.1:8546/" 1)
    (mkTssConfig (45 * Second) (30 * Second) (50 * Second) (5 * Minute) "joltifyChainTss" 6668 [] "" "0.0.0.0:8321")
    "./keyring.key" "/root/.joltify/config" "tokenlist.json" false 30 true.

Lemma register_ret : exists fs, register ParseDuration (zero_Config, []) = ((defaults, fs), Ret tt) /\
  lookup_flag "peer" fs = Some peer_flag.
Proof.
  destruct (register ParseDuration (zero_Config, [])) as [[c fs] r] eqn:E. exists fs.
  assert (c = defaults) as -> by (replace c with (fst (fst (register ParseDuration (zero_Config, [])))) by (by rewrite E); by vm_compute).
  assert (r = Ret tt) as -> by (replace r with (snd (register ParseDuration (zero_Config, []))) by (by rewrite E); by vm_compute).
  split; [done|]. replace fs with (snd (fst (register ParseDuration (zero_Config, [])))) by (by rewrite E). by vm_compute.
Qed.

Lemma Parse_peers fs (addrs : list Multiaddr) c :
  lookup_flag "peer" fs = Some peer_flag ->
  Parse fs (concat (map (fun a => ["-peer"; Multiaddr_String a]) addrs)) c =
  (with_BootstrapPeers (BootstrapPeers (Tss c) ++ addrs)%list c, Ret tt).
Proof.
  intros Hf. revert c. induction addrs as [|a addrs IH]; intros c.
  - cbn. rewrite app_nil_r. by destruct c as [? ? []].
  - cbn [map concat app Parse]. assert (argument_of "-peer" = Named "peer" None) as -> by reflexivity.
    rewrite Hf. cbn [IsBoolFlag peer_flag flag_Set]. unfold bind, AddrList_Set, bind, lift, modify.
    rewrite NewMultiaddr_String. rewrite IH. cbn. by rewrite <- app_assoc.
Qed.
End Lemmas.

(** ** Properties *)

Section Properties.
Context `{MA : MultiAddr} `{LA : !MultiAddrLaws MA} (ParseDuration : string -> outcome Z).

(** Fact (the command line of the peers). No flag is registered twice, so
    starting never panics; and for every list of addresses, the arguments
    [-peer a] for each of them, in order, give the default configuration with
    exactly these bootstrap peers. *)
Theorem peers_accumulate (addrs : list Multiaddr) :
  DefaultConfig ParseDuration (concat (map (fun a => ["-peer"; Multiaddr_String a]) addrs)) =
  Ret (with_BootstrapPeers addrs defaults).
Proof.
  unfold DefaultConfig. destruct (register_ret ParseDuration) as (fs & -> & Hf).
  unfold bind. by rewrite (Parse_peers fs addrs).
Qed.

(** Fact (a bad peer changes nothing). An address that does not parse is refused
    and leaves the list as it was. *)
Theorem AddrList_Set_error value (al : AddrList) e : NewMultiaddr value = Fail e -> AddrList_Set value al = (al, Fail e).
Proof. intros H. unfold AddrList_Set, bind, lift. by rewrite H. Qed.
End Properties.

(** ** Witnesses *)

#[local] Definition multiaddr_ref : MultiAddr := {| Multiaddr := string; NewMultiaddr := Ret; Multiaddr_String := fun s => s |}.

Lemma peers_accumulate_witness :
  let _ := multiaddr_ref in
  DefaultConfig (fun _ => Fail "invalid duration") ["-peer"; "/ip4/10.0.0.1"; "-peer"; "/ip4/10.0.0.2"] =
  Ret (with_BootstrapPeers (["/ip4/10.0.0.1"; "/ip4/10.0.0.2"] : list Multiaddr) defaults).
Proof.
  intros MA. assert (MultiAddrLaws MA) as LA by (split; reflexivity).
  exact (peers_accumulate (MA := MA) (LA := LA) (fun _ => Fail "invalid duration") ["/ip4/10.0.0.1"; "/ip4/10.0.0.2"]).
Defined.

Lemma AddrList_Set_error_witness :
  let _ := {| Multiaddr := string; NewMultiaddr := fun _ => Fail "empty multiaddr"; Multiaddr_String := fun s => s |} in
  AddrList_Set "" [] = ([], Fail "empty multiaddr").
Proof. intros MA. exact (AddrList_Set_error (MA := MA) "" [] "empty multiaddr" eq_refl). Defined.

(** The parser on concrete command lines. *)
Example flags_ref : let _ := multiaddr_ref in
  omap (fun c => (cos_RollbackGap (CosChain c), Port (Tss c), Version c, HomeDir c))
    (DefaultConfig (fun _ => Fail "invalid duration") ["--joltify-rollback-gap=0x10"; "-p2p-port"; "1_000"; "-v"; "-home"; "/h"; "rest"; "-v=false"]) =
  Ret (16, 1000, true, "/h").
Proof. reflexivity. Qed.

Example int_literals_ref : map ParseInt0 ["0"; "010"; "-0b11"; "1__0"; "0x_f"; "_1"; "9223372036854775808"; ""] =
  [Ret 0; Ret 8; Ret (-3); Fail "parse error"; Ret 15; Fail "parse error"; Fail "value out of range"; Fail "parse error"].
Proof. reflexivity. Qed.
