(* ===== verification/TssClient.v ===== *)
(** * The signing client: tssclient/tss_server.go

    A thin layer over the threshold-signature library: it reads the node's
    key, starts the library's server with it and packs requests.  The library
    is the class [TssLib]; the signing and key generation services the other
    components use are instances over a server that was started. *)

From Stdlib Require Import Ascii String.
From S2P Require Import Prelude GoLib Sdk Signature Config TxSend.

#[local] Open Scope string_scope.
#[local] Open Scope Z_scope.
#[local] Open Scope go_scope.

(** ** Definitions *)

Definition TssVersion : string := "0.14.0".

(** The version pubchain/tx_send.go passes. *)
Definition pub_TssVersion : string := "0.15.0".

(** priv_validator_key.json *)
Record KeyField := mkKeyField { Type' : string; Value : string }.
Record CosPrivKey := mkCosPrivKey {
  key_Address : string;
  key_PubKey : KeyField;
  key_PrivKey : KeyField;
}.
Definition zero_key : CosPrivKey := mkCosPrivKey "" (mkKeyField "" "") (mkKeyField "" "").

(** [keygen.Request], [keysign.Request] and [keygen.Response] of the library. *)
Record KeygenRequest := mkKeygenRequest { kr_Keys : list string; kr_BlockHeight : Z; kr_Version : string }.
Record KeysignRequest := mkKeysignRequest {
  PoolPubKey : string;
  Messages : list string;
  sr_BlockHeight : Z;
  SignerPubKeys : list string;
  sr_Version : string;
}.
Record KeygenResponse := mkKeygenResponse { kg_Success : bool; PubKey : string }.

(** [common.TssConfig] of the library. *)
Record TssTimes := mkTssTimes { t_Party : Z; t_KeyGen : Z; t_KeySign : Z; t_PreParam : Z }.

(** [TS] is a server of the library, [W] the world it works in. *)
Class TssLib (W TS : Type) `{MultiAddr} := {
  (** peers, port, private key, rendezvous, folder, timeouts, external address;
      the server may be returned together with an error *)
  NewTss : AddrList -> Z -> bytes -> string -> string -> TssTimes -> string -> W -> W * (option TS * option string);
  ts_Keygen : TS -> KeygenRequest -> M W KeygenResponse;
  ts_KeySign : TS -> KeysignRequest -> M W KeysignResponse;
  ts_GetLocalPeerID : TS -> string;
  ts_Stop : TS -> M W unit;
}.

(** A server whose pointer may be nil. *)
Record BridgeTssServer (TS : Type) := mkBridgeTssServer { ts : option TS }.
Arguments mkBridgeTssServer {TS}. Arguments ts {TS}.

Section Client.
Context {W TS : Type} `{MA : MultiAddr} `{TL : !TssLib W TS}.

(** The file's reader and its decoder; [path.Join]. *)
Context (ReadFile : string -> outcome bytes) (Unmarshal_key : bytes -> outcome CosPrivKey) (path_Join : string -> string -> string).

(** The three results of Go. *)
Definition StartTssServer (baseFolder : string) (tssConfig : TssConfig)
    : M W (option (BridgeTssServer TS) * CosPrivKey * option string) := fun w =>
  let filePath := path_Join baseFolder "priv_validator_key.json" in
  match ReadFile filePath with
  | Fail err => (w, Ret (None, zero_key, Some err))
  | Panic => (w, Panic)
  | Ret data =>
      match Unmarshal_key data with
      | Fail err => (w, Ret (None, zero_key, Some err))
      | Panic => (w, Panic)
      | Ret key =>
          match base64_DecodeString (Value (key_PrivKey key)) with
          | Fail err => (w, Ret (None, zero_key, Some err))
          | Panic => (w, Panic)
          | Ret priKeyBytes =>
              let tssTimeConfig := mkTssTimes (PartyTimeout tssConfig) (KeyGenTimeout tssConfig)
                (KeySignTimeout tssConfig) (PreParamTimeout tssConfig) in
              let '(w, (ts, err)) := NewTss (BootstrapPeers tssConfig) (Port tssConfig) priKeyBytes
                (RendezvousString tssConfig) baseFolder tssTimeConfig (ExternalIP tssConfig) w in
              (w, Ret (Some (mkBridgeTssServer ts), key, err))
          end
      end
  end.

(** A method on a nil server panics inside the library. *)
Definition on_server {A} (tc : BridgeTssServer TS) (f : TS -> M W A) : M W A :=
  match ts tc with Some t => f t | None => panic end.

Definition KeyGen (tc : BridgeTssServer TS) (keys : list string) (blockHeight : Z) (version : string) : M W KeygenResponse :=
  let req := mkKeygenRequest keys blockHeight version in
  on_server tc (fun t => ts_Keygen t req).

Definition KeySign (tc : BridgeTssServer TS) (pk : string) (msgs : list string) (blockHeight : Z) (signers : list string)
    (version : string) : M W KeysignResponse :=
  let req := mkKeysignRequest pk msgs blockHeight signers version in
  on_server tc (fun t => ts_KeySign t req).

Definition GetTssNodeID (tc : BridgeTssServer TS) : outcome string :=
  match ts tc with Some t => Ret (ts_GetLocalPeerID t) | None => Panic end.

Definition Stop (tc : BridgeTssServer TS) : M W unit := on_server tc ts_Stop.

(** The signing service of the public-chain side and of the joltify side: the
    same server, asked with two versions. *)
Definition pub_signing (tc : BridgeTssServer TS) : TssServer W :=
  {| TxSend.KeySign := fun pk msgs h => KeySign tc pk msgs h [] pub_TssVersion |}.
Definition jolt_signing (tc : BridgeTssServer TS) : TssServer W :=
  {| TxSend.KeySign := fun pk msgs h => KeySign tc pk msgs h [] TssVersion |}.
End Client.

(** ** Properties *)

Section Properties.
Context {W TS : Type} `{MA : MultiAddr} `{TL : !TssLib W TS}.
Context (ReadFile : string -> outcome bytes) (Unmarshal_key : bytes -> outcome CosPrivKey) (path_Join : string -> string -> string).
#[local] Notation Start := (StartTssServer (TS := TS) ReadFile Unmarshal_key path_Join).

(** Fact (what a started server runs with). When starting reports no error, the
    library was started with the key of the node's own key file, decoded,
    with the configured peers, port, timeouts and address, and the key that
    is returned is that file's; the world changed by that one call only. *)
Theorem StartTssServer_ok baseFolder cfg (w w' : W) tc key :
  Start baseFolder cfg w = (w', Ret (tc, key, None)) ->
  exists data priv t, ReadFile (path_Join baseFolder "priv_validator_key.json") = Ret data /\
    Unmarshal_key data = Ret key /\ base64_DecodeString (Value (key_PrivKey key)) = Ret priv /\
    tc = Some (mkBridgeTssServer t) /\
    NewTss (BootstrapPeers cfg) (Port cfg) priv (RendezvousString cfg) baseFolder
      (mkTssTimes (PartyTimeout cfg) (KeyGenTimeout cfg) (KeySignTimeout cfg) (PreParamTimeout cfg)) (ExternalIP cfg) w = (w', (t, None)).
Proof.
  unfold StartTssServer. destruct (ReadFile _) as [data|e|] eqn:Er; [|intros H; by simplify_eq|done].
  destruct (Unmarshal_key data) as [key'|e|] eqn:Eu; [|intros H; by simplify_eq|done].
  destruct (base64_DecodeString _) as [priv|e|] eqn:Eb; [|intros H; by simplify_eq|done].
  destruct (NewTss _ _ _ _ _ _ _ w) as [w1 [t err]] eqn:En. intros H. simplify_eq. by exists data, priv, t.
Qed.

(** Fact (a server that did not start). When reading or decoding the key fails
    there is no server and nothing was started; an error of the library comes
    with a server object all the same, which the caller must not use. *)
Theorem StartTssServer_error baseFolder cfg (w w' : W) tc key e :
  Start baseFolder cfg w = (w', Ret (tc, key, Some e)) ->
  (tc = None /\ key = zero_key /\ w' = w) \/ is_Some tc.
Proof.
  unfold StartTssServer. destruct (ReadFile _) as [data|e1|]; [|intros H; simplify_eq; by left|done].
  destruct (Unmarshal_key data) as [key'|e1|]; [|intros H; simplify_eq; by left|done].
  destruct (base64_DecodeString _) as [priv|e1|]; [|intros H; simplify_eq; by left|done].
  destruct (NewTss _ _ _ _ _ _ _ w) as [w1 [t err]]. intros H. simplify_eq. right. by eexists.
Qed.

(** Fact (two versions of the signing protocol). The same batch is signed for
    the two chains with two different requests: the public-chain side asks
    for another version than the one the package says it applies to, which
    the joltify side uses. *)
Theorem versions_differ (t : TS) pk msgs h (w : W) :
  TxSend.KeySign (TssServer := pub_signing (mkBridgeTssServer (Some t))) pk msgs h w =
    ts_KeySign t (mkKeysignRequest pk msgs h [] "0.15.0") w /\
  TxSend.KeySign (TssServer := jolt_signing (mkBridgeTssServer (Some t))) pk msgs h w =
    ts_KeySign t (mkKeysignRequest pk msgs h [] "0.14.0") w.
Proof. done. Qed.
End Properties.

(** ** Witnesses *)

Section Witnesses.
#[local] Instance multiaddr_ref : MultiAddr := {| Multiaddr := string; NewMultiaddr := Ret; Multiaddr_String := fun s => s |}.
#[local] Instance tss_lib_ref : TssLib nat unit := {|
  NewTss := fun _ port _ _ _ _ _ w => (Datatypes.S w, if port =? 0 then (None, Some "no port") else (Some tt, None));
  ts_Keygen := fun _ r => ret (mkKeygenResponse true "k01");
  ts_KeySign := fun _ r => if bool_decide (sr_Version r = "0.14.0") then ret (mkKeysignResponse true []) else fail "unsupported version";
  ts_GetLocalPeerID := fun _ => "peer";
  ts_Stop := fun _ => ret tt;
|}.
#[local] Definition key_ref : CosPrivKey := mkCosPrivKey "a" (mkKeyField "t" "") (mkKeyField "t" "AQI=").
#[local] Definition start_ref port := StartTssServer (TL := tss_lib_ref) (fun _ => Ret []) (fun _ => Ret key_ref) (fun a b => a ++ "/" ++ b) "h"
  (mkTssConfig 1 2 3 4 "r" port [] "" "").

Lemma StartTssServer_ok_witness : exists t, start_ref 6668 0%nat = (1%nat, Ret (Some (mkBridgeTssServer t), key_ref, None)) /\
  exists priv, base64_DecodeString (Value (key_PrivKey key_ref)) = Ret priv.
Proof.
  destruct (StartTssServer_ok (TL := tss_lib_ref) (fun _ => Ret []) (fun _ => Ret key_ref) (fun a b => a ++ "/" ++ b) "h"
    (mkTssConfig 1 2 3 4 "r" 6668 [] "" "") 0%nat 1%nat (Some (mkBridgeTssServer (Some tt))) key_ref ltac:(vm_compute; reflexivity))
    as (data & priv & t & _ & _ & Hp & Ht & _).
  exists t. split; [rewrite <- Ht; vm_compute; reflexivity|exists priv; exact Hp].
Defined.

Lemma StartTssServer_error_witness : is_Some (Some (mkBridgeTssServer (TS := unit) None)) .
Proof.
  destruct (StartTssServer_error (TL := tss_lib_ref) (fun _ => Ret []) (fun _ => Ret key_ref) (fun a b => a ++ "/" ++ b) "h"
    (mkTssConfig 1 2 3 4 "r" 0 [] "" "") 0%nat 1%nat (Some (mkBridgeTssServer None)) key_ref "no port" ltac:(vm_compute; reflexivity)) as [(H & _)|H]; [discriminate H|exact H].
Defined.
End Witnesses.
