(* ===== verification/SendPrograms.v ===== *)
(** * The sending methods of pubchain/tx_send.go as programs

    TxSend.v gives each method as one computation that already knows the
    answer of the signing round.  Here the same methods are programs in the
    sense of Goroutine.v: a remote call is an action, between any two of which
    other goroutines may act, and the request to the collector and its answer
    are operations on the channels.  The theorems relate the two, fix the part
    of the workers' protocol each method plays, and say what a returned hash
    stands for whatever happens in between. *)

From Stdlib Require Import Ascii String.
From S2P Require Import Prelude GoLib Sdk Requests Signature Pools PubClient Keysign Goroutine TxSend.

#[local] Open Scope string_scope.
#[local] Open Scope Z_scope.
#[local] Open Scope go_scope.

(** ** Definitions *)

Section Programs.
Context {W C : Type} `{EC : EthClient W C} `{G : EthSigner} `{E : Eth} `{GK : GoBackoff}.
Context (attempts : nat) (HexToHash : string -> bytes).
#[local] Notation CI := (ChainInfo W C).
(** What the collector broadcasts: the signatures, or nil. *)
#[local] Notation task := (go CI (option (gmap string bytes))).

(** One query of the pending nonce; [inl true] when it is past the target. *)
Definition wait_op_go (poolAddress : bytes) (targetNonce : Z) : task (bool + string) :=
  let^ r := act (getPendingNonceWithLock poolAddress) in
  Return (match r with
    | inr e => inr e
    | inl nonce =>
        if nonce =? targetNonce then inl false
        else if targetNonce <? nonce then inl true
        else inr "not our round"
    end).

Definition waitToSend_go (poolAddress : bytes) (targetNonce : Z) : task (unit + string) :=
  let^ r := retry_go attempts (wait_op_go poolAddress targetNonce) in
  Return (match r with
    | inl true => inr "already passed the seq"
    | inl false => inl tt
    | inr e => inr e
    end).

(** [ChainInfo.CheckTxStatus]. *)
Definition CheckTxStatus_go (hashStr : string) : task (unit + string) :=
  let^ r := retry_go 30 (act (checkEachTx (HexToHash hashStr))) in
  Return (match r with
    | inl status => if negb (status =? 1) then inr "tx failed" else inl tt
    | inr e => inr e
    end).

Definition wait_and_send_go (sender : bytes) (nonce : option Z) (signedTx : SignedTx) : task (bytes * option string) :=
  let^ w := match nonce with Some n => waitToSend_go sender (Uint64 n) | None => Return (inl tt) end in
  match w with
  | inr e => Return (SignedTx_Hash signedTx, Some e)
  | inl _ =>
      let^ r := act (sendTransactionWithLock signedTx) in
      match r with
      | inl _ => Return (SignedTx_Hash signedTx, None)
      | inr e => Return (SignedTx_Hash signedTx, Some e)
      end
  end.

(** The [Signer] closure of [composeTxBatch]: the hash goes to the collector,
    the answer comes from the broadcaster. *)
Definition batch_signer_go (sender : bytes) (chainID : Z) (address : bytes) (tx : LegacyTx) : task (SignedTx + string) :=
  if negb (bool_decide (address = sender)) then Return (inr "the address is different from the sender")
  else
    let msg := signer_Hash chainID tx in
    Send msg (Recv (fun tssResp =>
      match tssResp with
      | None => Return (inr "fail to sign the tx")
      | Some signature =>
          let expected := base64_EncodeToString msg in
          match signature !! expected with
          | None => Return (inr "fail to sign the tx")
          | Some sig => act (lift (WithSignature chainID tx sig))
          end
      end)).

Definition no_hash_go (e : string) : task (bytes * option string) := Return (zero_hash, Some e).

Definition SendNativeTokenBatch_go (sender receiver : bytes) (amount : Z) (nonce : option Z) : task (bytes * option string) :=
  let^ fee := act GetFeeLimitWithLock in
  match fee with
  | inr e => no_hash_go e
  | inl (_, gasPrice, gas) =>
      let^ cid := act chain_id in
      match cid with
      | inr e => no_hash_go e
      | inl chainID =>
          let^ n := act (lift (deref nonce)) in
          match n with
          | inr e => no_hash_go e
          | inl n =>
              let tx := mkLegacyTx n gasPrice gas receiver amount [] in
              let^ signed := batch_signer_go sender chainID sender tx in
              match signed with
              | inr e => no_hash_go e
              | inl signedTx => wait_and_send_go sender nonce signedTx
              end
          end
      end
  end.

Definition SendTokenBatch_go (sender receiver : bytes) (amount : Z) (nonce : option Z) (tokenAddr : string)
    : task (bytes * option string) :=
  let^ cid := act chain_id in
  match cid with
  | inr e => no_hash_go e
  | inl chainID =>
      let^ raw := act (call (fun cl =>
        TransferTx cl sender (HexToAddress tokenAddr) receiver amount (token_nonce nonce))) in
      match raw with
      | inr e => no_hash_go e
      | inl raw =>
          let^ ready := batch_signer_go sender chainID sender raw in
          match ready with
          | inr e => no_hash_go e
          | inl readyTx => wait_and_send_go sender nonce readyTx
          end
      end
  end.

Definition ProcessOutBound_go (toAddr fromAddr : bytes) (tokenAddr : string) (amount nonce : Z) : task (string * option string) :=
  let^ r := (if bool_decide (tokenAddr = NativeSign) then
      let^ r := SendNativeTokenBatch_go fromAddr toAddr amount (Some nonce) in
      Send done_msg (Return r)
    else
      let^ r := SendTokenBatch_go fromAddr toAddr amount (Some nonce) tokenAddr in
      Send done_msg (Return r)) in
  let '(txHash, err) := r in
  Return (match err with
    | Some e =>
        if bool_decide (e = "already known") then (Hash_Hex txHash, None)
        else (Hash_Hex txHash, Some e)
    | None => (Hash_Hex txHash, None)
    end).
End Programs.

(** ** Lemmas: the programs alone are the computations of TxSend.v

    [models]: from the same state of the chain client, whatever is in the
    worker's outbox, the program that receives [resp] ends as the
    computation does. *)
Section Alone.
Context {W C : Type} `{EC : EthClient W C} `{G : EthSigner} `{E : Eth}.
Context `{K : Backoff} `{KL : !BackoffLaws K} `{GK : GoBackoff} `{GL : !GoBackoffLaws GK}.
Context (attempts : nat) (HexToHash : string -> bytes) (resp : option (gmap string bytes)).
#[local] Notation CI := (ChainInfo W C).
#[local] Notation SS := (SendState W C).
#[local] Notation task := (go CI (option (gmap string bytes))).

Definition models {A} (p : task A) (m : M SS A) : Prop :=
  forall c ob, alone resp p c = (chain (m (mkSendState c ob)).1, (m (mkSendState c ob)).2).

Lemma models_ret {A} (a : A) : models (Return a) (ret a).
Proof. done. Qed.

Lemma models_bind {A B} (p : task A) (f : A -> task B) m k :
  models p m -> (forall a, models (f a) (k a)) -> models (gbind p f) (bind m k).
Proof.
  intros Hp Hf c ob. rewrite alone_bind. unfold bind. rewrite (Hp c ob).
  destruct (m (mkSendState c ob)) as [[c1 ob1] [a|e|]]; cbn; [|done..]. apply Hf.
Qed.

Lemma models_act {A} (m : M CI A) : models (act m) (try (on_chain m)).
Proof. intros c ob. rewrite alone_act. unfold try, on_chain. cbn. by destruct (m c) as [c' r]. Qed.

(** A program that neither sends nor receives. *)
Lemma models_chain {A} (p : task A) (m : M CI A) : (forall c, alone resp p c = m c) -> models p (on_chain m).
Proof. intros H c ob. rewrite H. unfold on_chain. cbn. by destruct (m c). Qed.

Lemma models_send index d {A} (p : task A) m :
  models p m -> models (Send d p) (do! send_req index d in m).
Proof. intros Hp c ob. cbn [alone]. unfold bind, send_req, modify. cbn. apply Hp. Qed.

Lemma waitToSend_alone pool target c : (0 < attempts)%nat ->
  alone resp (waitToSend_go attempts pool target) c = try (waitToSend attempts pool target) c.
Proof.
  intros Hn. unfold waitToSend_go. rewrite retry_go_spec by done. rewrite alone_bind. unfold bind.
  destruct (alone_retry resp attempts (wait_op_go pool target) (wait_op pool target) c false) as [-> Hx].
  { intros s. unfold wait_op_go, wait_op. rewrite alone_bind. unfold bind. rewrite alone_act. unfold try.
    destruct (getPendingNonceWithLock pool s) as [s1 [nonce|e|]]; cbn; [|done..].
    destruct (nonce =? target); [done|]. by destruct (target <? nonce). }
  unfold try, waitToSend. rewrite Retry_spec by done.
  destruct (retry_loop attempts (wait_op pool target) (c, false)) as [[c1 b] [[]|e|]]; cbn in *.
  - by destruct b.
  - by rewrite (Hx eq_refl).
  - by destruct b.
Qed.

Lemma CheckTxStatus_alone hash c :
  alone resp (CheckTxStatus_go HexToHash hash) c = try (PubClient.CheckTxStatus HexToHash hash) c.
Proof.
  unfold CheckTxStatus_go. rewrite retry_go_spec by apply Nat.lt_0_succ. rewrite alone_bind. unfold bind.
  destruct (alone_retry resp 30 (act (checkEachTx (HexToHash hash))) (check_status_op (HexToHash hash)) c 0) as [-> Hx].
  { intros s. rewrite alone_act. unfold try, check_status_op. by destruct (checkEachTx (HexToHash hash) s) as [s1 [st|e|]]. }
  unfold try, PubClient.CheckTxStatus. rewrite Retry_spec by lia.
  destruct (retry_loop 30 (check_status_op (HexToHash hash)) (c, 0)) as [[c1 b] [[]|e|]]; cbn; [|done..].
  by destruct (b =? 1).
Qed.

Lemma wait_and_send_alone sender nonce st c : (0 < attempts)%nat ->
  alone resp (wait_and_send_go attempts sender nonce st) c = wait_and_send attempts sender nonce st c.
Proof.
  intros Hn. unfold wait_and_send_go, wait_and_send. rewrite alone_bind. unfold bind.
  assert (alone resp (match nonce with Some n => waitToSend_go attempts sender (Uint64 n) | None => Return (inl tt) end) c =
    try (match nonce with Some n => waitToSend attempts sender (Uint64 n) | None => ret tt end) c) as ->.
  { destruct nonce; [by apply waitToSend_alone|done]. }
  destruct (try _ c) as [c1 [[[]|e]|e|]]; [|done..].
  rewrite alone_bind. unfold bind. rewrite alone_act. by destruct (try (sendTransactionWithLock st) c1) as [c2 [[[]|e]|e|]].
Qed.

Lemma batch_signer_models index sender cid address tx :
  models (batch_signer_go sender cid address tx) (try (batch_signer index sender cid resp address tx)).
Proof.
  unfold batch_signer_go, batch_signer. destruct (negb _); [done|]. intros c ob. cbn [alone]. unfold try, bind, send_req, modify.
  destruct resp as [m|]; [|done]. destruct (m !! _) as [sg|]; [|done]. rewrite alone_act. unfold try, lift. cbn.
  by destruct (WithSignature cid tx sg).
Qed.
End Alone.

Section Models.
Context {W C : Type} `{EC : EthClient W C} `{G : EthSigner} `{E : Eth}.
Context `{K : Backoff} `{KL : !BackoffLaws K} `{GK : GoBackoff} `{GL : !GoBackoffLaws GK}.
Context (attempts : nat) (Hattempts : (0 < attempts)%nat) (resp : option (gmap string bytes)).
#[local] Notation task := (go (ChainInfo W C) (option (gmap string bytes))).

Lemma deref_models (nonce : option Z) {A} (f : Z + string -> task A) (k : Z -> M (SendState W C) A) :
  (forall n, models resp (f (inl n)) (k n)) -> models resp (gbind (act (lift (deref nonce))) f) (bind (lift (deref nonce)) k).
Proof.
  intros Hf c ob. cbn [gbind act alone]. unfold bind, try, lift. destruct nonce; cbn; [apply Hf|done].
Qed.

Lemma models_result {A B} (p : task A) (m : M (SendState W C) A) (f : A -> B) :
  models resp p m -> models resp (gbind p (fun a => Return (f a))) (bind m (fun a => ret (f a))).
Proof. intros H. apply models_bind; [done|]. intros a. apply models_ret. Qed.

Lemma SendNativeTokenBatch_models index sender receiver amount nonce :
  models resp (SendNativeTokenBatch_go attempts sender receiver amount nonce)
    (SendNativeTokenBatch attempts index sender receiver amount nonce resp).
Proof.
  unfold SendNativeTokenBatch_go, SendNativeTokenBatch. apply models_bind; [apply models_act|].
  intros [[[fee gp] gas]|e]; [|apply models_ret]. apply models_bind; [apply models_act|].
  intros [cid|e]; [|apply models_ret]. apply deref_models. intros n.
  apply models_bind; [apply batch_signer_models|]. intros [st|e]; [|apply models_ret].
  apply models_chain. intros c. by apply wait_and_send_alone.
Qed.

(** An error handled once for two calls in a row. *)
Lemma models_bind_try {A B D} (m : M (ChainInfo W C) A) (f : A + string -> task D) (n : A -> M (SendState W C) B)
    (k : B + string -> M (SendState W C) D) :
  (forall a, models resp (f (inl a)) (bind (try (n a)) k)) -> (forall e, models resp (f (inr e)) (k (inr e))) ->
  models resp (gbind (act m) f) (bind (try (bind (on_chain m) n)) k).
Proof.
  intros Hf Hk c ob. cbn [gbind act alone]. unfold bind, try, on_chain. cbn [chain outbox].
  destruct (m c) as [c1 [a|e|]]; cbn [ocatch]; [|apply Hk|done].
  rewrite (Hf a c1 ob). unfold bind, try. by destruct (n a (mkSendState c1 ob)) as [s2 [b|e|]].
Qed.

Lemma SendTokenBatch_models index sender receiver amount nonce tokenAddr :
  models resp (SendTokenBatch_go attempts sender receiver amount nonce tokenAddr)
    (SendTokenBatch attempts index sender receiver amount nonce tokenAddr resp).
Proof.
  unfold SendTokenBatch_go, SendTokenBatch. apply models_bind; [apply models_act|].
  intros [cid|e]; [|apply models_ret]. apply models_bind_try; [|intros e; apply models_ret]. intros raw.
  apply models_bind; [apply batch_signer_models|]. intros [st|e]; [|apply models_ret].
  apply models_chain. intros c. by apply wait_and_send_alone.
Qed.

Lemma ProcessOutBound_models index toAddr fromAddr tokenAddr amount nonce :
  models resp (ProcessOutBound_go attempts toAddr fromAddr tokenAddr amount nonce)
    (ProcessOutBound attempts index toAddr fromAddr tokenAddr amount nonce resp).
Proof.
  unfold ProcessOutBound_go, ProcessOutBound. apply models_bind.
  - destruct (bool_decide _); (apply models_bind; [apply SendNativeTokenBatch_models || apply SendTokenBatch_models|]);
      intros r; apply models_send, models_ret.
  - intros [h [e|]]; [|apply models_ret]. destruct (bool_decide (e = _)); apply models_ret.
Qed.
End Models.

(** ** Lemmas: the workers' protocol *)

Section Protocol.
Context {W C : Type} `{EC : EthClient W C} `{G : EthSigner} `{E : Eth} `{GK : GoBackoff} `{GL : !GoBackoffLaws GK}.
Context (attempts : nat) (Hattempts : (0 < attempts)%nat) (HexToHash : string -> bytes).
#[local] Notation R := (option (gmap string bytes)).
#[local] Notation task := (go (ChainInfo W C) R).

(** Before its request, or after the answer. *)
Definition not_waiting (w : wstate R) : Prop := w = WRun \/ exists r, w = WFin r.

Lemma wait_and_send_only_acts sender nonce st : only_acts (wait_and_send_go attempts sender nonce st : task _).
Proof.
  unfold wait_and_send_go. apply only_acts_bind.
  - destruct nonce as [n|]; [|done]. unfold waitToSend_go. rewrite retry_go_spec by done.
    apply only_acts_bind; [|done]. apply only_acts_retry. by intros r.
  - intros [[]|e]; [|done]. by intros [[]|e].
Qed.

Lemma CheckTxStatus_only_acts hash : only_acts (CheckTxStatus_go HexToHash hash : task _).
Proof.
  unfold CheckTxStatus_go. rewrite retry_go_spec by apply Nat.lt_0_succ. apply only_acts_bind; [|done]. by apply only_acts_retry.
Qed.

Lemma batch_signer_steps sender cid address tx (Q : wstate R -> SignedTx + string -> Prop) :
  (forall w a, not_waiting w -> Q w a) -> steps_to WRun (batch_signer_go sender cid address tx : task _) Q.
Proof.
  intros HQ. unfold batch_signer_go. destruct (negb _); [apply HQ; by left|]. left. split; [done|]. left. split; [done|].
  assert (forall r, not_waiting (WFin r)) as Hf by (intros r; right; by exists r).
  intros [m|]; [|by apply HQ]. destruct (m !! _); [|by apply HQ]. intros r. by apply HQ.
Qed.

Lemma wait_and_send_steps w sender nonce st (Q : wstate R -> bytes * option string -> Prop) :
  (forall a, Q w a) -> steps_to w (wait_and_send_go attempts sender nonce st : task _) Q.
Proof. intros HQ. apply only_acts_steps; [apply wait_and_send_only_acts|done]. Qed.

Lemma SendNativeTokenBatch_steps sender receiver amount nonce :
  steps_to WRun (SendNativeTokenBatch_go attempts sender receiver amount nonce : task _) (fun w _ => not_waiting w).
Proof.
  assert (not_waiting WRun) as Hrun by by left. unfold SendNativeTokenBatch_go.
  intros [[[fee gp] gas]|e]; [|done]. intros [cid|e]; [|done]. intros [n|e]; [|done]. cbn [gbind].
  apply steps_to_bind, batch_signer_steps. intros w [st|e] Hw; [|done]. by apply wait_and_send_steps.
Qed.

Lemma SendTokenBatch_steps sender receiver amount nonce tokenAddr :
  steps_to WRun (SendTokenBatch_go attempts sender receiver amount nonce tokenAddr : task _) (fun w _ => not_waiting w).
Proof.
  assert (not_waiting WRun) as Hrun by by left. unfold SendTokenBatch_go.
  intros [cid|e]; [|done]. intros [raw|e]; [|done]. cbn [gbind].
  apply steps_to_bind, batch_signer_steps. intros w [st|e] Hw; [|done]. by apply wait_and_send_steps.
Qed.

Lemma ProcessOutBound_steps toAddr fromAddr tokenAddr amount nonce :
  steps_to WRun (ProcessOutBound_go attempts toAddr fromAddr tokenAddr amount nonce : task _)
    (fun w _ => exists late, w = WPost late).
Proof.
  unfold ProcessOutBound_go. apply steps_to_bind.
  assert (forall w (r : bytes * option string), not_waiting w ->
    steps_to w (Send done_msg (Return r) : task _) (fun w' a => steps_to w'
      ((let '(txHash, err) := a in Return (match err with
        | Some e => if bool_decide (e = "already known") then (Hash_Hex txHash, None) else (Hash_Hex txHash, Some e)
        | None => (Hash_Hex txHash, None) end)) : task (string * option string)) (fun w _ => exists late, w = WPost late))) as Hend.
  { intros w [h err] [->|[r ->]]; [left; split; [done|]; right; split; [done|]; by exists false|].
    right. exists r. split; [done|]. split; [done|]. by exists true. }
  destruct (bool_decide _); apply steps_to_bind; (eapply steps_to_mono; [|apply SendNativeTokenBatch_steps || apply SendTokenBatch_steps]);
    intros w r Hw; by apply Hend.
Qed.
End Protocol.

(** ** Lemmas: what a returned hash stands for *)

Section Pays.
Context {W C : Type} `{EC : EthClient W C} `{G : EthSigner} `{LG : !EthSignerLaws G} `{E : Eth} `{GK : GoBackoff} `{GL : !GoBackoffLaws GK}.
Context (attempts : nat) (Hattempts : (0 < attempts)%nat) (HexToHash : string -> bytes).
#[local] Notation task := (go (ChainInfo W C) (option (gmap string bytes))).

(** The transaction that pays a request: a transfer of the native coin, or the
    one the token's contract binding builds. *)
Definition payment (fromAddr toAddr : bytes) (tokenAddr : string) (amount nonce : Z) (tx : LegacyTx) : Prop :=
  if bool_decide (tokenAddr = NativeSign)
  then exists gp, tx = mkLegacyTx (Uint64 nonce) gp DEFAULTNATIVEGAS toAddr amount []
  else exists (cl : C) (w : W), (TransferTx cl fromAddr (HexToAddress tokenAddr) toAddr amount nonce w).2 = Ret tx.

(** The hash of such a transaction, signed with what a batch answered for
    it. *)
Definition composed (fromAddr toAddr : bytes) (tokenAddr : string) (amount nonce : Z) (h : bytes) : Prop :=
  exists cid tx m sg, payment fromAddr toAddr tokenAddr amount nonce tx /\
    (m : gmap string bytes) !! base64_EncodeToString (signer_Hash cid tx) = Some sg /\
    h = SignedTx_Hash (mkSignedTx tx sg).

Lemma wait_and_send_yields sender nonce st :
  yields (wait_and_send_go attempts sender nonce st : task _) (fun r => r.1 = SignedTx_Hash st).
Proof.
  unfold wait_and_send_go. apply yields_bind, yields_any. intros [[]|e]; [|done]. by intros s s' [[]|e] _.
Qed.

Lemma batch_signer_yields sender cid address tx :
  yields (batch_signer_go sender cid address tx : task _) (fun r => forall st, r = inl st ->
    exists m sg, (m : gmap string bytes) !! base64_EncodeToString (signer_Hash cid tx) = Some sg /\ st = mkSignedTx tx sg).
Proof.
  unfold batch_signer_go. destruct (negb _); [done|]. intros [m|]; [|done]. destruct (m !! _) as [sg|] eqn:Em; [|done].
  intros s s' r Hr st ->. apply try_ret_inv in Hr. unfold lift in Hr. injection Hr as _ Hr.
  apply WithSignature_tx in Hr. exists m, sg. split; [done|]. destruct st. cbn in Hr. by destruct Hr as [-> ->].
Qed.

(** Signing and sending, the end both methods share. *)
Lemma signed_yields fromAddr toAddr tokenAddr amount nonce n cid tx :
  payment fromAddr toAddr tokenAddr amount nonce tx ->
  yields (gbind (batch_signer_go fromAddr cid fromAddr tx) (fun signed => match signed with
      | inr e => no_hash_go e
      | inl signedTx => wait_and_send_go attempts fromAddr n signedTx
      end) : task _) (fun r => r.1 = zero_hash \/ composed fromAddr toAddr tokenAddr amount nonce r.1).
Proof.
  intros Hp. apply yields_bind. eapply yields_mono; [|apply batch_signer_yields]. intros [st|e] Hst; [|by left].
  destruct (Hst st eq_refl) as (m & sg & Hm & ->). eapply yields_mono; [|apply wait_and_send_yields].
  intros r ->. right. by exists cid, tx, m, sg.
Qed.

Lemma ProcessOutBound_yields toAddr fromAddr tokenAddr amount nonce :
  yields (ProcessOutBound_go attempts toAddr fromAddr tokenAddr amount nonce : task _) (fun r =>
    r.1 = Hash_Hex zero_hash \/ exists h, r.1 = Hash_Hex h /\ composed fromAddr toAddr tokenAddr amount nonce h).
Proof.
  unfold ProcessOutBound_go. apply yields_bind.
  apply (yields_mono _ (fun r => r.1 = zero_hash \/ composed fromAddr toAddr tokenAddr amount nonce r.1)).
  { intros [h err] Hh. assert (Hash_Hex h = Hash_Hex zero_hash \/
      exists h', Hash_Hex h = Hash_Hex h' /\ composed fromAddr toAddr tokenAddr amount nonce h') as H.
    { destruct Hh as [Hh|Hh]; [left; cbn in Hh; by subst|right; by exists h]. }
    destruct err as [e|]; [destruct (bool_decide (e = _))|]; exact H. }
  case_bool_decide as Hnat; apply yields_bind; eapply yields_mono; try (intros r Hr; exact Hr).
  - intros c c1 fee Hfee. apply try_ret_inv in Hfee. cbn [gbind]. destruct fee as [[[fee gp] gas]|e]; [|by left].
    pose proof (GetFeeLimit_gas c fee gp gas) as Hgas. rewrite Hfee in Hgas. rewrite (Hgas eq_refl).
    intros c2 c3 cid _. destruct cid as [cid|e]; [|by left]. intros c4 c5 n Hn. apply try_ret_inv in Hn.
    destruct n as [n|e]; [|by left]. unfold lift in Hn. injection Hn as _ <-. cbn [gbind].
    apply signed_yields. unfold payment. rewrite bool_decide_true by done. eauto.
  - intros c c1 cid _. cbn [gbind]. destruct cid as [cid|e]; [|by left]. intros c2 c3 raw Hraw. apply try_ret_inv in Hraw.
    destruct raw as [raw|e]; [|by left]. cbn [gbind]. apply signed_yields. unfold payment. rewrite bool_decide_false by done.
    exists (Client c2), (node c2). revert Hraw. unfold call. by destruct (TransferTx _ _ _ _ _ _ _) as [w o]; intros [= _ ->].
Qed.

(** What such a program asks the signers for. *)
Definition asks (fromAddr toAddr : bytes) (tokenAddr : string) (amount nonce : Z) (d : bytes) : Prop :=
  d = done_msg \/ exists cid tx, d = signer_Hash cid tx /\ payment fromAddr toAddr tokenAddr amount nonce tx.

Lemma signed_sends fromAddr toAddr tokenAddr amount nonce n cid tx :
  payment fromAddr toAddr tokenAddr amount nonce tx ->
  sends (asks fromAddr toAddr tokenAddr amount nonce)
    (gbind (batch_signer_go fromAddr cid fromAddr tx) (fun signed => match signed with
      | inr e => no_hash_go e
      | inl signedTx => wait_and_send_go attempts fromAddr n signedTx
      end) : task _).
Proof.
  intros Hp. apply sends_bind.
  - unfold batch_signer_go. destruct (negb _); [done|]. split; [right; by exists cid, tx|].
    intros [m|]; [|done]. by destruct (m !! _).
  - apply yields_any. intros [st|e]; [|done]. by apply only_acts_sends, wait_and_send_only_acts.
Qed.

Lemma ProcessOutBound_sends toAddr fromAddr tokenAddr amount nonce :
  sends (asks fromAddr toAddr tokenAddr amount nonce)
    (ProcessOutBound_go attempts toAddr fromAddr tokenAddr amount nonce : task _).
Proof.
  assert (asks fromAddr toAddr tokenAddr amount nonce done_msg) as Hdone by by left.
  unfold ProcessOutBound_go. apply sends_bind; [|by apply yields_any; intros [h [e|]]].
  case_bool_decide as Hnat; (apply sends_bind; [|by apply yields_any]).
  - intros c c1 fee Hfee. apply try_ret_inv in Hfee. cbn [gbind]. destruct fee as [[[fee gp] gas]|e]; [|done].
    pose proof (GetFeeLimit_gas c fee gp gas) as Hgas. rewrite Hfee in Hgas. rewrite (Hgas eq_refl).
    intros c2 c3 cid _. destruct cid as [cid|e]; [|done]. intros c4 c5 n Hn. apply try_ret_inv in Hn.
    destruct n as [n|e]; [|done]. unfold lift in Hn. injection Hn as _ <-. cbn [gbind].
    apply signed_sends. unfold payment. rewrite bool_decide_true by done. eauto.
  - intros c c1 cid _. cbn [gbind]. destruct cid as [cid|e]; [|done]. intros c2 c3 raw Hraw. apply try_ret_inv in Hraw.
    destruct raw as [raw|e]; [|done]. cbn [gbind]. apply signed_sends. unfold payment. rewrite bool_decide_false by done.
    exists (Client c2), (node c2). revert Hraw. unfold call. by destruct (TransferTx _ _ _ _ _ _ _) as [w o]; intros [= _ ->].
Qed.

(** A successful status is one the client reported. *)
Lemma CheckTxStatus_yields hash :
  yields (CheckTxStatus_go HexToHash hash : task _) (fun r => r = inl tt ->
    exists c c' : ChainInfo W C, checkEachTx (HexToHash hash) c = (c', Ret 1)).
Proof.
  unfold CheckTxStatus_go. rewrite retry_go_spec by apply Nat.lt_0_succ. apply yields_bind.
  apply (yields_mono _ (fun r => forall st, r = inl st -> exists c c' : ChainInfo W C, checkEachTx (HexToHash hash) c = (c', Ret st))).
  { intros [st|e] Hr; [|done]. cbn. destruct (Z.eqb_spec st 1) as [->|]; [|done]. intros _. auto. }
  apply yields_retry; [|done]. intros c c' r Hr st ->. apply try_ret_inv in Hr. eauto.
Qed.
End Pays.
