(* ===== verification/MoveFund.v ===== *)
(** * Moving the funds of a retired pool: pubchain/move_fund.go

    [MoveFound] moves the ERC20 tokens of the pool in one signing round, then
    its native coin, and puts the pool back on the queue of MoveFundQueue.v
    unless it found the pool empty.  The token workers are run one after the
    other, which is one of their interleavings (MoveRound.v has all of them);
    the answer of their signing round is a parameter, so what is proved holds
    for every answer. *)

From Stdlib Require Import Ascii String.
From S2P Require Import Prelude GoLib Sdk Requests TokenList Signature MoveFundQueue Pools PubClient Keysign TxSend.

#[local] Open Scope string_scope.
#[local] Open Scope Z_scope.
#[local] Open Scope go_scope.

(** ** Definitions *)

Record FundState (W C : Type) := mkFundState {
  fchain : ChainInfo W C;
  fqueue : MoveFundQueue;
}.
Arguments mkFundState {W C}. Arguments fchain {W C}. Arguments fqueue {W C}.

Section MoveFund.
Context {W C : Type} `{EC : EthClient W C} `{T : TssServer W} `{G : EthSigner} `{E : Eth} `{K : Backoff} `{R : GoRuntime}.
Context (attempts : nat) (HexToHash : string -> bytes).
#[local] Notation CI := (ChainInfo W C).
#[local] Notation FS := (FundState W C).

Definition on_fchain {A} (m : M CI A) : M FS A := fun s =>
  let '(c, r) := m (fchain s) in (mkFundState c (fqueue s), r).
Definition on_queue {A} (m : M MoveFundQueue A) : M FS A := fun s =>
  let '(q, r) := m (fqueue s) in (mkFundState (fchain s) q, r).
(** A worker's sending, from an empty outbox; its channel traffic is the
    subject of [ProcessOutBound_protocol] and Keysign.v. *)
Definition on_send {A} (m : M (SendState W C) A) : M CI A := fun c =>
  let '(s, r) := m (mkSendState c []) in (chain s, r).

(** An error is a value here: the callers look at it. *)
Definition moveERC20Token (index : nat) (nonce : Z) (sender receiver : bytes) (balance : Z) (tokenAddr : string)
    (resp : option (gmap string bytes)) : M CI (bytes * option string) :=
  let! r := on_send (SendTokenBatch attempts index sender receiver balance (Some (i64 nonce)) tokenAddr resp) in
  match r with
  | (txHash, Some e) => if bool_decide (e = "already known") then ret (txHash, None) else ret (txHash, Some e)
  | (txHash, None) => ret (txHash, None)
  end.

(** The error result of [needToMoveFund] is looked at before the boolean. *)
Definition needToMoveFund (tokenAddr : string) (poolAddr : bytes) (ethClient : C) : M CI bool :=
  let! balance := call (fun _ => TokenBalanceOf ethClient (HexToAddress tokenAddr) poolAddr) in
  ret (0 <? balance).

(** A method call on a nil client dereferences it. *)
Definition doMoveTokenFunds (index : nat) (nonce : Z) (previousPool : PoolInfo) (receiver : bytes) (tokenAddr : string)
    (ethClient : option C) (resp : option (gmap string bytes)) : M CI bool :=
  match ethClient with
  | None => panic
  | Some cl =>
      let balanceOf := call (fun _ => TokenBalanceOf cl (HexToAddress tokenAddr) (EthAddress previousPool)) in
      let! balance := balanceOf in
      if negb (0 <? balance) then ret true
      else
        let! r := moveERC20Token index nonce (EthAddress previousPool) receiver balance tokenAddr resp in
        let '(erc20TxHash, err) := r in
        if match err with Some e => negb (bool_decide (e = "already passed the seq")) | None => false end
        then fail "fail to transfer erc20 token"
        else
          do! CheckTxStatus HexToHash (Hash_Hex erc20TxHash) in
          let! nowBalance := try balanceOf in
          match nowBalance with
          | inl b => if negb (0 <? b) then ret true else fail "we failed to move fund for this token"
          | inr _ => fail "we failed to move fund for this token"
          end
  end.

(** Whether the coin was moved and whether the account is empty. *)
Definition doMoveBNBFunds (GetPool : list (option PoolInfo)) (previousPool : PoolInfo) (receiver : bytes) : M CI (bool * bool) :=
  let! balanceBnB := getBalanceWithLock (EthAddress previousPool) in
  let! limits := GetFeeLimitWithLock in
  let '(fee, _, _) := limits in
  if negb (fee <? balanceBnB) then ret (true, true)
  else
    let! nonce := getPendingNonceWithLock (EthAddress previousPool) in
    let! sent := SendNativeTokenForMoveFund attempts GetPool (Pk previousPool) (EthAddress previousPool) receiver
      balanceBnB (Some nonce) in
    let '(bnbTxHash, emptyAccount, err) := sent in
    match err with
    | Some e =>
        if bool_decide (e = "already passed the seq") then
          let! nowBalanceBnB := getBalanceWithLock (EthAddress previousPool) in
          if negb (fee <? nowBalanceBnB) then ret (true, true) else fail e
        else fail e
    | None =>
        if emptyAccount then ret (true, true)
        else
          do! CheckTxStatus HexToHash (Hash_Hex bnbTxHash) in
          let! nowBalanceBnB := getBalanceWithLock (EthAddress previousPool) in
          if negb (fee <? nowBalanceBnB) then ret (true, true) else ret (true, false)
    end.

(** [sort.Strings] *)
Definition sort_Strings (l : list string) : list string := sort_slice String.ltb l.

(** The token loop of [MoveFound]: the tokens with a balance, or [None] after
    the early return of a failed query. *)
Fixpoint tokens_to_move (tokens : list string) (poolAddr : bytes) (ethClient : C) : M CI (option (list string)) :=
  match tokens with
  | [] => ret (Some [])
  | tokenAddr :: tokens =>
      if bool_decide (tokenAddr = "native") then tokens_to_move tokens poolAddr ethClient
      else
        let! needMove := try (needToMoveFund tokenAddr poolAddr ethClient) in
        match needMove with
        | inr _ => ret None
        | inl b =>
            let! rest := tokens_to_move tokens poolAddr ethClient in
            ret (match rest with
              | Some l => Some (if b then tokenAddr :: l else l)
              | None => None
              end)
        end
  end.

(** One token worker; the result is whether the token is left empty. *)
Definition token_worker (height nonce : Z) (previousPool : PoolInfo) (receiver : bytes)
    (resp : option (gmap string bytes)) (index : nat) (thisTokenAddr : string) : M FS bool :=
  let! c := get in
  let ci := fchain c in
  let! dialed := try (on_fchain (call (fun _ => Dial (WsAddr ci)))) in
  let! ethClientLocal := match dialed with
    | inl cl => ret (Some cl)
    | inr _ => do! on_queue (AddMoveFundItem (Some previousPool) height (ChainType ci)) in ret None
    end in
  let myNonce := u64 (nonce + Z.of_nat index) in
  let! r := try (on_fchain (doMoveTokenFunds index myNonce previousPool receiver thisTokenAddr ethClientLocal resp)) in
  match r with
  | inr _ => ret false
  | inl tokenIsEmpty => ret tokenIsEmpty
  end.

Fixpoint token_workers (height nonce : Z) (previousPool : PoolInfo) (receiver : bytes)
    (resp : option (gmap string bytes)) (index : nat) (needToMove : list string) : M FS bool :=
  match needToMove with
  | [] => ret true
  | t :: needToMove =>
      let! b := token_worker height nonce previousPool receiver resp index t in
      let! bs := token_workers height nonce previousPool receiver resp (S index) needToMove in
      ret (b && bs)
  end.

Definition retry_later (previousPool : PoolInfo) (height : Z) (chainType : string) : M FS unit :=
  on_queue (AddMoveFundItem (Some previousPool) (i64 (height + movefundretrygap)) chainType).

(** [MoveFound] up to its signing round: the result of an early return, or the
    current pool, the nonce and the tokens of the round. *)
Definition prepare_move {L} `{BL : BridgeTokenListI L} (tl : L) (GetPool : list (option PoolInfo))
    (height : Z) (previousPool : PoolInfo) (chainType : string) (ethClient : C) : M FS (bool + PoolInfo * Z * list string) :=
  match GetPool !! 1%nat with
  | Some (Some currentPool) =>
      let! existedTokenAddresses := lift (GetAllExistedTokenAddresses tl chainType) in
      let! needToMove := on_fchain (tokens_to_move (sort_Strings existedTokenAddresses) (EthAddress previousPool) ethClient) in
      match needToMove with
      | None => do! retry_later previousPool height chainType in ret (inl false)
      | Some [] =>
          let! moved := try (on_fchain (doMoveBNBFunds GetPool previousPool (EthAddress currentPool))) in
          match moved with
          | inl (_, true) => ret (inl true)
          | _ => do! retry_later previousPool height chainType in ret (inl false)
          end
      | Some needToMove =>
          let! nonce := try (on_fchain (getPendingNonceWithLock (EthAddress previousPool))) in
          match nonce with
          | inr _ => do! retry_later previousPool height chainType in ret (inl false)
          | inl nonce => ret (inr (currentPool, nonce, needToMove))
          end
      end
  | _ => ret (inl false)
  end.

(** [MoveFound] from [waitForFinish.Wait()] on. *)
Definition finish_move (GetPool : list (option PoolInfo)) (height : Z) (previousPool currentPool : PoolInfo)
    (chainType : string) (emptyERC20Tokens : bool) : M FS bool :=
  if negb emptyERC20Tokens then do! retry_later previousPool height chainType in ret false
  else
    let! moved := try (on_fchain (doMoveBNBFunds GetPool previousPool (EthAddress currentPool))) in
    match moved with
    | inl (_, true) => ret true
    | inl (bnbIsMoved, false) => do! retry_later previousPool height chainType in ret bnbIsMoved
    | inr _ => do! retry_later previousPool height chainType in ret false
    end.

Definition MoveFound {L} `{BL : BridgeTokenListI L} (tl : L) (GetPool : list (option PoolInfo))
    (resp : option (gmap string bytes)) (height : Z) (previousPool : PoolInfo) (ethClient : C) : M FS bool :=
  let! s := get in
  let chainType := ChainType (fchain s) in
  let! p := prepare_move tl GetPool height previousPool chainType ethClient in
  match p with
  | inl result => ret result
  | inr (currentPool, nonce, needToMove) =>
      let! emptyERC20Tokens := token_workers height nonce previousPool (EthAddress currentPool) resp 0 needToMove in
      finish_move GetPool height previousPool currentPool chainType emptyERC20Tokens
  end.

(** The pool's native balance was read to be no more than a transfer's fee. *)
Definition native_empty (pool : PoolInfo) : Prop :=
  exists cl w cl' w' bal gp, (BalanceAt cl (EthAddress pool) w).2 = Ret bal /\
    (SuggestGasPrice cl' w').2 = Ret gp /\ bal <= gp * DEFAULTNATIVEGAS.

(** A query of the token found no balance of the pool. *)
Definition token_emptied (pool : PoolInfo) (tokenAddr : string) : Prop :=
  exists (cl : C) w b, (TokenBalanceOf cl (HexToAddress tokenAddr) (EthAddress pool) w).2 = Ret b /\ b <= 0.

(** Every token the list names on the chain is in [need] or was found empty. *)
Definition accounts_for {L} `{BL : BridgeTokenListI L} (tl : L) (chainType : string) (pool : PoolInfo) (need : list string) : Prop :=
  forall l t, GetAllExistedTokenAddresses tl chainType = Ret l -> t ∈ l -> t = "native" \/ t ∈ need \/ token_emptied pool t.

(** The pool is back on the queue, to be tried again. *)
Definition retried (pool : PoolInfo) (height : Z) (chainType : string) (q : MoveFundQueue) : Prop :=
  q !! move_key (i64 (height + movefundretrygap)) chainType = Some (mkMoveFundItem (Some pool) chainType (i64 (height + movefundretrygap))).
End MoveFund.

(** ** Lemmas *)

Section Lemmas.
Context {W C : Type} `{EC : EthClient W C} `{T : TssServer W} `{G : EthSigner} `{LG : !EthSignerLaws G}.
Context `{E : Eth} `{K : Backoff} `{R : GoRuntime}.
Context (attempts : nat) (HexToHash : string -> bytes).
#[local] Notation CI := (ChainInfo W C).
#[local] Notation FS := (FundState W C).

Lemma locked_ret {A} (f : C -> M W A) (c c' : CI) r :
  locked f c = (c', Ret r) ->
  match r with inl a => (f (Client c) (node c)).2 = Ret a | inr e => (f (Client c) (node c)).2 = Fail e end.
Proof.
  intros H. destruct (locked_eq f c) as [E'|[_ [c1 E']]]; rewrite E' in H; [|by simplify_eq].
  destruct (f (Client c) (node c)) as [w [a|e|]]; cbn in *; by simplify_eq.
Qed.

Lemma getBalance_ret addr (c c' : CI) bal :
  getBalanceWithLock addr c = (c', Ret bal) -> exists cl w, (BalanceAt cl addr w).2 = Ret bal.
Proof.
  intros (c1 & r & Hl & H)%bind_ret_inv. apply locked_ret in Hl.
  destruct r as [b|e]; cbn in H; unfold ret in H; simplify_eq; eauto.
Qed.

Lemma GetFeeLimit_ret (c c' : CI) fee gp gas :
  GetFeeLimitWithLock c = (c', Ret (fee, gp, gas)) ->
  fee = gp * DEFAULTNATIVEGAS /\ exists cl w, (SuggestGasPrice cl w).2 = Ret gp.
Proof.
  intros (c1 & r & Hl & H)%bind_ret_inv. apply locked_ret in Hl.
  destruct r as [b|e]; cbn in H; unfold ret in H; simplify_eq; eauto.
Qed.

(** An empty account is reported on a balance that was read. *)
Lemma doMoveBNBFunds_empty GetPool pool receiver (c c' : CI) moved :
  doMoveBNBFunds attempts HexToHash GetPool pool receiver c = (c', Ret (moved, true)) ->
  native_empty (W := W) (C := C) pool.
Proof.
  intros (c1 & bal & Hbal & H)%bind_ret_inv. apply getBalance_ret in Hbal as (cl & w & Hbal).
  apply bind_ret_inv in H as (c2 & [[fee gp] gas] & Hfee & H). apply GetFeeLimit_ret in Hfee as (-> & cl' & w' & Hgp).
  destruct (Z.ltb_spec (gp * DEFAULTNATIVEGAS) bal) as [Hlt|Hge]; cbn [negb] in H.
  2: { by exists cl, w, cl', w', bal, gp. }
  apply bind_ret_inv in H as (c3 & nonce & _ & H).
  apply bind_ret_inv in H as (c4 & [[h empty] err] & Hsend & H).
  assert (forall (c5 : CI) nb, getBalanceWithLock (EthAddress pool) c5 = (c', Ret nb) \/ True -> nb <= gp * DEFAULTNATIVEGAS ->
    (exists cl w, (BalanceAt cl (EthAddress pool) w).2 = Ret nb) -> native_empty (W := W) (C := C) pool) as Hnb.
  { intros c5 nb _ Hle (cl1 & w1 & Hb). by exists cl1, w1, cl', w', nb, gp. }
  destruct err as [e|].
  - case_bool_decide; [|done]. apply bind_ret_inv in H as (c5 & nb & Hb & H). apply getBalance_ret in Hb.
    destruct (Z.ltb_spec (gp * DEFAULTNATIVEGAS) nb); cbn in H; [done|]. eapply (Hnb c5 nb); auto.
  - destruct empty.
    + assert (exists gp2 cl2 w2, (SuggestGasPrice cl2 w2).2 = Ret gp2 /\ bal <= gp2 * DEFAULTNATIVEGAS) as (gp2 & cl2 & w2 & Hgp2 & Hle).
      { clear H Hnb. unfold SendNativeTokenForMoveFund in Hsend.
        apply bind_ret_inv in Hsend as (c5 & r & Hr%try_ret_inv & H). destruct r as [[[fee2 gp2] gas2]|e]; [|by (unfold ret in H; simplify_eq)].
        apply GetFeeLimit_ret in Hr as (-> & cl2 & w2 & Hgp2).
        exists gp2, cl2, w2. split; [done|]. destruct (Z.ltb_spec (gp2 * DEFAULTNATIVEGAS) bal); [|done]. exfalso. cbn [negb] in H.
        revert H. clear. intros H.
        apply bind_ret_inv in H as (? & ? & _ & H). apply bind_ret_inv in H as (? & [b|e] & _ & H); [|by (unfold ret in H; simplify_eq)].
        apply bind_ret_inv in H as (? & [b1|e] & _ & H); [|by (unfold ret in H; simplify_eq)].
        apply bind_ret_inv in H as (? & ? & _ & H). apply bind_ret_inv in H as (? & [b2|e] & _ & H); [|by (unfold ret in H; simplify_eq)].
        apply bind_ret_inv in H as (? & ? & _ & H). by (unfold ret in H; simplify_eq). }
      by exists cl, w, cl2, w2, bal, gp2.
    + apply bind_ret_inv in H as (c5 & [] & _ & H). apply bind_ret_inv in H as (c6 & nb & Hb & H). apply getBalance_ret in Hb.
      destruct (Z.ltb_spec (gp * DEFAULTNATIVEGAS) nb); cbn in H; [unfold ret in H; by simplify_eq|]. eapply (Hnb c5 nb); auto.
Qed.

Lemma retry_later_queue pool height chainType (s s' : FS) r :
  retry_later pool height chainType s = (s', r) ->
  fqueue s' !! move_key (i64 (height + movefundretrygap)) chainType =
    Some (mkMoveFundItem (Some pool) chainType (i64 (height + movefundretrygap))).
Proof.
  unfold retry_later, on_queue. rewrite AddMoveFundItem_eq. intros H. simplify_eq. cbn [fqueue]. apply lookup_insert_eq.
Qed.

Lemma on_fchain_ret {A} (m : M CI A) (s s' : FS) r :
  on_fchain m s = (s', r) -> fqueue s' = fqueue s /\ m (fchain s) = (fchain s', r).
Proof. unfold on_fchain. destruct (m (fchain s)). intros H. by simplify_eq. Qed.
(** The entries of other heights and chains stay as they are. *)
Definition same_but (keys : list string) (q q' : MoveFundQueue) : Prop := forall k, k ∉ keys -> q' !! k = q !! k.

Lemma retry_then pool height chainType {A} (x y : A) (s s' : FS) :
  bind (retry_later pool height chainType) (fun _ => ret x) s = (s', Ret y) ->
  y = x /\ retried pool height chainType (fqueue s') /\ same_but [move_key (i64 (height + movefundretrygap)) chainType] (fqueue s) (fqueue s').
Proof.
  intros (s1 & [] & Hr & Hx)%bind_ret_inv. injection Hx as <- <-. split; [done|]. split; [by eapply retry_later_queue|].
  unfold retry_later, on_queue in Hr. rewrite AddMoveFundItem_eq in Hr. simplify_eq. intros k Hk. cbn. rewrite lookup_insert_ne; [done|].
  intros <-. apply Hk. left.
Qed.

Lemma call_ret {A} (f : C -> M W A) (c c' : CI) a : call f c = (c', Ret a) -> exists cl w, (f cl w).2 = Ret a.
Proof. unfold call. destruct (f (Client c) (node c)) as [w r] eqn:E1. intros [= _ ->]. exists (Client c), (node c). by rewrite E1. Qed.

Lemma needs_none pool t cl (c c' : CI) : needToMoveFund t (EthAddress pool) cl c = (c', Ret false) -> token_emptied pool t.
Proof.
  intros (c1 & b & Hb & H)%bind_ret_inv. injection H as _ Hlt. apply call_ret in Hb as (_ & w & Hb).
  exists cl, w, b. split; [done|]. by apply Z.ltb_ge.
Qed.

Lemma tokens_to_move_spec pool cl tokens (c c' : CI) need :
  tokens_to_move tokens (EthAddress pool) cl c = (c', Ret (Some need)) ->
  forall t, t ∈ tokens -> t = "native" \/ t ∈ need \/ token_emptied pool t.
Proof.
  revert c need. induction tokens as [|x tokens IH]; intros c need; cbn [tokens_to_move]; [by intros _ t ?%not_elem_of_nil|].
  case_bool_decide as Hx; [intros H t [->|Ht]%elem_of_cons; [by left|by eapply IH]|].
  intros (c1 & r & H1 & H)%bind_ret_inv. apply try_ret_inv in H1. destruct r as [b|e]; [|unfold ret in H; by simplify_eq].
  apply bind_ret_inv in H as (c2 & rest & H2 & H). destruct rest as [l|]; unfold ret in H; simplify_eq.
  intros t [->|Ht]%elem_of_cons.
  - destruct b; [right; left; left|]. right. right. by eapply needs_none.
  - destruct (IH _ _ H2 t Ht) as [?|[?|?]]; [by left| |by right; right]. right. left. destruct b; [by right|done].
Qed.

Lemma moveBNB_empty GetPool pool receiver (s s' : FS) mv :
  try (on_fchain (doMoveBNBFunds attempts HexToHash GetPool pool receiver)) s = (s', Ret mv) ->
  fqueue s' = fqueue s /\ (forall b, mv = inl (b, true) -> native_empty (W := W) (C := C) pool).
Proof.
  intros Hm%try_ret_inv. destruct mv as [[b e]|e]; apply on_fchain_ret in Hm as [Hq Hm]; (split; [done|]); [|done].
  intros b' [= -> ->]. by eapply doMoveBNBFunds_empty.
Qed.

Lemma prepare_move_spec `{LR : !GoRuntimeLaws R} {L} `{BL : BridgeTokenListI L} (tl : L) GetPool cur height pool ct cl (s s' : FS) p :
  GetPool !! 1%nat = Some (Some cur) ->
  prepare_move attempts HexToHash tl GetPool height pool ct cl s = (s', Ret p) ->
  same_but [move_key (i64 (height + movefundretrygap)) ct] (fqueue s) (fqueue s') /\
  match p with
  | inl b => retried pool height ct (fqueue s') \/
      (b = true /\ native_empty (W := W) (C := C) pool /\ accounts_for (W := W) (C := C) tl ct pool [])
  | inr (cur', _, need) => cur' = cur /\ need <> [] /\ accounts_for (W := W) (C := C) tl ct pool need
  end.
Proof.
  intros Hcur. unfold prepare_move. rewrite Hcur.
  intros (s1 & toks & Hl & H)%bind_ret_inv. injection Hl as <- Htoks. apply bind_ret_inv in H as (s2 & need & Hn & H).
  apply on_fchain_ret in Hn as [Hq2 Hn]. rewrite <- Hq2.
  assert (forall need0, need = Some need0 -> accounts_for (W := W) (C := C) tl ct pool need0) as Hacc.
  { intros need0 -> l t Hlt Ht. rewrite Htoks in Hlt. simplify_eq. eapply tokens_to_move_spec; [exact Hn|].
    unfold sort_Strings. by rewrite sort_slice_perm. }
  destruct need as [[|t need]|]; [| |apply retry_then in H as (-> & ? & ?); auto].
  - apply bind_ret_inv in H as (s3 & mv & Hm & H). apply moveBNB_empty in Hm as [Hq3 Hm]. rewrite <- Hq3.
    destruct mv as [[b [|]]|e]; [|apply retry_then in H as (-> & ? & ?); auto..].
    unfold ret in H. simplify_eq. split; [done|]. right. split; [done|]. split; [by eapply Hm|by apply Hacc].
  - apply bind_ret_inv in H as (s3 & n & Hn' & H). apply try_ret_inv in Hn'.
    assert (fqueue s3 = fqueue s2) as <- by (destruct n; by apply on_fchain_ret in Hn' as []).
    destruct n as [n|e]; [|apply retry_then in H as (-> & ? & ?); auto]. unfold ret in H. simplify_eq. split; [done|]. split; [done|]. by split; [|apply Hacc].
Qed.

Lemma finish_move_spec GetPool height pool cur ct empty (s s' : FS) b :
  finish_move attempts HexToHash GetPool height pool cur ct empty s = (s', Ret b) ->
  same_but [move_key (i64 (height + movefundretrygap)) ct] (fqueue s) (fqueue s') /\
  (retried pool height ct (fqueue s') \/ (empty = true /\ b = true /\ native_empty (W := W) (C := C) pool)).
Proof.
  unfold finish_move. destruct empty; cbn [negb]; [|intros (-> & ? & ?)%retry_then; auto].
  intros (s1 & mv & Hm & H)%bind_ret_inv. apply moveBNB_empty in Hm as [Hq Hm]. rewrite <- Hq.
  destruct mv as [[mv [|]]|e]; [|apply retry_then in H as (-> & ? & ?); auto..].
  unfold ret in H. simplify_eq. split; [done|]. right. split; [done|]. split; [done|]. by eapply Hm.
Qed.
End Lemmas.

(** ** Properties *)

Section Properties.
Context {W C : Type} `{EC : EthClient W C} `{T : TssServer W} `{G : EthSigner} `{LG : !EthSignerLaws G}.
Context `{E : Eth} `{K : Backoff} `{R : GoRuntime} `{LR : !GoRuntimeLaws R} {L : Type} `{BL : BridgeTokenListI L}.
Context (attempts : nat) (HexToHash : string -> bytes).

(** Fact (a retired pool is not forgotten). Whenever [MoveFound] returns, with
    the current pool known, either the retired pool is back on the queue, to
    be tried [movefundretrygap] blocks later, or the call reports success
    and a balance of the pool was read that does not exceed a transfer's fee:
    no failure of a query, of the signing round or of a sending loses it. *)
Theorem MoveFound_keeps_pool (tl : L) GetPool resp height pool cur ethClient (s s' : FundState W C) b :
  GetPool !! 1%nat = Some (Some cur) ->
  MoveFound attempts HexToHash tl GetPool resp height pool ethClient s = (s', Ret b) ->
  fqueue s' !! move_key (i64 (height + movefundretrygap)) (ChainType (fchain s)) =
    Some (mkMoveFundItem (Some pool) (ChainType (fchain s)) (i64 (height + movefundretrygap))) \/
  (b = true /\ native_empty (W := W) (C := C) pool).
Proof.
  intros Hcur. unfold MoveFound. intros (s1 & s1' & Hget & H)%bind_ret_inv. injection Hget as <- <-.
  apply bind_ret_inv in H as (s2 & p & Hp & H). apply (prepare_move_spec attempts HexToHash tl GetPool cur) in Hp as [_ Hp]; [|done].
  destruct p as [b'|[[cur' nonce] need]].
  - unfold ret in H. simplify_eq. destruct Hp as [?|(? & ? & _)]; auto.
  - apply bind_ret_inv in H as (s3 & empty & _ & H). apply finish_move_spec in H as [_ [?|(_ & ? & ?)]]; auto.
Qed.

End Properties.

(** ** Witnesses *)

Section Witnesses.
#[local] Existing Instance eth_client_ref.
#[local] Existing Instance backoff_ref.
#[local] Existing Instance eth_ref.
#[local] Existing Instance eth_signer_ref.
#[local] Existing Instance tss_ref.
#[local] Existing Instance go_runtime_ref.

Definition tokens1 : TokenList := mkTokenList ∅ {[ "0xab:bsc" := mkTokenItem "0xab" "usd" 6 "BSC" ]} 20.

Lemma MoveFound_keeps_pool_witness :
  let s' := (MoveFound 3 (fun _ => []) tokens1 [None; Some (pool_of "k01")] None 100 (pool_of "k02") tt
    (mkFundState (chain_ref [3]) ∅)).1 in
  fqueue s' !! move_key 103 "BSC" = Some (mkMoveFundItem (Some (pool_of "k02")) "BSC" 103) \/
  native_empty (W := ref_world) (C := unit) (pool_of "k02").
Proof.
  destruct (MoveFound 3 (fun _ => []) tokens1 [None; Some (pool_of "k01")] None 100 (pool_of "k02") tt
    (mkFundState (chain_ref [3]) ∅)) as [s' r] eqn:Es.
  assert (is_ret r = true) as Hr by (apply (f_equal snd) in Es; cbn [snd] in Es; subst r; vm_compute; reflexivity).
  destruct r as [b|e|]; [|discriminate|discriminate].
  destruct (MoveFound_keeps_pool 3 (fun _ => []) tokens1 [None; Some (pool_of "k01")] None 100 (pool_of "k02")
    (pool_of "k01") tt (mkFundState (chain_ref [3]) ∅) s' b eq_refl Es) as [H|[_ H]]; [left; exact H|right; exact H].
Defined.
End Witnesses.
