(* ===== verification/Inbound.v ===== *)
(** * From the public chains: pubchain/tx_inbound.go

    Each transaction of a block is checked for a call of the bridge's
    contract and for a native payment to a pool.  What it deposits becomes an
    inbound request, or, when another public chain is its destination, an
    outbound request. *)

From Stdlib Require Import Ascii String.
From S2P Require Import Prelude GoLib Sdk Requests Fees ItemQueue TokenList Pools PubClient.

#[local] Open Scope string_scope.
#[local] Open Scope Z_scope.
#[local] Open Scope go_scope.

(** ** Definitions *)

Definition JOLTIFY : string := "JOLTIFY".

Record Erc20TxInfo := mkErc20TxInfo {
  receiverAddr : bytes;
  receiverAddrERC20 : string;
  toAddr : bytes;
  info_Amount : Z;
  tokenAddress : bytes;
  dstChainType : string;
}.

(** A value the ABI decoder returns, with the Go type it has. *)
Inductive AbiValue :=
| AbiAddress (a : bytes)
| AbiInt (z : Z)
| AbiBytes (b : bytes)
| AbiOther.

(** [tokenAbi.Methods["oppyTransfer"]], when there is one, and its decoder. *)
Class TokenAbi := {
  has_oppyTransfer : bool;
  Unpack : bytes -> outcome (list AbiValue);
}.

(** The joltify side as the public chain sees it: the price oracle and the
    latest height, and the JSON decoder of memos. *)
Class JoltHandler `{SdkMath} := {
  queryTokenPrice : string -> outcome Dec;
  QueryJoltBlockHeight : outcome Z;
}.
Class MemoCodec := { UnmarshalMemo : bytes -> outcome BridgeMemo }.

Record InState (W C : Type) := mkInState {
  ichain : ChainInfo W C;
  inq : ItemQueue InBoundReq;      (* RetryInboundReq *)
  outq : ItemQueue OutBoundReq;    (* joltRetryOutBoundReq *)
}.
Arguments mkInState {W C}. Arguments ichain {W C}. Arguments inq {W C}. Arguments outq {W C}.

(** The slice [s[2:]]. *)
Definition drop2 (s : string) : outcome string :=
  match s with
  | String _ (String _ s) => Ret s
  | _ => Panic
  end.

Section Inbound.
Context {W C : Type} `{EC : EthClient W C} `{S : SdkMath} `{N : SdkCoins} `{E : Eth} `{B : Bech32}.
Context `{AB : TokenAbi} `{JH : !JoltHandler} `{MC : MemoCodec} {L : Type} `{BL : BridgeTokenListI L}.
Context (tl : L).
#[local] Notation IS := (InState W C).

Definition on_ichain {A} (m : M (ChainInfo W C) A) : M IS A := fun s =>
  let '(c, r) := m (ichain s) in (mkInState c (inq s) (outq s), r).
Definition on_inq {A} (m : M (ItemQueue InBoundReq) A) : M IS A := fun s =>
  let '(q, r) := m (inq s) in (mkInState (ichain s) q (outq s), r).
Definition on_outq {A} (m : M (ItemQueue OutBoundReq) A) : M IS A := fun s =>
  let '(q, r) := m (outq s) in (mkInState (ichain s) (inq s) q, r).

(** pubchain/helper.go *)
Definition getBalance (value : Z) (denom : string) : outcome Coin :=
  let? i := NewIntFromBigInt value in
  let? total := NewCoin denom i in
  if Coin_IsNegative total then Fail "insufficient fund" else Ret total.

(** pubchain/public_items_process.go: the map the joltify instance owns. *)
Definition AddOutBoundItem (req : OutBoundReq) : M IS unit := on_outq (AddItem req).

Definition processInboundERC20Tx (txID chainType : string) (txBlockHeight : Z) (receiver : bytes) (to : bytes)
    (value : Z) (addr : bytes) : M IS unit :=
  let '(tokenItem, exit) := GetTokenInfoByAddressAndChainType tl (ToLower (Address_Hex addr)) chainType in
  if negb exit then fail "token is not on our token list"
  else
    let! amount := lift (NewIntFromBigInt value) in
    let token := mkCoin (TokenList.Denom tokenItem) amount in
    match hex_DecodeString txID with
    | Panic => panic
    | Fail _ => ret tt
    | Ret txIDBytes =>
        let! adjusted := lift (inboundAdjust (Amount token) (Decimals tokenItem) Precision) in
        let item := NewAccountInboundReq receiver to (mkCoin (Sdk.Denom token) adjusted) txIDBytes (i64 txBlockHeight) in
        on_inq (AddItem item)
    end.

(** The caller passes the token's address where the pool's is expected. *)
Definition ProcessInBoundERC20 (tx : EthTx) (chainType : string) (txInfo : Erc20TxInfo) (txBlockHeight : Z) : M IS unit :=
  let! txID := lift (drop2 (Hash_Hex (tx_Hash tx))) in
  processInboundERC20Tx txID chainType txBlockHeight (receiverAddr txInfo) (tokenAddress txInfo)
    (info_Amount txInfo) (tokenAddress txInfo).

Definition checkErc20 (data : bytes) (to contractAddress : string) : outcome Erc20TxInfo :=
  if negb (EqualFold to contractAddress) then Fail "not our smart contract"
  else if has_oppyTransfer then
    if (length data <? 4)%nat then Fail "invalid data"
    else
      let? params := Unpack (drop 4 data) in
      match params with
      | [p0; p1; p2; p3] =>
          match p0 with
          | AbiAddress toAddr =>
              match p1 with
              | AbiInt amount =>
                  match p2 with
                  | AbiAddress tokenAddress =>
                      match p3 with
                      | AbiBytes memo =>
                          let? memoInfo := UnmarshalMemo memo in
                          let? dst := (
                            if bool_decide (bm_ChainType memoInfo = JOLTIFY) then
                              let? a := AccAddressFromBech32 (Dest memoInfo) in Ret (a, "")
                            else if bool_decide (bm_ChainType memoInfo = BSC \/ bm_ChainType memoInfo = ETH) then
                              Ret ([], Dest memoInfo)
                            else Fail "unknow chain type") in
                          Ret (mkErc20TxInfo (fst dst) (snd dst) toAddr amount tokenAddress (bm_ChainType memoInfo))
                      | _ => Fail "not valid memo"
                      end
                  | _ => Fail "not valid address"
                  end
              | _ => Fail "not valid amount"
              end
          | _ => Fail "not valid address"
          end
      | _ => Fail "invalid transfer parameter"
      end
  else Fail "invalid method for decode".

Definition processDstInbound (slots : Slots) (feeModule : gmap string FeeModule) (txInfo : Erc20TxInfo)
    (txHash chainType : string) : M IS unit :=
  let '(tokenInItem, exit) := GetTokenInfoByAddressAndChainType tl (ToLower (Address_Hex (tokenAddress txInfo))) chainType in
  if negb exit then fail "token is not on our token list"
  else
    let! value := lift (NewIntFromBigInt (info_Amount txInfo)) in
    let! token := lift (NewCoin (TokenList.Denom tokenInItem) value) in
    let! adjusted := lift (inboundAdjust (Amount token) (Decimals tokenInItem) Precision) in
    let token := mkCoin (Sdk.Denom token) adjusted in
    match queryTokenPrice (Sdk.Denom token) with
    | Panic => panic
    | Fail _ => fail "fail to get the token price"
    | Ret price =>
        match feeModule !! dstChainType txInfo with
        | None => panic
        | Some thisFeeModule =>
            match CalculateFee thisFeeModule price token with
            | Panic => panic
            | Fail _ => ret tt
            | Ret fee =>
                let! lt := lift (Coin_IsLT token fee) in
                let! eq := lift (if lt then Ret true else Coin_Equal token fee) in
                if eq then ret tt
                else
                  let feeToValidator := fee in
                  let! token := lift (Coin_Sub token feeToValidator) in
                  let '(tokenOutItem, tokenExist) := GetTokenInfoByDenomAndChainType tl (Sdk.Denom token) (dstChainType txInfo) in
                  if negb tokenExist then fail "cannot find the token"
                  else
                    let! out := lift (outboundAdjust (Amount token) (Decimals tokenOutItem) Precision) in
                    let token := mkCoin (Sdk.Denom token) out in
                    let receiver := HexToAddress (receiverAddrERC20 txInfo) in
                    if bool_decide (receiver = zero_address) then ret tt
                    else
                      match slot1 slots with
                      | None => panic
                      | Some pool =>
                          match QueryJoltBlockHeight with
                          | Panic => panic
                          | Fail _ => fail "fail to get the token price"
                          | Ret joltHeight =>
                              AddOutBoundItem (NewOutboundReq txHash receiver (EthAddress pool) token
                                (TokenList.TokenAddr tokenOutItem) joltHeight [feeToValidator] (dstChainType txInfo) true)
                          end
                      end
            end
        end
    end.

Definition processJoltifyInbound (memoInfo : BridgeMemo) (chainType : string) (tx : EthTx) (to : bytes)
    (txBlockHeight : Z) : M IS unit :=
  match AccAddressFromBech32 (Dest memoInfo) with
  | Panic => panic
  | Fail _ => ret tt
  | Ret dstAddr =>
      let '(tokenItem, found) := GetTokenInfoByAddressAndChainType tl "native" chainType in
      if negb found then panic
      else
        match getBalance (tx_Value tx) (TokenList.Denom tokenItem) with
        | Panic => panic
        | Fail _ => ret tt
        | Ret balance =>
            let! adjusted := lift (inboundAdjust (Amount balance) (Decimals tokenItem) Precision) in
            let item := NewAccountInboundReq dstAddr to (mkCoin (Sdk.Denom balance) adjusted) (tx_Hash tx) txBlockHeight in
            on_inq (AddItem item)
        end
  end.

(** The contract call of one transaction; the result tells whether the loop
    body goes on ([true]) or leaves with [continue]. *)
Definition process_contract_call (slots : Slots) (feeModule : gmap string FeeModule) (chainType : string)
    (blockNumber txBlockHeight : Z) (tx : EthTx) (txInfo : Erc20TxInfo) : M IS bool :=
  let '(_, exit) := GetTokenInfoByAddressAndChainType tl (Address_Hex (tokenAddress txInfo)) chainType in
  if negb exit then ret false
  else if negb (checkToBridge (toAddr txInfo) slots) then ret false
  else if bool_decide (dstChainType txInfo = chainType) then ret false
  else if bool_decide (dstChainType txInfo = ETH \/ dstChainType txInfo = BSC) then
    let! txHash := lift (drop2 (Hash_Hex (tx_Hash tx))) in
    let! r := try (processDstInbound slots feeModule txInfo txHash chainType) in
    ret (match r with inl _ => true | inr _ => false end)
  else if bool_decide (dstChainType txInfo = JOLTIFY) then
    let! r := try (ProcessInBoundERC20 tx chainType txInfo blockNumber) in
    ret (match r with inl _ => true | inr _ => false end)
  else ret false.

(** The native payment of one transaction. *)
Definition process_native (slots : Slots) (chainType : string) (txBlockHeight : Z) (tx : EthTx) (to : bytes) : M IS unit :=
  if checkToBridge to slots then
    match UnmarshalMemo (tx_Data tx) with
    | Panic => panic
    | Fail _ => ret tt
    | Ret memoInfo =>
        if bool_decide (bm_ChainType memoInfo = JOLTIFY) then
          processJoltifyInbound memoInfo chainType tx to txBlockHeight
        else ret tt
    end
  else ret tt.

(** The body of the loop of [processEachBlock]. *)
Definition process_tx (slots : Slots) (feeModule : gmap string FeeModule) (chainType : string)
    (blockNumber txBlockHeight : Z) (tx : EthTx) : M IS unit :=
  match tx_To tx with
  | None => ret tt
  | Some to =>
      let! status := try (on_ichain (checkEachTx (tx_Hash tx))) in
      match status with
      | inr _ => ret tt
      | inl status =>
          if negb (status =? 1) then ret tt
          else
            let! s := get in
            let! go_on := match checkErc20 (tx_Data tx) (Address_Hex to) (contractAddress (ichain s)) with
              | Panic => panic
              | Fail _ => ret true
              | Ret txInfo => process_contract_call slots feeModule chainType blockNumber txBlockHeight tx txInfo
              end in
            if go_on then process_native slots chainType txBlockHeight tx to else ret tt
      end
  end.

Definition processEachBlock (slots : Slots) (feeModule : gmap string FeeModule) (chainType : string)
    (block : EthBlock) (txBlockHeight : Z) : M IS unit :=
  forM (Transactions block) (process_tx slots feeModule chainType (NumberU64 block) txBlockHeight).

Definition ProcessNewBlock (slots : Slots) (feeModule : gmap string FeeModule) (chainType : string) (number : Z) : M IS unit :=
  let! block := on_ichain (GetBlockByNumberWithLock (Some number)) in
  processEachBlock slots feeModule chainType block (i64 number).
End Inbound.

(** ** Lemmas *)

Section Lemmas.
Context {W C : Type} `{EC : EthClient W C} `{S : SdkMath} `{LS : !SdkMathLaws S} `{N : SdkCoins} `{LN : !SdkCoinsLaws N}.
Context `{E : Eth} `{LE : !EthLaws E} `{B : Bech32}.
Context `{AB : TokenAbi} `{JH : !JoltHandler} `{MC : MemoCodec} {L : Type} `{BL : BridgeTokenListI L}.
#[local] Notation IS := (InState W C).

Lemma drop2_hash h : drop2 (Hash_Hex h) = Ret (hex_EncodeToString h).
Proof. by rewrite Hash_Hex_hex. Qed.

Lemma on_ichain_queues {A} (m : M (ChainInfo W C) A) (s : IS) :
  inq (on_ichain m s).1 = inq s /\ outq (on_ichain m s).1 = outq s.
Proof. unfold on_ichain. by destruct (m (ichain s)). Qed.

(** The amount credited for [value] units of a token. *)
Definition credited (tokenItem : TokenItem) (value : Z) : outcome Z :=
  let? i := NewIntFromBigInt value in inboundAdjust i (Decimals tokenItem) Precision.

Lemma processInboundERC20Tx_ret tl h chainType n receiver to value addr item amount (s : IS) :
  GetTokenInfoByAddressAndChainType tl (ToLower (Address_Hex addr)) chainType = (item, true) ->
  credited item value = Ret amount ->
  processInboundERC20Tx tl (hex_EncodeToString h) chainType n receiver to value addr s =
  on_inq (AddItem (NewAccountInboundReq receiver to (mkCoin (TokenList.Denom item) amount) h (i64 n))) s.
Proof.
  intros Ht Hc. unfold processInboundERC20Tx. rewrite Ht. cbn [negb]. unfold credited in Hc.
  apply obind_ret_inv in Hc as (i & Hi & Ha). unfold bind, lift. rewrite Hi. rewrite hex_roundtrip. cbn [Amount Sdk.Denom].
  by rewrite Ha.
Qed.
End Lemmas.

(** ** Properties *)

Section Properties.
Context {W C : Type} `{EC : EthClient W C} `{S : SdkMath} `{LS : !SdkMathLaws S} `{N : SdkCoins} `{LN : !SdkCoinsLaws N}.
Context `{E : Eth} `{LE : !EthLaws E} `{B : Bech32}.
Context `{AB : TokenAbi} `{JH : !JoltHandler} `{MC : MemoCodec} {L : Type} `{BL : BridgeTokenListI L} `{LB : !BridgeTokenListLaws L BL}.

(** C23 (an ERC20 deposit is credited once). A confirmed call of the bridge's
    contract that deposits a listed token to a cached pool for an address of
    the joltify chain adds exactly one inbound request, under its index: for
    that address, with the deposited amount brought to 18 decimals and the
    transaction's hash and block.  The pool address the request stores is
    the token's contract, which the caller passes in its place. *)
Theorem erc20_deposit_credited (tl : L) slots fm chainType blk h tx to txInfo item amount (s : InState W C) c' :
  tx_To tx = Some to -> checkEachTx (tx_Hash tx) (ichain s) = (c', Ret 1) ->
  checkErc20 (tx_Data tx) (Address_Hex to) (contractAddress c') = Ret txInfo ->
  dstChainType txInfo = JOLTIFY -> chainType <> JOLTIFY ->
  GetTokenInfoByAddressAndChainType tl (Address_Hex (tokenAddress txInfo)) chainType = (item, true) ->
  checkToBridge (toAddr txInfo) slots = true -> checkToBridge to slots = false ->
  credited item (info_Amount txInfo) = Ret amount ->
  let req := NewAccountInboundReq (receiverAddr txInfo) (tokenAddress txInfo)
    (mkCoin (TokenList.Denom item) amount) (tx_Hash tx) (i64 blk) in
  process_tx tl slots fm chainType blk h tx s =
    (mkInState c' (mkQueue (<[InBoundReq_Index req := req]> (pending (inq s))) (onHold (inq s))) (outq s), Ret tt).
Proof.
  intros Hto Hst Herc Hdst Hct Hitem Hpool Hto' Hcr req. unfold process_tx. rewrite Hto.
  unfold bind at 1. unfold try at 1. unfold on_ichain at 1. rewrite Hst. cbn [ocatch]. change (negb (1 =? 1)) with false. cbn iota.
  unfold bind at 1. unfold get. unfold bind at 1. cbn [ichain]. rewrite Herc.
  unfold process_contract_call. rewrite Hitem, Hpool. cbn [negb]. rewrite Hdst.
  rewrite bool_decide_false by congruence. rewrite bool_decide_false by (intros [?|?]; discriminate).
  rewrite bool_decide_true by done. unfold bind at 1. unfold try, ProcessInBoundERC20. unfold bind at 1. unfold lift at 1.
  rewrite drop2_hash. rewrite (processInboundERC20Tx_ret tl (tx_Hash tx) chainType blk _ _ _ _ item amount); [|..|done].
  - unfold on_inq. rewrite (AddItem_ret _ (InBoundReq_Index req)) by done. cbn [ichain outq ocatch ret]. unfold ret.
    unfold process_native. by rewrite Hto'.
  - rewrite <- Hitem. apply ByAddress_lower; [apply ToLower_idem|done].
Qed.

(** C22 (only confirmed payments to a pool are taken). A transaction changes a
    queue only if its receipt was read as successful and it either calls the
    bridge's contract with a cached pool as payee and a listed token, or pays
    a cached pool directly. *)
Theorem only_confirmed_deposits (tl : L) slots fm chainType blk h tx (s s' : InState W C) r :
  process_tx tl slots fm chainType blk h tx s = (s', r) ->
  (inq s', outq s') <> (inq s, outq s) ->
  exists to c', tx_To tx = Some to /\ checkEachTx (tx_Hash tx) (ichain s) = (c', Ret 1) /\
    (checkToBridge to slots = true \/
     exists txInfo item, checkErc20 (tx_Data tx) (Address_Hex to) (contractAddress c') = Ret txInfo /\
       checkToBridge (toAddr txInfo) slots = true /\
       GetTokenInfoByAddressAndChainType tl (Address_Hex (tokenAddress txInfo)) chainType = (item, true)).
Proof.
  unfold process_tx. destruct (tx_To tx) as [to|]; [|unfold ret; intros [= <- <-] Hne; by destruct Hne].
  unfold bind at 1. unfold try at 1. unfold on_ichain at 1.
  destruct (checkEachTx (tx_Hash tx) (ichain s)) as [c' [st|e|]] eqn:Ec; cbn [ocatch];
    [|unfold ret; intros [= <- <-] Hne; by destruct Hne|unfold ret; intros [= <- <-] Hne; by destruct Hne].
  destruct (Z.eqb_spec st 1) as [->|]; cbn [negb]; [|unfold ret; intros [= <- <-] Hne; by destruct Hne].
  unfold bind at 1. unfold get. unfold bind at 1. cbn [ichain]. intros H Hne. exists to, c'. split; [done|]. split; [done|].
  destruct (checkToBridge to slots) eqn:Eto; [by left|right].
  destruct (checkErc20 _ _ _) as [txInfo|e|] eqn:Ee.
  - exists txInfo. unfold process_contract_call in H.
    destruct (GetTokenInfoByAddressAndChainType tl (Address_Hex (tokenAddress txInfo)) chainType) as [item [|]] eqn:Et;
      cbn [negb] in H; [|unfold bind, ret in H; cbn in H; injection H as <- <-; by destruct Hne].
    destruct (checkToBridge (toAddr txInfo) slots) eqn:Ep; cbn [negb] in H; [|unfold bind, ret in H; cbn in H; injection H as <- <-; by destruct Hne]. eauto.
  - unfold process_native in H. rewrite Eto in H. cbn in H. unfold ret in H. injection H as <- <-. by destruct Hne.
  - cbn in H. unfold panic in H. injection H as <- <-. by destruct Hne.
Qed.

(** C25 (a transfer between two public chains conserves value). When
    [processDstInbound] adds an outbound request, the deposit brought to 18
    decimals is the fee plus what is sent on, the latter is positive before
    it is brought to the decimals of the destination token, and the request
    pays the fee to the validators and names the latest pool, the receiver
    and the destination chain of the deposit. *)
Theorem cross_chain_conserves (tl : L) slots fm txInfo txHash chainType (s s' : InState W C) :
  processDstInbound tl slots fm txInfo txHash chainType s = (s', Ret tt) -> outq s' <> outq s ->
  exists tin tout value total fee rest out pool h k,
    let req := NewOutboundReq txHash (HexToAddress (receiverAddrERC20 txInfo)) (EthAddress pool)
      (mkCoin (TokenList.Denom tin) out) (TokenList.TokenAddr tout) h [fee] (dstChainType txInfo) true in
    NewIntFromBigInt (info_Amount txInfo) = Ret value /\
    inboundAdjust value (Decimals tin) Precision = Ret total /\
    Sdk.Denom fee = TokenList.Denom tin /\ total = Amount fee + rest /\ 0 < rest /\
    outboundAdjust rest (Decimals tout) Precision = Ret out /\
    slot1 slots = Some pool /\ HexToAddress (receiverAddrERC20 txInfo) <> zero_address /\
    OutBoundReq_Index req = Ret k /\
    outq s' = mkQueue (<[k := req]> (pending (outq s))) (onHold (outq s)) /\ inq s' = inq s.
Proof.
  unfold processDstInbound.
  destruct (GetTokenInfoByAddressAndChainType tl (ToLower (Address_Hex (tokenAddress txInfo))) chainType) as [tin [|]] eqn:Et;
    cbn [negb]; [|done].
  intros (s1 & value & Hv & H)%bind_ret_inv Hne. unfold lift in Hv. injection Hv as <- Hv.
  apply bind_ret_inv in H as (s1 & tok & Htok & H). unfold lift in Htok. injection Htok as <- Htok.
  rewrite NewCoin_spec in Htok. destruct (_ && _) eqn:Eok in Htok; [|done]. injection Htok as <-.
  apply bind_ret_inv in H as (s1 & total & Htot & H). unfold lift in Htot. injection Htot as <- Htot. cbn [Amount Sdk.Denom] in *.
  destruct (queryTokenPrice _) as [price|e|]; [|done|done].
  destruct (fm !! dstChainType txInfo) as [m|]; [|done].
  destruct (CalculateFee m price _) as [fee|e|] eqn:Ef; [|by (unfold ret in H; simplify_eq)|done].
  assert (Sdk.Denom fee = TokenList.Denom tin) as Hd by (by eapply CalculateFee_denom in Ef).
  destruct fee as [fd fa]. cbn in Hd. subst fd. rewrite Coin_IsLT_same, Coin_Equal_same in H.
  apply bind_ret_inv in H as (s1 & lt & Hlt & H). unfold lift in Hlt. injection Hlt as <- Hlt.
  apply bind_ret_inv in H as (s1 & eq & Heq & H). unfold lift in Heq. injection Heq as <- Heq.
  destruct eq; [unfold ret in H; by simplify_eq|].
  assert (fa < total) as Hless by (subst lt; destruct (total <? fa) eqn:E1; [done|]; injection Heq as Heq; bool_to_prop; lia).
  apply bind_ret_inv in H as (s1 & tok & Hsub & H). unfold lift in Hsub. injection Hsub as <- Hsub.
  rewrite Coin_Sub_same in Hsub. destruct (fa <=? total) eqn:E2 in Hsub; [|done]. injection Hsub as <-. cbn [Sdk.Denom Amount] in H.
  destruct (GetTokenInfoByDenomAndChainType tl (TokenList.Denom tin) (dstChainType txInfo)) as [tout [|]]; cbn [negb] in H; [|done].
  apply bind_ret_inv in H as (s1 & out & Hout & H). unfold lift in Hout. injection Hout as <- Hout.
  case_bool_decide as Hz; [unfold ret in H; by simplify_eq|].
  destruct (slot1 slots) as [pool|] eqn:Es; [|done].
  destruct QueryJoltBlockHeight as [jh|e|]; [|done|done].
  unfold AddOutBoundItem, on_outq in H.
  destruct (AddItem _ (outq s)) as [q' [[]|e|]] eqn:Eadd; simplify_eq.
  apply AddItem_inv in Eadd as (k & Hk & ->).
  exists tin, tout, value, total, (mkCoin (TokenList.Denom tin) fa), (total - fa), out, pool, jh, k. cbn [Amount Sdk.Denom outq inq].
  repeat split; try done; lia.
Qed.
End Properties.


(** ** Witnesses *)

Section Witnesses.
#[local] Existing Instance eth_client_ref.
#[local] Existing Instance sdk_math_ref.
#[local] Existing Instance sdk_coins_ref.
#[local] Existing Instance eth_ref.
#[local] Existing Instance bech32_ref.
#[local] Existing Instance go_runtime_ref.

Definition usd_token : bytes := replicate 20 Byte.x0a.
Definition pool_addr : bytes := EthAddress (pool_of "k0102").
Definition slots1 : Slots := mkSlots None (Some (pool_of "k0102")).
Definition usd_item (chain : string) : TokenItem := mkTokenItem (Address_Hex usd_token) "usd" 6 chain.
Definition usd_list : TokenList :=
  let '(pub, oppy) := load_items [usd_item "BSC"; usd_item "ETH"] in mkTokenList oppy pub 20.

Definition abi_ref : TokenAbi := {|
  has_oppyTransfer := true;
  Unpack := fun _ => Ret [AbiAddress pool_addr; AbiInt 50000000; AbiAddress usd_token; AbiBytes []];
|}.
Definition memo_ref (chain : string) : MemoCodec := {| UnmarshalMemo := fun _ => Ret (mkBridgeMemo "j0a" "" chain) |}.
Definition handler_ref : JoltHandler := {| queryTokenPrice := fun _ => Ret dec_one; QueryJoltBlockHeight := Ret 77 |}.

#[local] Existing Instance abi_ref.
#[local] Existing Instance handler_ref.

Definition contract1 : bytes := replicate 20 Byte.x0c.
Definition tx1 : EthTx := mkEthTx [Byte.x01; Byte.x02] (Some contract1) (replicate 5 Byte.x00) 0.
Definition in_state1 : InState ref_world unit :=
  mkInState (mkChainInfo ([], []) tt "ws" (Address_Hex contract1) "BSC" (Some 56) 0 false 0 [] []) empty_queue empty_queue.
Definition info1 (dst : string) : Erc20TxInfo :=
  mkErc20TxInfo [] (Address_Hex usd_token) pool_addr 50000000 usd_token dst.

Lemma erc20_deposit_credited_witness :
  let _ := memo_ref "JOLTIFY" in
  (process_tx usd_list slots1 ∅ "BSC" 9 9 tx1 in_state1).2 = Ret tt.
Proof.
  cbv zeta.
  rewrite (erc20_deposit_credited (MC := memo_ref "JOLTIFY") usd_list slots1 ∅ "BSC" 9 9 tx1 contract1
    (mkErc20TxInfo [Byte.x0a] "" pool_addr 50000000 usd_token "JOLTIFY") (usd_item "BSC")
    50000000000000000000 in_state1 (ichain in_state1)).
  all: try reflexivity; try (vm_compute; reflexivity). discriminate.
Defined.

Lemma only_confirmed_deposits_witness : exists to, tx_To tx1 = Some to.
Proof.
  destruct (only_confirmed_deposits (MC := memo_ref "JOLTIFY") usd_list slots1 ∅ "BSC" 9 9 tx1 in_state1
    (process_tx (MC := memo_ref "JOLTIFY") usd_list slots1 ∅ "BSC" 9 9 tx1 in_state1).1
    (process_tx (MC := memo_ref "JOLTIFY") usd_list slots1 ∅ "BSC" 9 9 tx1 in_state1).2) as (to & c' & H & _).
  - destruct (process_tx _ _ _ _ _ _ _ _); reflexivity.
  - intros H. apply (f_equal fst) in H. apply (f_equal pending) in H. apply (f_equal map_to_list) in H.
    vm_compute in H. discriminate H.
  - exists to. exact H.
Defined.

Lemma cross_chain_conserves_witness :
  exists tin value total fee rest, NewIntFromBigInt 50000000 = Ret value /\
    inboundAdjust value (Decimals tin) Precision = Ret total /\ total = Amount fee + rest /\ 0 < rest.
Proof.
  destruct (processDstInbound usd_list slots1 InitFeeModule (info1 "ETH") "0102" "BSC" in_state1) as [s' r] eqn:Er.
  assert (r = Ret tt) as -> by (apply (f_equal snd) in Er; cbn [snd] in Er; subst r; vm_compute; reflexivity).
  destruct (cross_chain_conserves usd_list slots1 InitFeeModule (info1 "ETH") "0102" "BSC" in_state1 s' Er)
    as (tin & tout & value & total & fee & rest & out & pool & h & k & H1 & H2 & _ & H3 & H4 & _).
  - intros H. apply (f_equal fst) in Er. cbn [fst] in Er. rewrite <- Er in H.
    apply (f_equal pending) in H. apply (f_equal map_to_list) in H. vm_compute in H. discriminate H.
  - exists tin, value, total, fee, rest. split; [exact H1|]. split; [exact H2|]. split; [exact H3|exact H4].
Defined.
End Witnesses.
