(* ===== verification/Outbound.v ===== *)
(** * From the joltify chain: cosbridge/tx_outbound.go and [CheckOutBoundTx]
    of cosbridge/bridge.go

    Each transaction of a joltify block whose memo names a public chain is
    checked for bank transfers to a pool; a transfer, less the fee, becomes an
    outbound request. *)

From Stdlib Require Import Ascii String.
From S2P Require Import Prelude GoLib Sdk Requests Fees ItemQueue TokenList Pools.

#[local] Open Scope string_scope.
#[local] Open Scope Z_scope.
#[local] Open Scope go_scope.

(** ** Definitions *)

(** A decoded joltify transaction, as far as it is read. *)
Record MsgSend := mkMsgSend {
  FromAddress : string;
  ToAddress : string;
  send_Amount : list Coin;
}.

Inductive SdkMsg :=
| BankSend (m : MsgSend)
| OtherMsg.

(** [None]: the transaction type carries no memo. *)
Record DecodedTx := mkDecodedTx {
  with_memo : option string;
  GetMsgs : list SdkMsg;
}.

(** cosbridge/types.go *)
Record OutboundTx := mkOutboundTx {
  otx_Receiver : bytes;
  otx_FromAddress : string;
  otx_BlockHeight : Z;
  otx_Token : Coin;
  otx_TokenAddr : string;
  otx_Fee : Coin;
  otx_TxID : string;
  otx_ChainType : string;
}.

(** What the node and the codecs answer: the decoder of raw transactions,
    their hash, the JSON decoder of memos, the status code of a transaction
    and the price oracle. *)
Class JoltNode `{SdkMath} := {
  TxDecoder : bytes -> outcome DecodedTx;
  rawTx_Hash : bytes -> bytes;
  UnmarshalBridgeMemo : string -> outcome BridgeMemo;
  GetTxCode : string -> outcome Z;
  OraclePrice : string -> outcome Dec;
}.

Section Outbound.
Context `{S : SdkMath} `{N : SdkCoins} `{E : Eth} `{B : Bech32} `{JN : !JoltNode} {L : Type} `{BL : BridgeTokenListI L}.
Context (tl : L) (feeModules : gmap string FeeModule).
#[local] Notation OQ := (ItemQueue OutBoundReq).

Definition processDemonAndFee (txID fromAddress tokenAddr : string) (blockHeight : Z) (receiverAddr : bytes)
    (demonName : string) (demonAmount : Z) (chainType : string) : outcome (option OutboundTx) :=
  let token := mkCoin demonName demonAmount in
  match feeModules !! chainType with
  | None => Panic
  | Some feeModule =>
      match QueryTokenPrice (Ret tt) OraclePrice (Sdk.Denom token) with
      | Panic => Panic
      | Fail _ => Ret None
      | Ret price =>
          match CalculateFee feeModule price token with
          | Panic => Panic
          | Fail _ => Ret None
          | Ret fee =>
              let? lt := Coin_IsLT token fee in
              let? eq := (if lt then Ret true else Coin_Equal token fee) in
              if eq then Ret None
              else
                let? token := Coin_Sub token fee in
                Ret (Some (mkOutboundTx receiverAddr fromAddress (u64 blockHeight) token tokenAddr fee txID chainType))
          end
      end
  end.

(** The index [msg.Amount[0]] panics on an empty list. *)
Definition first_coin (cs : list Coin) : outcome Coin :=
  match cs with c :: _ => Ret c | [] => Panic end.

Definition processOutBoundRequest (msg : MsgSend) (txID : string) (txBlockHeight : Z) (currEthAddr : bytes)
    (memo : BridgeMemo) : M OQ unit :=
  let! coin := lift (first_coin (send_Amount msg)) in
  let '(tokenItem, tokenExist) := GetTokenInfoByDenomAndChainType tl (Sdk.Denom coin) (bm_ChainType memo) in
  if negb tokenExist then fail "token is not on our token list"
  else
    let! item := lift (processDemonAndFee txID (FromAddress msg) (TokenList.TokenAddr tokenItem) txBlockHeight
      (HexToAddress (Dest memo)) (Sdk.Denom coin) (Amount coin) (bm_ChainType memo)) in
    match item with
    | None => ret tt
    | Some item =>
        let! out := lift (outboundAdjust (Amount (otx_Token item)) (Decimals tokenItem) Precision) in
        AddItem (NewOutboundReq txID (otx_Receiver item) currEthAddr (mkCoin (Sdk.Denom (otx_Token item)) out)
          (TokenList.TokenAddr tokenItem) txBlockHeight [otx_Fee item] (bm_ChainType memo) false)
    end.

Definition processMsg (txBlockHeight : Z) (address0 address1 : bytes) (curEthAddr : bytes) (memo : BridgeMemo)
    (msg : MsgSend) (txHash : bytes) : M OQ unit :=
  if Coins_IsZero (send_Amount msg) then fail "zero amount"
  else
    let txID := ToLower (hex_EncodeToString txHash) in
    let! toAddress := lift (AccAddressFromBech32 (ToAddress msg)) in
    if negb (bool_decide (toAddress = address0 \/ toAddress = address1)) then
      fail "not a top up message to the pool"
    else
      let! r := try (processOutBoundRequest msg txID txBlockHeight curEthAddr memo) in
      match r with
      | inl _ => ret tt
      | inr e => fail ("fail to process the outbound erc20 request " ++ e)
      end.

(** One message of a transaction whose memo is valid. *)
Definition check_msg (txBlockHeight : Z) (p0 p1 : PoolInfo) (txMemo : BridgeMemo) (rawTx : bytes) (msg : SdkMsg) : M OQ unit :=
  match msg with
  | OtherMsg => ret tt
  | BankSend eachMsg =>
      match GetTxCode (hex_EncodeToString (rawTx_Hash rawTx)) with
      | Panic => panic
      | Fail _ => ret tt
      | Ret code =>
          if negb (code =? 0) then ret tt
          else
            do! try (processMsg txBlockHeight (CosAddress p0) (CosAddress p1) (EthAddress p1) txMemo eachMsg (rawTx_Hash rawTx)) in
            ret tt
      end
  end.

Definition CheckOutBoundTx (pools : Slots) (txBlockHeight : Z) (rawTx : bytes) : M OQ unit :=
  match slot0 pools, slot1 pools with
  | Some p0, Some p1 =>
      match TxDecoder rawTx with
      | Panic => panic
      | Fail _ => ret tt
      | Ret tx =>
          match with_memo tx with
          | None => ret tt
          | Some memo =>
              match UnmarshalBridgeMemo memo with
              | Panic => panic
              | Fail _ => ret tt
              | Ret txMemo =>
                  if negb (IsHexAddress (Dest txMemo)) then ret tt
                  else forM (GetMsgs tx) (check_msg txBlockHeight p0 p1 txMemo rawTx)
              end
          end
      end
  | _, _ => ret tt
  end.
End Outbound.

(** ** Lemmas *)

Section Lemmas.
Context `{S : SdkMath} `{LS : !SdkMathLaws S} `{N : SdkCoins} `{LN : !SdkCoinsLaws N} `{E : Eth} `{B : Bech32} `{JN : !JoltNode}.
Context {L : Type} `{BL : BridgeTokenListI L} (tl : L) (fm : gmap string FeeModule).
#[local] Notation OQ := (ItemQueue OutBoundReq).

Lemma processDemonAndFee_some txID from addr h recv d a c o :
  processDemonAndFee fm txID from addr h recv d a c = Ret (Some o) ->
  exists fee, otx_Receiver o = recv /\ otx_Fee o = fee /\ Sdk.Denom fee = d /\ otx_Token o = mkCoin d (a - Amount fee) /\ Amount fee < a.
Proof.
  unfold processDemonAndFee. destruct (fm !! c) as [m|]; [|done].
  destruct (QueryTokenPrice _ _ _) as [price|e|]; [|done|done].
  destruct (CalculateFee m price _) as [fee|e|] eqn:Ef; [|done|done].
  apply CalculateFee_denom in Ef. cbn [Sdk.Denom] in Ef. destruct fee as [fd fa]. cbn in Ef. subst fd.
  rewrite Coin_IsLT_same, Coin_Equal_same, Coin_Sub_same. cbn [obind].
  destruct (Z.ltb_spec a fa); [done|]. cbn [obind]. destruct (Z.eqb_spec a fa); [done|].
  rewrite (proj2 (Z.leb_le fa a)) by lia. cbn [obind]. intros [= <-]. cbn. exists (mkCoin d fa). cbn. repeat split; lia.
Qed.

(** What a transfer adds when it adds something. *)
Lemma processOutBoundRequest_added msg txID h cur memo (q q' : OQ) :
  processOutBoundRequest tl fm msg txID h cur memo q = (q', Ret tt) ->
  q' = q \/ exists coin tok fee out k,
    let req := NewOutboundReq txID (HexToAddress (Dest memo)) cur (mkCoin (Sdk.Denom coin) out)
      (TokenList.TokenAddr tok) h [fee] (bm_ChainType memo) false in
    head (send_Amount msg) = Some coin /\
    GetTokenInfoByDenomAndChainType tl (Sdk.Denom coin) (bm_ChainType memo) = (tok, true) /\
    Sdk.Denom fee = Sdk.Denom coin /\ Amount fee < Amount coin /\
    outboundAdjust (Amount coin - Amount fee) (Decimals tok) Precision = Ret out /\
    OutBoundReq_Index req = Ret k /\ q' = mkQueue (<[k := req]> (pending q)) (onHold q).
Proof.
  unfold processOutBoundRequest. intros (q1 & coin & Hc & H)%bind_ret_inv. unfold lift in Hc. injection Hc as <- Hc.
  destruct (send_Amount msg) as [|coin' cs]; [done|]. injection Hc as <-.
  destruct (GetTokenInfoByDenomAndChainType tl (Sdk.Denom coin') (bm_ChainType memo)) as [tok [|]] eqn:Et; cbn [negb] in H; [|done].
  apply bind_ret_inv in H as (q1 & item & Hi & H). unfold lift in Hi. injection Hi as <- Hi.
  destruct item as [o|]; [|left; unfold ret in H; by simplify_eq]. right.
  apply processDemonAndFee_some in Hi as (fee & Hr & Hf & Hd & Ht & Hlt).
  apply bind_ret_inv in H as (q1 & out & Ho & H). unfold lift in Ho. injection Ho as <- Ho.
  apply AddItem_inv in H as (k & Hk & ->). rewrite Ht, Hr, Hf in *. cbn [Amount Sdk.Denom] in *.
  exists coin', tok, fee, out, k. cbn. done.
Qed.

Lemma processMsg_added h a0 a1 cur memo msg txHash (q q' : OQ) :
  processMsg tl fm h a0 a1 cur memo msg txHash q = (q', Ret tt) ->
  (exists to, AccAddressFromBech32 (ToAddress msg) = Ret to /\ (to = a0 \/ to = a1)) /\
  processOutBoundRequest tl fm msg (ToLower (hex_EncodeToString txHash)) h cur memo q = (q', Ret tt).
Proof.
  unfold processMsg. destruct (Coins_IsZero _); [done|].
  intros (q1 & to & Hto & H)%bind_ret_inv. unfold lift in Hto. injection Hto as <- Hto.
  case_bool_decide as Hp; cbn [negb] in H; [|done]. split; [eauto|].
  apply bind_ret_inv in H as (q2 & r & Hr%try_ret_inv & H). destruct r as [[]|e]; [|done]. unfold ret in H. by simplify_eq.
Qed.

Lemma request_index_shared txID recv cur c c' ta ta' h fee fee' ct ct' nm nm' :
  OutBoundReq_Index (NewOutboundReq txID recv cur c ta h fee ct nm) =
  OutBoundReq_Index (NewOutboundReq txID recv cur c' ta' h fee' ct' nm').
Proof. reflexivity. Qed.
End Lemmas.

(** ** Properties *)

Section Properties.
Context `{S : SdkMath} `{LS : !SdkMathLaws S} `{N : SdkCoins} `{LN : !SdkCoinsLaws N} `{E : Eth} `{B : Bech32} `{JN : !JoltNode}.
Context {L : Type} `{BL : BridgeTokenListI L} (tl : L) (fm : gmap string FeeModule).
#[local] Notation OQ := (ItemQueue OutBoundReq).

(** C24 (an outbound transfer conserves value). A transfer that is taken goes
    to the address of one of the two pools, its first coin is on the token
    list for the memo's chain, and its amount is the fee plus a positive rest;
    the request it adds pays the rest, in the decimals of the destination, to
    the memo's address and the fee to the validators. *)
Theorem outbound_conserves h a0 a1 cur memo msg txHash (q q' : OQ) :
  processMsg tl fm h a0 a1 cur memo msg txHash q = (q', Ret tt) -> q' <> q ->
  exists coin tok fee rest out to k,
    let req := NewOutboundReq (ToLower (hex_EncodeToString txHash)) (HexToAddress (Dest memo)) cur
      (mkCoin (Sdk.Denom coin) out) (TokenList.TokenAddr tok) h [fee] (bm_ChainType memo) false in
    AccAddressFromBech32 (ToAddress msg) = Ret to /\ (to = a0 \/ to = a1) /\
    head (send_Amount msg) = Some coin /\
    GetTokenInfoByDenomAndChainType tl (Sdk.Denom coin) (bm_ChainType memo) = (tok, true) /\
    Sdk.Denom fee = Sdk.Denom coin /\ Amount coin = Amount fee + rest /\ 0 < rest /\
    outboundAdjust rest (Decimals tok) Precision = Ret out /\
    OutBoundReq_Index req = Ret k /\ q' = mkQueue (<[k := req]> (pending q)) (onHold q).
Proof.
  intros ((to & Hto & Hp) & H)%processMsg_added Hne.
  apply processOutBoundRequest_added in H as [->|(coin & tok & fee & out & k & Hc & Ht & Hd & Hlt & Ho & Hk & ->)]; [done|].
  exists coin, tok, fee, (Amount coin - Amount fee), out, to, k. repeat split; try done; lia.
Qed.

(** Fact (two transfers in one transaction collide). The index of an outbound
    request is made of the receiver, the transaction and the height. When one
    transaction holds two transfers that are both taken, the second replaces
    the first: the queue afterwards is that of the second transfer alone. *)
Theorem second_transfer_replaces_first h a0 a1 cur memo msg1 msg2 txHash (q q1 q2 : OQ) :
  processMsg tl fm h a0 a1 cur memo msg1 txHash q = (q1, Ret tt) -> q1 <> q ->
  processMsg tl fm h a0 a1 cur memo msg2 txHash q1 = (q2, Ret tt) -> q2 <> q1 ->
  exists k req1 req2 c1 c2, pending q1 = <[k := req1]> (pending q) /\ pending q2 = <[k := req2]> (pending q) /\
    head (send_Amount msg1) = Some c1 /\ Sdk.Denom (ob_Coin req1) = Sdk.Denom c1 /\
    head (send_Amount msg2) = Some c2 /\ Sdk.Denom (ob_Coin req2) = Sdk.Denom c2.
Proof.
  intros [_ H1]%processMsg_added Hne1 [_ H2]%processMsg_added Hne2.
  apply processOutBoundRequest_added in H1 as [->|(c1 & t1 & f1 & o1 & k1 & Hc1 & _ & _ & _ & _ & Hk1 & ->)]; [done|].
  apply processOutBoundRequest_added in H2 as [->|(c2 & t2 & f2 & o2 & k2 & Hc2 & _ & _ & _ & _ & Hk2 & ->)]; [done|].
  assert (k2 = k1) as ->.
  { rewrite (request_index_shared _ _ _ _ (mkCoin (Sdk.Denom c1) o1) _ (TokenList.TokenAddr t1) _ _ [f1] _ (bm_ChainType memo) _ false) in Hk2.
    rewrite Hk1 in Hk2. by injection Hk2. }
  eexists k1, _, _, c1, c2. cbn [pending]. split; [reflexivity|]. split; [by rewrite insert_insert_eq|]. done.
Qed.

(** Fact (a chain name in another case stops the process). The token list
    ignores case and the fee table does not. A transfer to a pool whose memo
    names the chain in another case, for instance "bsc", finds its token and
    then panics in the handler of the new block. *)
Theorem chain_name_case_panics `{LB : !BridgeTokenListLaws L BL} h p0 p1 rawTx tx text memo msg rest coin tok c0 (q : OQ) :
  fm = InitFeeModule -> TxDecoder rawTx = Ret tx -> with_memo tx = Some text -> UnmarshalBridgeMemo text = Ret memo ->
  IsHexAddress (Dest memo) = true -> GetMsgs tx = BankSend msg :: rest ->
  GetTxCode (hex_EncodeToString (rawTx_Hash rawTx)) = Ret 0 -> Coins_IsZero (send_Amount msg) = false ->
  AccAddressFromBech32 (ToAddress msg) = Ret (CosAddress p1) -> head (send_Amount msg) = Some coin ->
  GetTokenInfoByDenomAndChainType tl (Sdk.Denom coin) c0 = (tok, true) ->
  ToLower (bm_ChainType memo) = ToLower c0 -> bm_ChainType memo <> "ETH" -> bm_ChainType memo <> "BSC" ->
  (CheckOutBoundTx tl fm (mkSlots (Some p0) (Some p1)) h rawTx q).2 = Panic.
Proof.
  intros -> Htx Htext Hmemo Hdest Hmsgs Hcode Hz Hto Hcoin Htok Hlow Heth Hbsc.
  unfold CheckOutBoundTx. cbn [slot0 slot1]. rewrite Htx, Htext, Hmemo, Hdest, Hmsgs. cbn [negb forM].
  unfold check_msg at 1. rewrite Hcode. change (negb (0 =? 0)) with false. cbn iota.
  unfold bind, try, processMsg. rewrite Hz. unfold bind, lift. rewrite Hto. rewrite bool_decide_true by auto. cbn [negb].
  unfold try, processOutBoundRequest. destruct (send_Amount msg) as [|c cs]; [done|]. injection Hcoin as ->. unfold bind, lift. cbn [first_coin].
  rewrite (ByDenom_lower tl _ (Sdk.Denom coin) _ c0), Htok by done. cbn [negb].
  unfold processDemonAndFee. assert ((InitFeeModule : gmap string FeeModule) !! bm_ChainType memo = None) as ->.
  { unfold InitFeeModule. rewrite lookup_insert_ne by (by apply not_eq_sym). by apply lookup_singleton_ne, not_eq_sym. }
  done.
Qed.
End Properties.

(** ** Witnesses *)

Section Witnesses.
#[local] Existing Instance sdk_math_ref.
#[local] Existing Instance sdk_coins_ref.
#[local] Existing Instance eth_ref.
#[local] Existing Instance bech32_ref.
#[local] Existing Instance go_runtime_ref.

Definition send_usd (a : Z) : MsgSend := mkMsgSend "j01" (AccAddress_String (CosAddress (pool_of "k01"))) [mkCoin "usd" a].
Definition node_ref (chain : string) : JoltNode := {|
  TxDecoder := fun _ => Ret (mkDecodedTx (Some "memo") [BankSend (send_usd 50000000000000000000)]);
  rawTx_Hash := fun b => b;
  UnmarshalBridgeMemo := fun _ => Ret (mkBridgeMemo (Address_Hex (replicate 20 Byte.x09)) "" chain);
  GetTxCode := fun _ => Ret 0;
  OraclePrice := fun _ => Ret dec_one;
|}.
Definition out_list : TokenList := mkTokenList {[ token_key "usd" "BSC" := mkTokenItem "0xab" "usd" 6 "BSC" ]} ∅ 20.
Definition memo1 (chain : string) : BridgeMemo := mkBridgeMemo (Address_Hex (replicate 20 Byte.x09)) "" chain.

Definition run1 (a : Z) (q : ItemQueue OutBoundReq) :=
  processMsg (JN := node_ref "BSC") out_list InitFeeModule 7 (CosAddress (pool_of "k01")) [] [] (memo1 "BSC") (send_usd a) [Byte.x03] q.

Lemma outbound_conserves_witness :
  exists coin fee rest : _, head (send_Amount (send_usd 50000000000000000000)) = Some coin /\ Amount coin = Amount fee + rest /\ 0 < rest.
Proof.
  destruct (run1 50000000000000000000 empty_queue) as [q' r] eqn:Er.
  assert (r = Ret tt) as -> by (apply (f_equal snd) in Er; cbn [snd] in Er; subst r; vm_compute; reflexivity).
  destruct (outbound_conserves (JN := node_ref "BSC") out_list InitFeeModule 7 (CosAddress (pool_of "k01")) [] [] (memo1 "BSC")
    (send_usd 50000000000000000000) [Byte.x03] empty_queue q' Er) as (coin & tok & fee & rest & out & to & k & _ & _ & H1 & _ & _ & H2 & H3 & _).
  - intros H. apply (f_equal fst) in Er. cbn [fst] in Er. rewrite <- Er in H.
    apply (f_equal pending) in H. apply (f_equal map_to_list) in H. vm_compute in H. discriminate H.
  - exists coin, fee, rest. split; [exact H1|]. split; [exact H2|exact H3].
Defined.

Lemma second_transfer_replaces_first_witness :
  exists k req1 req2, pending (run1 50000000000000000000 empty_queue).1 = <[k := req1]> ∅ /\
    pending (run1 70000000000000000000 (run1 50000000000000000000 empty_queue).1).1 = <[k := req2]> ∅.
Proof.
  destruct (run1 50000000000000000000 empty_queue) as [q1 r1] eqn:E1.
  destruct (run1 70000000000000000000 q1) as [q2 r2] eqn:E2. cbn [fst].
  assert (q1 = (run1 50000000000000000000 empty_queue).1) as Hq1 by (rewrite E1; reflexivity).
  assert (q2 = (run1 70000000000000000000 (run1 50000000000000000000 empty_queue).1).1) as Hq2 by (rewrite <- Hq1, E2; reflexivity).
  assert (r1 = Ret tt) as -> by (apply (f_equal snd) in E1; cbn [snd] in E1; subst r1; vm_compute; reflexivity).
  assert (r2 = Ret tt) as ->.
  { apply (f_equal snd) in E2. cbn [snd] in E2. rewrite Hq1 in E2. subst r2. vm_compute. reflexivity. }
  destruct (second_transfer_replaces_first (JN := node_ref "BSC") out_list InitFeeModule 7 (CosAddress (pool_of "k01")) [] []
    (memo1 "BSC") (send_usd 50000000000000000000) (send_usd 70000000000000000000) [Byte.x03] empty_queue q1 q2 E1) as
    (k & req1 & req2 & c1 & c2 & H1 & H2 & _); [|exact E2| |].
  - rewrite Hq1. intros H. apply (f_equal pending) in H. apply (f_equal map_to_list) in H. vm_compute in H. discriminate H.
  - rewrite Hq2, Hq1. intros H. apply (f_equal pending) in H. apply (f_equal map_to_list) in H. vm_compute in H. discriminate H.
  - exists k, req1, req2. split; [exact H1|rewrite E2; exact H2].
Defined.

Lemma chain_name_case_panics_witness :
  (CheckOutBoundTx (JN := node_ref "bsc") out_list InitFeeModule (mkSlots (Some (pool_of "k02")) (Some (pool_of "k01"))) 7 [Byte.x03] empty_queue).2 = Panic.
Proof.
  apply (chain_name_case_panics (JN := node_ref "bsc") out_list InitFeeModule 7 (pool_of "k02") (pool_of "k01") [Byte.x03]
    (mkDecodedTx (Some "memo") [BankSend (send_usd 50000000000000000000)]) "memo" (memo1 "bsc") (send_usd 50000000000000000000) []
    (mkCoin "usd" 50000000000000000000) (mkTokenItem "0xab" "usd" 6 "BSC") "BSC" empty_queue); try reflexivity; discriminate.
Defined.
End Witnesses.
