(* ===== verification/CosTx.v ===== *)
(** * Transactions on the joltify chain: cosbridge/bridge.go, helper.go,
    submit_outboundtx.go, mint.go, feed.go and pubchain/feed.go

    Building, signing and sending Cosmos transactions, alone or as a signed
    batch with consecutive sequence numbers, and the assignment of sequence
    numbers and nonces to popped requests.  The SDK's codecs, the keyring and
    the node are the class [CosmosNode]; a transaction builder is the record
    of what the source sets on it. *)

From Stdlib Require Import Ascii String.
From S2P Require Import Prelude GoLib Sdk Requests ItemQueue Signature PubClient TxSend Validators.

#[local] Open Scope string_scope.
#[local] Open Scope Z_scope.
#[local] Open Scope go_scope.

(** ** Definitions *)

(** cosbridge's own [ROUNDBLOCK]; pubchain's is another. *)
Definition cos_ROUNDBLOCK : Z := 20.

Record SignatureV2 := mkSignatureV2 {
  sv_PubKey : bytes;
  sv_Signature : option bytes;
  Sequence : Z;
}.

Definition empty_SignatureV2 : SignatureV2 := mkSignatureV2 [] None 0.

Record TxBuilder (Msg : Type) := mkTxBuilder {
  b_msgs : list (option Msg);
  b_gas : Z;
  b_sig : option SignatureV2;
}.
Arguments mkTxBuilder {Msg}. Arguments b_msgs {Msg}. Arguments b_gas {Msg}. Arguments b_sig {Msg}.

Record Account := mkAccount {
  acc_Sequence : Z;
  acc_Number : Z;
  acc_Address : bytes;
}.

(** [tssclient.TssSignigMsg], the fields used. *)
Record TssSignigMsg := mkTssSignigMsg {
  tss_Pk : string;
  tss_BlockHeight : Z;
}.

Class CosmosNode (W Msg : Type) := {
  (** a message that does not validate, or a nil one, is refused *)
  SetMsgs_check : list (option Msg) -> outcome unit;
  SetSignatures_check : SignatureV2 -> outcome unit;
  (** chain id, account number and sequence are in the signer's data *)
  GetSignBytes : Z -> Z -> TxBuilder Msg -> outcome bytes;
  TxEncoder : TxBuilder Msg -> outcome bytes;
  Sha256 : bytes -> bytes;
  (** the operator's public key and address *)
  Keyring_Key : outcome (bytes * bytes);
  Keyring_Sign : bytes -> outcome (bytes * bytes);
  queryAccount : string -> M W Account;
  Node_BroadcastTx : bytes -> M W (Z * string);
  Simulate : bytes -> M W Z;
  LatestHeight : M W Z;
  NewMsgCreateIssueToken : string -> string -> string -> string -> outcome Msg;
  NewMsgCreateOutboundTx : bytes -> string -> string -> string -> list Coin -> string -> bool -> string -> bytes -> Msg;
}.

Section CosTx.
Context {W Msg : Type} `{CN : CosmosNode W Msg} `{T : TssServer W} `{S : SdkMath} `{N : SdkCoins} `{B : Bech32} `{E : Eth} `{K : Backoff}.
#[local] Notation Builder := (TxBuilder Msg).

Definition SetMsgs (msgs : list (option Msg)) : outcome Builder :=
  let? _ := SetMsgs_check msgs in Ret (mkTxBuilder msgs 0 None).
Definition SetGasLimit (gas : Z) (b : Builder) : Builder := mkTxBuilder (b_msgs b) gas (b_sig b).
Definition SetSignatures (s : SignatureV2) (b : Builder) : outcome Builder :=
  let? _ := SetSignatures_check s in Ret (mkTxBuilder (b_msgs b) (b_gas b) (Some s)).

Definition doTssSign (msg : TssSignigMsg) (msgs : list string) : M W KeysignResponse :=
  KeySign (tss_Pk msg) msgs (tss_BlockHeight msg).

(** *** batchGenSendTx *)

(** The three tables the preparing loop fills. *)
Record Prepared := mkPrepared {
  tssSignRawMsgs : list string;
  txBuilderMap : gmap string Builder;
  unSignedSigMap : gmap string SignatureV2;
}.

Definition prepare_one (Pk : string) (accSeq accNum gasWanted : Z) (i : nat) (eachMsg : option Msg) (p : Prepared) : outcome Prepared :=
  let? txBuilder := SetMsgs [eachMsg] in
  let txBuilder := SetGasLimit gasWanted txBuilder in
  let? cPk := UnmarshalPubKey Pk in
  let seq := u64 (accSeq + Z.of_nat i) in
  let sigV2 := mkSignatureV2 cPk None seq in
  match SetSignatures sigV2 txBuilder with
  | Panic => Panic
  | Fail _ => Ret p
  | Ret txBuilder =>
      match GetSignBytes accNum seq txBuilder with
      | Panic => Panic
      | Fail _ => Ret p
      | Ret signBytes =>
          let encodedMsg := base64_EncodeToString (Sha256 signBytes) in
          Ret (mkPrepared (tssSignRawMsgs p ++ [encodedMsg])%list
            (<[encodedMsg := txBuilder]> (txBuilderMap p)) (<[encodedMsg := sigV2]> (unSignedSigMap p)))
      end
  end.

Fixpoint prepare (Pk : string) (accSeq accNum gasWanted : Z) (i : nat) (sdkMsg : list (option Msg)) (p : Prepared) : outcome Prepared :=
  match sdkMsg with
  | [] => Ret p
  | m :: sdkMsg =>
      let? p := prepare_one Pk accSeq accNum gasWanted i m p in
      prepare Pk accSeq accNum gasWanted (Datatypes.S i) sdkMsg p
  end.

(** One signature of the answer.  A message that was not asked for leaves a
    nil entry, whose use panics.  After a failed [SetSignatures] the nil the
    source stores is overwritten by the next line. *)
Definition attach (pubkey : bytes) (p : Prepared) (el : string * TssSignature) (m : gmap Z (option Builder)) : outcome (gmap Z (option Builder)) :=
  match SerializeSig (snd el) false with
  | Panic => Panic
  | Fail _ => Ret m
  | Ret thisSignature =>
      match unSignedSigMap p !! fst el, txBuilderMap p !! fst el with
      | Some unSignedSig, Some txBuilder =>
          let signedSigV2 := mkSignatureV2 pubkey (Some thisSignature) (Sequence unSignedSig) in
          match SetSignatures signedSigV2 txBuilder with
          | Panic => Panic
          | Fail _ =>
              let m := <[Sequence unSignedSig := None]> m in
              Ret (<[Sequence unSignedSig := Some txBuilder]> m)
          | Ret txBuilder => Ret (<[Sequence unSignedSig := Some txBuilder]> m)
          end
      | _, _ => Panic
      end
  end.

Fixpoint attach_all (pubkey : bytes) (p : Prepared) (sigs : list (string * TssSignature)) (m : gmap Z (option Builder))
    : outcome (gmap Z (option Builder)) :=
  match sigs with
  | [] => Ret m
  | el :: sigs => let? m := attach pubkey p el m in attach_all pubkey p sigs m
  end.

(** [None]: the nil map that is returned, without an error, when the answer
    is not a success. *)
Definition batchGenSendTx (sdkMsg : list (option Msg)) (accSeq accNum gasWanted : Z) (tssSignMsg : TssSignigMsg)
    : M W (option (gmap Z (option Builder))) :=
  let! pubkey := lift (UnmarshalPubKey (tss_Pk tssSignMsg)) in
  let! p := lift (prepare (tss_Pk tssSignMsg) accSeq accNum gasWanted 0 sdkMsg (mkPrepared [] ∅ ∅)) in
  let! resp := doTssSign tssSignMsg (tssSignRawMsgs p) in
  if negb (Success resp) then ret None
  else if negb (length (Signatures resp) =? length (tssSignRawMsgs p))%nat then fail "more than 1 signature received"
  else
    let! m := lift (attach_all pubkey p (Signatures resp) ∅) in
    ret (Some m).

(** *** A single transaction *)

Definition signTx (txBuilder : Builder) (accNum accSeq : Z) (signMsg : option TssSignigMsg) : M W SignatureV2 :=
  let! signBytes := lift (GetSignBytes accNum accSeq txBuilder) in
  match signMsg with
  | None =>
      let! s := lift (Keyring_Sign signBytes) in
      ret (mkSignatureV2 (snd s) (Some (fst s)) accSeq)
  | Some signMsg =>
      let encodedMsg := base64_EncodeToString (Sha256 signBytes) in
      let! resp := doTssSign signMsg [encodedMsg] in
      if negb (Success resp) then ret empty_SignatureV2
      else match Signatures resp with
        | [(_, sg)] =>
            let! signature := lift (SerializeSig sg false) in
            let! pubkey := lift (UnmarshalPubKey (tss_Pk signMsg)) in
            ret (mkSignatureV2 pubkey (Some signature) accSeq)
        | _ => fail "more than 1 signature received"
        end
  end.

Definition genSendTx (key : bytes * bytes) (sdkMsg : list (option Msg)) (accSeq accNum gasWanted : Z)
    (tssSignMsg : option TssSignigMsg) : M W Builder :=
  let! txBuilder := lift (SetMsgs sdkMsg) in
  let txBuilder := SetGasLimit gasWanted txBuilder in
  let! pk := match tssSignMsg with
    | None => ret (fst key)
    | Some m => lift (UnmarshalPubKey (tss_Pk m))
    end in
  let! txBuilder := lift (SetSignatures (mkSignatureV2 pk None accSeq) txBuilder) in
  let! signatureV2 := signTx txBuilder accNum accSeq tssSignMsg in
  lift (SetSignatures signatureV2 txBuilder).

(** [config.GASFEERATIO] is "5"; [RoundInt64] panics beyond int64. *)
Definition GASFEERATIO : Dec := NewDecWithPrec 5 0.

Definition gas_wanted (gasUsed : Z) : outcome Z :=
  let? d := Dec_Mul (Int_ToDec gasUsed) GASFEERATIO in
  let? i := Dec_RoundInt d in
  if (MinInt64 <=? i) && (i <=? MaxInt64) then Ret (u64 i) else Panic.

Definition GasEstimation (sdkMsg : list (option Msg)) (accSeq : Z) (tssSignMsg : option TssSignigMsg) : M W Z :=
  let! txBuilder := lift (SetMsgs sdkMsg) in
  let! key := lift Keyring_Key in
  let! pubKey := match tssSignMsg with
    | None => ret (fst key)
    | Some m => lift (UnmarshalPubKey (tss_Pk m))
    end in
  let! txBuilder := lift (SetSignatures (mkSignatureV2 pubKey None accSeq) txBuilder) in
  let! txBytes := lift (TxEncoder txBuilder) in
  let! gasUsed := Simulate txBytes in
  lift (gas_wanted gasUsed).

(** *** helper.go *)

Definition BroadcastTx (txBytes : bytes) : M W (bool * string) :=
  let! res := Node_BroadcastTx txBytes in
  let '(code, txHash) := res in
  if code =? 19 then ret (true, "")
  else if negb (code =? 0) then ret (false, "")
  else ret (true, txHash).

Definition wait_seq_op (poolAddress : bytes) (targetSeq : Z) : M (W * bool) unit := fun '(w, alreadyPassed) =>
  match queryAccount (AccAddress_String poolAddress) w with
  | (w', Panic) => ((w', alreadyPassed), Panic)
  | (w', Fail _) => ((w', alreadyPassed), Fail "invalid Account query")
  | (w', Ret acc) =>
      if acc_Sequence acc =? targetSeq then ((w', alreadyPassed), Ret tt)
      else if targetSeq <? acc_Sequence acc then ((w', true), Ret tt)
      else ((w', alreadyPassed), Fail "not our round")
  end.

Definition waitAndSend (poolAddress : bytes) (targetSeq : Z) : M W unit := fun w =>
  match Retry 40 (wait_seq_op poolAddress targetSeq) (w, false) with
  | ((w', _), Panic) => (w', Panic)
  | ((w', true), _) => (w', Fail "already passed")
  | ((w', false), r) => (w', r)
  end.

(** One goroutine of [batchComposeAndSend]: what it stores for its sequence. *)
Definition send_one (poolAddress : bytes) (accSeq : Z) (txBuilder : option Builder) : M W (option string) :=
  match txBuilder with
  | None => ret (Some "")
  | Some b =>
      match TxEncoder b with
      | Panic => panic
      | Fail _ => ret (Some "")
      | Ret txBytes =>
          let! w := try (waitAndSend poolAddress accSeq) in
          match w with
          | inr _ => ret None
          | inl _ =>
              let! r := try (BroadcastTx txBytes) in
              ret (Some (match r with inl (_, resp) => resp | inr _ => "" end))
          end
      end
  end.

Fixpoint send_all (poolAddress : bytes) (l : list (Z * option Builder)) (txHashes : gmap Z string) : M W (gmap Z string) :=
  match l with
  | [] => ret txHashes
  | (seq, b) :: l =>
      let! r := send_one poolAddress seq b in
      send_all poolAddress l (match r with Some h => <[seq := h]> txHashes | None => txHashes end)
  end.

(** The goroutines take their turns by sequence number, so they are run in
    that order. *)
Definition by_sequence (m : gmap Z (option Builder)) : list (Z * option Builder) :=
  sort_by (fun a b => fst a <=? fst b) (map_to_list m).

Definition batchComposeAndSend (sendMsg : list (option Msg)) (accSeq accNum : Z) (signMsg : option TssSignigMsg)
    (poolAddress : bytes) : M W (gmap Z string) :=
  let! gasWanted := GasEstimation sendMsg accSeq None in
  match signMsg with
  | None => panic
  | Some signMsg =>
      let! txBuilderSeqMap := batchGenSendTx sendMsg accSeq accNum gasWanted signMsg in
      send_all poolAddress (by_sequence (default ∅ txBuilderSeqMap)) ∅
  end.

Definition composeAndSend (operator : bytes * bytes) (sendMsg : Msg) (accSeq accNum : Z) (signMsg : option TssSignigMsg)
    (poolAddress : bytes) : M W (bool * string) :=
  let! gasWanted := GasEstimation [Some sendMsg] accSeq None in
  let! txBuilder := genSendTx operator [Some sendMsg] accSeq accNum gasWanted signMsg in
  let! txBytes := lift (TxEncoder txBuilder) in
  do! match signMsg with Some _ => waitAndSend poolAddress accSeq | None => ret tt end in
  BroadcastTx txBytes.

(** *** submit_outboundtx.go *)

Definition SubmitOutboundTx (operator : option (bytes * bytes)) (requestID : string) (blockHeight : Z) (pubchainTx : string)
    (fee : list Coin) (chainType inTxHash : string) (receiverAddress : bytes) (needMint : bool) : M W unit :=
  let! operator := match operator with Some o => ret o | None => lift Keyring_Key end in
  let! acc := queryAccount (AccAddress_String (snd operator)) in
  let outboundMsg := NewMsgCreateOutboundTx (snd operator) requestID pubchainTx (FormatInt blockHeight) fee chainType
    needMint inTxHash receiverAddress in
  let! r := try (composeAndSend operator outboundMsg (acc_Sequence acc) (acc_Number acc) None (snd operator)) in
  match r with
  | inl (true, _) => ret tt
  | _ => fail "fail to broadcast the outbound tx record"
  end.

(** *** mint.go *)

Definition prepareIssueTokenRequest (item : InBoundReq) (creatorAddr index : string) : outcome Msg :=
  let '(userAddr, _, coin, _) := GetInboundReqInfo item in
  NewMsgCreateIssueToken creatorAddr index (Coin_String coin) (AccAddress_String userAddr).

(** One turn of the loop: the request's sign message and issue message; both
    stay nil when the preparation fails. *)
Definition prepare_item (roundBlockHeight : Z) (item : InBoundReq) : outcome (option TssSignigMsg * option Msg) :=
  let index := Hash_Hex (InBoundReq_Hash item) in
  let '(_, _, poolAddress, poolPk) := GetAccountInfo item in
  match prepareIssueTokenRequest item (AccAddress_String poolAddress) index with
  | Panic => Panic
  | Fail _ => Ret (None, None)
  | Ret issueReq => Ret (Some (mkTssSignigMsg poolPk roundBlockHeight), Some issueReq)
  end.

(** An error of the batch is logged and leaves no hashes. *)
Definition DoProcessInBound (items : list InBoundReq) : M W (gmap string string) :=
  let! blockHeight := LatestHeight in
  let roundBlockHeight := Z.quot blockHeight cos_ROUNDBLOCK in
  let! prepared := lift (omapM (prepare_item roundBlockHeight) items) in
  match items, prepared with
  | item0 :: _, (signMsg0, _) :: _ =>
      let '(accSeq, accNum, poolAddress, _) := GetAccountInfo item0 in
      let! r := try (batchComposeAndSend (map snd prepared) accSeq accNum signMsg0 poolAddress) in
      let txHashes := match r with inl m => m | inr _ => ∅ end in
      ret (fold_left (fun hashIndexMap el =>
        <[Hash_Hex (InBoundReq_Hash el) := default "" (txHashes !! AccSeq el)]> hashIndexMap) items (∅ : gmap string string))
  | _, _ => panic
  end.

(** *** Feeding *)

Fixpoint assign_accounts (accNum accSeq : Z) (address : bytes) (poolPubkey : string) (l : list InBoundReq) : list InBoundReq :=
  match l with
  | [] => []
  | el :: l => SetAccountInfo accNum accSeq address poolPubkey el :: assign_accounts accNum (u64 (accSeq + 1)) address poolPubkey l
  end.

(** cosbridge/feed.go: the result is what goes on the request channel, if
    anything. *)
Definition FeedTx_inbound `{R : GoRuntime} (GroupSign : Z) (operator : outcome bytes) (lastPoolInfo : VaultPool)
    : M (W * InboundQueue.t) (option (list InBoundReq)) :=
  let! found := lift (CheckWhetherSigner operator (Some lastPoolInfo)) in
  if negb found then ret None
  else
    let! acc := (fun '(w, q) => match queryAccount (AccAddress_String (PoolAddr lastPoolInfo)) w with
      | (w', Ret a) => ((w', q), Ret a)
      | (w', Fail _) => ((w', q), Fail "invalid Account query")
      | (w', Panic) => ((w', q), Panic)
      end) in
    let! inboundItems := (fun '(w, q) => let '(q', r) := InboundQueue.PopItem GroupSign q in ((w, q'), r)) in
    match inboundItems with
    | None => ret None
    | Some items => ret (Some (assign_accounts (acc_Number acc) (acc_Sequence acc) (acc_Address acc) (PoolPubKey lastPoolInfo) items))
    end.
End CosTx.

(** pubchain/feed.go *)
Fixpoint assign_nonces (poolEthAddress : bytes) (nonce : Z) (l : list OutBoundReq) : list OutBoundReq :=
  match l with
  | [] => []
  | el :: l => SetItemNonce poolEthAddress nonce el :: assign_nonces poolEthAddress (u64 (nonce + 1)) l
  end.

Definition FeedTx_outbound {W C} `{EC : EthClient W C} `{B : Bech32} (lastPoolInfo : VaultPool) (outboundReqs : list OutBoundReq)
    : M (ChainInfo W C) (list OutBoundReq) :=
  let! poolEthAddress := lift (PoolPubKeyToEthAddress (PoolPubKey lastPoolInfo)) in
  let! nonce := getPendingNonceWithLock poolEthAddress in
  ret (assign_nonces poolEthAddress nonce outboundReqs).

(** ** Lemmas *)

Section Lemmas.
Context {W Msg : Type} `{CN : CosmosNode W Msg} `{T : TssServer W} `{S : SdkMath} `{LS : !SdkMathLaws S} `{B : Bech32} `{E : Eth}.
#[local] Notation Builder := (TxBuilder Msg).

(** The unsigned transaction of message [i], and the text the service is
    asked to sign for it. *)
Definition unsigned_of (cPk : bytes) (accSeq gasWanted : Z) (i : nat) (m : option Msg) : Builder :=
  mkTxBuilder [m] gasWanted (Some (mkSignatureV2 cPk None (u64 (accSeq + Z.of_nat i)))).

Definition asked (cPk : bytes) (accSeq accNum gasWanted : Z) (i : nat) (m : option Msg) (enc : string) : Prop :=
  exists sb, GetSignBytes accNum (u64 (accSeq + Z.of_nat i)) (unsigned_of cPk accSeq gasWanted i m) = Ret sb /\
    enc = base64_EncodeToString (Sha256 sb).

(** Both tables hold, under a text, the entries of one message. *)
Definition prepared_ok (cPk : bytes) (accSeq accNum gasWanted : Z) (msgs : list (option Msg)) (p : Prepared) : Prop :=
  forall enc b, txBuilderMap p !! enc = Some b -> exists i m,
    msgs !! i = Some m /\ b = unsigned_of cPk accSeq gasWanted i m /\ asked cPk accSeq accNum gasWanted i m enc /\
    unSignedSigMap p !! enc = Some (mkSignatureV2 cPk None (u64 (accSeq + Z.of_nat i))).

Lemma prepare_one_ok Pk cPk accSeq accNum gasWanted i m msgs p p' :
  UnmarshalPubKey Pk = Ret cPk -> msgs !! i = Some m ->
  prepared_ok cPk accSeq accNum gasWanted msgs p ->
  prepare_one Pk accSeq accNum gasWanted i m p = Ret p' -> prepared_ok cPk accSeq accNum gasWanted msgs p'.
Proof.
  intros Hpk Hm Hok. unfold prepare_one, SetMsgs. rewrite Hpk.
  destruct (SetMsgs_check [m]) as [[]|e|]; [|done|done]. unfold obind. unfold SetSignatures.
  destruct (SetSignatures_check _) as [[]|e|]; cbn [obind]; [|by intros [= <-]|done].
  change (mkTxBuilder (b_msgs (SetGasLimit gasWanted (mkTxBuilder [m] 0 None))) (b_gas (SetGasLimit gasWanted (mkTxBuilder [m] 0 None)))
    (Some (mkSignatureV2 cPk None (u64 (accSeq + Z.of_nat i))))) with (unsigned_of cPk accSeq gasWanted i m).
  destruct (GetSignBytes accNum _ _) as [sb|e|] eqn:Eb; [|by intros [= <-]|done].
  intros [= <-] enc b. cbn [txBuilderMap unSignedSigMap]. intros [[<- <-]|[Hne H]]%lookup_insert_Some.
  - exists i, m. rewrite lookup_insert_eq. repeat split; try done. by exists sb.
  - destruct (Hok _ _ H) as (j & m' & ? & ? & ? & ?). exists j, m'. by rewrite lookup_insert_ne.
Qed.

Lemma prepare_ok Pk cPk accSeq accNum gasWanted i todo msgs p p' :
  UnmarshalPubKey Pk = Ret cPk -> (forall j, todo !! j = msgs !! (i + j)%nat) ->
  prepared_ok cPk accSeq accNum gasWanted msgs p ->
  prepare Pk accSeq accNum gasWanted i todo p = Ret p' -> prepared_ok cPk accSeq accNum gasWanted msgs p'.
Proof.
  intros Hpk. revert i p. induction todo as [|m todo IH]; intros i p Htodo Hok; cbn [prepare]; [by intros [= <-]|].
  intros (p1 & H1 & H)%obind_ret_inv. eapply (IH (Datatypes.S i) p1); [| |exact H].
  - intros j. replace (Datatypes.S i + j)%nat with (i + Datatypes.S j)%nat by lia. apply (Htodo (Datatypes.S j)).
  - eapply prepare_one_ok; [done| |done|exact H1]. specialize (Htodo 0%nat). rewrite Nat.add_0_r in Htodo. by rewrite <- Htodo.
Qed.

(** Every entry is the transaction of one message, signed under its own
    sequence number by the signature the service answered for it. *)
Definition signed_ok (pubkey cPk : bytes) (accSeq accNum gasWanted : Z) (msgs : list (option Msg))
    (sigs : list (string * TssSignature)) (m : gmap Z (option Builder)) : Prop :=
  forall seq b, m !! seq = Some b -> exists i msg enc sg bytes,
    msgs !! i = Some msg /\ seq = u64 (accSeq + Z.of_nat i) /\
    asked cPk accSeq accNum gasWanted i msg enc /\ (enc, sg) ∈ sigs /\ SerializeSig sg false = Ret bytes /\
    b = Some (mkTxBuilder [msg] gasWanted (Some (mkSignatureV2 pubkey (Some bytes) seq))).

Lemma attach_all_ok pubkey cPk accSeq accNum gasWanted msgs p sigs all m m' :
  (forall s, SetSignatures_check (Msg := Msg) s = Ret tt) ->
  prepared_ok cPk accSeq accNum gasWanted msgs p -> (forall x, x ∈ sigs -> x ∈ all) ->
  signed_ok pubkey cPk accSeq accNum gasWanted msgs all m ->
  attach_all pubkey p sigs m = Ret m' -> signed_ok pubkey cPk accSeq accNum gasWanted msgs all m'.
Proof.
  intros Hset Hp. revert m. induction sigs as [|[enc sg] sigs IH]; intros m Hin Hok; cbn [attach_all]; [by intros [= <-]|].
  intros (m1 & H1 & H)%obind_ret_inv. eapply (IH m1); [| |exact H].
  { intros x Hx. apply Hin. by right. }
  revert H1. unfold attach. cbn [snd fst]. destruct (SerializeSig sg false) as [bytes|e|] eqn:Es; [|by intros [= <-]|done].
  destruct (unSignedSigMap p !! enc) as [us|] eqn:Eu; [|done]. destruct (txBuilderMap p !! enc) as [tb|] eqn:Et; [|done].
  destruct (Hp _ _ Et) as (i & msg & Hi & -> & Hask & Hus). rewrite Eu in Hus. injection Hus as ->.
  unfold SetSignatures. rewrite Hset. cbn [obind]. intros [= <-]. intros seq b [[<- <-]|[_ Hb]]%lookup_insert_Some; [|by apply Hok].
  exists i, msg, enc, sg, bytes. split; [done|]. split; [done|]. split; [done|]. split; [apply Hin; by left|]. split; [done|]. reflexivity.
Qed.

Lemma assign_accounts_lookup accNum accSeq addr pk l i a :
  assign_accounts accNum accSeq addr pk l !! i = Some a ->
  exists el, l !! i = Some el /\ a = SetAccountInfo accNum (if (i =? 0)%nat then accSeq else u64 (accSeq + Z.of_nat i)) addr pk el.
Proof.
  revert accSeq i. induction l as [|el l IH]; intros accSeq i; [done|]. destruct i as [|i]; cbn [assign_accounts].
  - intros [= <-]. by exists el.
  - intros H. destruct (IH _ _ H) as (el' & Hel & ->). exists el'. split; [done|]. f_equal.
    change ((Datatypes.S i =? 0)%nat) with false. cbn iota. destruct i as [|i].
    + change ((0 =? 0)%nat) with true. cbn iota. f_equal.
    + change ((Datatypes.S i =? 0)%nat) with false. cbn iota. rewrite u64_add_l. f_equal. lia.
Qed.

Lemma assign_accounts_length accNum accSeq addr pk l : length (assign_accounts accNum accSeq addr pk l) = length l.
Proof. revert accSeq. induction l as [|el l IH]; intros accSeq; cbn; auto. Qed.

Lemma assign_nonces_lookup addr nonce l i a :
  assign_nonces addr nonce l !! i = Some a ->
  exists el, l !! i = Some el /\ a = SetItemNonce addr (if (i =? 0)%nat then nonce else u64 (nonce + Z.of_nat i)) el.
Proof.
  revert nonce i. induction l as [|el l IH]; intros nonce i; [done|]. destruct i as [|i]; cbn [assign_nonces].
  - intros [= <-]. by exists el.
  - intros H. destruct (IH _ _ H) as (el' & Hel & ->). exists el'. split; [done|]. f_equal.
    change ((Datatypes.S i =? 0)%nat) with false. cbn iota. destruct i as [|i].
    + change ((0 =? 0)%nat) with true. cbn iota. f_equal.
    + change ((Datatypes.S i =? 0)%nat) with false. cbn iota. rewrite u64_add_l. f_equal. lia.
Qed.

Lemma assign_nonces_length addr nonce l : length (assign_nonces addr nonce l) = length l.
Proof. revert nonce. induction l as [|el l IH]; intros nonce; cbn; auto. Qed.
End Lemmas.

(** ** Properties *)

Section Properties.
Context {W Msg : Type} `{CN : CosmosNode W Msg} `{T : TssServer W} `{S : SdkMath} `{LS : !SdkMathLaws S} `{N : SdkCoins} `{B : Bech32} `{E : Eth}.
Context `{K : Backoff} `{KL : !BackoffLaws K}.
#[local] Notation Builder := (TxBuilder Msg).


(** Fact (one bad request spoils the batch). When the token-issue message of
    any request of a batch cannot be built, the nil message left in its place
    makes the gas estimation refuse the batch: nothing is signed or sent,
    every request of the batch is reported with an empty hash, and no error
    is returned. *)
Theorem bad_item_spoils_batch items bad (w w1 : W) height prepared :
  (forall l, None ∈ l -> exists e, SetMsgs_check (Msg := Msg) l = Fail e) ->
  LatestHeight w = (w1, Ret height) ->
  omapM (prepare_item (Msg := Msg) (Z.quot height cos_ROUNDBLOCK)) items = Ret prepared ->
  bad ∈ items -> (exists e, prepareIssueTokenRequest (Msg := Msg) bad (AccAddress_String (PoolCosAddress bad)) (Hash_Hex (InBoundReq_Hash bad)) = Fail e) ->
  exists hashes, DoProcessInBound (Msg := Msg) items w = (w1, Ret hashes) /\
    (forall item, item ∈ items -> hashes !! Hash_Hex (InBoundReq_Hash item) = Some "") /\
    (forall k v, hashes !! k = Some v -> v = "").
Proof.
  intros Hnil Hh Hprep Hbad [e He].
  assert (None ∈ map snd prepared) as Hin.
  { apply omapM_forall2 in Hprep. apply list_elem_of_lookup in Hbad as [i Hi].
    destruct (Forall2_lookup_l _ _ _ _ _ Hprep Hi) as ([s o] & Hp & Hr).
    unfold prepare_item in Hr. cbn [GetAccountInfo] in Hr. unfold GetAccountInfo in Hr. rewrite He in Hr. injection Hr as <- <-.
    apply list_elem_of_lookup. exists i. by rewrite list_lookup_fmap, Hp. }
  unfold DoProcessInBound. unfold bind. rewrite Hh. unfold lift. rewrite Hprep.
  destruct items as [|item0 items]; [by apply not_elem_of_nil in Hbad|].
  destruct prepared as [|[s0 o0] prepared]; [by apply omapM_forall2, Forall2_length in Hprep|].
  cbn [GetAccountInfo]. unfold GetAccountInfo.
  destruct (Hnil _ Hin) as [e' Hs].
  set (run := try _ w1). assert (run = (w1, Ret (inr e'))) as ->.
  { subst run. unfold try, batchComposeAndSend, GasEstimation, SetMsgs, lift, bind. rewrite Hs. reflexivity. }
  cbn [default]. unfold ret. eexists. split; [reflexivity|].
  assert (forall l (acc : gmap string string), (forall k v, acc !! k = Some v -> v = "") ->
    let r := fold_left (fun hashIndexMap el => <[Hash_Hex (InBoundReq_Hash el) := default "" ((∅ : gmap Z string) !! AccSeq el)]> hashIndexMap) l acc in
    (forall k v, r !! k = Some v -> v = "") /\
    (forall k, is_Some (acc !! k) \/ (exists a, a ∈ l /\ k = Hash_Hex (InBoundReq_Hash a)) -> r !! k = Some "")) as Hf.
  { clear. induction l as [|a l IH]; intros acc Hacc; cbn [fold_left].
    - split; [done|]. intros k [[v Hk]|(a & Ha & _)]; [|by apply not_elem_of_nil in Ha]. by rewrite Hk, (Hacc _ _ Hk).
    - destruct (IH (<[Hash_Hex (InBoundReq_Hash a) := default "" ((∅ : gmap Z string) !! AccSeq a)]> acc)) as [H1 H2].
      { intros k v [[<- <-]|[_ ?]]%lookup_insert_Some; [by rewrite lookup_empty|eauto]. }
      split; [exact H1|]. intros k Hk. apply H2.
      destruct (decide (k = Hash_Hex (InBoundReq_Hash a))) as [->|Hne]; [left; rewrite lookup_insert_eq; eauto|].
      destruct Hk as [Hk|(b & Hb & ->)]; [left; by rewrite lookup_insert_ne|].
      apply elem_of_cons in Hb as [->|Hb]; [done|]. right. eauto. }
  destruct (Hf (item0 :: items) ∅) as [H1 H2]; [by intros ? ? ?%lookup_empty_Some|].
  split; [|exact H1]. intros item Hit. apply H2. right. eauto.
Qed.

(** Fact (the gas limit). The gas limit is exactly five times the simulated
    gas, and the routine panics when that number does not fit in an int64. *)
Theorem gas_wanted_exact gasUsed :
  0 <= gasUsed < 2 ^ 64 ->
  gas_wanted gasUsed = if 5 * gasUsed <=? MaxInt64 then Ret (5 * gasUsed) else Panic.
Proof.
  intros Hg. unfold gas_wanted, GASFEERATIO.
  assert (dec_raw (NewDecWithPrec 5 0) = 5 * dec_one) as H5 by (by rewrite NewDecWithPrec_raw by lia).
  destruct (Dec_Mul_total (Int_ToDec gasUsed) (NewDecWithPrec 5 0)) as [d Hd].
  { rewrite Int_ToDec_raw, H5. unfold dec_one, int_bound. rewrite Z.abs_eq by nia. nia. }
  rewrite Hd. cbn [obind]. apply Dec_Mul_nearest in Hd. rewrite Int_ToDec_raw, H5 in Hd. unfold nearest in Hd.
  assert (dec_raw d = 5 * gasUsed * dec_one) as Hdr by (unfold dec_one in *; lia).
  destruct (Dec_RoundInt_total d) as [i Hi]; [rewrite Hdr; unfold dec_one, int_bound; lia|].
  rewrite Hi. cbn [obind]. apply Dec_RoundInt_nearest in Hi. rewrite Hdr in Hi. unfold nearest in Hi.
  assert (i = 5 * gasUsed) as -> by (unfold dec_one in *; lia).
  rewrite (proj2 (Z.leb_le MinInt64 (5 * gasUsed))) by (unfold MinInt64; lia). cbn [andb].
  destruct (Z.leb_spec (5 * gasUsed) MaxInt64) as [Hle|]; [|done]. unfold u64, two64. unfold MaxInt64 in Hle.
  rewrite Z.mod_small; [done|lia].
Qed.

(** Fact (a signed transaction waits for its sequence). [waitAndSend] lets a
    transaction go only when the account it last queried stands at the
    transaction's own sequence, and never when the account is past it. *)
Theorem waitAndSend_in_turn addr target (w w' : W) :
  waitAndSend (Msg := Msg) addr target w = (w', Ret tt) ->
  exists w0 acc, queryAccount (Msg := Msg) (AccAddress_String addr) w0 = (w', Ret acc) /\ acc_Sequence acc = target.
Proof.
  unfold waitAndSend. rewrite Retry_spec by lia. generalize 40%nat. intros n.
  destruct (retry_loop n _ (w, false)) as [[s f] r] eqn:El. destruct f; [destruct r; discriminate|].
  assert (retry_loop n (wait_seq_op addr target) (w, false) = ((s, false), r) -> r = Ret tt ->
    exists w0 acc, queryAccount (Msg := Msg) (AccAddress_String addr) w0 = (s, Ret acc) /\ acc_Sequence acc = target) as Hl.
  { clear El. revert w. induction n as [|n IH]; intros w0; cbn [retry_loop]; unfold wait_seq_op at 1;
      destruct (queryAccount (AccAddress_String addr) w0) as [w1 [acc|e|]] eqn:Eq;
      try destruct (Z.eqb_spec (acc_Sequence acc) target) as [Hs|]; try destruct (Z.ltb_spec target (acc_Sequence acc));
      intros HH Hr; simplify_eq; eauto. }
  intros H. destruct r as [[]|e|]; injection H as <-; try done. exact (Hl El eq_refl).
Qed.

(** Fact (feeding the mint queue). A batch put on the request channel consists
    of requests taken off the queue, numbered with consecutive sequence
    numbers of the pool's account from the one just queried; when [FeedTx]
    fails or this node does not sign, the queue is as it was. *)
Theorem FeedTx_inbound_sequences `{R : GoRuntime} n (operator : outcome bytes) p (w w' : W) q q' r :
  FeedTx_inbound (Msg := Msg) n operator p (w, q) = ((w', q'), r) ->
  match r with
  | Ret (Some batch) => exists acc items,
      queryAccount (Msg := Msg) (AccAddress_String (PoolAddr p)) w = (w', Ret acc) /\
      InboundQueue.PopItem n q = (q', Ret (Some items)) /\ length batch = length items /\
      forall i a, batch !! i = Some a -> exists el, items !! i = Some el /\
        a = (SetAccountInfo (acc_Number acc) (if (i =? 0)%nat then acc_Sequence acc else u64 (acc_Sequence acc + Z.of_nat i))
              (acc_Address acc) (PoolPubKey p) el)
  | Ret None => (q' = q) \/ (InboundQueue.PopItem n q = (q', Ret None))
  | Fail _ => (q' = q) \/ exists e, InboundQueue.PopItem n q = (q', Fail e)
  | Panic => (q' = q) \/ InboundQueue.PopItem n q = (q', Panic)
  end.
Proof.
  unfold FeedTx_inbound, lift, bind, ret. destruct (CheckWhetherSigner operator (Some p)) as [[]|e|]; cbn [negb].
  2-4: intros [= <- <- <-]; auto.
  destruct (queryAccount (AccAddress_String (PoolAddr p)) w) as [w1 [acc|e|]] eqn:Eq.
  2-3: intros [= <- <- <-]; auto.
  destruct (InboundQueue.PopItem n q) as [q1 [[items|]|e|]] eqn:Ep; intros [= <- <- <-]; eauto.
  exists acc, items. split; [done|]. split; [done|]. split; [apply assign_accounts_length|]. intros i a. apply assign_accounts_lookup.
Qed.
End Properties.

(** Fact (feeding a public chain). The popped outbound requests leave [FeedTx]
    with consecutive nonces of the pool's account from the pending nonce the
    chain reported, every other field as it was. *)
Theorem FeedTx_outbound_nonces {W C} `{EC : EthClient W C} `{B : Bech32} p reqs (c c' : ChainInfo W C) batch :
  FeedTx_outbound p reqs c = (c', Ret batch) ->
  exists addr nonce, PoolPubKeyToEthAddress (PoolPubKey p) = Ret addr /\
    getPendingNonceWithLock addr c = (c', Ret nonce) /\
    forall i a, batch !! i = Some a <-> exists el, reqs !! i = Some el /\
      a = SetItemNonce addr (if (i =? 0)%nat then nonce else u64 (nonce + Z.of_nat i)) el.
Proof.
  unfold FeedTx_outbound. intros (c1 & addr & H1 & H)%bind_ret_inv. unfold lift in H1. injection H1 as <- Ha.
  apply bind_ret_inv in H as (c2 & nonce & H2 & H). unfold ret in H. injection H as <- <-.
  exists addr, nonce. split; [done|]. split; [done|]. intros i a. split; [apply assign_nonces_lookup|].
  intros (el & Hel & ->). destruct (assign_nonces addr nonce reqs !! i) as [a|] eqn:Ea.
  - apply assign_nonces_lookup in Ea as (el' & Hel' & ->). rewrite Hel in Hel'. by injection Hel' as <-.
  - exfalso. apply lookup_ge_None in Ea. rewrite assign_nonces_length in Ea. apply lookup_lt_Some in Hel. lia.
Qed.

(** ** Witnesses *)

(** A node for the examples: the sequence numbers it will report and the
    transactions it has taken. *)
Definition cos_world : Type := list Z * list bytes.

Definition encode_ref (accNum seq : Z) (b : TxBuilder string) : bytes :=
  (Bytes accNum ++ Bytes seq ++ flat_map (fun m => bytes_of_string (default "nil" m)) (b_msgs b))%list.

Definition cosmos_ref : CosmosNode cos_world string := {|
  SetMsgs_check := fun l => if existsb (fun m => bool_decide (m = None)) l then Fail "Expecting non nil value" else Ret tt;
  SetSignatures_check := fun _ => Ret tt;
  GetSignBytes := fun accNum seq b => Ret (encode_ref accNum seq b);
  TxEncoder := fun b => Ret (encode_ref 0 0 b);
  Sha256 := fun b => b;
  Keyring_Key := Ret ([Byte.x0a], [Byte.x0b]);
  Keyring_Sign := fun b => Ret (b, [Byte.x0a]);
  queryAccount := fun _ w => match w.1 with
    | [] => (w, Fail "no answer")
    | n :: l => ((l, w.2), Ret (mkAccount n 1 [Byte.x09]))
    end;
  Node_BroadcastTx := fun b w => ((w.1, w.2 ++ [b])%list, Ret (0, "tx"));
  Simulate := fun _ w => (w, Ret 100);
  LatestHeight := fun w => (w, Ret 45);
  NewMsgCreateIssueToken := fun c i coin r => if (String.length r <=? 1)%nat then Fail "empty address" else Ret (c ++ i ++ coin ++ r)%string;
  NewMsgCreateOutboundTx := fun _ i _ _ _ _ _ _ _ => i;
|}.

Definition tss_cos_ref : TssServer cos_world := {|
  KeySign := fun _ msgs _ => ret (mkKeysignResponse true (map (fun m => (m, sig_ref)) msgs));
|}.

Section Witnesses.
#[local] Existing Instance cosmos_ref.
#[local] Existing Instance tss_cos_ref.
#[local] Existing Instance sdk_math_ref.
#[local] Existing Instance sdk_coins_ref.
#[local] Existing Instance bech32_ref.
#[local] Existing Instance backoff_ref.
#[local] Existing Instance eth_ref.
#[local] Existing Instance go_runtime_ref.

#[local] Definition sign1 : TssSignigMsg := mkTssSignigMsg "k01" 2.


#[local] Definition good : InBoundReq := SetAccountInfo 1 7 [Byte.x09] "k01" (NewAccountInboundReq [Byte.x01] [] (mkCoin "abnb" 3) [Byte.x02] 10).
#[local] Definition bad : InBoundReq := SetAccountInfo 1 8 [Byte.x09] "k01" (NewAccountInboundReq [] [] (mkCoin "abnb" 4) [Byte.x03] 10).

Lemma bad_item_spoils_batch_witness : exists hashes,
  DoProcessInBound [good; bad] ([], []) = (([], []), Ret hashes) /\ hashes !! Hash_Hex (InBoundReq_Hash good) = Some "".
Proof.
  destruct (omapM (prepare_item (Msg := string) (Z.quot 45 cos_ROUNDBLOCK)) [good; bad]) as [prepared|e|] eqn:Ep;
    [|vm_compute in Ep; discriminate Ep|vm_compute in Ep; discriminate Ep].
  destruct (bad_item_spoils_batch [good; bad] bad ([], []) ([], []) 45 prepared) as (hashes & H1 & H2 & _).
  - intros l Hl. exists "Expecting non nil value". cbn [SetMsgs_check cosmos_ref].
    assert (existsb (fun m => bool_decide (m = None)) l = true) as ->; [|reflexivity].
    apply existsb_exists. exists None. split; [by apply list_elem_of_In|reflexivity].
  - reflexivity.
  - exact Ep.
  - right. left.
  - exists "empty address". vm_compute. reflexivity.
  - exists hashes. split; [exact H1|]. apply H2. left.
Defined.

Lemma gas_wanted_exact_witness : gas_wanted 100 = Ret 500.
Proof. rewrite (gas_wanted_exact 100); [reflexivity|lia]. Defined.

Lemma waitAndSend_in_turn_witness :
  waitAndSend [Byte.x09] 9 ([7; 8; 9; 10], []) = (([10], []), Ret tt) /\
  exists w0 acc, queryAccount (AccAddress_String [Byte.x09]) w0 = (([10], []) : cos_world, Ret acc) /\ acc_Sequence acc = 9.
Proof.
  split; [vm_compute; reflexivity|].
  apply (waitAndSend_in_turn [Byte.x09] 9 ([7; 8; 9; 10], []) ([10], [])). vm_compute. reflexivity.
Defined.

#[local] Definition vault1 : VaultPool := mkVaultPool "1" "k01" [Byte.x09] [[Byte.x0b]].
#[local] Definition mint_queue : InboundQueue.t := (AddAll [good; bad] empty_queue).1.

Lemma FeedTx_inbound_sequences_witness : exists w' q' batch,
  FeedTx_inbound 4 (Ret [Byte.x0b]) vault1 (([30], []), mint_queue) = ((w', q'), Ret (Some batch)) /\
  map AccSeq batch = [30; 31] /\ exists items, InboundQueue.PopItem 4 mint_queue = (q', Ret (Some items)).
Proof.
  destruct (FeedTx_inbound 4 (Ret [Byte.x0b]) vault1 (([30], []), mint_queue)) as [[w' q'] r] eqn:E.
  assert (exists batch, r = Ret (Some batch) /\ map AccSeq batch = [30; 31]) as (batch & -> & Hm).
  { apply (f_equal snd) in E. cbn [snd] in E. subst r. eexists. split; [vm_compute; reflexivity|vm_compute; reflexivity]. }
  exists w', q', batch. split; [reflexivity|]. split; [exact Hm|].
  destruct (FeedTx_inbound_sequences 4 (Ret [Byte.x0b]) vault1 _ _ _ _ _ E) as (acc & items & _ & H & _).
  exists items. exact H.
Defined.
End Witnesses.

Section WitnessesOut.
#[local] Existing Instance eth_client_ref.
#[local] Existing Instance bech32_ref.
#[local] Existing Instance eth_ref.

#[local] Definition out1 (n : Z) : OutBoundReq := NewOutboundReq "ab" [] [] (mkCoin "abnb" n) "native" 10 [] "BSC" true.

Lemma FeedTx_outbound_nonces_witness : exists c' batch,
  FeedTx_outbound (mkVaultPool "1" "k01" [] []) [out1 1; out1 2] (chain_ref [40]) = (c', Ret batch) /\
  map Nonce batch = [40; 41] /\ exists addr, PoolPubKeyToEthAddress "k01" = Ret addr.
Proof.
  destruct (FeedTx_outbound (mkVaultPool "1" "k01" [] []) [out1 1; out1 2] (chain_ref [40])) as [c' r] eqn:E.
  assert (exists batch, r = Ret batch /\ map Nonce batch = [40; 41]) as (batch & -> & Hm).
  { apply (f_equal snd) in E. cbn [snd] in E. subst r. eexists. split; [vm_compute; reflexivity|vm_compute; reflexivity]. }
  exists c', batch. split; [reflexivity|]. split; [exact Hm|].
  destruct (FeedTx_outbound_nonces (mkVaultPool "1" "k01" [] []) [out1 1; out1 2] (chain_ref [40]) c' batch E) as (addr & _ & H & _).
  exists addr. exact H.
Defined.
End WitnessesOut.
