(* ===== verification/Keygen.v ===== *)
(** * Key generation: cosbridge/event.go, prepareTssPool and CheckAndUpdatePool

    When the validators change, a node that is one of them generates a new
    pool key with the others and, once the height has come, submits the pool
    to the joltify chain.  The generation runs in a goroutine of its own:
    [HandleUpdateValidators] has returned before it ends. *)

From Stdlib Require Import Ascii String.
From S2P Require Import Prelude GoLib Sdk Requests ItemQueue Signature PubClient TxSend Validators CosTx.

#[local] Open Scope string_scope.
#[local] Open Scope Z_scope.
#[local] Open Scope go_scope.

(** ** Definitions *)

Definition maxretry : nat := 5.

(** [tssPoolMsg] *)
Record TssPoolMsg (Msg : Type) := mkTssPoolMsg {
  tp_msg : Msg;
  creator : bytes;
  poolPubKey : string;
  tp_blockHeight : Z;
}.
Arguments mkTssPoolMsg {Msg}. Arguments tp_msg {Msg}. Arguments creator {Msg}.
Arguments poolPubKey {Msg}. Arguments tp_blockHeight {Msg}.

(** The key generation service, the codecs and the vault module's query. *)
Class KeygenServer (W Msg : Type) := {
  (** whether the status is a success, and the key *)
  KeyGen : list string -> Z -> M W (bool * string);
  (** [legacybech32.MarshalPubKey] of an ed25519 key *)
  MarshalPubKey : bytes -> outcome string;
  NewMsgCreateCreatePool : bytes -> string -> string -> Msg;
  getValidators : string -> M W (list VaultValidator);
}.

Record KeygenState (W Msg : Type) := mkKeygenState {
  kg_node : W;
  validatorSet : ValidatorSet;
  keyGenCache : list (TssPoolMsg Msg);
  inKeygenProcess : bool;
}.
Arguments mkKeygenState {W Msg}. Arguments kg_node {W Msg}. Arguments validatorSet {W Msg}.
Arguments keyGenCache {W Msg}. Arguments inKeygenProcess {W Msg}.

Section Keygen.
Context {W Msg : Type} `{CN : CosmosNode W Msg} `{KS : KeygenServer W Msg} `{T : TssServer W} `{S : SdkMath} `{B : Bech32}.
Context `{R : GoRuntime}.
Context (GetConsAddress : bytes -> bytes) (Address_String : bytes -> string).
(** [myValidatorInfo.Result.ValidatorInfo.PubKey.Value] *)
Context (myValidatorKey : string).
#[local] Notation KG := (KeygenState W Msg).

Definition on_knode {A} (m : M W A) : M KG A := fun s =>
  let '(w, r) := m (kg_node s) in (mkKeygenState w (validatorSet s) (keyGenCache s) (inKeygenProcess s), r).
Definition on_vals {A} (m : M ValidatorSet A) : M KG A := fun s =>
  let '(v, r) := m (validatorSet s) in (mkKeygenState (kg_node s) v (keyGenCache s) (inKeygenProcess s), r).
Definition set_inKeygen (b : bool) : M KG unit :=
  modify (fun s => mkKeygenState (kg_node s) (validatorSet s) (keyGenCache s) b).
Definition set_cache (l : list (TssPoolMsg Msg)) : M KG unit :=
  modify (fun s => mkKeygenState (kg_node s) (validatorSet s) l (inKeygenProcess s)).

(** The loop over the validators: their keys' texts, and whether this node's
    key is among them. *)
Fixpoint collect_pubkeys (vals : list Validator) : outcome (list string * bool) :=
  match vals with
  | [] => Ret ([], false)
  | el :: vals =>
      let? pk := MarshalPubKey (PubKey el) in
      let? pkValidator := base64_DecodeString myValidatorKey in
      let? rest := collect_pubkeys vals in
      Ret (pk :: fst rest, bool_decide (PubKey el = pkValidator) || snd rest)
  end.

(** The retry loop of the goroutine; [None] when no attempt succeeded. *)
Fixpoint keygen_loop (tries : nat) (pubKeys : list string) (blockHeight : Z) : M W (option string) :=
  match tries with
  | O => ret None
  | Datatypes.S tries =>
      let! resp := try (KeyGen pubKeys blockHeight) in
      match resp with
      | inl (true, pk) => ret (Some pk)
      | _ => keygen_loop tries pubKeys blockHeight
      end
  end.

Definition prepareTssPool (creator : bytes) (pubKey height : string) : M KG unit :=
  let msg := NewMsgCreateCreatePool creator pubKey height in
  let! dHeight := lift (ParseInt64 height) in
  let! s := get in
  set_cache (keyGenCache s ++ [mkTssPoolMsg msg creator pubKey dHeight])%list.

(** The goroutine: its result is the value of [errKeygen] when it ends. *)
Definition keygen_job (pubKeys : list string) (blockHeight : Z) : M KG (option string) :=
  do! set_inKeygen true in
  let! pk := on_knode (keygen_loop maxretry (sort_slice String.ltb pubKeys) blockHeight) in
  let! err := match pk with
    | None => ret (Some "fail to get the valid key")
    | Some pk =>
        match Keyring_Key with
        | Panic => panic
        | Fail e => ret (Some e)
        | Ret (_, addr) =>
            let! r := try (prepareTssPool addr pk (FormatInt (i64 (blockHeight + 1)))) in
            match r with inl _ => ret None | inr e => ret (Some e) end
        end
    end in
  do! set_inKeygen false in
  ret err.

(** The part that runs before the goroutine: its arguments, if it is started. *)
Definition update_validators (height : Z) : M KG (option (list string * Z)) :=
  let! v := on_knode (getValidators (FormatInt height)) in
  do! on_vals (UpdateValidatorSet GetConsAddress Address_String v height) in
  let! s := get in
  let '(lastValidators, blockHeight) := GetActiveValidators (validatorSet s) in
  let! r := lift (collect_pubkeys lastValidators) in
  let '(pubKeys, doKeyGen) := r in
  if doKeyGen then ret (Some (pubKeys, blockHeight)) else ret None.

(** [finished]: whether the goroutine had ended when [errKeygen] was read.
    The state is the one after the goroutine. *)
Definition HandleUpdateValidators (finished : bool) (height : Z) : M KG unit :=
  let! job := update_validators height in
  match job with
  | None => ret tt
  | Some (pubKeys, blockHeight) =>
      let! errKeygen := keygen_job pubKeys blockHeight in
      match errKeygen with
      | Some e => if finished then fail e else ret tt
      | None => ret tt
      end
  end.

(** The submission of the first cached pool; every error gives the same answer. *)
Definition submit_pool (el : TssPoolMsg Msg) : M W bool :=
  let! r := try (
    let! acc := queryAccount (AccAddress_String (creator el)) in
    let! gasWanted := GasEstimation [Some (tp_msg el)] (acc_Sequence acc) None in
    let! key := lift Keyring_Key in
    let! txBuilder := genSendTx key [Some (tp_msg el)] (acc_Sequence acc) (acc_Number acc) gasWanted None in
    let! txBytes := lift (TxEncoder txBuilder) in
    BroadcastTx (Msg := Msg) txBytes) in
  ret (match r with inl (ok, _) => ok | inr _ => false end).

Definition CheckAndUpdatePool (blockHeight : Z) : M KG (bool * string) :=
  let! s := get in
  match keyGenCache s with
  | [] => ret (true, "")
  | el :: _ =>
      if tp_blockHeight el <=? blockHeight then
        let! ok := on_knode (submit_pool el) in
        if ok then
          let! s := get in
          do! set_cache (tail (keyGenCache s)) in
          ret (true, poolPubKey el)
        else ret (false, "")
      else ret (true, "")
  end.
End Keygen.

(** ** Lemmas *)

Section Lemmas.
Context {W Msg : Type} `{CN : CosmosNode W Msg} `{KS : KeygenServer W Msg} `{R : GoRuntime}.

(** The service answers every attempt with an error or another status. *)
Definition never_succeeds (pubKeys : list string) (h : Z) : Prop :=
  forall w : W, exists w' r, KeyGen (Msg := Msg) pubKeys h w = (w', r) /\ r <> Panic /\ forall pk, r <> Ret (true, pk).

Lemma keygen_loop_fails n pubKeys h (w : W) :
  never_succeeds pubKeys h -> exists w', keygen_loop (Msg := Msg) n pubKeys h w = (w', Ret None).
Proof.
  intros Hn. revert w. induction n as [|n IH]; intros w; cbn [keygen_loop]; [by exists w|].
  destruct (Hn w) as (w1 & r & E & Hp & Hr). unfold bind, try. rewrite E.
  destruct r as [[[] pk]|e|]; cbn [ocatch]; [by destruct (Hr pk)|apply IH|apply IH|done].
Qed.

(** A key the loop returns was answered, with a success, by the service. *)
Lemma keygen_loop_ret n pubKeys h (w w' : W) pk :
  keygen_loop (Msg := Msg) n pubKeys h w = (w', Ret (Some pk)) ->
  exists w0, KeyGen (Msg := Msg) pubKeys h w0 = (w', Ret (true, pk)).
Proof.
  revert w. induction n as [|n IH]; intros w; cbn [keygen_loop]; [done|].
  unfold bind, try. destruct (KeyGen pubKeys h w) as [w1 [[[] pk']|e|]] eqn:E; cbn [ocatch].
  - unfold ret. intros [= <- <-]. eauto.
  - apply IH.
  - apply IH.
  - done.
Qed.
End Lemmas.

(** ** Properties *)

Section Properties.
Context {W Msg : Type} `{CN : CosmosNode W Msg} `{KS : KeygenServer W Msg} `{T : TssServer W} `{S : SdkMath} `{B : Bech32}.
Context `{R : GoRuntime} (GetConsAddress : bytes -> bytes) (Address_String : bytes -> string).
#[local] Notation KG := (KeygenState W Msg).

(** Fact (what a key generation adds). A goroutine that ends leaves the flag
    down and the validators alone, and either it adds nothing, or exactly one
    pool at the end of the cache: one whose key the service answered with a
    success for the sorted validator keys, to be submitted one block after the
    height of the generation. *)
Theorem keygen_job_adds_one pubKeys h (s s' : KG) err :
  keygen_job pubKeys h s = (s', Ret err) ->
  inKeygenProcess s' = false /\ validatorSet s' = validatorSet s /\
  (err = None <-> keyGenCache s' <> keyGenCache s) /\
  (keyGenCache s' = keyGenCache s \/ exists el w0 w1,
    keyGenCache s' = (keyGenCache s ++ [el])%list /\ tp_blockHeight el = i64 (h + 1) /\
    KeyGen (Msg := Msg) (sort_slice String.ltb pubKeys) h w0 = (w1, Ret (true, poolPubKey el))).
Proof.
  pose proof (i64_range (h + 1)) as Hh. unfold keygen_job, set_inKeygen. unfold bind at 1. cbn [modify].
  intros (s1 & pk & H1 & H)%bind_ret_inv. unfold on_knode, modify in H1. cbn [fst snd kg_node] in H1.
  destruct (keygen_loop maxretry _ h (kg_node s)) as [w [r|e|]] eqn:El; [|done|done].
  injection H1 as <- ->. cbn [validatorSet keyGenCache inKeygenProcess] in H.
  apply bind_ret_inv in H as (s2 & err' & H2 & H). unfold bind, modify, ret in H. injection H as <- <-.
  cbn [inKeygenProcess validatorSet keyGenCache].
  assert (forall x, keyGenCache s = (keyGenCache s ++ [x])%list -> False) as Hne.
  { intros x Hx. apply (f_equal length) in Hx. rewrite length_app in Hx. cbn in Hx. lia. }
  destruct pk as [pk|]; [|unfold ret in H2; injection H2 as <- <-; cbn [validatorSet keyGenCache]; intuition congruence].
  apply keygen_loop_ret in El as [w0 El].
  destruct Keyring_Key as [[k addr]|e|]; [|unfold ret in H2; injection H2 as <- <-; cbn [validatorSet keyGenCache]; intuition congruence|done].
  unfold prepareTssPool in H2. rewrite ParseInt64_FormatInt in H2 by done.
  unfold try, bind, lift, get, set_cache, modify, ret in H2. cbn [ocatch] in H2. injection H2 as <- <-.
  cbn [validatorSet keyGenCache]. split; [done|]. split; [done|]. split.
  - split; [|done]. intros _ Hx. by eapply Hne.
  - right. eexists _, w0, w. split; [reflexivity|]. split; [reflexivity|]. exact El.
Qed.

(** Fact (a failed key generation is not reported). When the service never
    succeeds, the goroutine ends with an error and no pool is cached, but the
    caller, which reads the error right after starting it, gets nil. *)
Theorem keygen_failure_unreported my height (s s1 : KG) pubKeys h :
  update_validators GetConsAddress Address_String my height s = (s1, Ret (Some (pubKeys, h))) ->
  never_succeeds (W := W) (Msg := Msg) (sort_slice String.ltb pubKeys) h ->
  exists s', HandleUpdateValidators GetConsAddress Address_String my false height s = (s', Ret tt) /\
    keyGenCache s' = keyGenCache s1 /\ inKeygenProcess s' = false /\
    HandleUpdateValidators GetConsAddress Address_String my true height s = (s', Fail "fail to get the valid key").
Proof.
  intros H1 Hn. destruct (keygen_loop_fails maxretry _ h (kg_node s1) Hn) as [w Hw].
  assert (keygen_job pubKeys h s1 = (mkKeygenState w (validatorSet s1) (keyGenCache s1) false, Ret (Some "fail to get the valid key"))) as Hj.
  { unfold keygen_job, set_inKeygen, on_knode, modify, bind, ret. cbn [kg_node]. rewrite Hw. reflexivity. }
  exists (mkKeygenState w (validatorSet s1) (keyGenCache s1) false).
  unfold HandleUpdateValidators. unfold bind. rewrite H1. rewrite Hj. cbn. done.
Qed.

(** Fact (pools are submitted in order). [CheckAndUpdatePool] takes a pool off
    the cache only when it is the oldest one, its height has come and the node
    accepted its transaction; in every other case the cache is unchanged. *)
Theorem CheckAndUpdatePool_fifo h (s s' : KG) ok pk :
  CheckAndUpdatePool h s = (s', Ret (ok, pk)) ->
  (keyGenCache s' = keyGenCache s /\ pk = "" /\
    (ok = false -> exists el rest, keyGenCache s = el :: rest /\ tp_blockHeight el <= h)) \/
  exists el w, keyGenCache s = el :: keyGenCache s' /\ pk = poolPubKey el /\ ok = true /\
    tp_blockHeight el <= h /\ submit_pool el (kg_node s) = (w, Ret true).
Proof.
  unfold CheckAndUpdatePool, bind, get. destruct (keyGenCache s) as [|el rest] eqn:Ec.
  { unfold ret. intros [= <- <- <-]. by left. }
  destruct (Z.leb_spec (tp_blockHeight el) h) as [Hle|]; [|unfold ret; intros [= <- <- <-]; left; by rewrite Ec].
  unfold on_knode. destruct (submit_pool el (kg_node s)) as [w [[]|e|]] eqn:Es; [| |done|done].
  - unfold set_cache, modify, ret. cbn. intros [= <- <- <-]. right. exists el, w. cbn. rewrite Ec. done.
  - unfold ret. intros [= <- <- <-]. left. cbn. rewrite Ec. split; [done|]. split; [done|]. eauto.
Qed.
End Properties.

(** ** Witnesses *)

#[local] Definition keygen_ok : KeygenServer cos_world string := {|
  KeyGen := fun pks _ w => match w.1 with
    | [] => (w, Ret (true, "k07"))
    | _ :: l => ((l, w.2), Fail "timeout")
    end;
  MarshalPubKey := fun b => Ret (hex_EncodeToString b);
  NewMsgCreateCreatePool := fun _ pk h => (pk ++ h)%string;
  getValidators := fun _ => ret [mkVaultValidator [Byte.x07] 3];
|}.

#[local] Definition keygen_never : KeygenServer cos_world string := {|
  KeyGen := fun pks _ w => (w, Ret (false, ""));
  MarshalPubKey := fun b => Ret (hex_EncodeToString b);
  NewMsgCreateCreatePool := fun _ pk h => (pk ++ h)%string;
  getValidators := fun _ => ret [mkVaultValidator [Byte.x07] 3];
|}.

Section Witnesses.
#[local] Existing Instance cosmos_ref.
#[local] Existing Instance tss_cos_ref.
#[local] Existing Instance sdk_math_ref.
#[local] Existing Instance bech32_ref.
#[local] Existing Instance go_runtime_ref.

#[local] Definition kg0 (answers : list Z) (cache : list (TssPoolMsg string)) : KeygenState cos_world string :=
  mkKeygenState (answers, []) NewValidator cache false.

Lemma keygen_job_adds_one_witness : exists s',
  keygen_job (KS := keygen_ok) ["b"; "a"] 40 (kg0 [1; 2; 3] []) = (s', Ret None) /\
  map (fun el => (poolPubKey el, tp_blockHeight el)) (keyGenCache s') = [("k07", 41)] /\ inKeygenProcess s' = false.
Proof.
  destruct (keygen_job (KS := keygen_ok) ["b"; "a"] 40 (kg0 [1; 2; 3] [])) as [s' r] eqn:Es.
  assert (r = Ret None /\ map (fun el => (poolPubKey el, tp_blockHeight el)) (keyGenCache s') = [("k07", 41)]) as [-> Hm].
  { vm_compute in Es. injection Es as <- <-. split; reflexivity. }
  exists s'. split; [reflexivity|]. split; [exact Hm|].
  exact (proj1 (keygen_job_adds_one (KS := keygen_ok) ["b"; "a"] 40 _ _ _ Es)).
Defined.

Lemma keygen_failure_unreported_witness : exists s',
  HandleUpdateValidators (KS := keygen_never) (fun b => b) hex_EncodeToString (base64_EncodeToString [Byte.x07]) false 40 (kg0 [] []) = (s', Ret tt) /\
  keyGenCache s' = [].
Proof.
  destruct (update_validators (KS := keygen_never) (fun b => b) hex_EncodeToString (base64_EncodeToString [Byte.x07]) 40 (kg0 [] [])) as [s1 r] eqn:Es.
  assert (r = Ret (Some ([hex_EncodeToString [Byte.x07]], 40)) /\ keyGenCache s1 = []) as [-> Hc].
  { vm_compute in Es. injection Es as <- <-. split; vm_compute; reflexivity. }
  destruct (keygen_failure_unreported (KS := keygen_never) (fun b => b) hex_EncodeToString (base64_EncodeToString [Byte.x07]) 40
    (kg0 [] []) s1 [hex_EncodeToString [Byte.x07]] 40 Es) as (s' & H & Hk & _).
  - intros w. exists w, (Ret (false, "")). split; [reflexivity|]. split; [discriminate|]. intros pk. discriminate.
  - exists s'. split; [exact H|]. rewrite Hk. exact Hc.
Defined.

#[local] Definition pool41 : TssPoolMsg string := mkTssPoolMsg "m" [Byte.x0b] "k07" 41.

Lemma CheckAndUpdatePool_fifo_witness : exists s' pk,
  CheckAndUpdatePool 41 (kg0 [5; 6] [pool41; pool41]) = (s', Ret (true, pk)) /\
  ((keyGenCache s' = [pool41; pool41] /\ pk = "") \/ pk = "k07").
Proof.
  destruct (CheckAndUpdatePool 41 (kg0 [5; 6] [pool41; pool41])) as [s' r] eqn:Es.
  assert (exists pk, r = Ret (true, pk)) as [pk ->].
  { apply (f_equal snd) in Es. cbn [snd] in Es. subst r. eexists. vm_compute. reflexivity. }
  exists s', pk. split; [reflexivity|].
  destruct (CheckAndUpdatePool_fifo 41 _ _ _ _ Es) as [(H1 & H2 & _)|(el & w & H1 & H2 & _)].
  - left. split; [exact H1|exact H2].
  - right. rewrite H2. cbn [kg0 keyGenCache] in H1. injection H1 as <- _. reflexivity.
Defined.
End Witnesses.
