(* ===== verification/Storage.v ===== *)
(** * Saving and loading: storage/localstate_mgr.go, movefundpending_mgr.go

    What the bridge keeps across a restart, and the two ends of
    [NewBridgeService] that load it and save it.  The files are a map from
    path to contents; the JSON encoder and decoder are the class
    [JsonCodec]. *)

From Stdlib Require Import Ascii String.
From S2P Require Import Prelude GoLib Sdk Requests ItemQueue MoveFundQueue.

#[local] Open Scope string_scope.
#[local] Open Scope Z_scope.
#[local] Open Scope go_scope.

(** ** Definitions *)

(** [json.Marshal] and [json.Unmarshal] of a slice of [A].  A decoder that
    fails may have filled the slice in part. *)
Class JsonCodec (A : Type) := {
  Marshal : list A -> outcome bytes;
  Unmarshal : bytes -> option (list A) * option string;
}.

Class JsonCodecLaws (A : Type) (J : JsonCodec A) : Prop := {
  (** an empty slice may come back as nil *)
  Unmarshal_Marshal : forall l b, Marshal l = Ret b -> exists o, Unmarshal b = (o, None) /\ default [] o = l;
}.

(** Writing may fail, and then the file is as before. *)
Class FileSystem := {
  WriteFile_ok : string -> bool;
  path_Join : string -> string -> string;
}.

Section Storage.
Context `{FS : FileSystem}.
#[local] Notation Files := (gmap string bytes).

Definition WriteFile (path : string) (buf : bytes) : M Files unit :=
  if WriteFile_ok path then modify (fun f => <[path := buf]> f) else fail "write failed".

Definition ReadFile (path : string) : M Files bytes :=
  let! f := get in
  match f !! path with Some b => ret b | None => fail "no such file or directory" end.

Definition save `{J : JsonCodec A} (folder file : string) (items : list A) : M Files unit :=
  let! buf := lift (Marshal items) in
  WriteFile (path_Join folder file) buf.

(** The slice, nil or not, and the error. *)
Definition load `{J : JsonCodec A} (folder file : string) : M Files (option (list A) * option string) :=
  if (String.length folder <? 1)%nat then ret (None, Some "base file path is invalid")
  else
    let! r := try (ReadFile (path_Join folder file)) in
    match r with
    | inr e => ret (None, Some e)
    | inl input => ret (Unmarshal input)
    end.

Context `{JO : JsonCodec OutBoundReq} `{JI : JsonCodec InBoundReq} `{JM : JsonCodec MoveFundItem}.

Definition SaveOutBoundState (folder : string) (reqs : list OutBoundReq) : M Files unit := save folder "outboundtx.dat" reqs.
Definition LoadOutBoundState (folder : string) : M Files (option (list OutBoundReq) * option string) := load folder "outboundtx.dat".
Definition SaveInBoundState (folder : string) (reqs : list InBoundReq) : M Files unit := save folder "inboundtx.dat" reqs.
Definition LoadInBoundState (folder : string) : M Files (option (list InBoundReq) * option string) := load folder "inboundtx.dat".
Definition SavePendingItems (folder : string) (pendingTxsPub : list MoveFundItem) : M Files unit :=
  save folder "movefundpending_pub.dat" pendingTxsPub.

(** A missing or unreadable file is not an error here. *)
Definition LoadPendingItems (folder : string) : M Files (option (list MoveFundItem) * option string) :=
  if (String.length folder <? 1)%nat then ret (None, Some "base file path is invalid")
  else
    let! r := try (ReadFile (path_Join folder "movefundpending_pub.dat")) in
    match r with
    | inr _ => ret (None, None)
    | inl inputPub => ret (fst (Unmarshal inputPub), None)
    end.

(** *** NewBridgeService, its two ends *)

Record Saved := mkSaved {
  s_out : ItemQueue OutBoundReq;
  s_in : ItemQueue InBoundReq;
  s_mf : gmap string MoveFundItem;
}.

Context `{E : Eth} `{R : GoRuntime}.

Definition load_queue `{I : Indexed A} (items : option (list A)) (q : ItemQueue A) : ItemQueue A * outcome unit :=
  match items with
  | None => (q, Ret tt)
  | Some items => AddAll items q
  end.

Definition load_move_funds (items : option (list MoveFundItem)) (q : gmap string MoveFundItem) : gmap string MoveFundItem :=
  fold_left (fun q item => fst (AddMoveFundItem (mf_PoolInfo item) (mf_Height item) (mf_ChainType item) q)) (default [] items) q.

(** What the start-up does with the files. *)
Definition restore (folder : string) (files : Files) (st : Saved) : Saved * outcome unit :=
  match LoadOutBoundState folder files with
  | (_, Ret (items, _)) =>
      match load_queue items (s_out st) with
      | (qo, Ret _) =>
          match LoadInBoundState folder files with
          | (_, Ret (itemsIn, _)) =>
              match load_queue itemsIn (s_in st) with
              | (qi, Ret _) =>
                  match LoadPendingItems folder files with
                  | (_, Ret (pubItems, _)) => (mkSaved qo qi (load_move_funds pubItems (s_mf st)), Ret tt)
                  | (_, _) => (mkSaved qo qi (s_mf st), Panic)
                  end
              | (qi, r) => (mkSaved qo qi (s_mf st), r)
              end
          | (_, _) => (mkSaved qo (s_in st) (s_mf st), Panic)
          end
      | (qo, r) => (mkSaved qo (s_in st) (s_mf st), r)
      end
  | (_, _) => (st, Panic)
  end.

(** The on-hold requests go back to the map before the export. *)
Definition flush `{I : Indexed A} : M (ItemQueue A) (list A) :=
  let! items1 := DumpQueue in
  do! AddAll items1 in
  let! q := get in
  ret (ExportItems q).

(** What the shutdown writes; errors of saving are logged. *)
Definition shutdown (folder : string) (st : Saved) : M Files unit := fun files =>
  match flush (s_out st) with
  | (_, Ret itemsexported) =>
      match flush (s_in st) with
      | (_, Ret itemsInexported) =>
          (do! try (SaveOutBoundState folder itemsexported) in
           do! try (SaveInBoundState folder itemsInexported) in
           do! try (SavePendingItems folder (ExportMoveFundItems (s_mf st))) in
           ret tt) files
      | (_, _) => (files, Panic)
      end
  | (_, _) => (files, Panic)
  end.
End Storage.

(** ** Lemmas *)

Section Lemmas.
Context {A : Type} `{I : Indexed A} `{R : GoRuntime} `{LR : !GoRuntimeLaws R}.

Lemma insert_all_list_to_map (l : list (string * A)) :
  NoDup l.*1 -> insert_all l ∅ = list_to_map l.
Proof.
  intros Hnd. apply map_eq. intros k. rewrite insert_all_lookup by done.
  destruct (list_to_map l !! k) eqn:E; by rewrite ?E, ?lookup_empty.
Qed.

Lemma zip_fst_snd {X Y} (l : list (X * Y)) : zip l.*1 l.*2 = l.
Proof. induction l as [|[x y] l IH]; [done|]. cbn. by f_equal. Qed.

(** Loading what was exported gives the map back. *)
Lemma AddAll_ExportItems (q : ItemQueue A) :
  queue_wf q -> AddAll (ExportItems q) empty_queue = (mkQueue (pending q) [], Ret tt).
Proof.
  intros Hwf. unfold ExportItems. pose proof (map_range_perm (pending q)) as Hp.
  assert (NoDup (map_range (pending q)).*1) as Hnd by (rewrite Hp; apply NoDup_fst_map_to_list).
  rewrite (AddAll_ret (map_range (pending q)).*1).
  - cbn [pending onHold empty_queue]. rewrite zip_fst_snd, insert_all_list_to_map by done.
    f_equal. f_equal. rewrite <- (list_to_map_to_list (pending q)) at 2. by apply list_to_map_proper.
  - apply Forall2_fmap_l, Forall2_fmap_r, Forall_Forall2_diag, Forall_forall. intros [k a] Hin.
    rewrite Hp in Hin. apply elem_of_map_to_list in Hin. by apply Hwf.
Qed.

Lemma load_queue_ExportItems (o : option (list A)) (q : ItemQueue A) :
  queue_wf q -> default [] o = ExportItems q -> load_queue o empty_queue = (mkQueue (pending q) [], Ret tt).
Proof.
  intros Hwf Ho. rewrite <- (AddAll_ExportItems q Hwf). destruct o as [l|]; cbn in *; [by subst|]. rewrite <- Ho. done.
Qed.

(** [flush] puts the on-hold requests under their indices and exports the lot. *)
Lemma flush_ret ks (q : ItemQueue A) :
  queue_wf q -> Forall2 (fun k a => Index a = Ret k) ks (onHold q) ->
  let q' := mkQueue (insert_all (zip ks (onHold q)) (pending q)) [] in
  flush q = (q', Ret (ExportItems q')) /\ queue_wf q'.
Proof.
  intros Hwf Hks q'. split.
  - unfold flush. unfold bind at 1. rewrite DumpQueue_ret. unfold bind.
    rewrite (AddAll_ret ks) by done. reflexivity.
  - subst q'. unfold queue_wf in *. cbn [pending]. revert Hwf. generalize (pending q).
    induction Hks as [|k a ks h Hk _ IH]; intros p Hwf; [exact Hwf|].
    cbn [zip zip_with]. unfold insert_all. cbn [fold_left fst snd]. apply (IH (<[k := a]> p)).
    intros j b [[<- <-]|[_ Hb]]%lookup_insert_Some; [done|]. by apply Hwf.
Qed.

Lemma insert_all_is_Some kvs (m : gmap string A) k :
  is_Some (insert_all kvs m !! k) <-> k ∈ kvs.*1 \/ is_Some (m !! k).
Proof.
  revert m. induction kvs as [|[j a] kvs IH]; intros m; unfold insert_all; cbn [fold_left].
  - rewrite elem_of_nil. tauto.
  - unfold insert_all in IH. rewrite IH. cbn [fst snd fmap list_fmap]. rewrite elem_of_cons.
    destruct (decide (k = j)) as [->|Hne]; [rewrite lookup_insert_eq; naive_solver|].
    rewrite lookup_insert_ne by done. naive_solver.
Qed.
End Lemmas.

Section MoveFundLemmas.
Context `{R : GoRuntime} `{LR : !GoRuntimeLaws R}.

Lemma load_move_funds_export (q : gmap string MoveFundItem) :
  mf_keyed q -> load_move_funds (Some (ExportMoveFundItems q)) ∅ = q.
Proof.
  intros Hwf. unfold load_move_funds, ExportMoveFundItems. cbn [default].
  pose proof (map_range_perm q) as Hp. set (l := map_range q) in *.
  assert (NoDup l.*1) as Hnd by (rewrite Hp; apply NoDup_fst_map_to_list).
  assert (Forall (fun kv => kv.1 = move_key (mf_Height kv.2) (mf_ChainType kv.2)) l) as Hk.
  { rewrite Hp. apply Forall_forall. intros [k it] Hin%elem_of_map_to_list. by rewrite (Hwf _ _ Hin). }
  assert (forall m, fold_left (fun q item => fst (AddMoveFundItem (mf_PoolInfo item) (mf_Height item) (mf_ChainType item) q)) (map snd l) m
    = insert_all l m) as ->.
  { clear Hp Hnd. clearbody l. induction l as [|[k it] l IH]; intros m; [done|].
    apply Forall_cons in Hk as [Hk1 Hk]. cbn [map fold_left snd fst] in *.
    unfold insert_all. cbn [fold_left fst snd].
    rewrite AddMoveFundItem_eq. cbn [fst snd]. rewrite <- Hk1. destruct it; cbn. by apply IH. }
  rewrite insert_all_list_to_map by done. rewrite <- (list_to_map_to_list q). by apply list_to_map_proper.
Qed.
End MoveFundLemmas.

(** ** Properties *)

Section Properties.
Context `{FS : FileSystem} `{E : Eth} `{LE : !EthLaws E} `{R : GoRuntime} `{LR : !GoRuntimeLaws R}.
Context `{JO : JsonCodec OutBoundReq} `{JI : JsonCodec InBoundReq} `{JM : JsonCodec MoveFundItem}.
Context `{LO : !JsonCodecLaws OutBoundReq JO} `{LI : !JsonCodecLaws InBoundReq JI} `{LM : !JsonCodecLaws MoveFundItem JM}.
#[local] Notation Files := (gmap string bytes).

Lemma load_saved {A} `{J : JsonCodec A} `{LJ : !JsonCodecLaws A J} folder file (l : list A) b (files : Files) :
  (1 <= String.length folder)%nat -> Marshal l = Ret b -> files !! path_Join folder file = Some b ->
  exists o, load folder file files = (files, Ret (o, None)) /\ default [] o = l.
Proof.
  intros Hf Hm Hb. destruct (Unmarshal_Marshal l b Hm) as (o & Ho & Hd). exists o. split; [|done].
  unfold load. destruct (Nat.ltb_spec (String.length folder) 1) as [|_]; [lia|].
  unfold bind, try, ReadFile, get, bind. rewrite Hb. cbn [ret ocatch]. unfold ret. cbn. by rewrite Ho.
Qed.

(** Fact (nothing is lost across a restart). When the three files can be
    written, the state that the next start loads from them is the state at the
    shutdown: each map holds what it held together with the on-hold requests
    under their indices, the on-hold queues are empty and the pending fund
    movements are all there. *)
Theorem restart_preserves folder (st : Saved) (files : Files) kso ksi bo bi bm :
  let qo := mkQueue (insert_all (zip kso (onHold (s_out st))) (pending (s_out st))) [] in
  let qi := mkQueue (insert_all (zip ksi (onHold (s_in st))) (pending (s_in st))) [] in
  (1 <= String.length folder)%nat ->
  (forall f, WriteFile_ok f = true) -> (forall f g, path_Join folder f = path_Join folder g -> f = g) ->
  queue_wf (s_out st) -> queue_wf (s_in st) -> mf_keyed (s_mf st) ->
  Forall2 (fun k a => OutBoundReq_Index a = Ret k) kso (onHold (s_out st)) ->
  Forall2 (fun k a => InBoundReq_Index a = k) ksi (onHold (s_in st)) ->
  Marshal (ExportItems qo) = Ret bo -> Marshal (ExportItems qi) = Ret bi ->
  Marshal (ExportMoveFundItems (s_mf st)) = Ret bm ->
  exists files', shutdown folder st files = (files', Ret tt) /\
    restore folder files' (mkSaved empty_queue empty_queue ∅) = (mkSaved qo qi (s_mf st), Ret tt).
Proof.
  intros qo qi Hf Hw Hj Hwo Hwi Hwm Hko Hki Hbo Hbi Hbm.
  assert (Forall2 (fun k a => Index a = Ret k) ksi (onHold (s_in st))) as Hki'.
  { eapply Forall2_impl; [exact Hki|]. intros k a <-. reflexivity. }
  destruct (flush_ret kso (s_out st) Hwo Hko) as [Hfo Hqo]. destruct (flush_ret ksi (s_in st) Hwi Hki') as [Hfi Hqi].
  fold qo in Hfo, Hqo. fold qi in Hfi, Hqi.
  set (files' := <[path_Join folder "movefundpending_pub.dat" := bm]>
    (<[path_Join folder "inboundtx.dat" := bi]> (<[path_Join folder "outboundtx.dat" := bo]> files))).
  exists files'. split.
  - unfold shutdown. rewrite Hfo, Hfi.
    unfold SaveOutBoundState, SaveInBoundState, SavePendingItems, save, WriteFile.
    rewrite Hbo, Hbi, Hbm, !Hw. reflexivity.
  - assert (forall f g, f <> g -> path_Join folder f <> path_Join folder g) as Hne by (intros f g Hfg H; by apply Hfg, Hj).
    destruct (load_saved folder "outboundtx.dat" _ bo files' Hf Hbo) as (oo & Hlo & Hdo).
    { unfold files'. by rewrite !lookup_insert_ne, lookup_insert_eq by (apply Hne; discriminate). }
    destruct (load_saved folder "inboundtx.dat" _ bi files' Hf Hbi) as (oi & Hli & Hdi).
    { unfold files'. by rewrite lookup_insert_ne, lookup_insert_eq by (apply Hne; discriminate). }
    assert (exists om, LoadPendingItems folder files' = (files', Ret (om, None)) /\ default [] om = ExportMoveFundItems (s_mf st)) as (om & Hlm & Hdm).
    { destruct (Unmarshal_Marshal _ _ Hbm) as (om & Ho & Hd). exists om. split; [|done].
      unfold LoadPendingItems. destruct (Nat.ltb_spec (String.length folder) 1) as [|_]; [lia|].
      unfold bind, try, ReadFile, get, bind, files'. rewrite lookup_insert_eq. cbn [ret ocatch]. unfold ret. cbn. by rewrite Ho. }
    unfold restore, LoadOutBoundState, LoadInBoundState. rewrite Hlo. cbn [s_out s_in s_mf].
    rewrite (load_queue_ExportItems oo qo Hqo Hdo). rewrite Hli.
    rewrite (load_queue_ExportItems oi qi Hqi Hdi). rewrite Hlm.
    assert (load_move_funds om ∅ = s_mf st) as ->; [|done].
    transitivity (load_move_funds (Some (ExportMoveFundItems (s_mf st))) ∅); [|by apply load_move_funds_export].
    unfold load_move_funds. cbn [default]. by rewrite Hdm.
Qed.
End Properties.

(** ** Witnesses *)

(** A codec that knows one list. *)
#[local] Definition table_codec {A} `{EqDecision A} (l0 : list A) : JsonCodec A := {|
  Marshal := fun l => if decide (l = l0) then Ret [Byte.x5b] else Fail "unsupported value";
  Unmarshal := fun b => if decide (b = [Byte.x5b]) then (Some l0, None) else (None, Some "invalid character");
|}.

#[local] Instance table_codec_laws {A} `{EqDecision A} (l0 : list A) : JsonCodecLaws A (table_codec l0).
Proof.
  split. intros l b. cbn. destruct (decide (l = l0)) as [->|]; [|done]. intros [= <-].
  exists (Some l0). by rewrite decide_True.
Qed.

#[local] Definition fs_ref : FileSystem := {| WriteFile_ok := fun _ => true; path_Join := fun d f => (d ++ "/" ++ f)%string |}.

Section Witnesses.
#[local] Existing Instance eth_ref.
#[local] Existing Instance go_runtime_ref.
#[local] Existing Instance fs_ref.

#[local] Definition held : InBoundReq := NewAccountInboundReq [Byte.x01] [] (mkCoin "abnb" 3) [Byte.x02] 10.
#[local] Definition waiting : InBoundReq := NewAccountInboundReq [Byte.x01] [] (mkCoin "abnb" 4) [Byte.x03] 11.
#[local] Definition saved1 : Saved :=
  mkSaved empty_queue (mkQueue {[ InBoundReq_Index waiting := waiting ]} [held])
    {[ move_key 7 "BSC" := mkMoveFundItem None "BSC" 7 ]}.
#[local] Definition both_in : ItemQueue InBoundReq :=
  mkQueue (insert_all [(InBoundReq_Index held, held)] (pending (s_in saved1))) [].

Lemma restart_preserves_witness :
  let _ := table_codec (@nil OutBoundReq) in
  let _ := table_codec (ExportItems both_in) in
  let _ := table_codec [mkMoveFundItem None "BSC" 7] in
  exists files', shutdown "home" saved1 ∅ = (files', Ret tt) /\
    restore "home" files' (mkSaved empty_queue empty_queue ∅) = (mkSaved empty_queue both_in (s_mf saved1), Ret tt).
Proof.
  intros JO JI JM.
  apply (restart_preserves (JO := JO) (JI := JI) (JM := JM) "home" saved1 ∅ [] [InBoundReq_Index held] [Byte.x5b] [Byte.x5b] [Byte.x5b]).
  - vm_compute. lia.
  - reflexivity.
  - intros f g H. cbn [path_Join fs_ref] in H. injection H as H. exact H.
  - intros k a H. cbn in H. rewrite lookup_empty in H. discriminate H.
  - intros k a H. cbn [pending s_in saved1] in H. apply lookup_singleton_Some in H as [<- <-]. reflexivity.
  - intros k it H. cbn [s_mf saved1] in H. apply lookup_singleton_Some in H as [<- <-]. reflexivity.
  - constructor.
  - constructor; [reflexivity|constructor].
  - vm_compute. reflexivity.
  - cbn [Marshal JI table_codec]. rewrite decide_True; reflexivity.
  - vm_compute. reflexivity.
Defined.
End Witnesses.
