(* ===== verification/Tools.v ===== *)
(** * The generator of test deposits: cmd/tools/generate_test_inbound.go

    Loads the first saved deposit, makes a hundred like it at random heights
    and in random denominations, prints the totals and saves them all. *)

From Stdlib Require Import Ascii String.
From S2P Require Import Prelude GoLib Sdk Requests ItemQueue MoveFundQueue Storage.

#[local] Open Scope string_scope.
#[local] Open Scope Z_scope.
#[local] Open Scope go_scope.

(** ** Definitions *)

(** [math/rand] and the SHA-256 of tendermint. *)
Class Rand (G : Type) := {
  Intn : Z -> M G Z;
  Int63n : Z -> M G Z;
}.

Class RandLaws (G : Type) `{Rand G} : Prop := {
  (** both panic unless the bound is positive *)
  Intn_range : forall n g g' z, Intn n g = (g', Ret z) -> 0 <= z < n;
  Int63n_range : forall n g g' z, Int63n n g = (g', Ret z) -> 0 <= z < n;
}.

Section Generator.
Context {G : Type} `{RG : Rand G} `{B : Bech32} `{E : Eth} `{FS : FileSystem} `{JI : JsonCodec InBoundReq}.
Context (Sha256 : bytes -> bytes).

Definition names : list string := ["abnb"; "abusd"].

(** [Amount.Int64()] panics out of range. *)
Definition Int_Int64 (amount : Z) : outcome Z :=
  if (MinInt64 <=? amount) && (amount <=? MaxInt64) then Ret amount else Panic.

(** The loop that draws a height; [None]: it is still drawing. *)
Fixpoint draw_height (fuel : nat) (blockHeight : Z) : M G (option Z) :=
  match fuel with
  | O => ret None
  | Datatypes.S fuel =>
      let! height := Int63n blockHeight in
      if 100 <? height then ret (Some height) else draw_height fuel blockHeight
  end.

(** One round of the loop: the request it makes. *)
Definition make_item (fuel : nat) (first : InBoundReq) (i : nat) : M G (option InBoundReq) :=
  let! acc := try (lift (AccAddressFromBech32 (AccAddress_String (UserReceiverAddress first)))) in
  match acc with
  | inr _ => panic
  | inl acc =>
      let! n := Intn 2 in
      match names !! Z.to_nat n with
      | None => panic
      | Some denom =>
          let coin := mkCoin denom (Amount (ib_Coin first)) in
          let txID := Sha256 (bytes_of_string (FormatInt (Z.of_nat i))) in
          let! height := draw_height fuel (ib_BlockHeight first) in
          ret (match height with
            | None => None
            | Some height => Some (NewAccountInboundReq acc (ToPoolAddr first) coin txID height)
            end)
      end
  end.

(** What the loop has made so far, and the totals in int64. *)
Record Made := mkMade { exportedInboundReq : list InBoundReq; balance : gmap string Z }.

Definition add_made (item : InBoundReq) (amount : Z) (m : Made) : Made :=
  let denom := Denom (ib_Coin item) in
  mkMade (exportedInboundReq m ++ [item])
    (match balance m !! denom with
     | None => <[denom := amount]> (balance m)
     | Some current => <[denom := i64 (current + amount)]> (balance m)
     end).

Fixpoint make_items (fuel : nat) (first : InBoundReq) (n i : nat) (m : Made) : M G (option Made) :=
  match n with
  | O => ret (Some m)
  | Datatypes.S n =>
      let! item := make_item fuel first i in
      match item with
      | None => ret None
      | Some item =>
          let! amount := lift (Int_Int64 (Amount (ib_Coin item))) in
          make_items fuel first n (Datatypes.S i) (add_made item amount m)
      end
  end.

(** From the first loaded request; the error of saving is not looked at. *)
Definition main (fuel : nat) : M (G * gmap string bytes) (option Made) := fun '(g, files) =>
  match LoadInBoundState "./" files with
  | (files, Ret (Some (first :: _), _)) =>
      match Int_Int64 (Amount (ib_Coin first)) with
      | Ret amount =>
          match make_items fuel first 100 0 (mkMade [first] {[ Denom (ib_Coin first) := amount ]}) g with
          | (g, Ret (Some m)) =>
              match try (SaveInBoundState "./" (exportedInboundReq m)) files with
              | (files, Panic) => ((g, files), Panic)
              | (files, _) => ((g, files), Ret (Some m))
              end
          | (g, r) => ((g, files), r)
          end
      | _ => ((g, files), Panic)
      end
  | (files, _) => ((g, files), Panic)
  end.
End Generator.

(** ** Lemmas *)

Section Lemmas.
Context {G : Type} `{RG : Rand G} `{RL : !RandLaws G} `{B : Bech32} `{E : Eth} (Sha256 : bytes -> bytes).

(** The total of a denomination. *)
Fixpoint total (denom : string) (l : list InBoundReq) : Z :=
  match l with
  | [] => 0
  | a :: l => (if bool_decide (Denom (ib_Coin a) = denom) then Amount (ib_Coin a) else 0) + total denom l
  end.

Lemma total_app denom l1 l2 : total denom (l1 ++ l2) = total denom l1 + total denom l2.
Proof. induction l1 as [|a l1 IH]; cbn; [done|]. rewrite IH. lia. Qed.

Lemma i64_add_l a b : i64 (i64 a + b) = i64 (a + b).
Proof.
  unfold i64, two63, two64. f_equal.
  replace ((a + 9223372036854775808) mod 18446744073709551616 - 9223372036854775808 + b + 9223372036854775808)
    with ((a + 9223372036854775808) mod 18446744073709551616 + b) by lia.
  rewrite Zplus_mod_idemp_l. f_equal. lia.
Qed.

(** The totals are those of the requests, in int64. *)
Definition balanced (m : Made) : Prop := forall d, default 0 (balance m !! d) = i64 (total d (exportedInboundReq m)).

Lemma add_made_balanced item m : in_i64 (Amount (ib_Coin item)) -> balanced m -> balanced (add_made item (Amount (ib_Coin item)) m).
Proof.
  intros Hi Hm d. unfold add_made. cbn [exportedInboundReq balance]. rewrite total_app. cbn [total]. rewrite Z.add_0_r.
  pose proof (Hm (Denom (ib_Coin item))) as Hd. destruct (decide (Denom (ib_Coin item) = d)) as [<-|Hne].
  - rewrite bool_decide_true by done. rewrite <- i64_add_l, <- Hd.
    destruct (balance m !! _) as [c|] eqn:Ec; rewrite lookup_insert_eq; cbn [default]; [done|]. by rewrite Z.add_0_l, i64_small.
  - rewrite bool_decide_false, Z.add_0_r by done. rewrite <- Hm. destruct (balance m !! Denom _); by rewrite lookup_insert_ne.
Qed.

Lemma Int_Int64_ret z z' : Int_Int64 z = Ret z' -> z' = z /\ in_i64 z.
Proof. unfold Int_Int64. destruct (_ && _) eqn:Ez; [|done]. intros [= <-]. bool_to_prop. split; [done|]. unfold in_i64. lia. Qed.

Lemma make_items_made fuel first n i m m' (g g' : G) : make_items Sha256 fuel first n i m g = (g', Ret (Some m')) -> balanced m ->
  balanced m' /\ exists l, exportedInboundReq m' = (exportedInboundReq m ++ l)%list /\ length l = n /\
    Forall (fun a => Amount (ib_Coin a) = Amount (ib_Coin first)) l.
Proof.
  revert i m g. induction n as [|n IH]; intros i m g; cbn [make_items].
  - unfold ret. intros [= <- <-] Hm. split; [done|]. exists []. by rewrite app_nil_r.
  - intros (g1 & [item|] & H1 & H)%bind_ret_inv Hm; [|by unfold ret in H].
    apply bind_ret_inv in H as (g2 & amount & H2 & H). unfold lift in H2.
    destruct (Int_Int64 _) as [z|e|] eqn:Ez; try discriminate. injection H2 as <- <-. apply Int_Int64_ret in Ez as [-> Hr].
    destruct (IH _ _ _ H) as (Hb & l & Hl & Hn & Hf); [by apply add_made_balanced|]. split; [done|].
    exists (item :: l). cbn [add_made exportedInboundReq] in Hl. rewrite Hl, <- app_assoc. split; [done|]. split; [cbn; by rewrite Hn|].
    constructor; [|done]. unfold make_item in H1. apply bind_ret_inv in H1 as (g3 & acc & _ & H1). destruct acc as [acc|e]; [|done].
    apply bind_ret_inv in H1 as (g4 & k & _ & H1). destruct (names !! _) as [denom|]; [|done].
    apply bind_ret_inv in H1 as (g5 & h & _ & H1). destruct h as [h|]; unfold ret in H1; by simplify_eq.
Qed.

(** For a deposit of height 101 or less the loop never finds a height. *)
Lemma draw_height_low fuel h (g g' : G) r : h <= 101 -> draw_height fuel h g = (g', Ret r) -> r = None.
Proof using RL.
  intros Hh. revert g. induction fuel as [|fuel IH]; intros g; cbn [draw_height]; [unfold ret; by intros [= _ <-]|].
  intros (g1 & z & H1 & H)%bind_ret_inv. apply Int63n_range in H1. destruct (Z.ltb_spec 100 z); [lia|]. by eapply IH.
Qed.
End Lemmas.

(** ** Properties *)

Section Properties.
Context {G : Type} `{RG : Rand G} `{RL : !RandLaws G} `{B : Bech32} `{E : Eth} `{FS : FileSystem} `{JI : JsonCodec InBoundReq}.
Context `{LI : !JsonCodecLaws InBoundReq JI} (Sha256 : bytes -> bytes).

(** Fact (the generator). When it ends it has made a hundred requests of the
    amount of the first, which it keeps, and the totals it prints are those of
    all of them. *)
Theorem generator_totals fuel (s s' : G * gmap string bytes) m : main Sha256 fuel s = (s', Ret (Some m)) ->
  length (exportedInboundReq m) = 101%nat /\ balanced m /\
  exists first, head (exportedInboundReq m) = Some first /\
    Forall (fun a => Amount (ib_Coin a) = Amount (ib_Coin first)) (exportedInboundReq m).
Proof.
  destruct s as [g files]. unfold main. destruct (LoadInBoundState _ _) as [f1 [[[[|first rest]|] e]|e|]]; try discriminate.
  destruct (Int_Int64 _) as [amount|e1|] eqn:Ea; try discriminate. apply Int_Int64_ret in Ea as [-> Hr].
  destruct (make_items _ _ _ _ _ _ _) as [g1 [[m1|]|e2|]] eqn:Em; try discriminate.
  intros H. assert (m1 = m) as -> by (destruct (try _ _) as [f2 [r|e3|]]; by simplify_eq). clear H.
  destruct (make_items_made _ _ _ _ _ _ _ _ _ Em) as (Hb & l & Hl & Hn & Hf).
  { intros d. cbn [balance exportedInboundReq total]. rewrite Z.add_0_r. destruct (decide (Denom (ib_Coin first) = d)) as [<-|Hne].
    - rewrite lookup_singleton_eq, bool_decide_true by done. cbn. by rewrite i64_small.
    - by rewrite lookup_singleton_ne, bool_decide_false. }
  cbn [exportedInboundReq app] in Hl. split; [rewrite Hl; cbn; by rewrite Hn|]. split; [done|]. exists first. rewrite Hl. split; [done|]. by constructor.
Qed.

(** Fact (the generator may not end). For a saved deposit of height 101 or
    less no number of draws is enough. *)
Theorem generator_hangs fuel first i (g g' : G) r : ib_BlockHeight first <= 101 ->
  make_item Sha256 fuel first i g = (g', Ret r) -> r = None.
Proof.
  intros Hh H. unfold make_item in H. apply bind_ret_inv in H as (g3 & acc & _ & H). destruct acc as [acc|e]; [|done].
  apply bind_ret_inv in H as (g4 & k & _ & H). destruct (names !! _) as [denom|]; [|done].
  apply bind_ret_inv in H as (g5 & h & H5 & H). apply draw_height_low in H5; [|done]. subst h. unfold ret in H. by simplify_eq.
Qed.
End Properties.
