(* ===== verification/Processing.v ===== *)
(** * Processing batches: processInbound, processEachOutBound and the two
    put-back routines of bridge/bridge_service.go

    The goroutines each routine starts per request only share queues behind a
    lock and a counter; they are run one after another here, in the order the
    source ranges over the requests.  The signing round between the workers
    and the collector of [processEachOutBound] is the step relation of
    Keysign.v; its outcome, the map broadcast to the workers, is the argument
    [resp] of [outbound_round], and [sign_round] is the collector's part after
    the messages are in. *)

From Stdlib Require Import Ascii String.
From S2P Require Import Prelude GoLib Sdk Requests ItemQueue Signature Pools PubClient Keysign TxSend MoveFund Validators CosTx.

#[local] Open Scope string_scope.
#[local] Open Scope Z_scope.
#[local] Open Scope go_scope.

(** ** Definitions *)

(** The joltify node as the service calls it: dialling, the record of a token
    issue, and the transactions reported for an outbound request. *)
Class JoltService (W : Type) := {
  DialGrpc : M W unit;
  queryGivenToeknIssueTx : string -> M W (option bytes);
  queryOutboundTx : string -> M W (gmap string Entries);
}.

Definition i32 (z : Z) : Z := (z + 2147483648) mod 4294967296 - 2147483648.

(** *** Minting *)

Record MintState (W : Type) := mkMintState {
  m_node : W;
  mint_q : ItemQueue InBoundReq;
  failedInbound : Z;
  inBoundWait : bool;
}.
Arguments mkMintState {W}. Arguments m_node {W}. Arguments mint_q {W}. Arguments failedInbound {W}. Arguments inBoundWait {W}.

Section Mint.
Context {W Msg : Type} `{CN : CosmosNode W Msg} `{T : TssServer W} `{JS : JoltService W} `{S : SdkMath} `{N : SdkCoins} `{B : Bech32} `{E : Eth}.
Context `{K : Backoff} `{R : GoRuntime}.
#[local] Notation MS := (MintState W).

Definition on_mnode {A} (m : M W A) : M MS A := fun s =>
  let '(w, r) := m (m_node s) in (mkMintState w (mint_q s) (failedInbound s) (inBoundWait s), r).
Definition on_mq {A} (m : M (ItemQueue InBoundReq) A) : M MS A := fun s =>
  let '(q, r) := m (mint_q s) in (mkMintState (m_node s) q (failedInbound s) (inBoundWait s), r).
Definition set_failedIn (f : Z -> Z) : M MS unit :=
  modify (fun s => mkMintState (m_node s) (mint_q s) (f (failedInbound s)) (inBoundWait s)).

(** The query as [CheckWhetherAlreadyExist] uses it: an error is an answer. *)
Definition issue_query (index : string) : M W (outcome (option bytes)) := fun w =>
  match queryGivenToeknIssueTx index w with
  | (w', Panic) => (w', Panic)
  | (w', r) => (w', Ret r)
  end.

Definition already_exists (index : string) : M W bool :=
  let! r := issue_query index in ret (CheckWhetherAlreadyExist r).

Fixpoint not_yet_minted (items : list InBoundReq) : M W (list InBoundReq) :=
  match items with
  | [] => ret []
  | item :: items =>
      let! b := already_exists (Hash_Hex (InBoundReq_Hash item)) in
      let! rest := not_yet_minted items in
      ret (if b then rest else item :: rest)
  end.

Definition by_hash (items : list InBoundReq) : gmap string InBoundReq :=
  fold_left (fun m el => <[Hash_Hex (InBoundReq_Hash el) := el]> m) items ∅.

(** One goroutine of the last loop.  [itemsMap[eachIndex]] is there for every
    key [DoProcessInBound] returns. *)
Definition check_minted (itemsMap : gmap string InBoundReq) (eachIndex : string) : M MS unit :=
  let! d := try (on_mnode DialGrpc) in
  match d with
  | inr _ => ret tt
  | inl _ =>
      let! r := try (on_mnode (Validators.CheckTxStatus issue_query eachIndex 20)) in
      match r with
      | inl _ => set_failedIn (fun _ => 0)
      | inr _ =>
          let! s := get in
          do! (if inBoundWait s then ret tt else set_failedIn (fun n => i32 (n + 1))) in
          match itemsMap !! eachIndex with
          | Some item => on_mq (AddOnHoldQueue item)
          | None => panic
          end
      end
  end.

Definition processInbound (items : list InBoundReq) : M MS unit :=
  let! d := try (on_mnode DialGrpc) in
  match d with
  | inr _ => ret tt
  | inl _ =>
      let itemsMap := by_hash items in
      let! needToBeProcessed := on_mnode (not_yet_minted items) in
      match needToBeProcessed with
      | [] => set_failedIn (fun _ => 0)
      | _ =>
          let! r := try (on_mnode (DoProcessInBound needToBeProcessed)) in
          match r with
          | inr _ => forM items (fun el => on_mq (AddOnHoldQueue el))
          | inl hashIndexMap => forM (map fst (map_range hashIndexMap)) (check_minted itemsMap)
          end
      end
  end.

Definition putOnHoldBlockInBoundBack : M MS unit :=
  let! d := try (on_mnode DialGrpc) in
  match d with
  | inr _ => ret tt
  | inl _ =>
      let! itemInbound := on_mq DumpQueue in
      forM itemInbound (fun each =>
        let! r := try (on_mnode (Validators.CheckTxStatus issue_query (Hash_Hex (InBoundReq_Hash each)) 2)) in
        match r with
        | inl _ => ret tt
        | inr _ => on_mq (AddItem each)
        end)
  end.
End Mint.

(** *** Paying out *)

Record PayState (W J C : Type) := mkPayState {
  p_chain : ChainInfo W C;
  p_jolt : J;                       (* the joltify node *)
  pay_q : ItemQueue OutBoundReq;
  failedOutbound : Z;
  outBoundWait : bool;
}.
Arguments mkPayState {W J C}. Arguments p_chain {W J C}. Arguments p_jolt {W J C}. Arguments pay_q {W J C}.
Arguments failedOutbound {W J C}. Arguments outBoundWait {W J C}.

Section Pay.
Context {W J C Msg : Type} `{EC : EthClient W C} `{TW : TssServer W} `{CN : CosmosNode J Msg} `{TJ : TssServer J} `{JS : JoltService J}.
Context `{G : EthSigner} `{S : SdkMath} `{N : SdkCoins} `{B : Bech32} `{E : Eth} `{K : Backoff} `{R : GoRuntime}.
(** How often the nonce is waited for and how often the record is submitted:
    the exponential backoffs are bounded by time in the source. *)
Context (attempts submits : nat) (HexToHash : string -> bytes).
#[local] Notation PS := (PayState W J C).

Definition on_pchain {A} (m : M (ChainInfo W C) A) : M PS A := fun s =>
  let '(c, r) := m (p_chain s) in (mkPayState c (p_jolt s) (pay_q s) (failedOutbound s) (outBoundWait s), r).
Definition on_pjolt {A} (m : M J A) : M PS A := fun s =>
  let '(j, r) := m (p_jolt s) in (mkPayState (p_chain s) j (pay_q s) (failedOutbound s) (outBoundWait s), r).
Definition on_pq {A} (m : M (ItemQueue OutBoundReq) A) : M PS A := fun s =>
  let '(q, r) := m (pay_q s) in (mkPayState (p_chain s) (p_jolt s) q (failedOutbound s) (outBoundWait s), r).
Definition set_failedOut (f : Z -> Z) : M PS unit :=
  modify (fun s => mkPayState (p_chain s) (p_jolt s) (pay_q s) (f (failedOutbound s)) (outBoundWait s)).

Definition submitted_query (v : ValidatorSet) (req : OutBoundReq) : M J string := fun j =>
  match OutBoundReq_Hash req with
  | Ret h => let '(j', r) := queryOutboundTx (Hash_Hex h) j in (j', GetPubChainSubmittedTx (fun _ => r) v req)
  | _ => (j, Panic)
  end.

(** The first loop: what still needs processing. *)
Definition needs_processing (v : ValidatorSet) (each : OutBoundReq) : M PS bool :=
  let! r := try (on_pjolt (submitted_query v each)) in
  match r with
  | inr _ => ret true
  | inl submittedTx =>
      if negb (bool_decide (submittedTx = "")) then
        let! r := try (on_pchain (PubClient.CheckTxStatus HexToHash submittedTx)) in
        match r with
        | inl _ => ret false
        | inr _ => ret true
        end
      else ret false
  end.

Fixpoint to_process (v : ValidatorSet) (items : list OutBoundReq) : M PS (list OutBoundReq) :=
  match items with
  | [] => ret []
  | el :: items =>
      let! b := needs_processing v el in
      let! rest := to_process v items in
      ret (if b then el :: rest else rest)
  end.

(** The closure [op] that records a payment on the joltify chain. *)
Definition submit_record (GetPool : list (option PoolInfo)) (item : OutBoundReq) (txHash : string) : M J unit :=
  do! DialGrpc in
  match GetPool !! 1%nat with
  | Some (Some pool) =>
      match ParseInt64 (vp_BlockHeight (pi_PoolInfo pool)) with
      | Ret poolCreateHeight =>
          let! h := lift (OutBoundReq_Hash item) in
          SubmitOutboundTx None (Hash_Hex h) poolCreateHeight txHash (FeeToValidator item) (Requests.ChainType item)
            (TxID item) (OutReceiverAddress item) (NeedMint item)
      | _ => panic
      end
  | _ => panic
  end.

(** One worker of the second loop. *)
Definition outbound_worker (GetPool : list (option PoolInfo)) (resp : option (gmap string bytes)) (index : nat)
    (item : OutBoundReq) : M PS unit :=
  let '(toAddr, fromAddr, tokenAddr, amount, nonce) := GetOutBoundInfo item in
  let! r := on_pchain (on_send (ProcessOutBound attempts index toAddr fromAddr tokenAddr amount nonce resp)) in
  let '(txHash, _) := r in
  let! checked := (if negb (bool_decide (txHash = Hash_Hex zero_hash))
    then let! c := try (on_pchain (PubClient.CheckTxStatus HexToHash txHash)) in
         ret (match c with inl _ => true | inr _ => false end)
    else ret false) in
  if checked then
    do! set_failedOut (fun _ => 0) in
    do! try (on_pjolt (Retry submits (submit_record GetPool item txHash))) in
    ret tt
  else
    let! s := get in
    do! (if outBoundWait s then ret tt else set_failedOut (fun n => i32 (n + 1))) in
    on_pq (AddOnHoldQueue (SetSubmittedTxHash txHash item)).

Fixpoint outbound_workers (GetPool : list (option PoolInfo)) (resp : option (gmap string bytes)) (index : nat)
    (items : list OutBoundReq) : M PS unit :=
  match items with
  | [] => ret tt
  | item :: items =>
      do! outbound_worker GetPool resp index item in
      outbound_workers GetPool resp (Datatypes.S index) items
  end.

(** The collector after the messages are in; nil when it could not sign. *)
Definition sign_round (lastPool : PoolInfo) (received : gmap nat bytes) : M (ChainInfo W C) (option (gmap string bytes)) :=
  let allsignMSgs := batch received in
  let! latest := try (GetBlockByNumberWithLock None) in
  match latest with
  | inr _ => ret None
  | inl latest =>
      let blockHeight := Z.quot (i64 (NumberU64 latest)) ROUNDBLOCK in
      let! signature := try (on_node (TssSignBatch allsignMSgs (Pk lastPool) blockHeight)) in
      ret (match signature with inl m => m | inr _ => None end)
  end.

Definition outbound_round (GetPool : list (option PoolInfo)) (v : ValidatorSet) (resp : option (gmap string bytes))
    (items : list OutBoundReq) : M PS unit :=
  let! needToBeProcessed := to_process v items in
  match needToBeProcessed with
  | [] => set_failedOut (fun _ => 0)
  | _ => outbound_workers GetPool resp 0 needToBeProcessed
  end.

(** [chainInfo] is the chain whose block is being processed. *)
Definition put_back_one (each : OutBoundReq) : M PS unit :=
  if bool_decide (SubmittedTxHash each = Hash_Hex zero_hash) then on_pq (AddItem each)
  else
    let! r := try (on_pchain (PubClient.CheckTxStatus HexToHash (SubmittedTxHash each))) in
    match r with
    | inr _ => on_pq (AddItem each)
    | inl _ => ret tt
    end.

Definition putOnHoldBlockOutBoundBack : M PS unit :=
  let! d := try (on_pjolt DialGrpc) in
  match d with
  | inr _ => ret tt
  | inl _ =>
      let! itemsOutBound := on_pq DumpQueue in
      forM itemsOutBound put_back_one
  end.
End Pay.

(** ** Lemmas *)

Section MintLemmas.
Context {W Msg : Type} `{CN : CosmosNode W Msg} `{T : TssServer W} `{JS : JoltService W} `{S : SdkMath} `{N : SdkCoins} `{B : Bech32} `{E : Eth}.
Context `{K : Backoff} `{KL : !BackoffLaws K} `{R : GoRuntime} `{LR : !GoRuntimeLaws R}.
#[local] Notation MS := (MintState W).

(** At some moment the node reported the token issue of this index. *)
Definition minted (index : string) : Prop :=
  exists (w w' : W) record, queryGivenToeknIssueTx index w = (w', Ret (Some record)).

Definition in_hash (a : InBoundReq) : string := Hash_Hex (InBoundReq_Hash a).

Lemma already_exists_minted index (w w' : W) : already_exists index w = (w', Ret true) -> minted index.
Proof.
  unfold already_exists, bind, issue_query, ret.
  destruct (queryGivenToeknIssueTx index w) as [w1 [[rec|]|e|]] eqn:Eq; intros [= <-]. by exists w, w1, rec.
Qed.

Lemma not_yet_minted_spec items (w w' : W) l :
  not_yet_minted items w = (w', Ret l) ->
  (forall a, a ∈ l -> a ∈ items) /\ (forall a, a ∈ items -> a ∈ l \/ minted (in_hash a)).
Proof.
  revert w l. induction items as [|item items IH]; intros w l; cbn [not_yet_minted].
  - unfold ret. intros [= <- <-]. split; [done|]. by intros a ?%not_elem_of_nil.
  - intros (w1 & b & H1 & H)%bind_ret_inv. apply bind_ret_inv in H as (w2 & rest & H2 & H).
    unfold ret in H. injection H as <- <-. destruct (IH _ _ H2) as [Hs Hc]. destruct b.
    + apply already_exists_minted in H1. split; [intros a Ha; right; auto|].
      intros a [->|Ha]%elem_of_cons; [by right|auto].
    + split; [intros a [->|Ha]%elem_of_cons; [left|right; auto]|].
      intros a [->|Ha]%elem_of_cons; [left; left|]. destruct (Hc a Ha); [left; by right|by right].
Qed.

Lemma CheckTxStatus_minted n index (w w' : W) :
  (0 < n)%nat -> Validators.CheckTxStatus issue_query index n w = (w', Ret tt) -> minted index.
Proof.
  intros Hn. unfold Validators.CheckTxStatus. rewrite Retry_spec by done. clear Hn.
  assert (forall w w', bind (issue_query index) (fun ret' => if CheckWhetherAlreadyExist ret' then ret tt else fail "fail to find the tx") w = (w', Ret tt) -> minted index) as Hop.
  { intros v v' (v1 & b & H1 & H)%bind_ret_inv.
    apply (already_exists_minted index v v1). unfold already_exists, bind. rewrite H1. unfold ret.
    destruct (CheckWhetherAlreadyExist b); [done|]. unfold fail in H. discriminate. }
  revert w. induction n as [|n IH]; intros w; cbn [retry_loop];
    destruct (bind _ _ w) as [w1 [[]|e|]] eqn:Eo; intros HH; simplify_eq; eauto.
Qed.

(** What running a node call leaves of the queue. *)
Lemma on_mnode_inv {A} (m : M W A) s s' r : on_mnode m s = (s', r) ->
  mint_q s' = mint_q s /\ exists w', m (m_node s) = (w', r) /\ m_node s' = w'.
Proof. unfold on_mnode. destruct (m (m_node s)) as [w' r'] eqn:Em. intros [= <- <-]. cbn. eauto. Qed.

Lemma check_minted_spec itemsMap index (s s' : MS) :
  (forall w : W, exists w', DialGrpc w = (w', Ret tt)) ->
  check_minted itemsMap index s = (s', Ret tt) ->
  (mint_q s' = mint_q s /\ minted index) \/
  exists item, itemsMap !! index = Some item /\ mint_q s' = mkQueue (pending (mint_q s)) (onHold (mint_q s) ++ [item]).
Proof.
  intros Hd. unfold check_minted. intros (s1 & d & H1 & H)%bind_ret_inv. apply try_ret_inv in H1.
  destruct (Hd (m_node s)) as [w1 Hw1].
  destruct d as [[]|e]; [|unfold on_mnode in H1; rewrite Hw1 in H1; discriminate].
  apply on_mnode_inv in H1 as [Hq1 _].
  apply bind_ret_inv in H as (s2 & r & H2 & H). apply try_ret_inv in H2. destruct r as [[]|e].
  - apply on_mnode_inv in H2 as (Hq2 & w2 & H2 & _). unfold set_failedIn, modify in H. injection H as <-. cbn [mint_q].
    left. split; [congruence|]. by eapply CheckTxStatus_minted; [|exact H2]; lia.
  - apply on_mnode_inv in H2 as (Hq2 & _). unfold bind at 1, get at 1 in H.
    apply bind_ret_inv in H as (s3 & [] & H3 & H).
    assert (mint_q s3 = mint_q s2) as Hq3.
    { destruct (inBoundWait s2); unfold ret, set_failedIn, modify in H3; by injection H3 as <-. }
    destruct (itemsMap !! index) as [item|]; [|done]. right. exists item. split; [done|].
    unfold on_mq, AddOnHoldQueue, modify in H. injection H as <-. cbn [mint_q]. by rewrite Hq3, Hq2, Hq1.
Qed.

Lemma check_all_spec itemsMap l (s s' : MS) :
  (forall w : W, exists w', DialGrpc w = (w', Ret tt)) ->
  forM l (check_minted itemsMap) s = (s', Ret tt) ->
  exists held, mint_q s' = mkQueue (pending (mint_q s)) (onHold (mint_q s) ++ held) /\
    (forall h, h ∈ held -> exists i, itemsMap !! i = Some h) /\
    (forall i, i ∈ l -> minted i \/ exists h, h ∈ held /\ itemsMap !! i = Some h).
Proof.
  intros Hd. revert s. induction l as [|i l IH]; intros s; cbn [forM].
  - unfold ret. intros [= <-]. exists []. rewrite app_nil_r. split; [by destruct (mint_q s)|].
    split; [by intros h ?%not_elem_of_nil|by intros i ?%not_elem_of_nil].
  - intros (s1 & [] & H1 & H)%bind_ret_inv. destruct (IH _ H) as (held & Hq & Hh & Hi).
    apply (check_minted_spec _ _ _ _ Hd) in H1 as [[Hq1 Hm]|(item & Hit & Hq1)]; rewrite Hq1 in Hq.
    + exists held. split; [done|]. split; [done|]. intros j [->|Hj]%elem_of_cons; [by left|auto].
    + exists (item :: held). cbn [pending onHold] in Hq. rewrite <- app_assoc in Hq. split; [done|]. split.
      * intros h [->|Hj]%elem_of_cons; [eauto|auto].
      * intros j [->|Hj]%elem_of_cons; [right; exists item; split; [left|done]|].
        destruct (Hi j Hj) as [?|(h & ? & ?)]; [by left|]. right. exists h. split; [by right|done].
Qed.

Lemma by_hash_spec items :
  (forall k a, by_hash items !! k = Some a -> a ∈ items /\ k = in_hash a) /\
  (forall a, a ∈ items -> is_Some (by_hash items !! in_hash a)).
Proof.
  unfold by_hash.
  assert (forall l (m : gmap string InBoundReq), let r := fold_left (fun m el => <[Hash_Hex (InBoundReq_Hash el) := el]> m) l m in
    (forall k a, r !! k = Some a -> (a ∈ l /\ k = in_hash a) \/ m !! k = Some a) /\
    (forall k, is_Some (m !! k) \/ (exists a, a ∈ l /\ k = in_hash a) -> is_Some (r !! k))) as Hf.
  { clear. induction l as [|x l IH]; intros m; cbn [fold_left].
    - split; [auto|]. intros k [?|(a & Ha & _)]; [done|]. by apply not_elem_of_nil in Ha.
    - destruct (IH (<[Hash_Hex (InBoundReq_Hash x) := x]> m)) as [H1 H2]. split.
      + intros k a Hk. destruct (H1 k a Hk) as [[Ha ->]|Hm]; [left; split; [by right|done]|].
        apply lookup_insert_Some in Hm as [[<- <-]|[_ Hm]]; [left; split; [left|done]|by right].
      + intros k Hk. apply H2. destruct (decide (k = in_hash x)) as [->|Hne].
        * left. unfold in_hash. rewrite lookup_insert_eq. eauto.
        * destruct Hk as [Hk|(a & [->|Ha]%elem_of_cons & ->)]; [left; by rewrite lookup_insert_ne|done|right; eauto]. }
  destruct (Hf items ∅) as [H1 H2]. split.
  - intros k a Hk. destruct (H1 k a Hk) as [?|Hm]; [done|]. by apply lookup_empty_Some in Hm.
  - intros a Ha. apply H2. right. eauto.
Qed.

(** The keys of the answer are the hashes of the batch. *)
Lemma DoProcessInBound_keys items (w w' : W) m :
  DoProcessInBound (Msg := Msg) items w = (w', Ret m) ->
  forall k, is_Some (m !! k) <-> exists a, a ∈ items /\ k = in_hash a.
Proof.
  unfold DoProcessInBound. intros (w1 & h & _ & H)%bind_ret_inv. apply bind_ret_inv in H as (w2 & prep & _ & H).
  destruct items as [|i0 items]; [done|]. destruct prep as [|[s0 o0] prep]; [done|]. cbn [GetAccountInfo] in H. unfold GetAccountInfo in H.
  apply bind_ret_inv in H as (w3 & r & _ & H). remember (i0 :: items) as l eqn:El. clear El.
  unfold ret in H. injection H as _ <-. generalize (match r with inl m => m | inr _ => ∅ end). intros hs.
  assert (forall (acc : gmap string string) k,
    is_Some (fold_left (fun m el => <[Hash_Hex (InBoundReq_Hash el) := default "" (hs !! AccSeq el)]> m) l acc !! k) <->
    is_Some (acc !! k) \/ exists a, a ∈ l /\ k = in_hash a) as Hf.
  { induction l as [|x l IH]; intros acc k; cbn [fold_left].
    - split; [by left|]. intros [?|(a & Ha & _)]; [done|]. by apply not_elem_of_nil in Ha.
    - rewrite IH. destruct (decide (k = in_hash x)) as [->|Hne].
      + unfold in_hash at 1. rewrite lookup_insert_eq. split; [|by eauto]. intros _. right. exists x. split; [left|done].
      + unfold in_hash in Hne at 1. rewrite lookup_insert_ne by done. split.
        * intros [?|(a & Ha & ->)]; [by left|]. right. exists a. split; [by right|done].
        * intros [?|(a & [->|Ha]%elem_of_cons & ->)]; [by left|done|]. right. eauto. }
  intros k. rewrite Hf. rewrite lookup_empty. split; [intros [[? ?]|?]; done|by right].
Qed.

Lemma hold_all_spec items (s : MS) :
  forM items (fun el => on_mq (AddOnHoldQueue el)) s =
  (mkMintState (m_node s) (mkQueue (pending (mint_q s)) (onHold (mint_q s) ++ items)) (failedInbound s) (inBoundWait s), Ret tt).
Proof.
  revert s. induction items as [|a items IH]; intros s; cbn [forM].
  - unfold ret. rewrite app_nil_r. destruct s as [w [p h] f b]. reflexivity.
  - unfold bind, on_mq at 1, AddOnHoldQueue at 1, modify. rewrite IH. cbn. by rewrite <- app_assoc.
Qed.
End MintLemmas.

(** ** Properties *)

Section MintProperties.
Context {W Msg : Type} `{CN : CosmosNode W Msg} `{T : TssServer W} `{JS : JoltService W} `{S : SdkMath} `{N : SdkCoins} `{B : Bech32} `{E : Eth}.
Context `{K : Backoff} `{KL : !BackoffLaws K} `{R : GoRuntime} `{LR : !GoRuntimeLaws R}.
#[local] Notation MS := (MintState W).

(** Fact (no deposit is forgotten by a mint round). When the node can be
    dialled, a round over a batch leaves the retry map alone and appends to
    the on-hold queue requests of the batch only, in such a way that every
    request of the batch was either reported as minted by the node or is on
    hold (or one with the same hash is). *)
Theorem processInbound_accounts items (s s' : MS) :
  (forall w : W, exists w', DialGrpc w = (w', Ret tt)) ->
  processInbound (Msg := Msg) items s = (s', Ret tt) ->
  exists held, mint_q s' = mkQueue (pending (mint_q s)) (onHold (mint_q s) ++ held) /\
    (forall h, h ∈ held -> h ∈ items) /\
    forall a, a ∈ items -> minted (W := W) (in_hash a) \/ exists h, h ∈ held /\ in_hash h = in_hash a.
Proof.
  intros Hd. unfold processInbound. intros (s1 & d & H1 & H)%bind_ret_inv. apply try_ret_inv in H1.
  destruct (Hd (m_node s)) as [w1 Hw1].
  destruct d as [[]|e]; [|unfold on_mnode in H1; rewrite Hw1 in H1; discriminate].
  apply on_mnode_inv in H1 as [Hq1 _]. apply bind_ret_inv in H as (s2 & todo & H2 & H).
  apply on_mnode_inv in H2 as (Hq2 & w2 & H2 & _). apply not_yet_minted_spec in H2 as [Hsub Hcov].
  destruct todo as [|t0 todo].
  { unfold set_failedIn, modify in H. injection H as <-. exists []. cbn [mint_q]. rewrite app_nil_r, Hq2, Hq1.
    split; [by destruct (mint_q s)|]. split; [by intros ? ?%not_elem_of_nil|].
    intros a Ha. destruct (Hcov a Ha) as [?%not_elem_of_nil|]; [done|by left]. }
  apply bind_ret_inv in H as (s3 & r & H3 & H). apply try_ret_inv in H3. destruct r as [m|e].
  - apply on_mnode_inv in H3 as (Hq3 & w3 & H3 & _). pose proof (DoProcessInBound_keys _ _ _ _ H3) as Hk.
    destruct (check_all_spec _ _ _ _ Hd H) as (held & Hq & Hh & Hi). rewrite Hq3, Hq2, Hq1 in Hq.
    destruct (by_hash_spec items) as [Hb1 Hb2].
    exists held. split; [done|]. split; [intros h Hin; destruct (Hh h Hin) as [i Hl]; by apply Hb1 in Hl as []|].
    intros a Ha. destruct (Hcov a Ha) as [Hin|]; [|by left].
    assert (is_Some (m !! in_hash a)) as [hx Hx] by (apply Hk; eauto).
    destruct (Hi (in_hash a)) as [?|(h & Hhin & Hl)]; [|by left|].
    + apply list_elem_of_fmap. exists (in_hash a, hx). split; [done|].
      rewrite map_range_perm. by apply elem_of_map_to_list.
    + right. exists h. split; [done|]. by apply Hb1 in Hl as [_ ->].
  - apply on_mnode_inv in H3 as (Hq3 & _). rewrite hold_all_spec in H. injection H as <-. cbn [mint_q].
    exists items. rewrite Hq3, Hq2, Hq1. split; [done|]. split; [done|]. intros a Ha. right. eauto.
Qed.

(** Fact (an undialled batch is forgotten). When the node cannot be dialled at
    the start of a round, the round ends without an error and without putting
    the batch anywhere: the requests, already taken off the retry map, are in
    neither queue. *)
Theorem undialled_batch_forgotten items (s : MS) e w' :
  DialGrpc (m_node s) = (w', Fail e) ->
  exists s', processInbound (Msg := Msg) items s = (s', Ret tt) /\
    mint_q s' = mint_q s /\ failedInbound s' = failedInbound s.
Proof.
  intros Hd. unfold processInbound, bind, try, on_mnode. rewrite Hd. cbn. eexists. split; [reflexivity|done].
Qed.

Lemma put_back_in_one each (s : MS) :
  (forall i (w : W), (queryGivenToeknIssueTx i w).2 <> Panic) ->
  exists s', (let! r := try (on_mnode (Validators.CheckTxStatus issue_query (in_hash each) 2)) in
    match r with inl _ => ret tt | inr _ => on_mq (AddItem each) end) s = (s', Ret tt) /\
    ((mint_q s' = mint_q s /\ minted (W := W) (in_hash each)) \/
     mint_q s' = mkQueue (<[InBoundReq_Index each := each]> (pending (mint_q s))) (onHold (mint_q s))).
Proof.
  intros Hp. unfold bind at 1, try.
  destruct (on_mnode (Validators.CheckTxStatus issue_query (in_hash each) 2) s) as [s1 r] eqn:E1.
  apply on_mnode_inv in E1 as (Hq1 & w1 & E1 & _). destruct r as [[]|e|].
  - exists s1. split; [done|]. left. split; [done|]. by eapply CheckTxStatus_minted; [|exact E1]; lia.
  - cbn [ocatch]. unfold on_mq. rewrite (AddItem_ret each (InBoundReq_Index each)) by done.
    eexists. split; [reflexivity|]. right. cbn [mint_q]. by rewrite Hq1.
  - exfalso. revert E1. unfold Validators.CheckTxStatus. rewrite Retry_spec by lia.
    assert (forall w : W, ((bind (issue_query (in_hash each)) (fun ret' => if CheckWhetherAlreadyExist ret' then ret tt else fail "fail to find the tx")) w).2 <> Panic) as Hop.
    { intros w. unfold bind, issue_query. specialize (Hp (in_hash each) w).
      destruct (queryGivenToeknIssueTx (in_hash each) w) as [w2 [r|e|]]; cbn in *; [|done|done]. by destruct r. }
    generalize 2%nat. intros n. generalize (m_node s). induction n as [|n IH]; intros w; cbn [retry_loop];
      specialize (Hop w); destruct (bind _ _ w) as [w2 [[]|e|]]; cbn in *; try done. apply IH.
Qed.

(** Fact (putting back failed mints). With a node that can be dialled and
    answers, the routine always ends; it empties the on-hold queue, and each
    request that was on hold is afterwards either known to be minted or in
    the map under its index (itself or a later one with that index); entries
    under other indices are untouched. *)
Theorem putOnHoldBlockInBoundBack_accounts (s : MS) :
  (forall w : W, exists w', DialGrpc w = (w', Ret tt)) ->
  (forall i (w : W), (queryGivenToeknIssueTx i w).2 <> Panic) ->
  exists s', putOnHoldBlockInBoundBack s = (s', Ret tt) /\ onHold (mint_q s') = [] /\
    (forall a, a ∈ onHold (mint_q s) -> minted (W := W) (in_hash a) \/
      exists b, b ∈ onHold (mint_q s) /\ pending (mint_q s') !! InBoundReq_Index a = Some b) /\
    (forall k, pending (mint_q s') !! k = pending (mint_q s) !! k \/
      exists b, b ∈ onHold (mint_q s) /\ InBoundReq_Index b = k /\ pending (mint_q s') !! k = Some b).
Proof.
  intros Hd Hp. unfold putOnHoldBlockInBoundBack. unfold bind at 1, try, on_mnode at 1.
  destruct (Hd (m_node s)) as [w1 ->]. cbn [ocatch]. unfold bind at 1, on_mq at 1. rewrite DumpQueue_ret.
  cbn [mint_q m_node]. generalize (onHold (mint_q s)). intros l.
  remember (mkMintState w1 (mkQueue (pending (mint_q s)) []) (failedInbound s) (inBoundWait s)) as s1 eqn:Es1.
  cbn [failedInbound inBoundWait]. rewrite <- Es1. assert (pending (mint_q s) = pending (mint_q s1)) as -> by (by subst).
  assert (onHold (mint_q s1) = []) as Hh by (by subst).
  clear Es1 s w1. rename s1 into s.
  revert s Hh. induction l as [|a l IH]; intros s Hh; cbn [forM].
  { exists s. split; [done|]. split; [done|]. split; [by intros ? ?%not_elem_of_nil|auto]. }
  destruct (put_back_in_one a s Hp) as (s1 & Hrun1 & Hs). unfold in_hash in Hrun1.
  erewrite bind_ret_run by exact Hrun1. clear Hrun1.
  assert (onHold (mint_q s1) = []) as Hh1 by (destruct Hs as [[-> _]| ->]; done).
  destruct (IH s1 Hh1) as (s' & Hrun & Hh' & Hall & Hk). exists s'. split; [exact Hrun|]. split; [done|].
  destruct Hs as [[Hq Hm]|Hq]; rewrite Hq in Hk; cbn [pending] in Hk.
  - split; [|intros k; destruct (Hk k) as [?|(b & ? & ? & ?)]; [by left|right; exists b; split; [by right|done]]].
    intros x [->|Hx]%elem_of_cons; [by left|].
    destruct (Hall x Hx) as [?|(b & ? & ?)]; [by left|right; exists b; split; [by right|done]].
  - split.
    + intros x [->|Hx]%elem_of_cons.
      * right. destruct (Hk (InBoundReq_Index a)) as [Hl|(b & ? & ? & ?)]; [|exists b; split; [by right|done]].
        rewrite lookup_insert_eq in Hl. exists a. split; [left|done].
      * destruct (Hall x Hx) as [?|(b & ? & ?)]; [by left|right; exists b; split; [by right|done]].
    + intros k. destruct (Hk k) as [Hl|(b & ? & ? & ?)]; [|right; exists b; split; [by right|done]].
      destruct (decide (k = InBoundReq_Index a)) as [->|Hne].
      * rewrite lookup_insert_eq in Hl. right. exists a. split; [left|done].
      * rewrite lookup_insert_ne in Hl by done. by left.
Qed.
End MintProperties.

Section PayProperties.
Context {W J C Msg : Type} `{EC : EthClient W C} `{TW : TssServer W} `{CN : CosmosNode J Msg} `{TJ : TssServer J} `{JS : JoltService J}.
Context `{G : EthSigner} `{S : SdkMath} `{N : SdkCoins} `{B : Bech32} `{E : Eth} `{K : Backoff} `{R : GoRuntime}.
Context (attempts submits : nat) (HexToHash : string -> bytes).
#[local] Notation PS := (PayState W J C).

(** At some moment this chain's client reported the transaction's success. *)
Definition confirmed (hash : string) : Prop :=
  exists (c c' : ChainInfo W C), PubClient.CheckTxStatus HexToHash hash c = (c', Ret tt).

(** The request was paid: by a transaction the joltify chain names for it, or
    by one this node composed for it. *)
Definition settled (v : ValidatorSet) (resp : option (gmap string bytes)) (a : OutBoundReq) : Prop :=
  exists hash, confirmed hash /\
    ((exists j j' : J, submitted_query v a j = (j', Ret hash)) \/
     (exists index (c c' : ChainInfo W C) err, on_send (ProcessOutBound attempts index (OutReceiverAddress a) (FromPoolAddr a)
        (TokenAddr a) (Amount (ob_Coin a)) (Nonce a) resp) c = (c', Ret (hash, err)))).

(** The joltify chain has a record of the request, but no hash on it has
    enough reports yet. *)
Definition record_open (v : ValidatorSet) (a : OutBoundReq) : Prop :=
  exists j j' : J, submitted_query v a j = (j', Ret "").

Lemma on_pchain_inv {A} (m : M (ChainInfo W C) A) (s s' : PS) r : on_pchain m s = (s', r) ->
  pay_q s' = pay_q s /\ p_jolt s' = p_jolt s /\ m (p_chain s) = (p_chain s', r).
Proof. unfold on_pchain. destruct (m (p_chain s)) as [c' r'] eqn:Em. intros [= <- <-]. done. Qed.

Lemma on_pjolt_inv {A} (m : M J A) (s s' : PS) r : on_pjolt m s = (s', r) ->
  pay_q s' = pay_q s /\ p_chain s' = p_chain s /\ m (p_jolt s) = (p_jolt s', r).
Proof. unfold on_pjolt. destruct (m (p_jolt s)) as [c' r'] eqn:Em. intros [= <- <-]. done. Qed.

Lemma needs_processing_spec v resp a (s s' : PS) b :
  needs_processing HexToHash v a s = (s', Ret b) ->
  pay_q s' = pay_q s /\ (b = true \/ settled v resp a \/ record_open v a).
Proof.
  unfold needs_processing. intros (s1 & r & H1 & H)%bind_ret_inv. apply try_ret_inv in H1. destruct r as [hash|e].
  - apply on_pjolt_inv in H1 as (Hq1 & _ & H1). case_bool_decide as Hh; cbn [negb] in H.
    + unfold ret in H. injection H as <- <-. subst hash. split; [done|]. right. right. by exists (p_jolt s), (p_jolt s1).
    + apply bind_ret_inv in H as (s2 & c & H2 & H). apply try_ret_inv in H2.
      destruct c as [[]|e]; apply on_pchain_inv in H2 as (Hq2 & _ & H2); unfold ret in H; injection H as <- <-;
        (split; [congruence|]); [|by left].
      right. left. exists hash. split; [by eexists _, _|]. left. eauto.
  - apply on_pjolt_inv in H1 as (Hq1 & _). unfold ret in H. injection H as <- <-. split; [done|by left].
Qed.

Lemma to_process_spec v resp items (s s' : PS) l :
  to_process HexToHash v items s = (s', Ret l) ->
  pay_q s' = pay_q s /\ (forall a, a ∈ l -> a ∈ items) /\
  forall a, a ∈ items -> a ∈ l \/ settled v resp a \/ record_open v a.
Proof.
  revert s l. induction items as [|x items IH]; intros s l; cbn [to_process].
  - unfold ret. intros [= <- <-]. split; [done|]. split; [done|]. by intros a ?%not_elem_of_nil.
  - intros (s1 & b & H1 & H)%bind_ret_inv. apply bind_ret_inv in H as (s2 & rest & H2 & H).
    apply (needs_processing_spec v resp) in H1 as [Hq1 H1].
    unfold ret in H. injection H as <- <-. destruct (IH _ _ H2) as (Hq2 & Hs & Hc). split; [congruence|]. destruct b; split.
    + intros a [->|Ha]%elem_of_cons; [left|right; auto].
    + intros a [->|Ha]%elem_of_cons; [left; left|]. destruct (Hc a Ha); [left; by right|by right].
    + intros a Ha. right. auto.
    + intros a [->|Ha]%elem_of_cons; [|auto]. destruct H1 as [|H1]; [done|by right].
Qed.

Lemma outbound_worker_spec pools v resp index a (s s' : PS) :
  outbound_worker (Msg := Msg) attempts submits HexToHash pools resp index a s = (s', Ret tt) ->
  (pay_q s' = pay_q s /\ settled v resp a) \/
  exists h, pay_q s' = mkQueue (pending (pay_q s)) (onHold (pay_q s) ++ [SetSubmittedTxHash h a]).
Proof.
  unfold outbound_worker. cbn [GetOutBoundInfo]. unfold GetOutBoundInfo.
  intros (s1 & [txHash err] & H1 & H)%bind_ret_inv. apply on_pchain_inv in H1 as (Hq1 & _ & H1).
  apply bind_ret_inv in H as (s2 & checked & H2 & H).
  assert (pay_q s2 = pay_q s /\ (checked = true -> confirmed txHash)) as [Hq2 Hc].
  { destruct (negb _); [|unfold ret in H2; injection H2 as <- <-; done].
    apply bind_ret_inv in H2 as (s3 & c & H2 & H3). apply try_ret_inv in H2.
    destruct c as [[]|e]; apply on_pchain_inv in H2 as (Hq3 & _ & H2); unfold ret in H3; injection H3 as <- <-;
      (split; [congruence|]); [|done]. intros _. by eexists _, _. }
  destruct checked.
  - left. apply bind_ret_inv in H as (s3 & [] & H3 & H). unfold set_failedOut, modify in H3. injection H3 as <-.
    apply bind_ret_inv in H as (s4 & r & H4 & H). apply try_ret_inv in H4. unfold ret in H. injection H as <-.
    assert (pay_q s4 = pay_q s2) as -> by (destruct r; by apply on_pjolt_inv in H4 as []).
    split; [done|]. exists txHash. split; [auto|]. right. eauto 10.
  - right. unfold bind at 1, get at 1 in H. apply bind_ret_inv in H as (s3 & [] & H3 & H).
    assert (pay_q s3 = pay_q s2) as Hq3.
    { destruct (outBoundWait s2); unfold ret, set_failedOut, modify in H3; by injection H3 as <-. }
    unfold on_pq, AddOnHoldQueue, modify in H. injection H as <-. exists txHash. cbn [pay_q]. by rewrite Hq3, Hq2.
Qed.

Lemma outbound_workers_spec pools v resp index l (s s' : PS) :
  outbound_workers (Msg := Msg) attempts submits HexToHash pools resp index l s = (s', Ret tt) ->
  exists held, pay_q s' = mkQueue (pending (pay_q s)) (onHold (pay_q s) ++ held) /\
    (forall h, h ∈ held -> exists a x, a ∈ l /\ h = SetSubmittedTxHash x a) /\
    (forall a, a ∈ l -> settled v resp a \/ exists x, SetSubmittedTxHash x a ∈ held).
Proof.
  revert index s. induction l as [|a l IH]; intros index s; cbn [outbound_workers].
  - unfold ret. intros [= <-]. exists []. rewrite app_nil_r. split; [by destruct (pay_q s)|].
    split; [by intros h ?%not_elem_of_nil|by intros i ?%not_elem_of_nil].
  - intros (s1 & [] & H1 & H)%bind_ret_inv. destruct (IH _ _ H) as (held & Hq & Hh & Hi).
    apply (outbound_worker_spec pools v) in H1 as [[Hq1 Hm]|[x Hq1]]; rewrite Hq1 in Hq.
    + exists held. split; [done|]. split.
      * intros h (b & y & Hb & ->)%Hh. exists b, y. split; [by right|done].
      * intros j [->|Hj]%elem_of_cons; [by left|auto].
    + exists (SetSubmittedTxHash x a :: held). cbn [pending onHold] in Hq. rewrite <- app_assoc in Hq. split; [done|]. split.
      * intros h [->|(b & y & Hb & ->)%Hh]%elem_of_cons; [exists a, x; split; [left|done]|]. exists b, y. split; [by right|done].
      * intros j [->|Hj]%elem_of_cons; [right; exists x; left|].
        destruct (Hi j Hj) as [?|(y & ?)]; [by left|]. right. exists y. by right.
Qed.

(** Fact (where a payout round leaves its batch). After a round that ends, the
    retry map is as it was, what was appended to the on-hold queue are
    requests of the batch with only the transaction hash rewritten, and every
    request of the batch is on hold, or was paid by a transaction the public
    chain confirmed, or has an open record on the joltify chain that names no
    transaction yet. *)
Theorem outbound_round_accounts pools v resp items (s s' : PS) :
  outbound_round (Msg := Msg) attempts submits HexToHash pools v resp items s = (s', Ret tt) ->
  exists held, pay_q s' = mkQueue (pending (pay_q s)) (onHold (pay_q s) ++ held) /\
    (forall h, h ∈ held -> exists a x, a ∈ items /\ h = SetSubmittedTxHash x a) /\
    forall a, a ∈ items -> (exists x, SetSubmittedTxHash x a ∈ held) \/ settled v resp a \/ record_open v a.
Proof.
  unfold outbound_round. intros (s1 & todo & H1 & H)%bind_ret_inv.
  apply (to_process_spec v resp) in H1 as (Hq1 & Hsub & Hcov).
  assert (exists held, pay_q s' = mkQueue (pending (pay_q s)) (onHold (pay_q s) ++ held) /\
    (forall h, h ∈ held -> exists a x, a ∈ todo /\ h = SetSubmittedTxHash x a) /\
    (forall a, a ∈ todo -> settled v resp a \/ exists x, SetSubmittedTxHash x a ∈ held)) as (held & Hq & Hh & Hi).
  { destruct todo as [|t todo].
    - unfold set_failedOut, modify in H. injection H as <-. exists []. cbn [pay_q]. rewrite app_nil_r, Hq1.
      split; [by destruct (pay_q s)|]. split; [by intros h ?%not_elem_of_nil|by intros i ?%not_elem_of_nil].
    - rewrite <- Hq1. by eapply outbound_workers_spec. }
  exists held. split; [done|]. split; [intros h (a & x & Ha & ->)%Hh; eauto|].
  intros a Ha. destruct (Hcov a Ha) as [Ht|?]; [|by right]. destruct (Hi a Ht) as [?|?]; [right; by left|by left].
Qed.

(** Fact (an open record drops the request). A request whose record on the
    joltify chain has no hash with enough reports is neither processed nor
    kept: a round over it alone ends with both queues unchanged. *)
Theorem open_record_drops_request pools v resp a (s : PS) j' :
  submitted_query v a (p_jolt s) = (j', Ret "") ->
  exists s', outbound_round (Msg := Msg) attempts submits HexToHash pools v resp [a] s = (s', Ret tt) /\
    pay_q s' = pay_q s /\ p_chain s' = p_chain s /\ p_jolt s' = j'.
Proof.
  intros Hq. unfold outbound_round, to_process, needs_processing, bind, try, on_pjolt. rewrite Hq. cbn.
  eexists. split; [reflexivity|done].
Qed.

Lemma put_back_one_spec a k (s : PS) :
  OutBoundReq_Index a = Ret k ->
  (forall hash (c : ChainInfo W C), (PubClient.CheckTxStatus HexToHash hash c).2 <> Panic) ->
  exists s', put_back_one HexToHash a s = (s', Ret tt) /\
    ((pay_q s' = pay_q s /\ SubmittedTxHash a <> Hash_Hex zero_hash /\ confirmed (SubmittedTxHash a)) \/
     pay_q s' = mkQueue (<[k := a]> (pending (pay_q s))) (onHold (pay_q s))).
Proof.
  intros Hk Hp. unfold put_back_one. case_bool_decide as Hz.
  { unfold on_pq. rewrite (AddItem_ret a k) by done. eexists. split; [reflexivity|]. right. done. }
  unfold bind, try. destruct (on_pchain (PubClient.CheckTxStatus HexToHash (SubmittedTxHash a)) s) as [s1 r] eqn:E1.
  apply on_pchain_inv in E1 as (Hq1 & _ & E1). destruct r as [[]|e|]; cbn [ocatch].
  - exists s1. split; [done|]. left. split; [done|]. split; [done|]. by eexists _, _.
  - unfold on_pq. rewrite (AddItem_ret a k) by done. eexists. split; [reflexivity|]. right. cbn. by rewrite Hq1.
  - exfalso. apply (Hp (SubmittedTxHash a) (p_chain s)). by rewrite E1.
Qed.

(** C40 (payouts are checked on the wrong chain). A held payout of one public
    chain goes back to the retry map, to be paid again with a new nonce,
    whenever the chain whose block is being processed does not confirm its
    transaction: nothing compares that chain with the payout's own, on which
    the transaction may long be confirmed. *)
Theorem paid_on_other_chain_requeued a k (s : PS) (own own' : ChainInfo W C) j' :
  onHold (pay_q s) = [a] -> OutBoundReq_Index a = Ret k -> SubmittedTxHash a <> Hash_Hex zero_hash ->
  Requests.ChainType a = PubClient.ChainType own -> PubClient.ChainType (p_chain s) <> Requests.ChainType a ->
  PubClient.CheckTxStatus HexToHash (SubmittedTxHash a) own = (own', Ret tt) ->
  (exists e, (PubClient.CheckTxStatus HexToHash (SubmittedTxHash a) (p_chain s)).2 = Fail e) ->
  DialGrpc (p_jolt s) = (j', Ret tt) ->
  exists s', putOnHoldBlockOutBoundBack HexToHash s = (s', Ret tt) /\
    pending (pay_q s') !! k = Some a /\ onHold (pay_q s') = [].
Proof.
  intros Hh Hk Hz _ _ _ [e He] Hd. unfold putOnHoldBlockOutBoundBack, on_pjolt, on_pq at 1.
  unfold bind at 1, try. rewrite Hd. cbn [ocatch]. unfold bind at 1. rewrite DumpQueue_ret. cbn [pay_q p_chain p_jolt].
  rewrite Hh. cbn [forM]. set (s1 := mkPayState _ _ _ _ _).
  assert (p_chain s1 = p_chain s) as Hc by done.
  unfold put_back_one. rewrite bool_decide_false by done.
  unfold bind, try, on_pchain. rewrite Hc. destruct (PubClient.CheckTxStatus HexToHash (SubmittedTxHash a) (p_chain s)) as [c2 r].
  cbn [snd] in He. subst r. cbn [ocatch]. unfold on_pq. rewrite (AddItem_ret a k) by done. unfold ret.
  eexists. split; [reflexivity|]. cbn. by rewrite lookup_insert_eq.
Qed.
End PayProperties.

(** ** Witnesses *)

#[local] Definition minted_ref (w : cos_world) (index : string) : bool := bool_decide (index = @Hash_Hex eth_ref (@InBoundReq_Hash eth_ref (NewAccountInboundReq [Byte.x01] [] (mkCoin "abnb" 3) [Byte.x02] 10))).

(** The joltify node of the examples knows one token issue; an outbound
    request has an open record when the node still has answers to give. *)
Definition jolt_ref (reachable : bool) : JoltService cos_world := {|
  DialGrpc := if reachable then ret tt else fail "connection refused";
  queryGivenToeknIssueTx := fun i w => (w, if minted_ref w i then Ret (Some []) else Fail "not found");
  queryOutboundTx := fun _ w => (w, match w.1 with [] => Fail "not found" | _ => Ret ∅ end);
|}.

(** A chain on which one transaction is confirmed, or not. *)
Definition confirming_ref : EthClient bool unit := {|
  Dial := fun _ => ret tt;
  BlockByNumber := fun _ _ => ret (mkEthBlock 4 []);
  BlockNumber := fun _ => ret 4;
  ReceiptStatus := fun (_ : unit) (_ : bytes) (w : bool) => (w, if w then Ret 1 else Fail "not found");
  SuggestGasPrice := fun _ => ret 5;
  BalanceAt := fun _ _ => ret 40;
  PendingNonceAt := fun _ _ => ret 3;
  SendTransaction := fun _ _ => ret tt;
  SubscribeNewHead := fun _ => ret tt;
  TokenBalanceOf := fun _ _ _ => ret 7;
  TransferTx := fun _ _ token _ _ nonce => ret (mkLegacyTx nonce 5 60000 token 0 []);
|}.

#[local] Definition tss_bool_ref : TssServer bool := {|
  KeySign := fun _ msgs _ => ret (mkKeysignResponse true (map (fun m => (m, sig_ref)) msgs));
|}.

Section Witnesses.
#[local] Existing Instance cosmos_ref.
#[local] Existing Instance tss_cos_ref.
#[local] Existing Instance tss_bool_ref.
#[local] Existing Instance sdk_math_ref.
#[local] Existing Instance sdk_coins_ref.
#[local] Existing Instance bech32_ref.
#[local] Existing Instance backoff_ref.
#[local] Existing Instance eth_ref.
#[local] Existing Instance eth_signer_ref.
#[local] Existing Instance go_runtime_ref.
#[local] Existing Instance confirming_ref.

#[local] Definition dep (n : Z) (tx : Byte.byte) : InBoundReq :=
  SetAccountInfo 1 n [Byte.x09] "k01" (NewAccountInboundReq [Byte.x01] [] (mkCoin "abnb" n) [tx] 10).
#[local] Definition mint_state (held : list InBoundReq) : MintState cos_world := mkMintState ([], []) (mkQueue ∅ held) 0 false.

Lemma dial_ref (w : cos_world) : exists w', @DialGrpc _ (jolt_ref true) w = (w', Ret tt).
Proof. exists w. reflexivity. Qed.

Lemma processInbound_accounts_witness :
  let _ := jolt_ref true in
  exists s', processInbound (Msg := string) [dep 7 Byte.x02; dep 8 Byte.x03] (mint_state []) = (s', Ret tt) /\
  exists held, onHold (mint_q s') = held /\ (forall h, h ∈ held -> h ∈ [dep 7 Byte.x02; dep 8 Byte.x03]).
Proof.
  intros JS. destruct (processInbound (Msg := string) [dep 7 Byte.x02; dep 8 Byte.x03] (mint_state [])) as [s' r] eqn:Es.
  assert (r = Ret tt) as -> by (apply (f_equal snd) in Es; cbn [snd] in Es; subst r; vm_compute; reflexivity).
  exists s'. split; [reflexivity|].
  destruct (processInbound_accounts (JS := JS) _ _ _ dial_ref Es) as (held & Hq & Hh & _).
  exists held. split; [rewrite Hq; reflexivity|exact Hh].
Defined.

Lemma undialled_batch_forgotten_witness :
  let _ := jolt_ref false in
  exists s', processInbound (Msg := string) [dep 7 Byte.x02] (mint_state []) = (s', Ret tt) /\ mint_q s' = mkQueue ∅ [].
Proof.
  intros JS. destruct (undialled_batch_forgotten (JS := JS) (Msg := string) [dep 7 Byte.x02] (mint_state []) "connection refused" ([], []))
    as (s' & H1 & H2 & _); [reflexivity|]. exists s'. split; [exact H1|exact H2].
Defined.

Lemma putOnHoldBlockInBoundBack_accounts_witness :
  let _ := jolt_ref true in
  exists s', putOnHoldBlockInBoundBack (mint_state [dep 7 Byte.x02; dep 8 Byte.x03]) = (s', Ret tt) /\ onHold (mint_q s') = [].
Proof.
  intros JS. destruct (putOnHoldBlockInBoundBack_accounts (JS := JS) (mint_state [dep 7 Byte.x02; dep 8 Byte.x03])) as (s' & H1 & H2 & _).
  - exact dial_ref.
  - intros i w. cbn. destruct (minted_ref w i); discriminate.
  - exists s'. split; [exact H1|exact H2].
Defined.

#[local] Definition pay (n : Z) (h chain : string) : OutBoundReq :=
  SetSubmittedTxHash h (NewOutboundReq "ab" [Byte.x05] [Byte.x09] (mkCoin "abnb" n) "native" 10 [] chain true).
#[local] Definition pay_state (node : bool) (jolt : list Z) (held : list OutBoundReq) : PayState bool cos_world unit :=
  mkPayState (mkChainInfo node tt "ws" "0xc0" "BSC" (Some 56) 0 false 0 [] []) (jolt, []) (mkQueue ∅ held) 0 false.

Lemma outbound_round_accounts_witness :
  let _ := jolt_ref true in
  exists s', outbound_round (Msg := string) 4 3 (fun _ => []) [None; Some (pool_of "k01")] NewValidator None [pay 4 "" "BSC"] (pay_state false [] []) = (s', Ret tt) /\
  exists held, onHold (pay_q s') = held /\ length held = 1%nat /\ forall h, h ∈ held -> exists a x, a ∈ [pay 4 "" "BSC"] /\ h = SetSubmittedTxHash x a.
Proof.
  intros JS. destruct (outbound_round (Msg := string) 4 3 (fun _ => []) [None; Some (pool_of "k01")] NewValidator None [pay 4 "" "BSC"] (pay_state false [] [])) as [s' r] eqn:Es.
  assert (r = Ret tt /\ length (onHold (pay_q s')) = 1%nat) as [-> Hl].
  { split; [apply (f_equal snd) in Es; cbn [snd] in Es; subst r|apply (f_equal fst) in Es; cbn [fst] in Es; subst s']; vm_compute; reflexivity. }
  exists s'. split; [reflexivity|].
  destruct (outbound_round_accounts (JS := JS) 4 3 (fun _ => []) _ _ _ _ _ _ Es) as (held & Hq & Hh & _).
  exists held. rewrite Hq in Hl |- *. split; [reflexivity|]. split; [exact Hl|exact Hh].
Defined.

Lemma open_record_drops_request_witness :
  let _ := jolt_ref true in
  exists s', outbound_round (Msg := string) 4 3 (fun _ => []) [None; Some (pool_of "k01")] NewValidator None [pay 4 "" "BSC"] (pay_state false [1] []) = (s', Ret tt) /\
    pay_q s' = mkQueue ∅ [].
Proof.
  intros JS. destruct (open_record_drops_request (JS := JS) (Msg := string) 4 3 (fun _ => []) [None; Some (pool_of "k01")] NewValidator None (pay 4 "" "BSC")
    (pay_state false [1] []) ([1], [])) as (s' & H1 & H2 & _); [vm_compute; reflexivity|].
  exists s'. split; [exact H1|exact H2].
Defined.

Lemma paid_on_other_chain_requeued_witness :
  let _ := jolt_ref true in
  exists s' k, putOnHoldBlockOutBoundBack (fun _ => []) (pay_state false [] [pay 4 "0x01" "ETH"]) = (s', Ret tt) /\
    pending (pay_q s') !! k = Some (pay 4 "0x01" "ETH").
Proof.
  intros JS. destruct (OutBoundReq_Index (pay 4 "0x01" "ETH")) as [k|e|] eqn:Ek; [|vm_compute in Ek; discriminate Ek|vm_compute in Ek; discriminate Ek].
  destruct (paid_on_other_chain_requeued (JS := JS) (fun _ => []) (pay 4 "0x01" "ETH") k (pay_state false [] [pay 4 "0x01" "ETH"])
    (mkChainInfo true tt "ws" "0xc0" "ETH" (Some 1) 0 false 0 [] []) (mkChainInfo true tt "ws" "0xc0" "ETH" (Some 1) 0 false 0 [] []) ([], [])) as (s' & H1 & H2 & _).
  - reflexivity.
  - exact Ek.
  - vm_compute. discriminate.
  - reflexivity.
  - cbn. discriminate.
  - vm_compute. reflexivity.
  - exists "not found". vm_compute. reflexivity.
  - reflexivity.
  - exists s', k. split; [exact H1|exact H2].
Defined.
End Witnesses.
