(* ===== verification/MintRound.v ===== *)
(** * A mint round with its goroutines: processInbound and
    putOnHoldBlockInBoundBack of bridge/bridge_service.go

    Processing.v runs the goroutine of each request to its end before the
    next.  Here they are programs that act in any order, as the source starts
    them: one action per remote call, queue operation and counter.  The
    theorems hold for every interleaving, and the routine of Processing.v is
    shown to be one of them. *)

From Stdlib Require Import Ascii String.
From S2P Require Import Prelude GoLib Sdk Requests ItemQueue Signature Pools PubClient Keysign Goroutine TxSend MoveFund Validators CosTx Processing.

#[local] Open Scope string_scope.
#[local] Open Scope Z_scope.
#[local] Open Scope go_scope.

(** ** Definitions *)

Section Mint.
Context {W Msg : Type} `{CN : CosmosNode W Msg} `{T : TssServer W} `{JS : JoltService W} `{S : SdkMath} `{N : SdkCoins} `{B : Bech32} `{E : Eth}.
Context `{K : Backoff} `{R : GoRuntime} `{GK : GoBackoff}.
#[local] Notation MS := (MintState W).
#[local] Notation task := (go MS unit).

(** One attempt of [CheckTxStatus]. *)
Definition status_op (index : string) : M W unit :=
  let! ret' := issue_query index in
  if CheckWhetherAlreadyExist ret' then ret tt else fail "fail to find the tx".

Definition JoltCheckTxStatus_go (index : string) (retryNum : nat) : task (unit + string) :=
  retry_go retryNum (act (on_mnode (status_op index))).

(** The goroutine of one hash of the answer of [DoProcessInBound]. *)
Definition mint_go (itemsMap : gmap string InBoundReq) (eachIndex : string) : task unit :=
  let^ d := act (on_mnode DialGrpc) in
  match d with
  | inr _ => Return tt
  | inl _ =>
      let^ r := JoltCheckTxStatus_go eachIndex 20 in
      match r with
      | inl _ => do^ act (set_failedIn (fun _ => 0)) in Return tt
      | inr _ =>
          let^ w := act (let! s := get in ret (inBoundWait s)) in
          do^ match w with
              | inl true => Return (inl tt)
              | _ => act (set_failedIn (fun n => i32 (n + 1)))
              end in
          do^ act (match itemsMap !! eachIndex with
                   | Some item => on_mq (AddOnHoldQueue item)
                   | None => panic
                   end) in
          Return tt
      end
  end.

(** [processInbound] up to its last loop, and the goroutines it starts there. *)
Definition mint_tasks (items : list InBoundReq) : M MS (list (task unit)) :=
  let! d := try (on_mnode DialGrpc) in
  match d with
  | inr _ => ret []
  | inl _ =>
      let itemsMap := by_hash items in
      let! needToBeProcessed := on_mnode (not_yet_minted items) in
      match needToBeProcessed with
      | [] => do! set_failedIn (fun _ => 0) in ret []
      | _ =>
          let! r := try (on_mnode (DoProcessInBound needToBeProcessed)) in
          match r with
          | inr _ => do! forM items (fun el => on_mq (AddOnHoldQueue el)) in ret []
          | inl hashIndexMap => ret (map (mint_go itemsMap) (map fst (map_range hashIndexMap)))
          end
      end
  end.

(** The round may end in [s']. *)
Definition processInbound_runs (items : list InBoundReq) (s s' : MS) : Prop :=
  exists s1 ts, mint_tasks items s = (s1, Ret ts) /\ group_runs ts s1 s'.

(** The goroutine of one held deposit. *)
Definition put_back_go (each : InBoundReq) : task unit :=
  let^ r := JoltCheckTxStatus_go (Hash_Hex (InBoundReq_Hash each)) 2 in
  match r with
  | inl _ => Return tt
  | inr _ => do^ act (on_mq (AddItem each)) in Return tt
  end.

Definition put_back_tasks : M MS (list (task unit)) :=
  let! d := try (on_mnode DialGrpc) in
  match d with
  | inr _ => ret []
  | inl _ =>
      let! itemInbound := on_mq DumpQueue in
      ret (map put_back_go itemInbound)
  end.

Definition putOnHoldBlockInBoundBack_runs (s s' : MS) : Prop :=
  exists s1 ts, put_back_tasks s = (s1, Ret ts) /\ group_runs ts s1 s'.
End Mint.

(** ** Lemmas *)

Section MintLemmas.
Context {W Msg : Type} `{CN : CosmosNode W Msg} `{T : TssServer W} `{JS : JoltService W} `{S : SdkMath} `{N : SdkCoins} `{B : Bech32} `{E : Eth}.
Context `{K : Backoff} `{KL : !BackoffLaws K} `{R : GoRuntime} `{LR : !GoRuntimeLaws R} `{GK : GoBackoff} `{GL : !GoBackoffLaws GK}.
#[local] Notation MS := (MintState W).
#[local] Notation task := (go MS unit).

Lemma on_mnode_retry n (m : M W unit) (s : MS) : retry_loop n (on_mnode m) s = on_mnode (retry_loop n m) s.
Proof.
  revert s. induction n as [|n IH]; intros s.
  - unfold on_mnode. cbn. by destruct (m (m_node s)) as [w [[]|e|]].
  - assert (retry_loop (Datatypes.S n) (on_mnode m) s = match on_mnode m s with
      | (s', Fail e) => retry_loop n (on_mnode m) s' | r => r end) as -> by done.
    unfold on_mnode at 1 3. cbn [retry_loop]. destruct (m (m_node s)) as [w [[]|e|]]; [done| |done].
    rewrite IH. unfold on_mnode. cbn. by destruct (retry_loop n m w).
Qed.

Lemma JoltCheckTxStatus_alone index n (s : MS) : (0 < n)%nat ->
  alone tt (JoltCheckTxStatus_go index n) s = try (on_mnode (Validators.CheckTxStatus issue_query index n)) s.
Proof.
  intros Hn. unfold JoltCheckTxStatus_go. rewrite retry_go_spec by done. rewrite alone_retry_act.
  unfold try. rewrite on_mnode_retry. unfold on_mnode, Validators.CheckTxStatus. by rewrite Retry_spec.
Qed.

Lemma mint_go_alone itemsMap index (s : MS) : alone tt (mint_go itemsMap index) s = check_minted itemsMap index s.
Proof.
  unfold mint_go, check_minted. rewrite alone_bind. unfold bind. rewrite alone_act.
  destruct (try (on_mnode DialGrpc) s) as [s1 [[[]|e]|e|]]; [|done..].
  rewrite alone_bind. unfold bind. rewrite JoltCheckTxStatus_alone by lia.
  destruct (try (on_mnode (Validators.CheckTxStatus issue_query index 20)) s1) as [s2 [[[]|e]|e|]]; [done| |done..].
  cbn [gbind act alone]. unfold bind, try, get, ret. cbn. destruct (inBoundWait s2); cbn.
  - unfold bind. destruct (itemsMap !! index); done.
  - unfold bind, try, set_failedIn, modify. cbn. destruct (itemsMap !! index); done.
Qed.

(** *** What every action does to the queues *)

(** The retry map is left alone and the on-hold queue grows by requests of
    [items]. *)
Definition held_grows (items : list InBoundReq) (s s' : MS) : Prop :=
  pending (mint_q s') = pending (mint_q s) /\
  exists held, onHold (mint_q s') = (onHold (mint_q s) ++ held)%list /\ forall h, h ∈ held -> h ∈ items.

#[export] Instance held_grows_preorder items : PreOrder (held_grows items).
Proof.
  split.
  - intros s. split; [done|]. exists []. rewrite app_nil_r. split; [done|]. by intros h ?%not_elem_of_nil.
  - intros s1 s2 s3 [Hp1 (l1 & Hl1 & H1)] [Hp2 (l2 & Hl2 & H2)]. split; [congruence|].
    exists (l1 ++ l2)%list. rewrite Hl2, Hl1, app_assoc. split; [done|]. intros h [?|?]%elem_of_app; auto.
Qed.

Lemma held_grows_node items (s s' : MS) : mint_q s' = mint_q s -> held_grows items s s'.
Proof. intros H. split; [by rewrite H|]. exists []. rewrite H, app_nil_r. split; [done|]. by intros h ?%not_elem_of_nil. Qed.

(** Only indices of [items] change, and only to requests of [items]. *)
Definition put_from (items : list InBoundReq) (s s' : MS) : Prop :=
  onHold (mint_q s') = onHold (mint_q s) /\
  forall k, pending (mint_q s') !! k = pending (mint_q s) !! k \/
    exists b, b ∈ items /\ InBoundReq_Index b = k /\ pending (mint_q s') !! k = Some b.

#[export] Instance put_from_preorder items : PreOrder (put_from items).
Proof.
  split.
  - intros s. split; [done|]. by left.
  - intros s1 s2 s3 [Hh1 H1] [Hh2 H2]. split; [congruence|]. intros k.
    destruct (H2 k) as [->|?]; [apply H1|by right].
Qed.

Lemma put_from_node items (s s' : MS) : mint_q s' = mint_q s -> put_from items s s'.
Proof. intros H. split; [by rewrite H|]. intros k. left. by rewrite H. Qed.

(** *** The programs under any interference *)

Section Interference.
Context (G : MS -> MS -> Prop) `{HG : !PreOrder G} (node_step : forall s s' : MS, mint_q s' = mint_q s -> G s s').

(** A successful answer is one the node gave, whatever happens between the
    attempts. *)
Lemma CheckTxStatus_safe index n s : (0 < n)%nat ->
  safe (Rp := unit) G (JoltCheckTxStatus_go index n) (fun r _ => r = inl tt -> minted (W := W) index) s.
Proof.
  intros Hn. unfold JoltCheckTxStatus_go. rewrite retry_go_spec by done. apply safe_retry; [done|]. clear s. intros s.
  apply safe_act. intros s1 _ s2 r Hr. apply try_ret_inv in Hr.
  destruct r as [[]|e]; apply on_mnode_inv in Hr as (Hq & w & Hr & _); (split; [by apply node_step|]); [|done].
  intros _. unfold status_op in Hr. apply bind_ret_inv in Hr as (w1 & b & H1 & H).
  apply (already_exists_minted index (m_node s1) w1). unfold already_exists, bind. rewrite H1. unfold ret.
  destruct (CheckWhetherAlreadyExist b); [done|]. unfold fail in H. discriminate.
Qed.
End Interference.

Definition minted_or_held (itemsMap : gmap string InBoundReq) (s0 : MS) (index : string) (s : MS) : Prop :=
  minted (W := W) index \/
  exists h held, onHold (mint_q s) = (onHold (mint_q s0) ++ held)%list /\ h ∈ held /\ itemsMap !! index = Some h.

Lemma minted_or_held_stable items itemsMap s0 index s s' :
  held_grows items s s' -> minted_or_held itemsMap s0 index s -> minted_or_held itemsMap s0 index s'.
Proof.
  intros [_ (l & Hl & _)] [?|(h & held & Hh & Hin & Hm)]; [by left|]. right. exists h, (held ++ l)%list.
  rewrite Hl, Hh, app_assoc. split; [done|]. split; [|done]. apply elem_of_app. by left.
Qed.

Lemma mint_go_safe items itemsMap s0 index :
  (forall w : W, exists w', DialGrpc w = (w', Ret tt)) ->
  (forall k a, itemsMap !! k = Some a -> a ∈ items) ->
  safe (held_grows items) (mint_go itemsMap index) (fun _ => minted_or_held itemsMap s0 index) s0.
Proof.
  intros Hd Hmap. unfold mint_go. intros s1 Hs1 s2 d H1. apply try_ret_inv in H1.
  destruct (Hd (m_node s1)) as [w1 Hw1].
  destruct d as [[]|e]; [|unfold on_mnode in H1; rewrite Hw1 in H1; discriminate].
  apply on_mnode_inv in H1 as [Hq1 _]. split; [by apply held_grows_node|]. cbn [gbind].
  apply safe_bind. apply (safe_mono _ _ (fun r _ => r = inl tt -> minted (W := W) index));
    [|apply (CheckTxStatus_safe _ (held_grows_node items)); lia].
  intros [[]|e] s3 Hs3 Hc.
  - intros s4 Hs4 s5 r H5. apply try_ret_inv in H5. unfold set_failedIn, modify in H5.
    destruct r; [|discriminate]. injection H5 as <-. split; [by apply held_grows_node|]. left. auto.
  - intros s4 Hs4 s5 w H5. apply try_ret_inv in H5. unfold bind, get, ret in H5.
    destruct w as [w|]; [|discriminate]. injection H5 as <- _. split; [done|]. cbn [gbind].
    assert (held_grows items s0 s4) as H04.
    { etrans; [exact Hs1|]. etrans; [by apply held_grows_node|]. by etrans. }
    assert (forall s6, held_grows items s4 s6 -> safe (held_grows items)
      (gbind (act (Rp := unit) (match itemsMap !! index with Some item => on_mq (AddOnHoldQueue item) | None => panic end))
        (fun _ => Return tt)) (fun _ => minted_or_held itemsMap s0 index) s6) as Hlast.
    { intros s6 Hs6 s7 Hs7 s8 r H8. apply try_ret_inv in H8. destruct (itemsMap !! index) as [item|] eqn:Ei; [|by destruct r].
      unfold on_mq, AddOnHoldQueue, modify in H8. destruct r; [|discriminate]. injection H8 as <-.
      assert (held_grows items s0 s7) as [_ (l & Hl & _)] by (etrans; [exact H04|]; by etrans). split.
      - split; [done|]. exists [item]. split; [done|]. intros h ->%list_elem_of_singleton. by eapply Hmap.
      - right. exists item, (l ++ [item])%list. cbn. rewrite Hl, app_assoc. split; [done|]. split; [|done].
        apply elem_of_app. right. left. }
    destruct w; [by apply Hlast|]. intros s6 Hs6 s7 r H7. apply try_ret_inv in H7. unfold set_failedIn, modify in H7.
    destruct r; [|discriminate]. injection H7 as <-. split; [by apply held_grows_node|]. apply Hlast.
    etrans; [exact Hs6|]. by apply held_grows_node.
Qed.

Definition minted_or_back (items : list InBoundReq) (a : InBoundReq) (s : MS) : Prop :=
  minted (W := W) (in_hash a) \/ exists b, b ∈ items /\ pending (mint_q s) !! InBoundReq_Index a = Some b.

Lemma minted_or_back_stable items a s s' :
  put_from items s s' -> minted_or_back items a s -> minted_or_back items a s'.
Proof.
  intros [_ Hp] [?|(b & Hb & Hl)]; [by left|]. right.
  destruct (Hp (InBoundReq_Index a)) as [Hk|(c & Hc & _ & Hk)]; [exists b; by rewrite Hk|eauto].
Qed.

Lemma put_back_go_safe items a s :
  a ∈ items -> safe (put_from items) (put_back_go a) (fun _ => minted_or_back items a) s.
Proof.
  intros Ha. unfold put_back_go. apply safe_bind.
  apply (safe_mono _ _ (fun r _ => r = inl tt -> minted (W := W) (in_hash a)));
    [|apply (CheckTxStatus_safe _ (put_from_node items)); lia].
  intros [[]|e] s1 _ Hc; [left; auto|].
  intros s2 _ s3 r H3. apply try_ret_inv in H3. unfold on_mq in H3. rewrite (AddItem_ret a (InBoundReq_Index a)) in H3 by done.
  destruct r; [|discriminate]. injection H3 as <-. split.
  - split; [done|]. cbn. intros k. destruct (decide (k = InBoundReq_Index a)) as [->|Hne].
    + right. exists a. split; [done|]. split; [done|]. by rewrite lookup_insert_eq.
    + left. by rewrite lookup_insert_ne.
  - right. exists a. split; [done|]. cbn. by rewrite lookup_insert_eq.
Qed.

(** *** The programs act only, and never panic *)

Lemma mint_go_only_acts itemsMap index : only_acts (mint_go itemsMap index).
Proof.
  unfold mint_go. intros [[]|e]; [|done]. cbn [gbind]. apply only_acts_bind.
  { unfold JoltCheckTxStatus_go. rewrite retry_go_spec by lia. by apply only_acts_retry. }
  intros [[]|e]; [by intros r|]. by intros [[]|e'].
Qed.

Lemma put_back_go_only_acts a : only_acts (put_back_go a).
Proof.
  unfold put_back_go. apply only_acts_bind; [|by intros [[]|e]].
  unfold JoltCheckTxStatus_go. rewrite retry_go_spec by lia. by apply only_acts_retry.
Qed.

Section Calm.
Context (dial_ok : forall w : W, exists w', DialGrpc w = (w', Ret tt)).
Context (query_ok : forall i (w : W), (queryGivenToeknIssueTx i w).2 <> Panic).

Lemma CheckTxStatus_calm index n : (0 < n)%nat -> calm (JoltCheckTxStatus_go index n).
Proof.
  intros Hn. unfold JoltCheckTxStatus_go. rewrite retry_go_spec by done. apply calm_retry. split; [|done].
  intros s. unfold on_mnode, status_op, bind, issue_query. specialize (query_ok index (m_node s)).
  destruct (queryGivenToeknIssueTx index (m_node s)) as [w [[rec|]|e|]]; cbn in *; done.
Qed.

Lemma mint_go_calm itemsMap index : is_Some (itemsMap !! index) -> calm (mint_go itemsMap index).
Proof.
  intros [item Hi]. unfold mint_go. split.
  { intros s. unfold on_mnode. by destruct (dial_ok (m_node s)) as [w ->]. }
  intros [[]|e]; [|done]. cbn [gbind]. apply calm_bind; [apply CheckTxStatus_calm; lia|].
  intros [[]|e]; [by split|]. rewrite Hi. split; [done|]. by intros [[]|e'].
Qed.

Lemma put_back_go_calm a : calm (put_back_go a).
Proof.
  unfold put_back_go. apply calm_bind; [apply CheckTxStatus_calm; lia|]. by intros [[]|e].
Qed.
End Calm.

(** What [mint_tasks] leaves before its goroutines start, and which it
    starts. *)
Lemma mint_tasks_spec items (s s1 : MS) ts :
  (forall w : W, exists w', DialGrpc w = (w', Ret tt)) ->
  mint_tasks (Msg := Msg) items s = (s1, Ret ts) ->
  held_grows items s s1 /\
  exists keys, ts = map (mint_go (by_hash items)) keys /\ (forall k, k ∈ keys -> is_Some (by_hash items !! k)) /\
    forall a, a ∈ items -> minted (W := W) (in_hash a) \/ in_hash a ∈ keys \/
      exists held, onHold (mint_q s1) = (onHold (mint_q s) ++ held)%list /\ a ∈ held.
Proof.
  intros Hd. unfold mint_tasks. intros (s2 & d & H1 & H)%bind_ret_inv. apply try_ret_inv in H1.
  destruct (Hd (m_node s)) as [w1 Hw1].
  destruct d as [[]|e]; [|unfold on_mnode in H1; rewrite Hw1 in H1; discriminate].
  apply on_mnode_inv in H1 as [Hq1 _]. apply bind_ret_inv in H as (s3 & todo & H2 & H).
  apply on_mnode_inv in H2 as (Hq2 & w2 & H2 & _). apply not_yet_minted_spec in H2 as [Hsub Hcov].
  destruct todo as [|t0 todo].
  { unfold bind, set_failedIn, modify, ret in H. injection H as <- <-. split; [apply held_grows_node; cbn; congruence|].
    exists []. split; [done|]. split; [by intros k ?%not_elem_of_nil|].
    intros a Ha. destruct (Hcov a Ha) as [?%not_elem_of_nil|]; [done|by left]. }
  apply bind_ret_inv in H as (s4 & r & H3 & H). apply try_ret_inv in H3. destruct r as [m|e].
  - apply on_mnode_inv in H3 as (Hq3 & w3 & H3 & _). unfold ret in H. injection H as <- <-.
    split; [apply held_grows_node; congruence|]. eexists. split; [done|].
    pose proof (DoProcessInBound_keys _ _ _ _ H3) as Hk. destruct (by_hash_spec items) as [_ Hb2].
    assert (forall k, k ∈ map fst (map_range m) <-> is_Some (m !! k)) as Hkeys.
    { intros k. rewrite list_elem_of_fmap. split.
      - intros ([k' x] & -> & Hx). rewrite map_range_perm, elem_of_map_to_list in Hx. by exists x.
      - intros [x Hx]. exists (k, x). split; [done|]. by rewrite map_range_perm, elem_of_map_to_list. }
    split.
    + intros k [a [Ha ->]]%Hkeys%Hk. by apply Hb2, Hsub.
    + intros a Ha. destruct (Hcov a Ha) as [Hin|]; [|by left]. right. left. apply Hkeys, Hk. eauto.
  - apply on_mnode_inv in H3 as (Hq3 & _). apply bind_ret_inv in H as (s5 & [] & H4 & H).
    rewrite hold_all_spec in H4. injection H4 as <-. unfold ret in H. injection H as <- <-. cbn [mint_q].
    assert (mint_q s4 = mint_q s) as -> by congruence. split; [split; [done|]; by exists items|].
    exists []. split; [done|]. split; [by intros k ?%not_elem_of_nil|].
    intros a Ha. right. right. by exists items.
Qed.
End MintLemmas.

(** ** Properties *)

Section MintProperties.
Context {W Msg : Type} `{CN : CosmosNode W Msg} `{T : TssServer W} `{JS : JoltService W} `{S : SdkMath} `{N : SdkCoins} `{B : Bech32} `{E : Eth}.
Context `{K : Backoff} `{KL : !BackoffLaws K} `{R : GoRuntime} `{LR : !GoRuntimeLaws R} `{GK : GoBackoff} `{GL : !GoBackoffLaws GK}.
#[local] Notation MS := (MintState W).

(** Fact (no deposit is forgotten by a mint round). However the goroutines of a
    round interleave, when the node can be dialled the round leaves the retry
    map alone and appends to the on-hold queue requests of the batch only, in
    such a way that every request of the batch was either reported as minted
    by the node or is on hold (or one with the same hash is). *)
Theorem processInbound_any_order items (s s' : MS) :
  (forall w : W, exists w', DialGrpc w = (w', Ret tt)) ->
  processInbound_runs (Msg := Msg) items s s' ->
  exists held, mint_q s' = mkQueue (pending (mint_q s)) (onHold (mint_q s) ++ held) /\
    (forall h, h ∈ held -> h ∈ items) /\
    forall a, a ∈ items -> minted (W := W) (in_hash a) \/ exists h, h ∈ held /\ in_hash h = in_hash a.
Proof.
  intros Hd (s1 & ts & Ht & Hr). destruct (mint_tasks_spec _ _ _ _ Hd Ht) as (Hg1 & keys & -> & Hk & Hcov).
  destruct (by_hash_spec items) as [Hb1 _].
  assert (forall i p, map (mint_go (by_hash items)) keys !! i = Some p ->
    safe (held_grows items) p (fun _ s => forall k, keys !! i = Some k -> minted_or_held (by_hash items) s1 k s) s1) as Hsafe.
  { intros i p Hi. apply list_lookup_fmap_Some in Hi as (k & -> & Hik).
    apply (safe_mono _ _ (fun _ => minted_or_held (by_hash items) s1 k));
      [|apply mint_go_safe; [done|intros k' a Ha; by destruct (Hb1 k' a Ha)]].
    intros _ s2 _ HQ k' Hk'. by simplify_eq. }
  destruct (group_post _ _ _ _ _ Hr (fun i a b Hab HQ k Hik => minted_or_held_stable items _ _ _ _ _ Hab (HQ k Hik)) Hsafe) as [Hg2 Hpost].
  destruct Hg1 as [Hp1 (l1 & Hl1 & Hi1)], Hg2 as [Hp2 (l2 & Hl2 & Hi2)]. exists (l1 ++ l2)%list. split_and!.
  - destruct (mint_q s') as [p h]. cbn in *. by rewrite Hl2, Hl1, Hp2, Hp1, <- app_assoc.
  - intros h [?|?]%elem_of_app; auto.
  - intros a Ha. destruct (Hcov a Ha) as [?|[(i & Hi)%list_elem_of_lookup|(held & Hh & Hin)]]; [by left| |].
    + assert (i < length (map (mint_go (by_hash items)) keys))%nat as Hlen by (rewrite length_map; by eapply lookup_lt_Some).
      destruct (Hpost i Hlen _ Hi) as [?|(h & held & Hh & Hin & Hm)]; [by left|].
      right. exists h. rewrite Hl2 in Hh. apply app_inv_head in Hh as ->. split; [apply elem_of_app; by right|].
      by apply Hb1 in Hm as [_ ->].
    + right. exists a. rewrite Hl1 in Hh. apply app_inv_head in Hh as ->. split; [apply elem_of_app; by left|done].
Qed.

(** Fact (running the requests in order is the round). The round of Processing.v
    is the round whose goroutines run one after the other in the order they
    are started in: the same state and result from every state. *)
Theorem processInbound_in_order items (s : MS) :
  bind (mint_tasks (Msg := Msg) items) (fun ts => forM ts (alone tt)) s = processInbound (Msg := Msg) items s.
Proof.
  unfold mint_tasks, processInbound. unfold bind.
  destruct (try (on_mnode DialGrpc) s) as [s1 [[[]|e]|e|]]; [|done..].
  destruct (on_mnode (not_yet_minted items) s1) as [s2 [[|t0 todo]|e|]]; [done| |done..].
  destruct (try (on_mnode (DoProcessInBound (t0 :: todo))) s2) as [s3 [[m|e]|e|]]; [| |done..].
  - unfold ret. apply alone_forM. intros. apply mint_go_alone.
  - rewrite hold_all_spec. done.
Qed.

(** Fact (a mint round ends). With a node that can be dialled and answers, the
    goroutines of a round cannot run for ever and are never stuck, in
    whatever order they act: [wg.Wait()] returns. *)
Theorem processInbound_ends items (s s1 : MS) ts c :
  (forall w : W, exists w', DialGrpc w = (w', Ret tt)) ->
  (forall i (w : W), (queryGivenToeknIssueTx i w).2 <> Panic) ->
  mint_tasks (Msg := Msg) items s = (s1, Ret ts) -> rtc gstep (s1, ts) c ->
  Acc (fun c' c => gstep c c') c /\ (Forall (fun p => p = Return tt) c.2 \/ exists c', gstep c c').
Proof.
  intros Hd Hq Ht. destruct (mint_tasks_spec _ _ _ _ Hd Ht) as (_ & keys & -> & Hk & _).
  apply group_ends; apply Forall_forall; intros p (k & -> & Hin)%list_elem_of_fmap.
  - apply mint_go_only_acts.
  - apply mint_go_calm; auto.
Qed.

(** Fact (putting back failed mints). In whatever order the goroutines act, with
    a node that can be dialled the routine empties the on-hold queue, and each request that was on hold is afterwards either
    known to be minted or in the map under its index (itself or another held
    one with that index); entries under other indices are untouched. *)
Theorem putOnHoldBlockInBoundBack_any_order (s s' : MS) :
  (forall w : W, exists w', DialGrpc w = (w', Ret tt)) ->
  putOnHoldBlockInBoundBack_runs s s' ->
  onHold (mint_q s') = [] /\
  (forall a, a ∈ onHold (mint_q s) -> minted (W := W) (in_hash a) \/
    exists b, b ∈ onHold (mint_q s) /\ pending (mint_q s') !! InBoundReq_Index a = Some b) /\
  forall k, pending (mint_q s') !! k = pending (mint_q s) !! k \/
    exists b, b ∈ onHold (mint_q s) /\ InBoundReq_Index b = k /\ pending (mint_q s') !! k = Some b.
Proof.
  intros Hd (s1 & ts & Ht & Hr). revert Ht. unfold put_back_tasks. intros (s2 & d & H1 & H)%bind_ret_inv.
  apply try_ret_inv in H1. destruct (Hd (m_node s)) as [w1 Hw1].
  destruct d as [[]|e]; [|unfold on_mnode in H1; rewrite Hw1 in H1; discriminate].
  apply on_mnode_inv in H1 as [Hq1 _]. unfold bind, on_mq in H. rewrite DumpQueue_ret in H. unfold ret in H.
  injection H as <- <-. set (l := onHold (mint_q s2)) in *.
  assert (forall i p, map put_back_go l !! i = Some p ->
    safe (put_from l) p (fun _ s => forall a, l !! i = Some a -> minted_or_back l a s)
      (mkMintState (m_node s2) (mkQueue (pending (mint_q s2)) []) (failedInbound s2) (inBoundWait s2))) as Hsafe.
  { intros i p Hi. apply list_lookup_fmap_Some in Hi as (a & -> & Hia).
    apply (safe_mono _ _ (fun _ => minted_or_back l a)); [|apply put_back_go_safe; by eapply list_elem_of_lookup_2].
    intros _ s3 _ HQ a' Ha'. by simplify_eq. }
  destruct (group_post _ _ _ _ _ Hr (fun i a b Hab HQ k Hik => minted_or_back_stable l _ _ _ Hab (HQ k Hik)) Hsafe) as [[Hh Hk] Hpost].
  cbn in Hh, Hk. assert (onHold (mint_q s) = l) as -> by (unfold l; by rewrite Hq1). rewrite <- Hq1. split_and!; [done| |done].
  intros a (i & Hi)%list_elem_of_lookup. apply (Hpost i); [|done]. rewrite length_map. by eapply lookup_lt_Some.
Qed.
End MintProperties.

(** ** Witnesses

    Two deposits, the node knows neither of them at the end; the goroutines
    take turns, the second first. *)
Section Witnesses.
#[local] Existing Instance cosmos_ref.
#[local] Existing Instance tss_cos_ref.
#[local] Existing Instance sdk_math_ref.
#[local] Existing Instance sdk_coins_ref.
#[local] Existing Instance bech32_ref.
#[local] Existing Instance backoff_ref.
#[local] Existing Instance go_backoff_ref.
#[local] Existing Instance eth_ref.
#[local] Existing Instance go_runtime_ref.

#[local] Definition dep2 (n : Z) (tx : Byte.byte) : InBoundReq :=
  SetAccountInfo 1 n [Byte.x09] "k01" (NewAccountInboundReq [Byte.x01] [] (mkCoin "abnb" n) [tx] 10).
#[local] Definition mint_state2 (held : list InBoundReq) : MintState cos_world := mkMintState ([], []) (mkQueue ∅ held) 0 false.
#[local] Definition two_deps : list InBoundReq := [dep2 7 Byte.x03; dep2 8 Byte.x04].
#[local] Definition taking_turns : list nat := concat (replicate 60 [1%nat; 0%nat]).

Lemma mint_round_run :
  let _ := jolt_ref true in
  exists s1 ts s', mint_tasks (Msg := string) two_deps (mint_state2 []) = (s1, Ret ts) /\ group_runs ts s1 s' /\
    length ts = 2%nat.
Proof.
  intros JS. destruct (mint_tasks (Msg := string) two_deps (mint_state2 [])) as [s1 r] eqn:Es.
  assert (match r with Ret ts => all_returned (gsched taking_turns (s1, ts)).2 && (length ts =? 2)%nat | _ => false end = true) as Hr.
  { replace r with (mint_tasks (Msg := string) two_deps (mint_state2 [])).2 by (by rewrite Es).
    replace s1 with (mint_tasks (Msg := string) two_deps (mint_state2 [])).1 by (by rewrite Es). vm_compute. reflexivity. }
  destruct r as [ts|e|]; [|discriminate..]. apply andb_true_iff in Hr as [Hr Hl%Nat.eqb_eq]. eexists s1, ts, _. split; [done|]. split; [exact (gsched_runs _ _ _ Hr)|done].
Qed.

Lemma processInbound_any_order_witness :
  let _ := jolt_ref true in
  exists s' held, processInbound_runs (Msg := string) two_deps (mint_state2 []) s' /\
    onHold (mint_q s') = held /\ (forall h, h ∈ held -> h ∈ two_deps).
Proof.
  intros JS. destruct mint_round_run as (s1 & ts & s' & Ht & Hr & _).
  assert (processInbound_runs (Msg := string) two_deps (mint_state2 []) s') as H by (exists s1, ts; split; assumption).
  destruct (processInbound_any_order (JS := JS) two_deps (mint_state2 []) s' dial_ref H) as (held & Hq & Hh & _).
  exists s', held. split; [exact H|]. split; [rewrite Hq; reflexivity|exact Hh].
Defined.

Lemma processInbound_in_order_witness :
  let _ := jolt_ref true in
  bind (mint_tasks (Msg := string) two_deps) (fun ts => forM ts (alone tt)) (mint_state2 []) =
  processInbound (Msg := string) two_deps (mint_state2 []).
Proof. intros JS. exact (processInbound_in_order (JS := JS) two_deps (mint_state2 [])). Defined.

Lemma processInbound_ends_witness :
  let _ := jolt_ref true in
  exists c : MintState cos_world * list (go (MintState cos_world) unit unit), length c.2 = 2%nat /\ Acc (fun c' c => gstep c c') c.
Proof.
  intros JS. destruct mint_round_run as (s1 & ts & s' & Ht & _ & Hl). exists (s1, ts). split; [exact Hl|].
  destruct (processInbound_ends (JS := JS) two_deps (mint_state2 []) s1 ts (s1, ts)) as [H _].
  - exact dial_ref.
  - intros i w. cbn. destruct (Processing.minted_ref w i); discriminate.
  - exact Ht.
  - apply rtc_refl.
  - exact H.
Defined.

Lemma putOnHoldBlockInBoundBack_any_order_witness :
  let _ := jolt_ref true in
  exists s', putOnHoldBlockInBoundBack_runs (mint_state2 two_deps) s' /\ onHold (mint_q s') = [].
Proof.
  intros JS. destruct (put_back_tasks (mint_state2 two_deps)) as [s1 r] eqn:Es.
  assert (match r with Ret ts => all_returned (gsched taking_turns (s1, ts)).2 | _ => false end = true) as Hr.
  { replace r with (put_back_tasks (mint_state2 two_deps)).2 by (rewrite Es; reflexivity).
    replace s1 with (put_back_tasks (mint_state2 two_deps)).1 by (rewrite Es; reflexivity). vm_compute. reflexivity. }
  destruct r as [ts|e|]; [|discriminate Hr|discriminate Hr].
  assert (putOnHoldBlockInBoundBack_runs (mint_state2 two_deps) (gsched taking_turns (s1, ts)).1) as H
    by (exists s1, ts; split; [exact Es|exact (gsched_runs _ _ _ Hr)]).
  exists (gsched taking_turns (s1, ts)).1. split; [exact H|].
  exact (proj1 (putOnHoldBlockInBoundBack_any_order (JS := JS) _ _ dial_ref H)).
Defined.
End Witnesses.
