(* ===== verification/PayoutRound.v ===== *)
(** * A payout round with its goroutines: processEachOutBound of
    bridge/bridge_service.go

    The routine first checks every request in a goroutine of its own, then
    starts a worker per request that is left and the collector that has their
    hashes signed in one batch.  Here all of them are programs in the sense
    of Goroutine.v, over the real sending methods of SendPrograms.v.  The
    theorems hold for every interleaving: where the requests of the batch end
    up, that the round is a round of the protocol of Keysign.v, that it ends,
    and what the signers are asked to sign.  [localSubmitLocker] keeps two
    workers from submitting their records at the same time; here they may. *)

From Stdlib Require Import Ascii String.
From S2P Require Import Prelude GoLib Sdk Requests ItemQueue Signature Pools PubClient Keysign Goroutine TxSend SendPrograms MoveFund Validators CosTx Processing.

#[local] Open Scope string_scope.
#[local] Open Scope Z_scope.
#[local] Open Scope go_scope.

(** ** Definitions *)

Section Payout.
Context {W J C Msg : Type} `{EC : EthClient W C} `{TW : TssServer W} `{CN : CosmosNode J Msg} `{TJ : TssServer J} `{JS : JoltService J}.
Context `{G : EthSigner} `{S : SdkMath} `{N : SdkCoins} `{B : Bech32} `{E : Eth} `{R : GoRuntime} `{K : Backoff} `{GK : GoBackoff}.
Context (attempts submits : nat) (HexToHash : string -> bytes).
#[local] Notation PS := (PayState W J C).
#[local] Notation Rp := (option (gmap string bytes)).

(** *** The first group: what still needs processing

    [needToBeProcessed], behind its lock, is the second part of the state. *)
Definition on_ps {A} (m : M PS A) : M (PS * list OutBoundReq) A := fun s =>
  let '(s', r) := m (fst s) in ((s', snd s), r).

Definition append (each : OutBoundReq) : M (PS * list OutBoundReq) unit := modify (fun s => (fst s, (snd s ++ [each])%list)).

(** The goroutine of one request, on any state that has these operations. *)
Definition check_body {St} (query : M St string) (check : string -> go St Rp (unit + string)) (append : M St unit) : go St Rp unit :=
  let^ r := act query in
  match r with
  | inr _ => do^ act append in Return tt
  | inl submittedTx =>
      if negb (bool_decide (submittedTx = "")) then
        let^ r := check submittedTx in
        match r with
        | inl _ => Return tt
        | inr _ => do^ act append in Return tt
        end
      else Return tt
  end.

Definition check_go (v : ValidatorSet) (each : OutBoundReq) : go (PS * list OutBoundReq) Rp unit :=
  check_body (on_ps (on_pjolt (submitted_query v each)))
    (fun tx => glift (fun B m => on_ps (on_pchain m)) (CheckTxStatus_go HexToHash tx)) (append each).

(** *** The signing round *)

(** The goroutine of one request, on any state [PayState] is a part of;
    [submit] is [op], which reads the pools at every attempt. *)
Definition worker_body {St} (on : forall D, M PS D -> M St D) (submit : string -> M St unit) (item : OutBoundReq) : go St Rp unit :=
  let '(toAddr, fromAddr, tokenAddr, amount, nonce) := GetOutBoundInfo item in
  Sub (
    let^ r := glift (fun D m => on D (on_pchain m)) (ProcessOutBound_go attempts toAddr fromAddr tokenAddr amount nonce) in
    let '(txHash, _) := r in
    let^ checked := (if negb (bool_decide (txHash = Hash_Hex zero_hash))
      then let^ c := glift (fun D m => on D (on_pchain m)) (CheckTxStatus_go HexToHash txHash) in
           Return (match c with inl _ => true | inr _ => false end)
      else Return false) in
    do^ (if checked : bool then
        do^ act (on _ (set_failedOut (fun _ => 0))) in
        do^ retry_go submits (act (submit txHash)) in
        Return tt
      else
        let^ w := act (on _ (let! s := get in ret (outBoundWait s))) in
        do^ match w with
            | inl true => Return (inl tt)
            | _ => act (on _ (set_failedOut (fun n => i32 (n + 1))))
            end in
        do^ act (on _ (on_pq (AddOnHoldQueue (SetSubmittedTxHash txHash item)))) in
        Return tt) in
    Unsub (Return tt)).

Definition outbound_worker_go (GetPool : list (option PoolInfo)) (item : OutBoundReq) : go PS Rp unit :=
  worker_body (fun D m => m) (fun txHash => on_pjolt (submit_record (Msg := Msg) GetPool item txHash)) item.

(** The collector once it has heard from every worker. *)
Definition sign_go (GetPool : list (option PoolInfo)) (received : gmap nat bytes) : go PS Rp Rp :=
  let allsignMSgs := batch received in
  let^ lastPool := act (match GetPool !! 1%nat with Some (Some p) => ret p | _ => panic end) in
  match lastPool with
  | inr _ => Return None
  | inl lastPool =>
      let^ latest := act (on_pchain (GetBlockByNumberWithLock None)) in
      match latest with
      | inr _ => Return None
      | inl latest =>
          let blockHeight := Z.quot (i64 (NumberU64 latest)) ROUNDBLOCK in
          let^ signature := act (on_pchain (on_node (TssSignBatch allsignMSgs (Pk lastPool) blockHeight))) in
          Return (match signature with inl m => m | inr _ => None end)
      end
  end.

(** A state of the round over [need], started in [s]. *)
Definition payout_reach (GetPool : list (option PoolInfo)) (need : list OutBoundReq) (s : PS) (y : sys PS Rp) : Prop :=
  rtc (sstep (length need) (sign_go GetPool)) (boot s (map (outbound_worker_go GetPool) need)) y.

(** The routine may end in [s']. *)
Definition processEachOutBound_runs (GetPool : list (option PoolInfo)) (v : ValidatorSet) (items : list OutBoundReq) (s s' : PS) : Prop :=
  exists s1 needToBeProcessed, group_runs (map (check_go v) items) (s, []) (s1, needToBeProcessed) /\
    match needToBeProcessed with
    | [] => set_failedOut (fun _ => 0) s1 = (s', Ret tt)
    | _ => exists y, payout_reach GetPool needToBeProcessed s1 y /\ sover y /\ shared y = s'
    end.
End Payout.

(** ** Lemmas *)

Section PayoutLemmas.
Context {W J C Msg : Type} `{EC : EthClient W C} `{TW : TssServer W} `{CN : CosmosNode J Msg} `{TJ : TssServer J} `{JS : JoltService J}.
Context `{G : EthSigner} `{LG : !EthSignerLaws G} `{S : SdkMath} `{N : SdkCoins} `{B : Bech32} `{E : Eth} `{R : GoRuntime}.
Context `{K : Backoff} `{KL : !BackoffLaws K} `{GK : GoBackoff} `{GL : !GoBackoffLaws GK}.
Context (attempts submits : nat) (Hattempts : (0 < attempts)%nat) (Hsubmits : (0 < submits)%nat) (HexToHash : string -> bytes).
#[local] Notation PS := (PayState W J C).
#[local] Notation CI := (ChainInfo W C).
#[local] Notation Rp := (option (gmap string bytes)).

(** The chain client is a part of the state. *)
Definition put_chain (c : CI) (s : PS) : PS := mkPayState c (p_jolt s) (pay_q s) (failedOutbound s) (outBoundWait s).

#[export] Instance on_pchain_part : OnPart (@on_pchain W J C) p_chain put_chain.
Proof. split; [|done|done|by intros []]. intros A m s. unfold on_pchain. by destruct (m (p_chain s)). Qed.

#[export] Instance on_ps_pchain_part :
  OnPart (fun A (m : M CI A) => on_ps (on_pchain (J := J) m)) (fun s => p_chain (fst s)) (fun c s => (put_chain c (fst s), snd s)).
Proof.
  split; [|done|done|by intros [[] l]]. intros A m s. unfold on_ps, on_pchain. by destruct (m (p_chain (fst s))).
Qed.

(** *** Alone, a worker is the worker of Processing.v *)

Lemma on_pjolt_retry n (m : M J unit) (s : PS) : retry_loop n (on_pjolt m) s = on_pjolt (retry_loop n m) s.
Proof.
  revert s. induction n as [|n IH]; intros s.
  - unfold on_pjolt. cbn. by destruct (m (p_jolt s)) as [w [[]|e|]].
  - assert (retry_loop (Datatypes.S n) (on_pjolt m) s = match on_pjolt m s with
      | (s', Fail e) => retry_loop n (on_pjolt m) s' | r => r end) as -> by done.
    unfold on_pjolt at 1 3. cbn [retry_loop]. destruct (m (p_jolt s)) as [w [[]|e|]]; [done| |done].
    rewrite IH. unfold on_pjolt. cbn. by destruct (retry_loop n m w).
Qed.

Lemma worker_sends_alone resp index to from token amount nonce (s : PS) :
  alone resp (glift (@on_pchain W J C) (ProcessOutBound_go attempts to from token amount nonce)) s =
  on_pchain (on_send (ProcessOutBound attempts index to from token amount nonce resp)) s.
Proof.
  rewrite (alone_glift (@on_pchain W J C)). unfold on_pchain, on_send.
  rewrite (ProcessOutBound_models attempts Hattempts resp index to from token amount nonce (p_chain s) []).
  by destruct (ProcessOutBound attempts index to from token amount nonce resp (mkSendState (p_chain s) [])) as [s1 r].
Qed.

Lemma CheckTxStatus_part_alone resp hash (s : PS) :
  alone resp (glift (@on_pchain W J C) (CheckTxStatus_go HexToHash hash)) s = try (on_pchain (PubClient.CheckTxStatus HexToHash hash)) s.
Proof.
  rewrite (alone_glift (@on_pchain W J C)). rewrite (on_try (@on_pchain W J C)), !on_part. by rewrite CheckTxStatus_alone.
Qed.

Lemma outbound_worker_alone GetPool resp index item (s : PS) :
  alone resp (outbound_worker_go (Msg := Msg) attempts submits HexToHash GetPool item) s =
  outbound_worker (Msg := Msg) attempts submits HexToHash GetPool resp index item s.
Proof.
  unfold outbound_worker_go, worker_body, outbound_worker. destruct (GetOutBoundInfo item) as [[[[to from] token] amount] nonce].
  cbn [alone]. apply alone_bind_same; [apply worker_sends_alone|]. clear s. intros [txHash err] s.
  apply alone_bind_same.
  - destruct (negb _); [|done]. apply alone_bind_same; [apply CheckTxStatus_part_alone|done].
  - clear s. intros checked s. rewrite alone_deferred. destruct checked.
    + cbn [gbind act alone]. unfold bind, try, set_failedOut, modify. cbn [ocatch]. rewrite retry_go_spec by done.
      rewrite alone_bind. unfold bind. rewrite alone_retry_act. unfold try. rewrite on_pjolt_retry.
      unfold on_pjolt. rewrite Retry_spec by done. by destruct (retry_loop submits _ _) as [j [[]|e|]].
    + cbn [gbind act alone]. unfold bind, try, get, ret. cbn. by destruct (outBoundWait s).
Qed.

(** *** Every worker follows the protocol, the collector only acts *)

(** The body of a worker, wherever its variables are. *)
Section Bodies.
Context {St : Type} (on : forall D, M PS D -> M St D) (submit : string -> M St unit).

Lemma worker_body_protocol item : worker_of WStart (worker_body attempts submits HexToHash on submit item : go St Rp unit).
Proof using Hattempts Hsubmits GL.
  unfold worker_of, worker_body. destruct (GetOutBoundInfo item) as [[[[to from] token] amount] nonce].
  split; [done|]. apply steps_to_bind, steps_to_glift. eapply steps_to_mono; [|by apply (ProcessOutBound_steps attempts)].
  intros w [txHash err] [late ->]. apply steps_to_bind, only_acts_steps.
  { destruct (negb _); [|done]. apply only_acts_bind; [|done]. apply only_acts_glift, CheckTxStatus_only_acts. }
  intros checked. apply steps_to_bind, only_acts_steps; [|intros []; exists late; split; [done|by exists late]].
  destruct checked.
  - intros r. cbn [gbind]. rewrite retry_go_spec by done. apply only_acts_bind; [|done]. by apply (only_acts_retry submits).
  - intros [[]|e]; by intros r.
Qed.

(** What every action of a worker satisfies: calls of the chain, the failure
    counter and its flag, the on-hold queue, the record. *)
Lemma worker_body_acts_if (P : forall D, M St D -> Prop) item :
  (forall D (m : M CI D), P D (on D (on_pchain m))) -> P _ (on _ (set_failedOut (fun _ => 0))) -> P _ (on _ (set_failedOut (fun n => i32 (n + 1)))) ->
  P _ (on _ (let! s := get in ret (outBoundWait s))) -> (forall a, P _ (on _ (on_pq (AddOnHoldQueue a)))) -> (forall h, P _ (submit h)) ->
  acts P (worker_body attempts submits HexToHash on submit item).
Proof using Hsubmits GL.
  intros Hc H0 H1 Hw Hq Hsub. unfold worker_body. destruct (GetOutBoundInfo item) as [[[[to from] token] amount] nonce]. cbn [acts].
  apply acts_bind; [by apply acts_glift|]. intros [txHash err]. apply acts_bind.
  { destruct (negb _); [|done]. apply acts_bind; [by apply acts_glift|done]. }
  intros checked. apply acts_bind; [|done]. destruct checked.
  - apply acts_bind; [by split|]. intros _. apply acts_bind; [|done]. rewrite retry_go_spec by done. apply acts_retry. by split.
  - apply acts_bind; [by split|]. intros w. apply acts_bind; [by destruct w as [[|]|]|]. intros _. apply acts_bind; [by split|done].
Qed.

Lemma worker_body_acts (P : forall D, M St D -> Prop) item : (forall D (m : M PS D), P D (on D m)) -> (forall h, P _ (submit h)) ->
  acts P (worker_body attempts submits HexToHash on submit item).
Proof using Hsubmits GL. intros Hon Hsub. apply worker_body_acts_if; auto. Qed.

Lemma check_body_only_acts (query : M St string) (check : string -> go St Rp (unit + string)) append :
  (forall tx, only_acts (check tx)) -> only_acts (check_body query check append).
Proof.
  intros Hc. unfold check_body. intros [hash|e]; [|done]. cbn [gbind]. destruct (negb _); [|done].
  apply only_acts_bind; [apply Hc|]. by intros [[]|e].
Qed.

Lemma check_body_acts (P : forall D, M St D -> Prop) (query : M St string) (check : string -> go St Rp (unit + string)) append :
  P _ query -> (forall tx, acts P (check tx)) -> P _ append -> acts P (check_body query check append).
Proof.
  intros Hq Hc Ha. unfold check_body. apply acts_bind; [by split|]. intros [hash|e]; [|by split]. destruct (negb _); [|done].
  apply acts_bind; [apply Hc|]. intros [[]|e]; by split.
Qed.
End Bodies.

Lemma outbound_worker_protocol GetPool item :
  worker_of WStart (outbound_worker_go (Msg := Msg) attempts submits HexToHash GetPool item : go PS Rp unit).
Proof. apply worker_body_protocol. Qed.

Lemma sign_only_acts GetPool rcv : only_acts (sign_go GetPool rcv : go PS Rp Rp).
Proof. intros [p|e]; [|done]. intros [latest|e]; [|done]. done. Qed.

Lemma workers_protocol GetPool need :
  Forall (worker_of WStart) (map (outbound_worker_go (Msg := Msg) attempts submits HexToHash GetPool) need : list (go PS Rp unit)).
Proof. apply Forall_forall. intros p (item & -> & _)%list_elem_of_fmap. apply outbound_worker_protocol. Qed.

(** *** What every action does to the queues *)

(** [f a b]: how an entry [b] the queue gains comes from a request [a]. *)
Definition gains (need : list OutBoundReq) (s s' : PS) : Prop :=
  pending (pay_q s') = pending (pay_q s) /\
  exists held, onHold (pay_q s') = (onHold (pay_q s) ++ held)%list /\
    forall h, h ∈ held -> exists a x, a ∈ need /\ h = SetSubmittedTxHash x a.

#[export] Instance gains_preorder need : PreOrder (gains need).
Proof.
  split.
  - intros s. split; [done|]. exists []. rewrite app_nil_r. split; [done|]. by intros h ?%not_elem_of_nil.
  - intros s1 s2 s3 [Hp1 (l1 & Hl1 & H1)] [Hp2 (l2 & Hl2 & H2)]. split; [congruence|].
    exists (l1 ++ l2)%list. rewrite Hl2, Hl1, app_assoc. split; [done|]. intros h [?|?]%elem_of_app; auto.
Qed.

Lemma gains_same need (s s' : PS) : pay_q s' = pay_q s -> gains need s s'.
Proof. intros H. split; [by rewrite H|]. exists []. rewrite H, app_nil_r. split; [done|]. by intros h ?%not_elem_of_nil. Qed.

(** What the chain programs yield, next to the other goroutines. *)
Lemma chain_safe {A} need (p : go CI Rp A) (Q : A -> Prop) s :
  yields p Q -> safe (gains need) (glift (@on_pchain W J C) p) (fun a _ => Q a) s.
Proof. intros H. apply (yields_safe (@on_pchain W J C)); [|done]. intros c s'. by apply gains_same. Qed.

(** The chain's client reported the success of the transaction. *)
Definition confirmed_tx (hash : string) : Prop :=
  exists c c' : CI, checkEachTx (HexToHash hash) c = (c', Ret 1).

(** The request was paid: by a transaction the joltify chain names for it, or
    by one of this node for exactly this request, signed by a batch. *)
Definition paid (v : ValidatorSet) (a : OutBoundReq) : Prop :=
  exists hash, confirmed_tx hash /\
    ((exists j j' : J, submitted_query v a j = (j', Ret hash)) \/
     exists h, hash = Hash_Hex h /\
       composed (W := W) (C := C) (FromPoolAddr a) (OutReceiverAddress a) (TokenAddr a) (Amount (ob_Coin a)) (Nonce a) h).

Definition paid_or_held (v : ValidatorSet) (s0 : PS) (a : OutBoundReq) (s : PS) : Prop :=
  paid v a \/ exists x held, onHold (pay_q s) = (onHold (pay_q s0) ++ held)%list /\ SetSubmittedTxHash x a ∈ held.

Lemma paid_or_held_stable v need s0 a s s' : gains need s s' -> paid_or_held v s0 a s -> paid_or_held v s0 a s'.
Proof.
  intros [_ (l & Hl & _)] [?|(x & held & Hh & Hin)]; [by left|]. right. exists x, (held ++ l)%list.
  rewrite Hl, Hh, app_assoc. split; [done|]. apply elem_of_app. by left.
Qed.

(** The end of a worker whose payment was not confirmed. *)
Lemma hold_safe v need s0 a txHash s : a ∈ need -> gains need s0 s ->
  safe (gains need) (gbind (act (Rp := Rp) (on_pq (AddOnHoldQueue (SetSubmittedTxHash txHash a)))) (fun _ => Return tt))
    (fun _ => paid_or_held v s0 a) s.
Proof.
  intros Ha H0 s1 Hs1 s2 r H2. apply try_ret_inv in H2. unfold on_pq, AddOnHoldQueue, modify in H2.
  destruct r as [[]|e]; [|discriminate]. injection H2 as <-.
  assert (gains need s0 s1) as [_ (l & Hl & _)] by (by etrans). split.
  - split; [done|]. exists [SetSubmittedTxHash txHash a]. split; [done|]. intros h ->%list_elem_of_singleton. eauto.
  - right. exists txHash, (l ++ [SetSubmittedTxHash txHash a])%list. cbn. rewrite Hl, app_assoc. split; [done|].
    apply elem_of_app. right. left.
Qed.

Lemma outbound_worker_safe v GetPool need s0 a : a ∈ need ->
  safe (gains need) (outbound_worker_go (Msg := Msg) attempts submits HexToHash GetPool a : go PS Rp unit)
    (fun _ => paid_or_held v s0 a) s0.
Proof.
  intros Ha. unfold outbound_worker_go, worker_body, GetOutBoundInfo. cbn [safe].
  apply safe_bind. refine (safe_mono _ _ _ _ _ _ (chain_safe need _ _ s0 (ProcessOutBound_yields attempts _ _ _ _ _))).
  intros [txHash err] s1 Hs1 Hpay. cbn [fst] in Hpay. apply safe_bind.
  apply (safe_mono _ _ (fun checked _ => checked = true -> paid v a)).
  2: { destruct (decide (txHash = Hash_Hex zero_hash)) as [Hz|Hz]; [by rewrite bool_decide_true by done|].
    rewrite bool_decide_false by done. cbn [negb]. destruct Hpay as [?|(h & Hh & Hc)]; [done|]. apply safe_bind.
    refine (safe_mono _ _ _ _ _ _ (chain_safe need _ _ s1 (CheckTxStatus_yields HexToHash txHash))).
    intros [[]|e] s2 _ Hok; cbn; [|done]. intros _. exists txHash. split; [by apply Hok|]. right. eauto. }
  intros [|] s2 Hs2 Hp; apply safe_bind.
  - intros s3 Hs3 s4 r H4. apply try_ret_inv in H4. unfold set_failedOut, modify in H4.
    destruct r as [[]|e]; [|discriminate]. injection H4 as <-. split; [by apply gains_same|]. cbn [gbind].
    apply safe_bind. rewrite retry_go_spec by done.
    apply (safe_mono _ _ (fun _ _ => True)); [intros r s4 _ _; left; auto|].
    apply safe_retry; [apply _|]. clear s3 Hs3. intros s3. apply safe_act. intros s5 _ s6 r Hr. apply try_ret_inv in Hr. split; [|done].
    apply gains_same. destruct r; by apply on_pjolt_inv in Hr as [].
  - assert (forall s3, gains need s2 s3 -> gains need s0 s3) as H0 by (intros; etrans; [exact Hs1|]; by etrans).
    intros s3 Hs3 s4 w H4. apply try_ret_inv in H4. unfold bind, get, ret in H4.
    destruct w as [w|]; [|discriminate]. injection H4 as <- _. split; [done|]. cbn [gbind].
    destruct w; [by apply hold_safe; auto|]. intros s5 Hs5 s6 r H6. apply try_ret_inv in H6.
    unfold set_failedOut, modify in H6. destruct r as [[]|e]; [|discriminate]. injection H6 as <-.
    split; [by apply gains_same|]. apply hold_safe; [done|]. apply H0. etrans; [exact Hs3|]. etrans; [exact Hs5|]. by apply gains_same.
Qed.

Lemma sign_safe GetPool need rcv s : safe (gains need) (sign_go GetPool rcv : go PS Rp Rp) (fun _ _ => True) s.
Proof.
  intros s1 _ s2 p H2. apply try_ret_inv in H2.
  assert (s2 = s1) as -> by (unfold ret, panic in H2; destruct p, (GetPool !! 1%nat) as [[q|]|]; by simplify_eq). split; [done|].
  cbn [gbind]. destruct p as [p|e]; [|done]. intros s3 _ s4 r H4. apply try_ret_inv in H4.
  split; [apply gains_same; destruct r; by apply on_pchain_inv in H4 as []|]. cbn [gbind].
  destruct r as [r|e]; [|done]. intros s5 _ s6 q H6. apply try_ret_inv in H6.
  split; [apply gains_same; destruct q; by apply on_pchain_inv in H6 as []|done].
Qed.

(** *** The first group *)

Definition collects (items : list OutBoundReq) (s s' : PS * list OutBoundReq) : Prop :=
  pay_q s'.1 = pay_q s.1 /\ exists more, s'.2 = (s.2 ++ more)%list /\ forall a, a ∈ more -> a ∈ items.

#[export] Instance collects_preorder items : PreOrder (collects items).
Proof.
  split.
  - intros s. split; [done|]. exists []. rewrite app_nil_r. split; [done|]. by intros h ?%not_elem_of_nil.
  - intros s1 s2 s3 [Hp1 (l1 & Hl1 & H1)] [Hp2 (l2 & Hl2 & H2)]. split; [congruence|].
    exists (l1 ++ l2)%list. rewrite Hl2, Hl1, app_assoc. split; [done|]. intros h [?|?]%elem_of_app; auto.
Qed.

Lemma collects_same items (s : PS * list OutBoundReq) s' : pay_q s' = pay_q s.1 -> collects items s (s', s.2).
Proof. intros H. split; [done|]. exists []. rewrite app_nil_r. split; [done|]. by intros h ?%not_elem_of_nil. Qed.

Definition considered (v : ValidatorSet) (a : OutBoundReq) (s : PS * list OutBoundReq) : Prop :=
  a ∈ s.2 \/ paid v a \/ record_open (J := J) v a.

Lemma considered_stable v items a s s' : collects items s s' -> considered v a s -> considered v a s'.
Proof. intros [_ (l & Hl & _)] [?|?]; [left|by right]. rewrite Hl. apply elem_of_app. by left. Qed.

Lemma append_safe v items a s : a ∈ items ->
  safe (Rp := Rp) (collects items) (gbind (act (append a)) (fun _ => Return tt)) (fun _ => considered v a) s.
Proof.
  intros Ha s1 _ s2 r H2. apply try_ret_inv in H2. unfold append, modify in H2.
  destruct r as [[]|e]; [|discriminate]. injection H2 as <-. split.
  - split; [done|]. exists [a]. split; [done|]. by intros h ->%list_elem_of_singleton.
  - left. apply elem_of_app. right. left.
Qed.

Lemma check_go_safe v items a s : a ∈ items ->
  safe (collects items) (check_go HexToHash v a : go (PS * list OutBoundReq) Rp unit) (fun _ => considered v a) s.
Proof.
  intros Ha s1 _ s2 r H2. apply try_ret_inv in H2.
  assert (collects items s1 s2 /\ forall hash, r = inl hash -> exists j j' : J, submitted_query v a j = (j', Ret hash)) as [Hc Hr].
  { unfold on_ps in H2. destruct (on_pjolt (submitted_query v a) s1.1) as [s3 r3] eqn:E3.
    apply on_pjolt_inv in E3 as (Hq & _ & E3). assert (s2 = (s3, s1.2)) as -> by (by destruct r; injection H2 as <- ->).
    split; [by apply collects_same|]. intros hash ->. injection H2 as ->. eauto. }
  split; [done|]. cbn [gbind]. destruct r as [hash|e]; [|by apply append_safe].
  case_bool_decide as Hz; cbn [negb]; [right; right; subst hash; by apply Hr|]. apply safe_bind.
  assert (forall (c : CI) (s : PS * list OutBoundReq), collects items s (put_chain c s.1, s.2)) as Hput
    by (intros; by apply collects_same).
  refine (safe_mono _ _ _ _ _ _ (yields_safe _ (collects items) _ _ s2 Hput (CheckTxStatus_yields HexToHash hash))).
  intros [[]|e] s3 _ Hok; [|by apply append_safe]. right. left. exists hash. split; [by apply Hok|]. left. by apply Hr.
Qed.

Lemma check_group v items s s1 need :
  group_runs (map (check_go HexToHash v) items : list (go _ Rp unit)) (s : PS, []) (s1, need) ->
  pay_q s1 = pay_q s /\ (forall a, a ∈ need -> a ∈ items) /\
  forall a, a ∈ items -> a ∈ need \/ paid v a \/ record_open (J := J) v a.
Proof.
  intros Hr.
  assert (forall i p, (map (check_go HexToHash v) items : list (go _ Rp unit)) !! i = Some p ->
    safe (collects items) p (fun _ s => forall a, items !! i = Some a -> considered v a s) (s, [])) as Hsafe.
  { intros i p Hi. apply list_lookup_fmap_Some in Hi as (a & -> & Hia).
    apply (safe_mono _ _ (fun _ => considered v a)); [|apply check_go_safe; by eapply list_elem_of_lookup_2].
    intros _ s2 _ HQ a' Ha'. by simplify_eq. }
  destruct (group_post _ _ _ _ _ Hr (fun i a b Hab HQ k Hik => considered_stable v items _ _ _ Hab (HQ k Hik)) Hsafe) as [[Hq (l & Hl & Hin)] Hpost].
  cbn in *. subst l. split; [done|]. split; [done|].
  intros a (i & Hi)%list_elem_of_lookup. apply (Hpost i); [|done]. rewrite length_map. by eapply lookup_lt_Some.
Qed.

(** *** What is asked of the signers *)

Definition asked (a : OutBoundReq) (d : bytes) : Prop :=
  asks (W := W) (C := C) (FromPoolAddr a) (OutReceiverAddress a) (TokenAddr a) (Amount (ob_Coin a)) (Nonce a) d.

Lemma outbound_worker_sends GetPool a :
  sends (asked a) (outbound_worker_go (Msg := Msg) attempts submits HexToHash GetPool a : go PS Rp unit).
Proof.
  unfold outbound_worker_go, worker_body, GetOutBoundInfo. apply sends_bind.
  { apply (sends_glift (@on_pchain W J C)). by apply ProcessOutBound_sends. }
  apply yields_any. intros [txHash err]. apply sends_bind.
  { apply only_acts_sends. destruct (negb _); [|done]. apply only_acts_bind; [|done].
    apply only_acts_glift, CheckTxStatus_only_acts. }
  apply yields_any. intros checked. apply sends_bind; [|by apply yields_any].
  apply only_acts_sends. destruct checked.
  - intros r. cbn [gbind]. rewrite retry_go_spec by done. apply only_acts_bind; [|done]. by apply (only_acts_retry submits).
  - intros [[]|e]; by intros r.
Qed.
End PayoutLemmas.

(** ** Properties *)

Section PayoutProperties.
Context {W J C Msg : Type} `{EC : EthClient W C} `{TW : TssServer W} `{CN : CosmosNode J Msg} `{TJ : TssServer J} `{JS : JoltService J}.
Context `{G : EthSigner} `{LG : !EthSignerLaws G} `{S : SdkMath} `{N : SdkCoins} `{B : Bech32} `{E : Eth} `{R : GoRuntime}.
Context `{K : Backoff} `{KL : !BackoffLaws K} `{GK : GoBackoff} `{GL : !GoBackoffLaws GK}.
Context (attempts submits : nat) (HexToHash : string -> bytes).
#[local] Notation PS := (PayState W J C).
#[local] Notation Rp := (option (gmap string bytes)).

(** C13 (where a payout round leaves its batch). However the goroutines of a
    round interleave, a round that ends leaves the retry map as it was; what
    was appended to the on-hold queue are requests of the batch with only the
    transaction hash rewritten; and every request of the batch is on hold, or
    was paid, or has an open record on the joltify chain that names no
    transaction yet.  Paid means that the public chain confirmed a
    transaction that either the joltify chain names for the request or this
    node composed for it: to its receiver, of its amount, with its nonce,
    signed with what a batch answered for that very transaction. *)
Theorem payout_any_order GetPool v items (s s' : PS) :
  (0 < attempts)%nat -> (0 < submits)%nat ->
  processEachOutBound_runs (Msg := Msg) attempts submits HexToHash GetPool v items s s' ->
  exists held, pay_q s' = mkQueue (pending (pay_q s)) (onHold (pay_q s) ++ held) /\
    (forall h, h ∈ held -> exists a x, a ∈ items /\ h = SetSubmittedTxHash x a) /\
    forall a, a ∈ items -> (exists x, SetSubmittedTxHash x a ∈ held) \/
      paid (W := W) (J := J) (C := C) HexToHash v a \/ record_open (J := J) v a.
Proof.
  intros Ha Hs (s1 & need & H1 & H2). apply check_group in H1 as (Hq1 & Hsub & Hcov).
  assert (gains need s1 s' /\ forall a, a ∈ need -> paid_or_held HexToHash v s1 a s') as [[Hp (held & Hh & Hin)] Hall].
  { destruct need as [|a0 need].
    { unfold set_failedOut, modify in H2. injection H2 as <-. split; [by apply gains_same|]. by intros a ?%not_elem_of_nil. }
    remember (a0 :: need) as l eqn:El. clear El. destruct H2 as (y & Hy & Hover & <-).
    assert (forall i p, map (outbound_worker_go (Msg := Msg) attempts submits HexToHash GetPool) l !! i = Some p ->
      safe (gains l) p (fun _ s => forall a, l !! i = Some a -> paid_or_held HexToHash v s1 a s) s1) as Hsafe.
    { intros i p Hi. apply list_lookup_fmap_Some in Hi as (a & -> & Hia).
      apply (safe_mono _ _ (fun _ => paid_or_held HexToHash v s1 a)); [|apply outbound_worker_safe; [done..|by eapply list_elem_of_lookup_2]].
      intros _ s2 _ HQ a' Ha'. by simplify_eq. }
    destruct (round_post _ _ _ _ _ _ _ Hy Hover
      (fun i a b Hab HQ k Hik => paid_or_held_stable HexToHash v l _ _ _ _ Hab (HQ k Hik))
      (fun rcv s => sign_safe GetPool l rcv s) Hsafe) as [Hg Hpost].
    split; [done|]. intros a (i & Hi)%list_elem_of_lookup. apply (Hpost i); [|done]. rewrite length_map. by eapply lookup_lt_Some. }
  exists held. split; [|split].
  - destruct (pay_q s') as [p h]. cbn in *. by rewrite Hh, Hp, Hq1.
  - intros h (a & x & Hx & ->)%Hin. exists a, x. auto.
  - intros a (* of the batch *) Hai. destruct (Hcov a Hai) as [Hn|?]; [|by right].
    destruct (Hall a Hn) as [?|(x & l & Hl & Hx)]; [by right; left|]. left. exists x.
    rewrite Hh in Hl. by apply app_inv_head in Hl as ->.
Qed.

(** C14 (a payout round is a round of the signing protocol). Every state that
    the goroutines of a payout round reach, in any interleaving, corresponds
    to a state reached by the protocol of Keysign.v: each worker's program is
    at its phase of the protocol, the request channel and the broadcaster's
    buffers are the same, and the collector is at the same place. *)
Theorem payout_refines_keysign GetPool need (s : PS) y :
  (0 < attempts)%nat -> (0 < submits)%nat ->
  payout_reach (Msg := Msg) attempts submits HexToHash GetPool need s y ->
  exists msg answer k, reached (length need) msg answer k /\ refines y k.
Proof.
  intros Ha Hs Hy. eapply refines_reached; [exact None| | | |exact Hy].
  - by apply sign_only_acts.
  - apply length_map.
  - by apply workers_protocol.
Qed.

(** Fact (a payout round ends). From every state a round over a batch reaches
    it cannot run for ever, and unless it is over some goroutine can move, or
    the next action of one panics and ends the process: no subscription is
    refused, no worker waits for an answer that does not come, the request
    channel is never full for good. *)
Theorem payout_round_ends GetPool need (s : PS) y :
  (0 < attempts)%nat -> (0 < submits)%nat -> need <> [] ->
  payout_reach (Msg := Msg) attempts submits HexToHash GetPool need s y ->
  Acc (fun y' y => sstep (length need) (sign_go GetPool) y y') y /\
  (sover y \/ scrash y \/ exists y', sstep (length need) (sign_go GetPool) y y').
Proof.
  intros Ha Hs Hne Hy. split; [apply round_terminates|]. eapply round_progress; [exact None| | | | |exact Hy].
  - by apply sign_only_acts.
  - destruct need; [done|apply Nat.lt_0_succ].
  - apply length_map.
  - by apply workers_protocol.
Qed.

(** C15 (what the signers are asked to sign). Everything the collector of a
    round passes to the signing service is the text "done" or the hash of a
    transaction that pays one of the round's requests: to its receiver, of
    its amount, with its nonce. *)
Theorem signed_batch_pays_requests GetPool need (s : PS) y d :
  (0 < attempts)%nat -> (0 < submits)%nat ->
  payout_reach (Msg := Msg) attempts submits HexToHash GetPool need s y ->
  d ∈ batch (heard (coll y)) -> exists a, a ∈ need /\ asked (W := W) (C := C) a d.
Proof.
  intros Ha Hs Hy Hd. apply list_elem_of_fmap in Hd as ([i d'] & -> & Hd). apply list_elem_of_In, filter_In in Hd as [Hd _].
  apply list_elem_of_In, elem_of_map_to_list in Hd.
  apply (round_heard _ _ (fun i d => exists a, need !! i = Some a /\ asked (W := W) (C := C) a d) _ _ _ Hy) in Hd as (a & Hia & Had).
  - exists a. split; [by eapply list_elem_of_lookup_2|done].
  - intros j p Hj. apply list_lookup_fmap_Some in Hj as (a & -> & Hja).
    eapply sends_mono; [|by apply outbound_worker_sends]. cbn. eauto.
Qed.

End PayoutProperties.

(** ** Witnesses

    Two payouts of the native coin on a chain that confirms every
    transaction; the first group and the round take turns, the second
    goroutine first. *)
Section Witnesses.
#[local] Existing Instance cosmos_ref.
#[local] Existing Instance tss_cos_ref.
#[local] Instance tss_node_ref : TssServer bool := {|
  KeySign := fun _ msgs _ => ret (mkKeysignResponse true (map (fun m => (m, sig_ref)) msgs));
|}.
#[local] Existing Instance sdk_math_ref.
#[local] Existing Instance sdk_coins_ref.
#[local] Existing Instance bech32_ref.
#[local] Existing Instance backoff_ref.
#[local] Existing Instance go_backoff_ref.
#[local] Existing Instance eth_ref.
#[local] Existing Instance eth_signer_ref.
#[local] Existing Instance go_runtime_ref.
#[local] Existing Instance confirming_ref.

#[local] Definition payout (n : Z) (r : Byte.byte) : OutBoundReq :=
  NewOutboundReq "ab" [r] [Byte.x09] (mkCoin "abnb" n) "native" 10 [] "BSC" true.
#[local] Definition two_payouts : list OutBoundReq := [payout 4 Byte.x05; payout 6 Byte.x06].
#[local] Definition payout_state : PayState bool cos_world unit :=
  mkPayState (mkChainInfo true tt "ws" "0xc0" "BSC" (Some 56) 0 false 0 [] []) ([], []) (mkQueue ∅ []) 0 false.
#[local] Definition pools_ref : list (option PoolInfo) := [None; Some (pool_of "k01")].
#[local] Definition checks_turns : list nat := concat (replicate 40 [1%nat; 0%nat]).
#[local] Definition round_turns : list (option nat) := concat (replicate 60 [Some 1%nat; Some 0%nat; None]).
#[local] Notation reach := (payout_reach (W := bool) (J := cos_world) (C := unit) (Msg := string) 4 3 (fun _ => [])).
#[local] Notation final := (ssched 2 (sign_go (W := bool) (J := cos_world) (C := unit) pools_ref) round_turns
  (boot payout_state (map (outbound_worker_go (Msg := string) 4 3 (fun _ => []) pools_ref) two_payouts))).

Lemma payout_reach_ref (JS : JoltService cos_world) : reach pools_ref two_payouts payout_state final.
Proof. apply ssched_steps. Qed.

#[local] Notation check_final := (gsched checks_turns
  ((payout_state, []), map (check_go (W := bool) (J := cos_world) (C := unit) (fun _ => []) NewValidator) two_payouts)).
#[local] Notation round_final s1 need := (ssched (length need) (sign_go (W := bool) (J := cos_world) (C := unit) pools_ref) round_turns
  (boot s1 (map (outbound_worker_go (Msg := string) 4 3 (fun _ => []) pools_ref) need))).

Lemma payout_run_ref : let _ := jolt_ref true in exists s',
  processEachOutBound_runs (Msg := string) 4 3 (fun _ => []) pools_ref NewValidator two_payouts payout_state s'.
Proof.
  intros JS. destruct check_final as [[s1 need] ts] eqn:Ec.
  assert (match check_final with
    | ((s1, []), ts) => false
    | ((s1, need), ts) => all_returned ts && sover_b (round_final s1 need)
    end = true) as Hb by (vm_compute; reflexivity).
  rewrite Ec in Hb. destruct need as [|a need]; [discriminate|]. apply andb_true_iff in Hb as [Ht Hs].
  exists (shared (round_final s1 (a :: need))), s1, (a :: need). split.
  - pose proof (gsched_runs checks_turns (payout_state, []) (map (check_go (fun _ => []) NewValidator) two_payouts)) as Hg.
    rewrite Ec in Hg. exact (Hg Ht).
  - exists (round_final s1 (a :: need)). split; [apply ssched_steps|]. split; [by apply sover_b_spec|done].
Qed.

Lemma payout_any_order_witness : let _ := jolt_ref true in exists s' held,
  processEachOutBound_runs (Msg := string) 4 3 (fun _ => []) pools_ref NewValidator two_payouts payout_state s' /\
  onHold (pay_q s') = held /\ forall h, h ∈ held -> exists a x, a ∈ two_payouts /\ h = SetSubmittedTxHash x a.
Proof.
  intros JS. destruct payout_run_ref as [s' H].
  destruct (payout_any_order (JS := JS) 4 3 (fun _ => []) pools_ref NewValidator two_payouts payout_state s') as (held & Hq & Hh & _);
    [lia|lia|exact H|].
  exists s', held. split; [exact H|]. split; [rewrite Hq; reflexivity|exact Hh].
Defined.

Lemma payout_refines_keysign_witness : let _ := jolt_ref true in
  exists msg answer k, reached 2 msg answer k /\ refines final k.
Proof.
  intros JS. exact (payout_refines_keysign (JS := JS) (Msg := string) 4 3 (fun _ => []) pools_ref two_payouts payout_state final
    ltac:(lia) ltac:(lia) (payout_reach_ref JS)).
Defined.

Lemma payout_round_ends_witness : let _ := jolt_ref true in
  sover final \/ scrash final \/ exists y', sstep 2 (sign_go pools_ref) final y'.
Proof.
  intros JS. refine (proj2 (payout_round_ends (JS := JS) (Msg := string) 4 3 (fun _ => []) pools_ref two_payouts payout_state final
    _ _ _ (payout_reach_ref JS))); [lia|lia|discriminate].
Defined.

Lemma signed_batch_pays_requests_witness : let _ := jolt_ref true in
  exists d, d ∈ batch (heard (coll final)) /\ exists a, a ∈ two_payouts /\ asked (W := bool) (C := unit) a d.
Proof.
  intros JS. destruct (batch (heard (coll final))) as [|d l] eqn:El; [vm_compute in El; discriminate El|].
  assert (d ∈ batch (heard (coll final))) as Hd by (rewrite El; apply list_elem_of_here).
  exists d. rewrite <- El. split; [exact Hd|].
  exact (signed_batch_pays_requests (JS := JS) (Msg := string) 4 3 (fun _ => []) pools_ref two_payouts payout_state final d
    ltac:(lia) ltac:(lia) (payout_reach_ref JS) Hd).
Defined.

End Witnesses.
