(* ===== verification/MoveRound.v ===== *)
(** * Moving the funds of a retired pool with its goroutines: [MoveFound] of
    pubchain/move_fund.go

    [MoveFound] starts a goroutine per token with a balance, each of which
    dials its own client, and the collector that has their transactions
    signed in one batch; they share the queue of fund movements and the flag
    [emptyERC20Tokens].  Here they are programs in the sense of Goroutine.v,
    over the sending methods of SendPrograms.v; what comes before and after
    the round is that of MoveFund.v. *)

From Stdlib Require Import Ascii String.
From S2P Require Import Prelude GoLib Sdk Requests TokenList Signature MoveFundQueue Pools PubClient Keysign Goroutine TxSend SendPrograms MoveFund.

#[local] Open Scope string_scope.
#[local] Open Scope Z_scope.
#[local] Open Scope go_scope.

(** ** Definitions *)

Section MoveRound.
Context {W C : Type} `{EC : EthClient W C} `{T : TssServer W} `{G : EthSigner} `{E : Eth} `{K : Backoff} `{GK : GoBackoff} `{R : GoRuntime}.
Context (attempts : nat) (HexToHash : string -> bytes).
#[local] Notation CI := (ChainInfo W C).
#[local] Notation FS := (FundState W C).
#[local] Notation Rp := (option (gmap string bytes)).

(** The goroutines share the state of MoveFund.v and [emptyERC20Tokens]. *)
#[local] Notation RS := (FS * bool)%type.

Definition on_move {A} (m : M FS A) : M RS A := fun s => let '(f, r) := m (fst s) in ((f, snd s), r).
Definition on_mchain {A} (m : M CI A) : M RS A := on_move (on_fchain m).
(** [emptyERC20Tokens.Unset()] *)
Definition unset : M RS unit := modify (fun s => (fst s, false)).

Definition moveERC20Token_go (nonce : Z) (sender receiver : bytes) (balance : Z) (tokenAddr : string) : go CI Rp (bytes * option string) :=
  let^ r := SendTokenBatch_go attempts sender receiver balance (Some (i64 nonce)) tokenAddr in
  Return (match r with
    | (txHash, Some e) => if bool_decide (e = "already known") then (txHash, None) else (txHash, Some e)
    | (txHash, None) => (txHash, None)
    end).

Definition doMoveTokenFunds_go (nonce : Z) (previousPool : PoolInfo) (receiver : bytes) (tokenAddr : string)
    (ethClient : option C) : go CI Rp (bool + string) :=
  match ethClient with
  | None => act panic
  | Some cl =>
      let balanceOf := act (call (fun _ => TokenBalanceOf cl (HexToAddress tokenAddr) (EthAddress previousPool))) in
      let^ balance := balanceOf in
      match balance with
      | inr e => Return (inr e)
      | inl balance =>
          if negb (0 <? balance) then Return (inl true)
          else
            let^ r := moveERC20Token_go nonce (EthAddress previousPool) receiver balance tokenAddr in
            let '(erc20TxHash, err) := r in
            if match err with Some e => negb (bool_decide (e = "already passed the seq")) | None => false end
            then Return (inr "fail to transfer erc20 token")
            else
              let^ c := CheckTxStatus_go HexToHash (Hash_Hex erc20TxHash) in
              match c with
              | inr e => Return (inr e)
              | inl _ =>
                  let^ nowBalance := balanceOf in
                  Return (match nowBalance with
                    | inl b => if negb (0 <? b) then inl true else inr "we failed to move fund for this token"
                    | inr _ => inr "we failed to move fund for this token"
                    end)
              end
      end
  end.

(** The goroutine of one token; [chainInfo] for the two fields no one writes. *)
Definition token_worker_go (chainInfo : CI) (height nonce : Z) (previousPool : PoolInfo) (receiver : bytes)
    (index : nat) (thisTokenAddr : string) : go RS Rp unit :=
  Sub (
    let^ dialed := act (on_mchain (call (fun _ => Dial (WsAddr chainInfo)))) in
    let^ ethClientLocal := match dialed with
      | inl cl => Return (Some cl)
      | inr _ =>
          do^ act (on_move (on_queue (AddMoveFundItem (Some previousPool) height (PubClient.ChainType chainInfo)))) in
          Return None
      end in
    let myNonce := u64 (nonce + Z.of_nat index) in
    let^ r := glift (@on_mchain) (doMoveTokenFunds_go myNonce previousPool receiver thisTokenAddr ethClientLocal) in
    Send done_msg (
      do^ (match r with
          | inl true => Return (inl tt)
          | _ => act unset
          end) in
      Unsub (Return tt))).

(** The collector once it has heard from every worker. *)
Definition move_sign_go (previousPool : PoolInfo) (received : gmap nat bytes) : go RS Rp Rp :=
  let allsignMSgs := batch received in
  let^ latest := act (on_mchain (GetBlockByNumberWithLock None)) in
  match latest with
  | inr _ => Return None
  | inl latest =>
      let blockHeight := Z.quot (i64 (NumberU64 latest)) ROUNDBLOCK in
      let^ signature := act (on_mchain (on_node (TssSignBatch allsignMSgs (Pk previousPool) blockHeight))) in
      Return (match signature with inl m => m | inr _ => None end)
  end.

Fixpoint token_programs (chainInfo : CI) (height nonce : Z) (previousPool : PoolInfo) (receiver : bytes) (index : nat)
    (needToMove : list string) : list (go RS Rp unit) :=
  match needToMove with
  | [] => []
  | t :: needToMove =>
      token_worker_go chainInfo height nonce previousPool receiver index t ::
      token_programs chainInfo height nonce previousPool receiver (S index) needToMove
  end.

(** A state of the round over [need], started in [s]. *)
Definition move_reach (chainInfo : CI) (height nonce : Z) (previousPool currentPool : PoolInfo) (need : list string) (s : FS) (y : sys RS Rp) : Prop :=
  rtc (sstep (length need) (move_sign_go previousPool))
    (boot (s, true) (token_programs chainInfo height nonce previousPool (EthAddress currentPool) 0 need)) y.

(** [MoveFound] may return [result] in [s']. *)
Definition MoveFound_runs {L} `{BL : BridgeTokenListI L} (tl : L) (GetPool : list (option PoolInfo))
    (height : Z) (previousPool : PoolInfo) (ethClient : C) (s s' : FS) (result : bool) : Prop :=
  let chainType := PubClient.ChainType (fchain s) in
  exists s1 p, prepare_move attempts HexToHash tl GetPool height previousPool chainType ethClient s = (s1, Ret p) /\
    match p with
    | inl b => s' = s1 /\ result = b
    | inr (currentPool, nonce, needToMove) => exists y, move_reach (fchain s) height nonce previousPool currentPool needToMove s1 y /\ sover y /\
        finish_move attempts HexToHash GetPool height previousPool currentPool chainType (snd (shared y)) (fst (shared y)) = (s', Ret result)
    end.
End MoveRound.

(** ** Lemmas *)

Section MoveLemmas.
Context {W C : Type} `{EC : EthClient W C} `{T : TssServer W} `{G : EthSigner} `{E : Eth} `{R : GoRuntime}.
Context `{K : Backoff} `{KL : !BackoffLaws K} `{GK : GoBackoff} `{GL : !GoBackoffLaws GK}.
Context (attempts : nat) (Hattempts : (0 < attempts)%nat) (HexToHash : string -> bytes).
#[local] Notation CI := (ChainInfo W C).
#[local] Notation FS := (FundState W C).
#[local] Notation Rp := (option (gmap string bytes)).
#[local] Notation RS := (FS * bool)%type.

(** The chain client is a part of the state. *)
Definition put_mchain (c : CI) (s : RS) : RS := (mkFundState c (fqueue (fst s)), snd s).

#[export] Instance on_mchain_part : OnPart (@on_mchain W C) (fun s => fchain (fst s)) put_mchain.
Proof.
  split; [|done|done|by intros [[] ?]]. intros A m s. unfold on_mchain, on_move, on_fchain. by destruct (m (fchain (fst s))).
Qed.

(** *** Alone, a goroutine is the worker of MoveFund.v *)

Lemma moveERC20Token_alone resp index nonce sender receiver balance tok (c : CI) :
  alone resp (moveERC20Token_go attempts nonce sender receiver balance tok) c =
  moveERC20Token attempts index nonce sender receiver balance tok resp c.
Proof.
  unfold moveERC20Token_go, moveERC20Token. apply alone_bind_same.
  - unfold on_send. rewrite (SendTokenBatch_models attempts Hattempts resp index sender receiver balance (Some (i64 nonce)) tok c []).
    by destruct (SendTokenBatch _ _ _ _ _ _ _ _ _) as [s r].
  - intros [h [e|]] s; [|done]. by case_bool_decide.
Qed.

Lemma try_bind {St A D} (m : M St A) (k : A -> M St D) s :
  try (bind m k) s = bind (try m) (fun r => match r with inl a => try (k a) | inr e => ret (inr e) end) s.
Proof. unfold try, bind. by destruct (m s) as [s1 [a|e|]]. Qed.

(** A program whose first action's error is its own. *)
Lemma alone_first {X Y} resp (m : M CI X) (f : X -> go CI Rp (Y + string)) (k : X -> M CI Y) c :
  (forall x c, alone resp (f x) c = try (k x) c) ->
  alone resp (gbind (act m) (fun r => match r with inl x => f x | inr e => Return (inr e) end)) c = try (bind m k) c.
Proof.
  intros H. rewrite try_bind. apply alone_bind_same; [apply alone_act|]. intros [x|e] s; [apply H|done].
Qed.

Lemma alone_then {X Y} resp (p : go CI Rp X) (m : M CI X) (f : X -> go CI Rp (Y + string)) (k : X -> M CI Y) c :
  alone resp p c = m c -> (forall x c, alone resp (f x) c = try (k x) c) -> alone resp (gbind p f) c = try (bind m k) c.
Proof.
  intros Hp Hf. rewrite alone_bind. unfold bind at 1. unfold try, bind. rewrite <- Hp.
  destruct (alone resp p c) as [c1 [x|e|]] eqn:E1; [by rewrite Hf|by apply alone_no_fail in E1|done].
Qed.

Lemma doMoveTokenFunds_alone resp index nonce pool receiver tok cl (c : CI) :
  alone resp (doMoveTokenFunds_go attempts HexToHash nonce pool receiver tok cl) c =
  try (doMoveTokenFunds attempts HexToHash index nonce pool receiver tok cl resp) c.
Proof.
  unfold doMoveTokenFunds_go, doMoveTokenFunds. destruct cl as [cl|]; [|done]. apply alone_first. clear c. intros bal c.
  destruct (negb _); [done|]. apply alone_then; [apply moveERC20Token_alone|]. clear c. intros [h err] c.
  destruct (match err with Some e => _ | None => false end); [done|]. rewrite try_bind.
  apply alone_bind_same; [by apply CheckTxStatus_alone|]. clear c. intros [[]|e] c; [|done].
  apply alone_then; [apply alone_act|]. clear c. intros [b|e] c; [|done]. by destruct (negb _).
Qed.

(** *** Every goroutine follows the protocol, the collector only acts *)

Lemma doMoveTokenFunds_steps nonce pool receiver tok cl :
  steps_to WRun (doMoveTokenFunds_go attempts HexToHash nonce pool receiver tok cl) (fun w _ => not_waiting w).
Proof.
  assert (not_waiting WRun) as Hrun by by left. unfold doMoveTokenFunds_go. destruct cl as [cl|]; [|by intros r].
  intros [bal|e]; [|done]. cbn [gbind]. destruct (negb _); [done|]. unfold moveERC20Token_go. do 2 apply steps_to_bind.
  eapply steps_to_mono; [|by apply SendTokenBatch_steps]. intros w r Hw. cbn.
  destruct (match r with (_, _) => _ end) as [h err]. destruct (match err with Some e => _ | None => false end); [done|].
  apply steps_to_bind, only_acts_steps; [apply CheckTxStatus_only_acts|]. intros [[]|e]; [|done]. by intros [b|e].
Qed.

Lemma token_worker_protocol ci height nonce pool receiver index tok :
  worker_of WStart (token_worker_go attempts HexToHash ci height nonce pool receiver index tok : go RS Rp unit).
Proof.
  split; [done|]. intros dialed. cbn [gbind]. apply steps_to_bind, only_acts_steps; [by destruct dialed|]. intros cl.
  apply steps_to_bind, steps_to_glift. eapply steps_to_mono; [|apply doMoveTokenFunds_steps]. intros w r Hw.
  assert (forall late, steps_to (WPost late) (gbind (match r with inl true => Return (inl tt) | _ => act unset end) (fun _ => Unsub (Return tt)) : go RS Rp unit)
    (fun w _ => exists late, w = WExit late)) as Hend.
  { intros late. apply steps_to_bind, only_acts_steps; [by destruct r as [[]|]|]. intros _. exists late. split; [done|]. by exists late. }
  destruct Hw as [->|[a ->]]; [left; split; [done|]; right; split; [done|]; apply Hend|right; exists a; split; [done|]; split; [done|]; apply Hend].
Qed.

Lemma token_programs_lookup ci height nonce pool receiver i0 need i p :
  token_programs (W := W) attempts HexToHash ci height nonce pool receiver i0 need !! i = Some p ->
  exists t, need !! i = Some t /\ p = token_worker_go attempts HexToHash ci height nonce pool receiver (i0 + i) t.
Proof.
  revert i0 i. induction need as [|t need IH]; intros i0 i; [done|]. destruct i as [|i]; cbn.
  - intros [= <-]. exists t. by rewrite Nat.add_0_r.
  - intros (t' & Ht & ->)%IH. exists t'. by rewrite Nat.add_succ_r.
Qed.

Lemma token_programs_length ci height nonce pool receiver i0 need :
  length (token_programs (W := W) attempts HexToHash ci height nonce pool receiver i0 need) = length need.
Proof. revert i0. induction need as [|t need IH]; intros i0; cbn; auto. Qed.

Lemma token_programs_protocol ci height nonce pool receiver i0 need :
  Forall (worker_of WStart) (token_programs (W := W) attempts HexToHash ci height nonce pool receiver i0 need).
Proof. apply Forall_lookup. intros i p (t & _ & ->)%token_programs_lookup. apply token_worker_protocol. Qed.

Lemma move_sign_only_acts pool rcv : only_acts (move_sign_go pool rcv : go RS Rp Rp).
Proof. intros [latest|e]; [|done]. done. Qed.

(** *** What every action does to the queue and the flag *)

Lemma doMoveTokenFunds_yields nonce pool receiver tok cl :
  yields (doMoveTokenFunds_go attempts HexToHash nonce pool receiver tok cl) (fun r => r = inl true -> token_emptied (W := W) (C := C) pool tok).
Proof.
  unfold doMoveTokenFunds_go. destruct cl as [cl|]; [|by intros s s' r Hr%try_ret_inv; destruct r].
  assert (forall (c c' : CI) b, call (fun _ => TokenBalanceOf cl (HexToAddress tok) (EthAddress pool)) c = (c', Ret b) -> b <= 0 ->
    token_emptied (W := W) (C := C) pool tok) as Hb by (intros c c' b (_ & w & Hw)%call_ret Hle; by exists cl, w, b).
  intros c c' r Hr%try_ret_inv. cbn [gbind]. destruct r as [bal|e]; [|done].
  destruct (Z.ltb_spec 0 bal) as [?|Hle]; cbn [negb]; [|intros _; by eapply Hb].
  apply yields_bind, yields_any. intros [h err]. destruct (match err with Some e => _ | None => false end); [done|].
  apply yields_bind, yields_any. intros [[]|e]; [|done]. intros c2 c3 r Hr2%try_ret_inv. cbn [gbind yields].
  destruct r as [b|e]; [|done]. destruct (Z.ltb_spec 0 b); cbn [negb]; [done|]. intros _. by eapply Hb.
Qed.

Definition moves (keys : list string) (s s' : RS) : Prop :=
  same_but keys (fqueue (fst s)) (fqueue (fst s')) /\ (snd s = false -> snd s' = false).

#[export] Instance moves_preorder keys : PreOrder (moves keys).
Proof.
  split; [by intros s; split|]. intros s1 s2 s3 [H1 F1] [H2 F2]. split; [|auto]. intros k Hk. by rewrite H2, H1.
Qed.

Lemma moves_chain keys (c : CI) s : moves keys s (put_mchain c s).
Proof. by split. Qed.

(** The token was found empty, unless the flag is down. *)
Definition emptied_or_flagged (pool : PoolInfo) (tok : string) (s : RS) : Prop := snd s = true -> token_emptied (W := W) (C := C) pool tok.

Lemma emptied_or_flagged_stable keys pool tok s s' : moves keys s s' -> emptied_or_flagged pool tok s -> emptied_or_flagged pool tok s'.
Proof. intros [_ F] H Hs'. apply H. destruct (snd s); [done|]. by rewrite F in Hs'. Qed.

Lemma token_worker_safe ci height nonce pool receiver index tok s :
  safe (moves [move_key height (PubClient.ChainType ci)])
    (token_worker_go attempts HexToHash ci height nonce pool receiver index tok : go RS Rp unit)
    (fun _ => emptied_or_flagged pool tok) s.
Proof.
  intros s1 _ s2 dialed H2. rewrite (on_try (@on_mchain W C)), on_part in H2. injection H2 as <- _. split; [apply moves_chain|].
  cbn [gbind]. apply safe_bind. apply (safe_mono _ _ (fun _ _ => True)).
  2: { destruct dialed as [cl|e]; [done|]. intros s3 _ s4 r H4. apply try_ret_inv in H4. unfold on_move, on_queue in H4.
    rewrite AddMoveFundItem_eq in H4. destruct r as [[]|e']; [|discriminate]. injection H4 as <-. split; [|done]. split; [|done].
    intros k Hk. cbn. rewrite lookup_insert_ne; [done|]. intros <-. apply Hk. left. }
  intros cl s3 _ _. apply safe_bind.
  refine (safe_mono _ _ _ _ _ _ (yields_safe (@on_mchain W C) _ _ _ s3 (fun c s => moves_chain _ c s)
    (doMoveTokenFunds_yields _ _ _ _ _))).
  intros r s4 _ Hr. cbn [safe]. apply safe_bind.
  assert (safe (Rp := Rp) (moves [move_key height (PubClient.ChainType ci)]) (act unset) (fun _ => emptied_or_flagged pool tok) s4) as Hunset.
  { intros s5 _ s6 r6 H6. apply try_ret_inv in H6. unfold unset, modify in H6. destruct r6 as [[]|e]; [|discriminate]. injection H6 as <-. by split. }
  destruct r as [[|]|e]; [|exact Hunset..]. intros _. by apply Hr.
Qed.

Lemma move_sign_safe keys pool rcv s : safe (moves keys) (move_sign_go pool rcv : go RS Rp Rp) (fun _ _ => True) s.
Proof.
  intros s1 _ s2 r H2. rewrite (on_try (@on_mchain W C)), on_part in H2. injection H2 as <- _. split; [apply moves_chain|].
  cbn [gbind]. destruct r as [latest|e]; [|done]. intros s3 _ s4 q H4. rewrite (on_try (@on_mchain W C)), on_part in H4.
  injection H4 as <- _. split; [apply moves_chain|done].
Qed.

(** *** What is asked of the signers *)

(** The text "done", or the hash of a transfer of a positive balance of the
    token that was read, from the pool to the receiver. *)
Definition asks_move (pool : PoolInfo) (receiver : bytes) (nonce : Z) (tok : string) (d : bytes) : Prop :=
  d = done_msg \/ exists cid tx (cl cl' : C) w w' balance, d = signer_Hash cid tx /\
    (TokenBalanceOf cl (HexToAddress tok) (EthAddress pool) w).2 = Ret balance /\ 0 < balance /\
    (TransferTx cl' (EthAddress pool) (HexToAddress tok) receiver balance (token_nonce (Some (i64 nonce))) w').2 = Ret tx.

Lemma SendTokenBatch_asks (D : bytes -> Prop) sender receiver amount nonce tok :
  (forall cid tx (cl : C) w, (TransferTx cl sender (HexToAddress tok) receiver amount (token_nonce nonce) w).2 = Ret tx -> D (signer_Hash cid tx)) ->
  sends D (SendTokenBatch_go attempts sender receiver amount nonce tok : go CI Rp _).
Proof.
  intros HD c c1 cid _. cbn [gbind]. destruct cid as [cid|e]; [|done]. intros c2 c3 raw Hraw%try_ret_inv.
  destruct raw as [raw|e]; [|done]. cbn [gbind]. apply call_ret in Hraw as (cl & w & Hw). apply sends_bind.
  - unfold batch_signer_go. destruct (negb _); [done|]. split; [by eapply HD|]. intros [m|]; [|done]. by destruct (m !! _).
  - apply yields_any. intros [st|e]; [|done]. by apply only_acts_sends, wait_and_send_only_acts.
Qed.

Lemma doMoveTokenFunds_sends nonce pool receiver tok cl :
  sends (asks_move pool receiver nonce tok) (doMoveTokenFunds_go attempts HexToHash nonce pool receiver tok cl).
Proof.
  unfold doMoveTokenFunds_go. destruct cl as [cl|]; [|done]. intros c c' r Hr%try_ret_inv. cbn [gbind].
  destruct r as [bal|e]; [|done]. apply call_ret in Hr as (_ & w & Hw).
  destruct (Z.ltb_spec 0 bal) as [Hpos|Hle]; cbn [negb]; [|done]. apply sends_bind.
  - apply sends_bind; [|by apply yields_any]. apply SendTokenBatch_asks. intros cid tx cl' w' Htx. right.
    by exists cid, tx, cl, cl', w, w', bal.
  - apply yields_any. intros [h err]. destruct (match err with Some e => _ | None => false end); [done|].
    apply only_acts_sends, only_acts_bind; [apply CheckTxStatus_only_acts|]. intros [[]|e]; [|done]. by intros [b|e].
Qed.

Lemma token_worker_sends ci height nonce pool receiver index tok :
  sends (asks_move pool receiver (u64 (nonce + Z.of_nat index)) tok)
    (token_worker_go attempts HexToHash ci height nonce pool receiver index tok : go RS Rp unit).
Proof.
  intros s s' dialed _. cbn [gbind]. apply sends_bind; [by apply only_acts_sends; destruct dialed|].
  apply yields_any. intros cl. apply sends_bind; [apply (sends_glift (@on_mchain W C)), doMoveTokenFunds_sends|].
  apply yields_any. intros r. split; [by left|]. apply sends_bind; [by apply only_acts_sends; destruct r as [[]|]|].
  by apply yields_any.
Qed.

(** *** Alone, a goroutine is [token_worker] and the flag *)

Lemma on_fchain_part_eq {A} (m : M CI A) (s : FS) f : on_mchain m (s, f) = ((fst (on_fchain m s), f), snd (on_fchain m s)).
Proof. unfold on_mchain, on_move. cbn. by destruct (on_fchain m s). Qed.

Lemma move_part_alone resp index nonce pool receiver tok cl (s : FS) f :
  alone resp (glift (@on_mchain W C) (doMoveTokenFunds_go attempts HexToHash nonce pool receiver tok cl)) (s, f) =
  on_move (try (on_fchain (doMoveTokenFunds attempts HexToHash index nonce pool receiver tok cl resp))) (s, f).
Proof.
  rewrite (alone_glift (@on_mchain W C)). unfold on_mchain, on_move, on_fchain. cbn [fst snd]. rewrite (doMoveTokenFunds_alone resp index).
  unfold try. by destruct (doMoveTokenFunds _ _ _ _ _ _ _ _ _ _) as [c r].
Qed.

(** The end of a goroutine. *)
Lemma worker_end_alone (resp : Rp) (r : bool + string) (s : FS) f :
  alone resp (Send done_msg (gbind (match r with inl true => Return (inl tt) | _ => act unset end) (fun _ => Unsub (Return tt)))) (s, f) =
  ((s, f && match r with inl b => b | inr _ => false end), Ret tt).
Proof. destruct r as [[|]|e]; cbn; by rewrite ?andb_true_r, ?andb_false_r. Qed.

Lemma token_worker_alone resp height nonce pool receiver index tok (s : FS) f :
  alone resp (token_worker_go attempts HexToHash (fchain s) height nonce pool receiver index tok) (s, f) =
  match token_worker attempts HexToHash height nonce pool receiver resp index tok s with
  | (s', Ret isEmpty) => ((s', f && isEmpty), Ret tt)
  | (s', Fail e) => ((s', f), Fail e)
  | (s', Panic) => ((s', f), Panic)
  end.
Proof.
  unfold token_worker_go, token_worker. cbn [alone]. rewrite alone_bind. unfold bind at 1. rewrite alone_act.
  unfold bind at 1, get. cbv beta zeta. unfold try at 1. rewrite on_fchain_part_eq. unfold bind at 1, try at 1.
  destruct (on_fchain (call (fun _ => Dial (WsAddr (fchain s)))) s) as [s1 [cl|e|]]; cbn [fst snd ocatch]; [| |done].
  - cbn [gbind]. rewrite alone_bind. unfold bind at 1. rewrite (move_part_alone resp index). unfold bind, ret. unfold on_move at 1. cbn [fst snd].
    destruct (try _ s1) as [s2 [r|e|]]; [|done..]. rewrite worker_end_alone. by destruct r as [b|e].
  - assert (exists s2, on_queue (AddMoveFundItem (Some pool) height (PubClient.ChainType (fchain s))) s1 = (s2, Ret tt)) as [s2 Hadd]
      by (unfold on_queue; rewrite AddMoveFundItem_eq; by eexists).
    rewrite alone_bind. unfold bind at 1. rewrite alone_bind. unfold bind at 1. rewrite alone_act. unfold try at 1, on_move at 1. cbn [fst snd].
    rewrite Hadd. cbn [ocatch alone ret]. rewrite alone_bind. unfold bind at 1. rewrite (move_part_alone resp index). unfold bind, ret.
    rewrite Hadd. unfold on_move at 1. cbn [fst snd]. destruct (try _ s2) as [s3 [r|e'|]]; [|done..]. rewrite worker_end_alone. by destruct r as [b|e'].
Qed.
End MoveLemmas.

(** ** Properties *)

Section MoveProperties.
Context {W C : Type} `{EC : EthClient W C} `{T : TssServer W} `{G : EthSigner} `{LG : !EthSignerLaws G} `{E : Eth} `{R : GoRuntime} `{LR : !GoRuntimeLaws R}.
Context `{K : Backoff} `{KL : !BackoffLaws K} `{GK : GoBackoff} `{GL : !GoBackoffLaws GK} {L : Type} `{BL : BridgeTokenListI L}.
Context (attempts : nat) (HexToHash : string -> bytes).
#[local] Notation CI := (ChainInfo W C).
#[local] Notation FS := (FundState W C).
#[local] Notation Rp := (option (gmap string bytes)).


(** C32 (only the current pool is paid). Everything the collector of a fund
    movement passes to the signing service, in any interleaving, is the text
    "done" or the hash of a transfer, from the retired pool to the current
    one, of the positive balance that was read of one of the round's tokens,
    under the nonce of that token's goroutine. *)
Theorem moves_to_current_pool ci height nonce pool cur need (s : FS) y d :
  (0 < attempts)%nat -> move_reach attempts HexToHash ci height nonce pool cur need s y ->
  d ∈ batch (heard (coll y)) ->
  exists i t, need !! i = Some t /\ asks_move (W := W) (C := C) pool (EthAddress cur) (u64 (nonce + Z.of_nat i)) t d.
Proof.
  intros Ha Hy Hd. apply list_elem_of_fmap in Hd as ([i d'] & -> & Hd). apply list_elem_of_In, filter_In in Hd as [Hd _].
  apply list_elem_of_In, elem_of_map_to_list in Hd.
  apply (round_heard _ _ (fun i d => exists t, need !! i = Some t /\
    asks_move (W := W) (C := C) pool (EthAddress cur) (u64 (nonce + Z.of_nat i)) t d) _ _ _ Hy) in Hd as (t & Hit & Had); [by exists i, t|].
  intros j p (t & Hjt & ->)%token_programs_lookup. eapply sends_mono; [|by apply token_worker_sends]. cbn. eauto.
Qed.

(** Fact (a fund movement is a round of the signing protocol). *)
Theorem move_refines_keysign ci height nonce pool cur need (s : FS) y :
  (0 < attempts)%nat -> move_reach attempts HexToHash ci height nonce pool cur need s y ->
  exists msg answer k, reached (length need) msg answer k /\ refines y k.
Proof.
  intros Ha Hy. eapply refines_reached; [exact None| | | |exact Hy].
  - by apply move_sign_only_acts.
  - apply token_programs_length.
  - by apply token_programs_protocol.
Qed.

(** Fact (the round of a fund movement ends). From every state it reaches it
    cannot run for ever, and unless it is over some goroutine can move, or the
    next action of one panics and ends the process. *)
Theorem move_round_ends ci height nonce pool cur need (s : FS) y :
  (0 < attempts)%nat -> need <> [] -> move_reach attempts HexToHash ci height nonce pool cur need s y ->
  Acc (fun y' y => sstep (length need) (move_sign_go pool) y y') y /\
  (sover y \/ scrash y \/ exists y', sstep (length need) (move_sign_go pool) y y').
Proof.
  intros Ha Hne Hy. split; [apply round_terminates|]. eapply round_progress; [exact None| | | | |exact Hy].
  - by apply move_sign_only_acts.
  - destruct need; [done|apply Nat.lt_0_succ].
  - apply token_programs_length.
  - by apply token_programs_protocol.
Qed.

(** Fact (alone, a goroutine of a fund movement is the worker of MoveFund.v).
    Run with nothing in between, it ends in the state of [token_worker], with
    the flag as it was exactly when the worker reports the token as empty. *)
Theorem token_worker_same resp height nonce pool receiver index tok (s : FS) f :
  (0 < attempts)%nat ->
  alone resp (token_worker_go attempts HexToHash (fchain s) height nonce pool receiver index tok) (s, f) =
  match token_worker attempts HexToHash height nonce pool receiver resp index tok s with
  | (s', Ret isEmpty) => ((s', f && isEmpty), Ret tt)
  | (s', Fail e) => ((s', f), Fail e)
  | (s', Panic) => ((s', f), Panic)
  end.
Proof. intros Ha. by apply token_worker_alone. Qed.

(** Fact (a worker that cannot dial brings the process down). The worker goes on
    with a nil client, so its next call panics: the round has a crash in it. *)
Theorem failed_dial_crashes resp height nonce pool receiver index tok (s : FS) f e :
  (0 < attempts)%nat -> (Dial (WsAddr (fchain s)) (node (fchain s))).2 = Fail e ->
  (alone resp (token_worker_go attempts HexToHash (fchain s) height nonce pool receiver index tok) (s, f)).2 = Panic.
Proof.
  intros Ha Hd. rewrite token_worker_alone by done. unfold token_worker, bind at 1, get. cbv beta zeta.
  unfold bind at 1, try at 1, on_fchain at 1, call at 1. destruct (Dial (WsAddr (fchain s)) (node (fchain s))) as [w r]. cbn in Hd. subst r.
  cbn [ocatch]. unfold bind at 1. unfold bind at 1, on_queue at 1. rewrite AddMoveFundItem_eq. done.
Qed.
End MoveProperties.

(** ** Witnesses

    Two tokens on a chain where the first transaction sent empties the pool. *)
Section Witnesses.
#[local] Instance emptying_ref : EthClient bool unit := {|
  Dial := fun _ => ret tt;
  BlockByNumber := fun _ _ => ret (mkEthBlock 4 []);
  BlockNumber := fun _ => ret 4;
  ReceiptStatus := fun _ _ => ret 1;
  SuggestGasPrice := fun _ => ret 5;
  BalanceAt := fun _ _ => ret 40;
  PendingNonceAt := fun _ _ (sent : bool) => (sent, Ret (if sent then 4 else 3));
  SendTransaction := fun _ _ _ => (true, Ret tt);
  SubscribeNewHead := fun _ => ret tt;
  TokenBalanceOf := fun _ _ _ (sent : bool) => (sent, Ret (if sent then 0 else 7));
  TransferTx := fun _ _ token _ _ nonce => ret (mkLegacyTx nonce 5 60000 token 0 []);
|}.
#[local] Instance tss_signs_ref : TssServer bool := {|
  KeySign := fun _ msgs _ => ret (mkKeysignResponse true (map (fun m => (m, sig_ref)) msgs));
|}.
#[local] Existing Instance backoff_ref.
#[local] Existing Instance go_backoff_ref.
#[local] Existing Instance eth_ref.
#[local] Existing Instance eth_signer_ref.
#[local] Existing Instance go_runtime_ref.

#[local] Definition tokens2 : TokenList :=
  mkTokenList ∅ {[ "0xab:bsc" := mkTokenItem "0xab" "usd" 6 "BSC"; "0xcd:bsc" := mkTokenItem "0xcd" "jolt" 6 "BSC" ]} 20.
#[local] Definition fund_state : FundState bool unit :=
  mkFundState (mkChainInfo false tt "ws" "0xc0" "BSC" (Some 56) 0 false 0 [] []) ∅.
#[local] Definition move_turns : list (option nat) := concat (replicate 60 [Some 1%nat; Some 0%nat; None]).
#[local] Notation pools := [None; Some (pool_of "k01")].
#[local] Notation need := ["0xab"; "0xcd"].
#[local] Notation final := (ssched 2 (move_sign_go (pool_of "k02")) move_turns
  (boot (fund_state, true) (token_programs 4 (fun _ => []) (fchain fund_state) 100 3 (pool_of "k02") (EthAddress (pool_of "k01")) 0 need))).

Lemma move_reach_ref : move_reach 4 (fun _ => []) (fchain fund_state) 100 3 (pool_of "k02") (pool_of "k01") need fund_state final.
Proof. apply ssched_steps. Qed.

#[local] Notation after := (fst (finish_move 4 (fun _ => []) pools 100 (pool_of "k02") (pool_of "k01") "BSC" true (fst (shared final)))).

(** In this interleaving the pool is emptied and the call reports success. *)
Lemma MoveFound_runs_ref : MoveFound_runs 4 (fun _ => []) tokens2 pools 100 (pool_of "k02") tt fund_state after true.
Proof.
  exists fund_state, (inr (pool_of "k01", 3, need)). split; [vm_compute; reflexivity|].
  exists final. split; [exact move_reach_ref|]. split; [apply sover_b_spec; vm_compute; reflexivity|].
  assert (snd (shared final) = true) as -> by (vm_compute; reflexivity). vm_compute. reflexivity.
Qed.


Lemma moves_to_current_pool_witness : exists d, d ∈ batch (heard (coll final)) /\
  exists i t, need !! i = Some t /\
    asks_move (W := bool) (C := unit) (pool_of "k02") (EthAddress (pool_of "k01")) (u64 (3 + Z.of_nat i)) t d.
Proof.
  destruct (batch (heard (coll final))) as [|d l] eqn:El; [vm_compute in El; discriminate El|].
  assert (d ∈ batch (heard (coll final))) as Hd by (rewrite El; apply list_elem_of_here).
  exists d. rewrite <- El. split; [exact Hd|].
  exact (moves_to_current_pool 4 (fun _ => []) (fchain fund_state) 100 3 (pool_of "k02") (pool_of "k01") need fund_state final d
    ltac:(lia) move_reach_ref Hd).
Defined.

Lemma move_round_ends_witness : sover final \/ scrash final \/ exists y', sstep 2 (move_sign_go (pool_of "k02")) final y'.
Proof.
  refine (proj2 (move_round_ends 4 (fun _ => []) (fchain fund_state) 100 3 (pool_of "k02") (pool_of "k01") need fund_state final
    _ _ move_reach_ref)); [lia|discriminate].
Defined.

Lemma token_worker_same_witness :
  alone None (token_worker_go 4 (fun _ => []) (fchain fund_state) 100 3 (pool_of "k02") [] 0 "0xab") (fund_state, true) =
  ((fund_state, false), Ret tt).
Proof.
  rewrite (token_worker_same 4 (fun _ => []) None 100 3 (pool_of "k02") [] 0 "0xab" fund_state true) by lia.
  vm_compute. reflexivity.
Defined.
End Witnesses.
