(* ===== verification/Flow.v ===== *)
(** * Feeding batches: the pacing of the event loop

    The second halves of the new-block handler (bridge/bridge_service.go) and
    of [pubchainProcess] (bridge/pubchain_routine.go): the pause after too
    many failures, the return of on-hold requests, and the decision to feed a
    batch.  [InFlow] and [OutFlow] hold the variables of [addEventLoop] each of
    them owns, with the batches that goroutines are processing. *)

From Stdlib Require Import Ascii String.
From S2P Require Import Prelude GoLib Sdk Requests ItemQueue Signature Pools PubClient TxSend Validators CosTx Processing.

#[local] Open Scope string_scope.
#[local] Open Scope Z_scope.
#[local] Open Scope go_scope.

(** ** Definitions *)

(** The bridge's own [ROUNDBLOCK], pubchain's [GroupSign] and [GroupBlockGap],
    cosbridge's [GroupBlockGap]. *)
Definition bridge_ROUNDBLOCK : Z := 100.
Definition GroupSign : Z := 4.
Definition GroupBlockGap : Z := 8.
Definition cos_GroupBlockGap : Z := 4.

(** *** Pause heights *)

(** A pair of heights, one per public chain: [OutboundPauseHeight] and
    [PreviousTssBlockOutBound].  An unknown chain panics. *)
Record PerChain := mkPerChain { at_BSC : Z; at_ETH : Z }.

Definition SetHeight (h : Z) (chainType : string) (p : PerChain) : outcome PerChain :=
  if bool_decide (chainType = BSC) then Ret (mkPerChain h (at_ETH p))
  else if bool_decide (chainType = ETH) then Ret (mkPerChain (at_BSC p) h)
  else Panic.

Definition GetHeight (chainType : string) (p : PerChain) : outcome Z :=
  if bool_decide (chainType = BSC) then Ret (at_BSC p)
  else if bool_decide (chainType = ETH) then Ret (at_ETH p)
  else Panic.

(** The end of the round of blocks that [latest] is in. *)
Definition round_end (latest : Z) : Z := (Z.quot latest bridge_ROUNDBLOCK + 1) * bridge_ROUNDBLOCK.

(** *** Inbound *)

Record InFlow := mkInFlow {
  in_q : ItemQueue InBoundReq;
  InboundReqChan : list (list InBoundReq);
  in_running : list (list InBoundReq);      (* batches goroutines are at work on *)
  in_failed : Z;
  inboundPauseHeight : Z;
  in_wait : bool;
  inBoundProcessDone : bool;
  firstTimeInbound : bool;
  previousTssBlockInbound : Z;
}.

Definition in_set_q q f := mkInFlow q (InboundReqChan f) (in_running f) (in_failed f) (inboundPauseHeight f) (in_wait f) (inBoundProcessDone f) (firstTimeInbound f) (previousTssBlockInbound f).
Definition in_set_chan c r f := mkInFlow (in_q f) c r (in_failed f) (inboundPauseHeight f) (in_wait f) (inBoundProcessDone f) (firstTimeInbound f) (previousTssBlockInbound f).
Definition in_set_failed n f := mkInFlow (in_q f) (InboundReqChan f) (in_running f) n (inboundPauseHeight f) (in_wait f) (inBoundProcessDone f) (firstTimeInbound f) (previousTssBlockInbound f).
Definition in_set_pause h w f := mkInFlow (in_q f) (InboundReqChan f) (in_running f) (in_failed f) h w (inBoundProcessDone f) (firstTimeInbound f) (previousTssBlockInbound f).
Definition in_set_done d f := mkInFlow (in_q f) (InboundReqChan f) (in_running f) (in_failed f) (inboundPauseHeight f) (in_wait f) d (firstTimeInbound f) (previousTssBlockInbound f).
Definition in_set_first b f := mkInFlow (in_q f) (InboundReqChan f) (in_running f) (in_failed f) (inboundPauseHeight f) (in_wait f) (inBoundProcessDone f) b (previousTssBlockInbound f).
Definition in_set_prev h f := mkInFlow (in_q f) (InboundReqChan f) (in_running f) (in_failed f) (inboundPauseHeight f) (in_wait f) (inBoundProcessDone f) (firstTimeInbound f) h.

Section InFlow.
Context {J Msg : Type} `{CN : CosmosNode J Msg} `{T : TssServer J} `{JS : JoltService J} `{S : SdkMath} `{N : SdkCoins} `{B : Bech32} `{E : Eth}.
Context `{K : Backoff} `{R : GoRuntime}.
#[local] Notation IF := (J * InFlow)%type.

Definition on_flow (f : InFlow -> InFlow) : M IF unit := modify (fun s => (fst s, f (snd s))).

(** The routines of Processing.v on the variables they share. *)
Definition on_mint {A} (m : M (MintState J) A) : M IF A := fun '(j, f) =>
  let '(s, r) := m (mkMintState j (in_q f) (in_failed f) (in_wait f)) in
  ((m_node s, in_set_failed (failedInbound s) (in_set_q (mint_q s) f)), r).

Definition operator_address : outcome bytes := let? k := Keyring_Key in Ret (snd k).

(** [joltifyChain.FeedTx(grpcClient, pools[1].PoolInfo, pi)] *)
Definition feed_inbound (pool : VaultPool) : M IF unit := fun '(j, f) =>
  match FeedTx_inbound (Msg := Msg) GroupSign operator_address pool (j, in_q f) with
  | ((j', q'), Ret (Some batch)) => ((j', in_set_chan (InboundReqChan f ++ [batch]) (in_running f) (in_set_q q' f)), Ret tt)
  | ((j', q'), Ret None) => ((j', in_set_q q' f), Ret tt)
  | ((j', q'), Fail e) => ((j', in_set_q q' f), Fail e)
  | ((j', q'), Panic) => ((j', in_set_q q' f), Panic)
  end.

(** bridge_service.go, from [failedInbound.Load() > 5] to the end of the case. *)
Definition inbound_section (pool1 : option PoolInfo) (inKeygen : bool)
    (latestHeight currentProcessBlockHeight processableBlockHeight : Z) : M IF unit :=
  let! s := get in
  do! (if 5 <? in_failed (snd s)
    then on_flow (fun f => in_set_pause (i64 (round_end latestHeight)) true (in_set_failed 0 f))
    else ret tt) in
  let! s := get in
  let pause := inboundPauseHeight (snd s) in
  if latestHeight <? pause then
    if latestHeight =? i64 (pause - 1) then on_mint putOnHoldBlockInBoundBack else ret tt
  else
    do! on_flow (fun f => in_set_pause (inboundPauseHeight f) false f) in
    let! s := get in
    do! (if IsEmpty (in_q (snd s)) then on_mint putOnHoldBlockInBoundBack else ret tt) in
    let! s := get in
    let f := snd s in
    if (GroupBlockGap <=? i64 (processableBlockHeight - previousTssBlockInbound f)) && negb (IsEmpty (in_q f)) then
      if (Size (in_q f) <? GroupSign) && firstTimeInbound f then on_flow (in_set_first false)
      else if negb (inBoundProcessDone f) then ret tt
      else if inKeygen then ret tt
      else match pool1 with
        | None => panic
        | Some p =>
            do! try (feed_inbound (pi_PoolInfo p)) in
            do! on_flow (in_set_done false) in
            do! on_flow (in_set_prev currentProcessBlockHeight) in
            on_flow (in_set_first true)
        end
    else ret tt.

(** [case itemsRecv := <-pi.InboundReqChan]: a goroutine takes the batch ... *)
Definition take_inbound : M IF unit :=
  on_flow (fun f => match InboundReqChan f with
    | [] => f
    | b :: chan => in_set_chan chan (in_running f ++ [b]) f
    end).

(** ... and the one that is [i]-th in the list ends. *)
Definition finish_inbound (i : nat) : M IF unit :=
  let! s := get in
  match in_running (snd s) !! i with
  | None => ret tt
  | Some items =>
      do! on_mint (processInbound (Msg := Msg) items) in
      on_flow (fun f => in_set_done true (in_set_chan (InboundReqChan f) (delete i (in_running f)) f))
  end.
End InFlow.

(** *** Outbound *)

Record OutFlow := mkOutFlow {
  out_q : ItemQueue OutBoundReq;
  OutboundReqChan : list (list OutBoundReq);
  out_running : list (list OutBoundReq);
  out_failed : Z;
  outboundPauseHeight : PerChain;
  out_wait : bool;
  outBoundProcessDone : bool;
  firstTimeOutbound : bool;
  previousTssBlockOutBound : PerChain;
}.

Definition out_set_q q f := mkOutFlow q (OutboundReqChan f) (out_running f) (out_failed f) (outboundPauseHeight f) (out_wait f) (outBoundProcessDone f) (firstTimeOutbound f) (previousTssBlockOutBound f).
Definition out_set_chan c r f := mkOutFlow (out_q f) c r (out_failed f) (outboundPauseHeight f) (out_wait f) (outBoundProcessDone f) (firstTimeOutbound f) (previousTssBlockOutBound f).
Definition out_set_failed n f := mkOutFlow (out_q f) (OutboundReqChan f) (out_running f) n (outboundPauseHeight f) (out_wait f) (outBoundProcessDone f) (firstTimeOutbound f) (previousTssBlockOutBound f).
Definition out_set_pause h w f := mkOutFlow (out_q f) (OutboundReqChan f) (out_running f) (out_failed f) h w (outBoundProcessDone f) (firstTimeOutbound f) (previousTssBlockOutBound f).
Definition out_set_done d f := mkOutFlow (out_q f) (OutboundReqChan f) (out_running f) (out_failed f) (outboundPauseHeight f) (out_wait f) d (firstTimeOutbound f) (previousTssBlockOutBound f).
Definition out_set_first b f := mkOutFlow (out_q f) (OutboundReqChan f) (out_running f) (out_failed f) (outboundPauseHeight f) (out_wait f) (outBoundProcessDone f) b (previousTssBlockOutBound f).
Definition out_set_prev h f := mkOutFlow (out_q f) (OutboundReqChan f) (out_running f) (out_failed f) (outboundPauseHeight f) (out_wait f) (outBoundProcessDone f) (firstTimeOutbound f) h.

Section OutFlow.
Context {W J C Msg : Type} `{EC : EthClient W C} `{TW : TssServer W} `{CN : CosmosNode J Msg} `{TJ : TssServer J} `{JS : JoltService J}.
Context `{G : EthSigner} `{S : SdkMath} `{N : SdkCoins} `{B : Bech32} `{E : Eth} `{K : Backoff} `{R : GoRuntime}.
Context (attempts submits : nat) (HexToHash : string -> bytes).
(** The client of the chain at hand, the joltify node, the variables. *)
#[local] Notation OF := (ChainInfo W C * J * OutFlow)%type.

Definition on_out (f : OutFlow -> OutFlow) : M OF unit := modify (fun '(c, j, o) => (c, j, f o)).

Definition on_pay {A} (m : M (PayState W J C) A) : M OF A := fun '(c, j, f) =>
  let '(s, r) := m (mkPayState c j (out_q f) (out_failed f) (out_wait f)) in
  ((p_chain s, p_jolt s, out_set_failed (failedOutbound s) (out_set_q (pay_q s) f)), r).

Definition on_outq {A} (m : M (ItemQueue OutBoundReq) A) : M OF A := fun '(c, j, f) =>
  let '(q, r) := m (out_q f) in ((c, j, out_set_q q f), r).

Definition on_oclient {A} (m : M (ChainInfo W C) A) : M OF A := fun '(c, j, f) =>
  let '(c', r) := m c in ((c', j, f), r).

Definition olift {A} (g : OutFlow -> outcome A) : M OF A := fun '(c, j, f) => ((c, j, f), g f).

(** pubchain_routine.go, from [failedOutbound.Load() > 5] on.  [headType] is
    the chain of the new head, [chainInfo.ChainType] the client's. *)
Definition outbound_section (pool1 : PoolInfo) (inKeygen : bool) (headType : string) (latestHeight processableBlockHeight : Z) : M OF unit :=
  let! s := get in
  let chainType := PubClient.ChainType (fst (fst s)) in
  do! (if 5 <? out_failed (snd s) then
      let! p := olift (fun f => SetHeight (u64 (round_end latestHeight)) chainType (outboundPauseHeight f)) in
      on_out (fun f => out_set_pause p true (out_set_failed 0 f))
    else ret tt) in
  let! pause := olift (fun f => GetHeight chainType (outboundPauseHeight f)) in
  if latestHeight <? pause then
    if latestHeight =? u64 (pause - 1) then on_pay (putOnHoldBlockOutBoundBack HexToHash) else ret tt
  else
    do! on_out (fun f => out_set_pause (outboundPauseHeight f) false f) in
    let! s := get in
    if negb (outBoundProcessDone (snd s)) then ret tt
    else if inKeygen then ret tt
    else
      do! (if IsEmpty (out_q (snd s)) then on_pay (putOnHoldBlockOutBoundBack HexToHash) else ret tt) in
      let! prev := olift (fun f => GetHeight headType (previousTssBlockOutBound f)) in
      let! s := get in
      let f := snd s in
      if (cos_GroupBlockGap <=? i64 (i64 processableBlockHeight - prev)) && negb (IsEmpty (out_q f)) then
        if (Size (out_q f) <? GroupSign) && firstTimeOutbound f then on_out (out_set_first false)
        else
          let! outboundItems := on_outq (OutboundQueue.PopItem GroupSign headType) in
          match outboundItems with
          | None => ret tt
          | Some outboundItems =>
              let! r := try (on_oclient (FeedTx_outbound (pi_PoolInfo pool1) outboundItems)) in
              match r with
              | inr _ => ret tt
              | inl outboundItems =>
                  let! p := olift (fun f => SetHeight (i64 processableBlockHeight) headType (previousTssBlockOutBound f)) in
                  do! on_out (out_set_prev p) in
                  do! on_out (out_set_first true) in
                  do! on_out (fun f => out_set_chan (OutboundReqChan f ++ [outboundItems]) (out_running f) f) in
                  on_out (out_set_done false)
              end
          end
      else ret tt.

Definition take_outbound : M OF unit :=
  on_out (fun f => match OutboundReqChan f with
    | [] => f
    | b :: chan => out_set_chan chan (out_running f ++ [b]) f
    end).

(** [GetPool] and [v] are the pools and validators the goroutine sees,
    [resp] what its signing round broadcasts. *)
Definition finish_outbound (GetPool : list (option PoolInfo)) (v : ValidatorSet) (resp : option (gmap string bytes)) (i : nat) : M OF unit :=
  let! s := get in
  match out_running (snd s) !! i with
  | None => ret tt
  | Some items =>
      do! on_pay (outbound_round (Msg := Msg) attempts submits HexToHash GetPool v resp items) in
      on_out (fun f => out_set_done true (out_set_chan (OutboundReqChan f) (delete i (out_running f)) f))
  end.
End OutFlow.

(** ** Invariants *)

(** At most one batch is in flight, and none when the flag says the previous
    one is done. *)
Definition in_one (f : InFlow) : Prop :=
  (inBoundProcessDone f = true -> InboundReqChan f = [] /\ in_running f = []) /\
  (length (InboundReqChan f) + length (in_running f) <= 1)%nat.

Definition out_one (f : OutFlow) : Prop :=
  (outBoundProcessDone f = true -> OutboundReqChan f = [] /\ out_running f = []) /\
  (length (OutboundReqChan f) + length (out_running f) <= 1)%nat.

(** Nothing in flight and yet not done: no batch will ever be fed. *)
Definition in_wedged (f : InFlow) : Prop :=
  inBoundProcessDone f = false /\ InboundReqChan f = [] /\ in_running f = [].

(** The variables the invariants are about. *)
Definition in_flags (f : InFlow) := (inBoundProcessDone f, InboundReqChan f, in_running f).
Definition out_flags (f : OutFlow) := (outBoundProcessDone f, OutboundReqChan f, out_running f).

Lemma in_one_flags f f' : in_flags f = in_flags f' -> in_one f -> in_one f'.
Proof. intros [= H1 H2 H3]. unfold in_one. by rewrite H1, H2, H3. Qed.
Lemma in_wedged_flags f f' : in_flags f = in_flags f' -> in_wedged f -> in_wedged f'.
Proof. intros [= H1 H2 H3]. unfold in_wedged. by rewrite H1, H2, H3. Qed.
Lemma out_one_flags f f' : out_flags f = out_flags f' -> out_one f -> out_one f'.
Proof. intros [= H1 H2 H3]. unfold out_one. by rewrite H1, H2, H3. Qed.

(** ** Lemmas *)

(** A first program that keeps [P], then one that goes from [P] to [Q]. *)
Lemma leads_bind {St A B} (P Q : St -> Prop) (m : M St A) (k : A -> M St B) :
  keeps P m -> (forall s, P s -> Q s) -> (forall a s, P s -> Q (fst (k a s))) ->
  forall s, P s -> Q (fst (bind m k s)).
Proof.
  intros Hm HPQ Hk s Hs. unfold bind. specialize (Hm s Hs). destruct (m s) as [s1 [a|e|]]; auto.
Qed.

Section InLemmas.
Context {J Msg : Type} `{CN : CosmosNode J Msg} `{T : TssServer J} `{JS : JoltService J} `{S : SdkMath} `{N : SdkCoins} `{B : Bech32} `{E : Eth}.
Context `{K : Backoff} `{R : GoRuntime}.
#[local] Notation IF := (J * InFlow)%type.
Implicit Types (s : IF).

(** A property of the flags alone, lifted to the state. *)
Definition of_in_flags (P : bool * list (list InBoundReq) * list (list InBoundReq) -> Prop) s : Prop := P (in_flags (snd s)).

Section Flags.
Context (P : bool * list (list InBoundReq) * list (list InBoundReq) -> Prop).

Lemma keeps_on_mint {A} (m : M (MintState J) A) : keeps (of_in_flags P) (on_mint m).
Proof. intros [j f] H. unfold on_mint. by destruct (m _) as [s r]. Qed.

Lemma keeps_on_flow g : (forall f, in_flags (g f) = in_flags f) -> keeps (of_in_flags P) (@on_flow J g).
Proof. intros Hg. apply keeps_modify. intros [j f] H. unfold of_in_flags in *. cbn in *. by rewrite Hg. Qed.
End Flags.

Lemma feed_inbound_flags pool s s' r : feed_inbound (Msg := Msg) pool s = (s', r) ->
  inBoundProcessDone (snd s') = inBoundProcessDone (snd s) /\ in_running (snd s') = in_running (snd s) /\
  (InboundReqChan (snd s') = InboundReqChan (snd s) \/
   r = Ret tt /\ exists batch, InboundReqChan (snd s') = (InboundReqChan (snd s) ++ [batch])%list).
Proof.
  destruct s as [j f]. unfold feed_inbound.
  destruct (FeedTx_inbound _ _ _ _) as [[j' q'] [[batch|]|e|]]; intros [= <- <-]; cbn; eauto 10.
Qed.

(** The reading prefix of the section: up to the decision to feed it keeps
    every property of the flags; feeding happens when they say "done". *)
Lemma inbound_section_leads (P Q : bool * list (list InBoundReq) * list (list InBoundReq) -> Prop) pool1 kg lh cur pb :
  (forall x, P x -> Q x) ->
  (forall p s, P (in_flags (snd s)) -> inBoundProcessDone (snd s) = true ->
    Q (in_flags (snd (fst ((do! try (feed_inbound (Msg := Msg) p) in do! on_flow (in_set_done false) in
      do! on_flow (in_set_prev cur) in on_flow (in_set_first true)) s))))) ->
  forall s, P (in_flags (snd s)) -> Q (in_flags (snd (fst (inbound_section (Msg := Msg) pool1 kg lh cur pb s)))).
Proof.
  intros HPQ Hfeed. change (forall s, of_in_flags P s -> of_in_flags Q (fst (inbound_section (Msg := Msg) pool1 kg lh cur pb s))).
  assert (forall s, of_in_flags P s -> of_in_flags Q s) as HPQ' by (intros s; apply HPQ).
  unfold inbound_section. apply leads_bind; [apply keeps_get|done|]. intros s0.
  apply leads_bind; [destruct (5 <? _); [by apply keeps_on_flow|apply keeps_ret]|done|]. intros _.
  apply leads_bind; [apply keeps_get|done|]. intros s1. destruct (lh <? _).
  { intros s Hs. apply HPQ'. destruct (lh =? _); [by apply keeps_on_mint|done]. }
  apply leads_bind; [by apply keeps_on_flow|done|]. intros _.
  apply leads_bind; [apply keeps_get|done|]. intros s2.
  apply leads_bind; [destruct (IsEmpty _); [apply keeps_on_mint|apply keeps_ret]|done|]. intros _.
  intros s Hs. unfold bind at 1, get. destruct (_ && _); [|by apply HPQ'].
  destruct (_ && _); [by apply HPQ', (keeps_on_flow P)|].
  destruct (inBoundProcessDone (snd s)) eqn:Ed; cbn [negb]; [|by apply HPQ'].
  destruct kg; [by apply HPQ'|]. destruct pool1 as [p|]; [|by apply HPQ']. by apply Hfeed.
Qed.

Lemma inbound_section_one pool1 kg lh cur pb s :
  in_one (snd s) -> in_one (snd (fst (inbound_section (Msg := Msg) pool1 kg lh cur pb s))).
Proof.
  set (P := fun x : bool * list (list InBoundReq) * list (list InBoundReq) =>
    (x.1.1 = true -> x.1.2 = [] /\ x.2 = []) /\ (length x.1.2 + length x.2 <= 1)%nat).
  change (P (in_flags (snd s)) -> P (in_flags (snd (fst (inbound_section (Msg := Msg) pool1 kg lh cur pb s))))).
  apply inbound_section_leads; [done|]. clear s. intros p s [H1 _] Hd. cbn [fst snd in_flags] in H1.
  destruct (H1 Hd) as [Hc Hr]. unfold bind at 1, try. destruct (feed_inbound p s) as [s1 r] eqn:Ef.
  apply feed_inbound_flags in Ef as (Hd1 & Hr1 & Hc1). rewrite Hc in Hc1. rewrite Hr in Hr1.
  destruct r as [[]|e|]; unfold bind, on_flow, modify, P; cbn; rewrite ?Hr1.
  1-2: split; [done|]; destruct Hc1 as [-> |[_ [b ->]]]; cbn; lia.
  destruct Hc1 as [-> |[? _]]; [|done]. cbn. split; [done|lia].
Qed.

Lemma inbound_section_wedged pool1 kg lh cur pb s :
  in_wedged (snd s) -> in_wedged (snd (fst (inbound_section (Msg := Msg) pool1 kg lh cur pb s))).
Proof.
  set (P := fun x : bool * list (list InBoundReq) * list (list InBoundReq) => x.1.1 = false /\ x.1.2 = [] /\ x.2 = []).
  change (P (in_flags (snd s)) -> P (in_flags (snd (fst (inbound_section (Msg := Msg) pool1 kg lh cur pb s))))).
  apply inbound_section_leads; [done|]. clear s. intros p s [H1 _] Hd. cbn [fst snd in_flags] in H1. congruence.
Qed.

Lemma take_inbound_one s : in_one (snd s) -> in_one (snd (fst (take_inbound s))).
Proof.
  destruct s as [j f]. unfold take_inbound, on_flow, modify, in_one. cbn [fst snd].
  destruct (InboundReqChan f) as [|b chan] eqn:Ec; [by rewrite Ec|]. cbn. rewrite length_app. cbn. intros [H1 H2].
  split; [intros Hd; destruct (H1 Hd); done|lia].
Qed.

Lemma take_inbound_wedged s : in_wedged (snd s) -> in_wedged (snd (fst (take_inbound s))).
Proof. destruct s as [j f]. intros (H1 & H2 & H3). unfold take_inbound, on_flow, modify. cbn in *. rewrite H2. exact (conj H1 (conj H2 H3)). Qed.

Lemma finish_inbound_one i s : in_one (snd s) -> in_one (snd (fst (finish_inbound (Msg := Msg) i s))).
Proof.
  intros H. unfold finish_inbound. unfold bind at 1, get. destruct (in_running (snd s) !! i) as [items|] eqn:Ei; [|done].
  unfold bind. pose proof (keeps_on_mint (fun x => x = in_flags (snd s)) (processInbound (Msg := Msg) items) s eq_refl) as Hk.
  destruct (on_mint _ s) as [s1 [[]|e|]]; cbn in Hk |- *; try (by apply (in_one_flags _ _ (eq_sym Hk))).
  unfold of_in_flags, in_flags in Hk. injection Hk as Hd Hc Hr. destruct H as [_ H].
  apply lookup_lt_Some in Ei as Hl. unfold in_one. cbn. rewrite Hc, Hr.
  assert (length (in_running (snd s)) = 1%nat) as H1 by lia. assert (i = 0%nat) as -> by lia.
  destruct (in_running (snd s)) as [|x [|y l]] eqn:Er; try done. cbn. destruct (InboundReqChan (snd s)); [split; [done|cbn; lia]|cbn in H; lia].
Qed.

Lemma finish_inbound_wedged i s : in_wedged (snd s) -> in_wedged (snd (fst (finish_inbound (Msg := Msg) i s))).
Proof. intros H. unfold finish_inbound, bind, get. destruct H as (H1 & H2 & H3). by rewrite H3. Qed.
End InLemmas.

Section OutLemmas.
Context {W J C Msg : Type} `{EC : EthClient W C} `{TW : TssServer W} `{CN : CosmosNode J Msg} `{TJ : TssServer J} `{JS : JoltService J}.
Context `{G : EthSigner} `{S : SdkMath} `{N : SdkCoins} `{B : Bech32} `{E : Eth} `{K : Backoff} `{R : GoRuntime}.
Context (attempts submits : nat) (HexToHash : string -> bytes).
#[local] Notation OF := (ChainInfo W C * J * OutFlow)%type.
Implicit Types (s : OF).

Definition of_out_flags (P : bool * list (list OutBoundReq) * list (list OutBoundReq) -> Prop) s : Prop := P (out_flags (snd s)).

Section Flags.
Context (P : bool * list (list OutBoundReq) * list (list OutBoundReq) -> Prop).

Lemma keeps_on_pay {A} (m : M (PayState W J C) A) : keeps (of_out_flags P) (on_pay m).
Proof. intros [[c j] f] H. unfold on_pay. by destruct (m _) as [s r]. Qed.
Lemma keeps_on_outq {A} (m : M (ItemQueue OutBoundReq) A) : keeps (of_out_flags P) (on_outq m).
Proof. intros [[c j] f] H. unfold on_outq. by destruct (m _) as [s r]. Qed.
Lemma keeps_on_oclient {A} (m : M (ChainInfo W C) A) : keeps (of_out_flags P) (on_oclient m).
Proof. intros [[c j] f] H. unfold on_oclient. by destruct (m _) as [s r]. Qed.
Lemma keeps_olift {A} (g : OutFlow -> outcome A) : keeps (of_out_flags P) (olift g).
Proof. by intros [[c j] f] H. Qed.
Lemma keeps_on_out g : (forall f, out_flags (g f) = out_flags f) -> keeps (of_out_flags P) (on_out g).
Proof. intros Hg. apply keeps_modify. intros [[c j] f] H. unfold of_out_flags in *. cbn in *. by rewrite Hg. Qed.
End Flags.
#[local] Hint Resolve keeps_on_pay keeps_on_outq keeps_on_oclient keeps_olift keeps_on_out : keeps.

Lemma outbound_section_one pool1 kg ht lh pb s :
  out_one (snd s) -> out_one (snd (fst (outbound_section HexToHash pool1 kg ht lh pb s))).
Proof.
  set (P := fun x : bool * list (list OutBoundReq) * list (list OutBoundReq) =>
    (x.1.1 = true -> x.1.2 = [] /\ x.2 = []) /\ (length x.1.2 + length x.2 <= 1)%nat).
  set (I := fun x : bool * list (list OutBoundReq) * list (list OutBoundReq) => x = (true, [], [])).
  assert (forall s, of_out_flags I s -> of_out_flags P s) as HIP.
  { intros x Hx. unfold of_out_flags, I, P in *. rewrite Hx. cbn. split; [done|lia]. }
  change (of_out_flags P s -> of_out_flags P (fst (outbound_section HexToHash pool1 kg ht lh pb s))). revert s.
  unfold outbound_section. apply leads_bind; [auto with keeps|done|]. intros s0.
  apply leads_bind; [keep|done|]. intros _. apply leads_bind; [auto with keeps|done|]. intros pause.
  destruct (lh <? pause); [intros s Hs; destruct (lh =? _); [by apply keeps_on_pay|done]|].
  apply leads_bind; [auto with keeps|done|]. intros _. intros s Hs. unfold bind at 1, get.
  destruct (outBoundProcessDone (snd s)) eqn:Ed; cbn [negb]; [|done]. destruct kg; [done|].
  assert (of_out_flags I s) as HI.
  { destruct Hs as [H1 _]. destruct (H1 Ed) as [Hc Hr]. cbn in Hc, Hr. unfold of_out_flags, I, out_flags. congruence. }
  revert HI. clear Hs Ed. generalize (IsEmpty (out_q (snd s))). intros em. revert s.
  apply leads_bind; [keep|done|]. intros _. apply leads_bind; [auto with keeps|done|]. intros prev.
  apply leads_bind; [auto with keeps|done|]. intros s1. destruct (_ && _); [|done].
  destruct (_ && _); [intros s Hs; by apply HIP, (keeps_on_out I)|].
  apply leads_bind; [auto with keeps|done|]. intros [items|]; [|done].
  apply leads_bind; [auto with keeps|done|]. intros [items'|e]; [|done].
  apply leads_bind; [auto with keeps|done|]. intros p.
  apply leads_bind; [auto with keeps|done|]. intros _. apply leads_bind; [auto with keeps|done|]. intros _.
  intros [[c j] f] Hs. unfold of_out_flags, I, out_flags in Hs. cbn [snd] in Hs. injection Hs as _ Hc Hr.
  unfold of_out_flags, P, bind, on_out, modify. cbn. rewrite Hc, Hr. cbn. split; [done|lia].
Qed.

Lemma take_outbound_one s : out_one (snd s) -> out_one (snd (fst (take_outbound s))).
Proof.
  destruct s as [[c j] f]. unfold take_outbound, on_out, modify, out_one. cbn [fst snd].
  destruct (OutboundReqChan f) as [|b chan] eqn:Ec; [by rewrite Ec|]. cbn. rewrite length_app. cbn. intros [H1 H2].
  split; [intros Hd; destruct (H1 Hd); done|lia].
Qed.

Lemma finish_outbound_one pools v resp i s :
  out_one (snd s) -> out_one (snd (fst (finish_outbound (Msg := Msg) attempts submits HexToHash pools v resp i s))).
Proof.
  intros H. unfold finish_outbound. unfold bind at 1, get. destruct (out_running (snd s) !! i) as [items|] eqn:Ei; [|done].
  unfold bind. pose proof (keeps_on_pay (fun x => x = out_flags (snd s))
    (outbound_round (Msg := Msg) attempts submits HexToHash pools v resp items) s eq_refl) as Hk.
  destruct (on_pay _ s) as [s1 [[]|e|]]; cbn in Hk |- *; try (by apply (out_one_flags _ _ (eq_sym Hk))).
  destruct s1 as [[c j] f]. unfold of_out_flags, out_flags in Hk. cbn [snd] in Hk. injection Hk as Hd Hc Hr. destruct H as [_ H].
  apply lookup_lt_Some in Ei as Hl. unfold out_one. cbn. rewrite Hc, Hr.
  assert (length (out_running (snd s)) = 1%nat) as H1 by lia. assert (i = 0%nat) as -> by lia.
  destruct (out_running (snd s)) as [|x [|y l]] eqn:Er; try done. cbn. destruct (OutboundReqChan (snd s)); [split; [done|cbn; lia]|cbn in H; lia].
Qed.
End OutLemmas.

(** ** Properties *)

Section InProperties.
Context {J Msg : Type} `{CN : CosmosNode J Msg} `{T : TssServer J} `{JS : JoltService J} `{S : SdkMath} `{N : SdkCoins} `{B : Bech32} `{E : Eth}.
Context `{K : Backoff} `{R : GoRuntime} `{LR : !GoRuntimeLaws R}.

(** The section decides to feed. *)
Definition feeds (f : InFlow) (kg : bool) (lh pb : Z) : Prop :=
  in_failed f <= 5 /\ inboundPauseHeight f <= lh /\ IsEmpty (in_q f) = false /\
  GroupBlockGap <= i64 (pb - previousTssBlockInbound f) /\
  (GroupSign <= Size (in_q f) \/ firstTimeInbound f = false) /\ inBoundProcessDone f = true /\ kg = false.

Lemma inbound_section_feeds p kg lh cur pb (j : J) f :
  feeds f kg lh pb ->
  inbound_section (Msg := Msg) (Some p) kg lh cur pb (j, f) =
  (do! try (feed_inbound (Msg := Msg) (pi_PoolInfo p)) in do! on_flow (in_set_done false) in
   do! on_flow (in_set_prev cur) in on_flow (in_set_first true)) (j, in_set_pause (inboundPauseHeight f) false f).
Proof.
  intros (H1 & H2 & H3 & H4 & H5 & H6 & ->). unfold inbound_section, bind at 1, get at 1. cbn [snd].
  rewrite (proj2 (Z.ltb_ge 5 (in_failed f))) by lia. rewrite bind_ret_l. unfold bind at 1, get at 1. cbn [snd].
  rewrite (proj2 (Z.ltb_ge lh (inboundPauseHeight f))) by lia.
  erewrite bind_ret_run by reflexivity. cbn [fst snd]. unfold bind at 1, get at 1. cbn [snd in_set_pause in_q].
  rewrite H3. rewrite bind_ret_l. unfold bind at 1, get at 1. cbn [snd in_set_pause in_q previousTssBlockInbound firstTimeInbound inBoundProcessDone].
  rewrite H3, (proj2 (Z.leb_le _ _) H4), H6. cbn [negb andb].
  assert ((Size (in_q f) <? GroupSign) && firstTimeInbound f = false) as ->; [|reflexivity].
  destruct H5 as [H5| ->]; [by rewrite (proj2 (Z.ltb_ge _ _) H5)|by rewrite andb_false_r].
Qed.

(** Fact (one failed account query stops minting). When the section decides to
    feed a batch and the query of the pool's account fails, it clears the
    "done" flag although no batch was put on the channel and none is running:
    the state in which nothing is in flight and nothing is ever fed. *)
Theorem failed_feed_wedges p kg lh cur pb (j j' : J) f e :
  in_one f -> feeds f kg lh pb ->
  CheckWhetherSigner operator_address (Some (pi_PoolInfo p)) = Ret true ->
  queryAccount (Msg := Msg) (AccAddress_String (PoolAddr (pi_PoolInfo p))) j = (j', Fail e) ->
  exists f', inbound_section (Msg := Msg) (Some p) kg lh cur pb (j, f) = ((j', f'), Ret tt) /\
    in_wedged f' /\ in_q f' = in_q f.
Proof.
  intros [H1 _] Hf Hs Hq. rewrite inbound_section_feeds by done.
  destruct Hf as (_ & _ & _ & _ & _ & Hd & _). destruct (H1 Hd) as [Hc Hr].
  unfold bind at 1, try. unfold feed_inbound, FeedTx_inbound. unfold bind, lift. rewrite Hs. cbn [negb]. rewrite Hq.
  cbn [in_set_pause in_q ocatch]. unfold on_flow, modify. cbn [fst snd].
  eexists. split; [reflexivity|]. unfold in_wedged. cbn. done.
Qed.

(** Fact (the pause after failures). With more than five failures the section
    resets the counter, sets the pause to the end of the current round of 100
    blocks, and feeds nothing now nor, with the counter low, at any height
    below it. *)
Theorem pause_after_failures pool1 kg lh cur pb (j : J) f :
  0 <= lh < 2 ^ 62 -> 5 < in_failed f ->
  let r := inbound_section (Msg := Msg) pool1 kg lh cur pb (j, f) in
  in_flags (snd (fst r)) = in_flags f /\ lh < inboundPauseHeight (snd (fst r)) <= lh + 100 /\
  (inboundPauseHeight (snd (fst r)) mod 100 = 0) /\ in_wait (snd (fst r)) = true /\
  (lh + 1 < inboundPauseHeight (snd (fst r)) -> in_failed (snd (fst r)) = 0 /\ in_q (snd (fst r)) = in_q f) /\
  forall (j' : J) f' lh' kg' cur' pb' pool', in_failed f' <= 5 -> lh' < inboundPauseHeight f' ->
    in_flags (snd (fst (inbound_section (Msg := Msg) pool' kg' lh' cur' pb' (j', f')))) = in_flags f'.
Proof.
  intros Hl Hf r.
  assert (forall (j' : J) f' lh' kg' cur' pb' pool', in_failed f' <= 5 -> lh' < inboundPauseHeight f' ->
    inbound_section (Msg := Msg) pool' kg' lh' cur' pb' (j', f') =
    (if lh' =? i64 (inboundPauseHeight f' - 1) then on_mint putOnHoldBlockInBoundBack else ret tt) (j', f')) as Hlow.
  { intros j' f' lh' kg' cur' pb' pool' Hf' Hlt. unfold inbound_section, bind at 1, get at 1. cbn [snd].
    rewrite (proj2 (Z.ltb_ge 5 (in_failed f'))) by lia. rewrite bind_ret_l. unfold bind at 1, get at 1. cbn [snd].
    by rewrite (proj2 (Z.ltb_lt lh' _)). }
  assert (forall P (x : J * InFlow), P (in_flags (snd x)) -> P (in_flags (snd (fst (on_mint putOnHoldBlockInBoundBack x))))) as Hmint.
  { intros P x Hx. by apply (keeps_on_mint P). }
  set (h := round_end lh).
  assert (lh < h <= lh + 100 /\ h mod 100 = 0 /\ i64 h = h) as (Hh & Hmod & Hi).
  { unfold h, round_end, bridge_ROUNDBLOCK. rewrite Z.quot_div_nonneg by lia.
    pose proof (Z.div_mod lh 100). pose proof (Z.mod_pos_bound lh 100). split; [lia|]. split; [apply Z.mod_mul; lia|].
    apply i64_small. unfold in_i64, MinInt64, MaxInt64. lia. }
  assert (r = (if lh =? i64 (h - 1) then on_mint putOnHoldBlockInBoundBack else ret tt)
    (j, in_set_pause h true (in_set_failed 0 f))) as Hr.
  { unfold r, inbound_section, bind at 1, get at 1. cbn [snd]. rewrite (proj2 (Z.ltb_lt 5 (in_failed f))) by lia.
    erewrite bind_ret_run by reflexivity. unfold bind at 1, get at 1. cbn [fst snd]. fold h. rewrite Hi. cbn [inboundPauseHeight in_set_pause].
    rewrite (proj2 (Z.ltb_lt lh h)) by lia. reflexivity. }
  assert (inboundPauseHeight (snd (fst r)) = h /\ in_wait (snd (fst r)) = true) as [Hp Hw].
  { rewrite Hr. destruct (lh =? _); [|done]. unfold on_mint. by destruct (putOnHoldBlockInBoundBack _). }
  split; [rewrite Hr; destruct (lh =? _); [|done]; by apply (Hmint (fun x => x = in_flags f))|].
  rewrite Hp, Hw. split; [done|]. split; [done|]. split; [done|]. split.
  - intros Hlt. rewrite Hr. rewrite i64_small by (unfold in_i64, MinInt64, MaxInt64; lia).
    by rewrite (proj2 (Z.eqb_neq lh (h - 1))) by lia.
  - intros j' f' lh' kg' cur' pb' pool' Hf' Hlt. rewrite Hlow by done.
    destruct (lh' =? _); [|done]. by apply (Hmint (fun x => x = in_flags f')).
Qed.
End InProperties.

Section OutProperties.
Context {W J C Msg : Type} `{EC : EthClient W C} `{TW : TssServer W} `{CN : CosmosNode J Msg} `{TJ : TssServer J} `{JS : JoltService J}.
Context `{G : EthSigner} `{S : SdkMath} `{N : SdkCoins} `{B : Bech32} `{E : Eth} `{K : Backoff} `{R : GoRuntime} `{LR : !GoRuntimeLaws R}.
Context (HexToHash : string -> bytes).

(** Fact (a failed nonce query loses payouts). When the outbound section has
    popped a batch and the pending nonce cannot be read, the section ends
    without an error: the popped requests are no longer in the retry map,
    they were not put on the on-hold queue and no batch was put on the
    channel. *)
Theorem failed_feed_loses_payouts pool1 ht lh pb (c c' : ChainInfo W C) (j : J) f q' items e pause prev :
  out_failed f <= 5 ->
  GetHeight (PubClient.ChainType c) (outboundPauseHeight f) = Ret pause -> pause <= lh ->
  outBoundProcessDone f = true -> IsEmpty (out_q f) = false ->
  GetHeight ht (previousTssBlockOutBound f) = Ret prev -> cos_GroupBlockGap <= i64 (i64 pb - prev) ->
  GroupSign <= Size (out_q f) \/ firstTimeOutbound f = false ->
  OutboundQueue.PopItem GroupSign ht (out_q f) = (q', Ret (Some items)) ->
  FeedTx_outbound (pi_PoolInfo pool1) items c = (c', Fail e) ->
  exists f', outbound_section HexToHash pool1 false ht lh pb (c, j, f) = ((c', j, f'), Ret tt) /\
    out_q f' = q' /\ OutboundReqChan f' = OutboundReqChan f /\ out_running f' = out_running f.
Proof.
  intros H1 H2 H3 H4 H5 H6 H7 H8 H9 H10. unfold outbound_section, bind at 1, get at 1. cbn [snd fst].
  rewrite (proj2 (Z.ltb_ge 5 (out_failed f))) by lia. rewrite bind_ret_l.
  unfold bind at 1, olift at 1. rewrite H2, (proj2 (Z.ltb_ge lh pause)) by lia.
  erewrite bind_ret_run by reflexivity. unfold bind at 1, get at 1. cbn [snd out_set_pause outBoundProcessDone out_q]. rewrite H4. cbn [negb].
  rewrite H5, bind_ret_l. unfold bind at 1, olift at 1. cbn [previousTssBlockOutBound out_set_pause]. rewrite H6.
  unfold bind at 1, get at 1. cbn [snd out_q out_set_pause firstTimeOutbound]. rewrite H5, (proj2 (Z.leb_le _ _) H7). cbn [negb andb].
  assert ((Size (out_q f) <? GroupSign) && firstTimeOutbound f = false) as ->.
  { destruct H8 as [H8| ->]; [by rewrite (proj2 (Z.ltb_ge _ _) H8)|by rewrite andb_false_r]. }
  unfold bind at 1, on_outq. cbn [out_q out_set_pause]. rewrite H9. unfold bind at 1, try, on_oclient. rewrite H10. cbn [ocatch].
  eexists. split; [reflexivity|]. done.
Qed.
End OutProperties.

(** ** Witnesses *)

(** A node that answers no account query. *)
#[local] Definition silent : cos_world := ([], []).

Section Witnesses.
#[local] Existing Instance cosmos_ref.
#[local] Existing Instance tss_cos_ref.
#[local] Existing Instance sdk_math_ref.
#[local] Existing Instance sdk_coins_ref.
#[local] Existing Instance bech32_ref.
#[local] Existing Instance backoff_ref.
#[local] Existing Instance eth_ref.
#[local] Existing Instance eth_signer_ref.
#[local] Existing Instance go_runtime_ref.
#[local] Existing Instance eth_client_ref.
#[local] Existing Instance tss_ref.

#[local] Definition deposit : InBoundReq := NewAccountInboundReq [Byte.x01] [] (mkCoin "abnb" 3) [Byte.x02] 10.
#[local] Definition flow1 (failed : Z) : InFlow :=
  mkInFlow (mkQueue {[ InBoundReq_Index deposit := deposit ]} []) [] [] failed 0 false true false 100.
#[local] Definition operator_pool : PoolInfo := mkPoolInfo "k01" [Byte.x09] [Byte.x09] (mkVaultPool "1" "k01" [Byte.x09] [[Byte.x0b]]).

Lemma failed_feed_wedges_witness :
  let _ := jolt_ref true in
  exists f', inbound_section (Msg := string) (Some operator_pool) false 200 203 200 (silent, flow1 0) = ((silent, f'), Ret tt) /\
    in_wedged f' /\ in_q f' = in_q (flow1 0).
Proof.
  intros JS. apply (failed_feed_wedges (JS := JS) operator_pool false 200 203 200 silent silent (flow1 0) "no answer").
  - split; [intros _; split; reflexivity|]. cbn. lia.
  - unfold feeds. split; [cbn; lia|]. split; [cbn; lia|]. split; [vm_compute; reflexivity|].
    split; [vm_compute; discriminate|]. split; [right; reflexivity|]. split; reflexivity.
  - reflexivity.
  - reflexivity.
Defined.

Lemma pause_after_failures_witness :
  let _ := jolt_ref true in
  inboundPauseHeight (snd (fst (inbound_section (Msg := string) None false 250 253 250 (silent, flow1 6)))) mod 100 = 0.
Proof.
  intros JS. destruct (pause_after_failures (JS := JS) None false 250 253 250 silent (flow1 6)) as (_ & _ & H & _).
  - lia.
  - cbn. lia.
  - exact H.
Defined.

#[local] Definition payout (n : Z) : OutBoundReq := NewOutboundReq "ab" [byte_of n] [] (mkCoin "abnb" n) "native" 10 [] "BSC" true.
#[local] Definition pay_queue : ItemQueue OutBoundReq := (AddAll [payout 1; payout 2] empty_queue).1.
#[local] Definition pay_flow : OutFlow := mkOutFlow pay_queue [] [] 0 (mkPerChain 0 0) false true false (mkPerChain 0 0).

Lemma failed_feed_loses_payouts_witness :
  let _ := jolt_ref true in
  exists f', outbound_section (fun _ => []) (pool_of "k01") false "BSC" 50 40 (chain_ref [], silent, pay_flow) =
    ((with_resets 1 (chain_ref []), silent, f'), Ret tt) /\ Size (out_q pay_flow) = 2 /\ Size (out_q f') = 0 /\ OutboundReqChan f' = [].
Proof.
  intros JS. destruct (OutboundQueue.PopItem GroupSign "BSC" pay_queue) as [q' r] eqn:Ep.
  assert (exists items, r = Ret (Some items) /\ Size q' = 0 /\ FeedTx_outbound (pi_PoolInfo (pool_of "k01")) items (chain_ref []) =
    (with_resets 1 (chain_ref []), Fail "no answer")) as (items & -> & Hs & Hf).
  { vm_compute in Ep. injection Ep as <- <-. eexists. split; [reflexivity|]. split; vm_compute; reflexivity. }
  destruct (failed_feed_loses_payouts (JS := JS) (fun _ => []) (pool_of "k01") "BSC" 50 40 (chain_ref []) (with_resets 1 (chain_ref [])) silent
    pay_flow q' items "no answer" 0 0) as (f' & H1 & H2 & H3 & _).
  - cbn. lia.
  - reflexivity.
  - lia.
  - reflexivity.
  - vm_compute. reflexivity.
  - reflexivity.
  - vm_compute. discriminate.
  - right. reflexivity.
  - exact Ep.
  - exact Hf.
  - exists f'. split; [exact H1|]. split; [vm_compute; reflexivity|]. split; [rewrite H2; exact Hs|exact H3].
Defined.
End Witnesses.
