(* ===== verification/JoltClient.v ===== *)
(** * The connection to the joltify chain: cosbridge/retry.go,
    GetLastBlockHeightWithLock and InitValidators

    The bridge holds one gRPC connection and one websocket client, with two
    subscriptions on the latter.  When either stops answering, both are
    replaced, the events that wait in the old channels are moved to the two
    shared queues and new subscriptions take their place.  A Go channel the
    library fills is the list of the events that wait in it, with the client
    whose subscription fills it. *)

From Stdlib Require Import Ascii String.
From S2P Require Import Prelude GoLib Sdk Requests Validators.

#[local] Open Scope string_scope.
#[local] Open Scope Z_scope.
#[local] Open Scope go_scope.

(** ** Definitions *)

(** The libraries' calls: [W] is the state of the world, [G] a gRPC
    connection, [S] a websocket client, [E] an event. *)
Class JoltRpc (W G S E : Type) := {
  grpc_Dial : M W G;
  ws_New : M W S;
  ws_Start : S -> M W unit;
  ws_Stop : S -> M W unit;
  ws_Status : S -> M W unit;
  grpc_Close : G -> M W unit;
  GetLatestBlock : G -> M W Z;
  (** subscriber and query; the events that already wait in the channel *)
  ws_Subscribe : S -> string -> string -> M W (list E);
}.

(** A channel of a subscription; [None] is the nil channel. *)
Record Channel (S E : Type) := mkChannel {
  subscribed_on : option S;
  waiting : list E;
}.
Arguments mkChannel {S E}. Arguments subscribed_on {S E}. Arguments waiting {S E}.

(** The fields of [JoltChainInstance] that make up the connection, with the
    state of the world they act on. *)
Record JoltClient (W G S E : Type) := mkJoltClient {
  rpc : W;
  GrpcClient : G;
  WsClient : S;
  CurrentNewBlockChan : Channel S E;
  CurrentNewValidator : Channel S E;
  ChannelQueueNewBlock : list E;
  ChannelQueueValidator : list E;
  grpcLock : bool;
  retryLock : bool;
}.
Arguments mkJoltClient {W G S E}. Arguments rpc {W G S E}. Arguments GrpcClient {W G S E}. Arguments WsClient {W G S E}.
Arguments CurrentNewBlockChan {W G S E}. Arguments CurrentNewValidator {W G S E}. Arguments ChannelQueueNewBlock {W G S E}.
Arguments ChannelQueueValidator {W G S E}. Arguments grpcLock {W G S E}. Arguments retryLock {W G S E}.

Definition churn_query : string := "complete_churn.churn = 'oppy_churn'".
Definition block_query : string := "tm.event = 'NewBlock'".

Section Client.
Context {W G S E : Type} `{R : JoltRpc W G S E}.
#[local] Notation JC := (JoltClient W G S E).

Definition on_rpc {A} (f : JC -> M W A) : M JC A := fun c =>
  let '(w, r) := f c (rpc c) in
  (mkJoltClient w (GrpcClient c) (WsClient c) (CurrentNewBlockChan c) (CurrentNewValidator c)
    (ChannelQueueNewBlock c) (ChannelQueueValidator c) (grpcLock c) (retryLock c), r).
Definition set_locks (g r : bool) (c : JC) : JC :=
  mkJoltClient (rpc c) (GrpcClient c) (WsClient c) (CurrentNewBlockChan c) (CurrentNewValidator c)
    (ChannelQueueNewBlock c) (ChannelQueueValidator c) g r.
Definition set_clients (g : G) (s : S) (c : JC) : JC :=
  mkJoltClient (rpc c) g s (CurrentNewBlockChan c) (CurrentNewValidator c)
    (ChannelQueueNewBlock c) (ChannelQueueValidator c) (grpcLock c) (retryLock c).
Definition set_blocks (ch : Channel S E) (q : list E) (c : JC) : JC :=
  mkJoltClient (rpc c) (GrpcClient c) (WsClient c) ch (CurrentNewValidator c)
    q (ChannelQueueValidator c) (grpcLock c) (retryLock c).
Definition set_validators (ch : Channel S E) (q : list E) (c : JC) : JC :=
  mkJoltClient (rpc c) (GrpcClient c) (WsClient c) (CurrentNewBlockChan c) ch
    (ChannelQueueNewBlock c) q (grpcLock c) (retryLock c).

Definition empty_of (ch : Channel S E) : Channel S E := mkChannel (subscribed_on ch) [].
Definition nil_chan : Channel S E := mkChannel None [].

(** [jc.WsClient.Subscribe]. *)
Definition subscribe (who query : string) : M JC (Channel S E) :=
  let! c := get in
  let! l := on_rpc (fun c => ws_Subscribe (WsClient c) who query) in
  ret (mkChannel (Some (WsClient c)) l).

(** The assignments of the results are made whatever the error is. *)
Definition AddSubscribe : M JC unit :=
  let! v := try (subscribe "oppyBridgeChurn" churn_query) in
  match v with
  | inr e => do! modify (fun c => set_validators nil_chan (ChannelQueueValidator c) c) in fail e
  | inl v =>
      do! modify (fun c => set_validators v (ChannelQueueValidator c) c) in
      let! b := try (subscribe "oppyBridgeNewBlock" block_query) in
      match b with
      | inr e => do! modify (fun c => set_blocks nil_chan (ChannelQueueNewBlock c) c) in fail e
      | inl b => modify (fun c => set_blocks b (ChannelQueueNewBlock c) c)
      end
  end.

Definition drain_blocks : M JC unit := modify (fun c =>
  set_blocks (empty_of (CurrentNewBlockChan c)) (ChannelQueueNewBlock c ++ waiting (CurrentNewBlockChan c))%list c).

Definition ProcessNewBlockChainMoreThanOne : M JC unit := modify (fun c =>
  set_validators (empty_of (CurrentNewValidator c)) (ChannelQueueValidator c ++ waiting (CurrentNewValidator c))%list c).

Definition UpdateSubscribe : M JC unit :=
  let! validator := subscribe "oppyBridgeChurn" churn_query in
  let! newOppyBlock := subscribe "oppyBridgeNewBlock" block_query in
  do! drain_blocks in
  do! ProcessNewBlockChainMoreThanOne in
  do! modify (fun c => set_blocks newOppyBlock (ChannelQueueNewBlock c) c) in
  modify (fun c => set_validators validator (ChannelQueueValidator c) c).

(** One attempt; the errors of stopping the old clients are only logged. *)
Definition renew_op : M JC unit :=
  let! grpcClient := on_rpc (fun _ => grpc_Dial) in
  let! client := on_rpc (fun _ => ws_New) in
  do! on_rpc (fun _ => ws_Start client) in
  do! modify (fun c => set_locks (grpcLock c) true c) in
  do! try (on_rpc (fun c => ws_Stop (WsClient c))) in
  do! try (on_rpc (fun c => grpc_Close (GrpcClient c))) in
  do! modify (set_clients grpcClient client) in
  let! r := try UpdateSubscribe in
  do! modify (fun c => set_locks (grpcLock c) false c) in
  match r with inl _ => ret tt | inr e => fail e end.

Definition RetryOppyChain `{K : Backoff} : M JC unit :=
  let! err1 := try (on_rpc (fun c => GetLatestBlock (GrpcClient c))) in
  let! err2 := try (on_rpc (fun c => ws_Status (WsClient c))) in
  match err1, err2 with
  | inl _, inl _ => ret tt
  | _, _ => Retry 3 renew_op
  end.

Definition GetLastBlockHeightWithLock `{K : Backoff} : M JC Z :=
  do! modify (fun c => set_locks true (retryLock c) c) in
  let! b := try (on_rpc (fun c => GetLatestBlock (GrpcClient c))) in
  do! modify (fun c => set_locks false (retryLock c) c) in
  match b with
  | inl b => ret b
  | inr e => do! try RetryOppyChain in fail e
  end.

Definition TerminateBridge (tssServer_Stop : M W unit) : M JC unit :=
  do! on_rpc (fun c => ws_Stop (WsClient c)) in
  on_rpc (fun _ => tssServer_Stop).
End Client.

(** *** InitValidators

    The node's answers it waits for, the "status" page and its decoder. *)
Class JoltStatus (W : Type) := {
  GetSyncing : M W bool;
  GetNetwork : M W string;
  rest_GetRequest : string -> M W bytes;
  Unmarshal_info : bytes -> outcome string;
  QueryTipValidator : M W (Z * list TmValidator);
}.

(** The world, [config.ChainID], the node's own validator key and the set. *)
Record InitState (W : Type) := mkInitState {
  init_node : W;
  ChainID : string;
  init_vals : string * ValidatorSet;
}.
Arguments mkInitState {W}. Arguments init_node {W}. Arguments ChainID {W}. Arguments init_vals {W}.

Section Init.
Context {W : Type} `{JT : JoltStatus W}.
Context (ConsAddressFromBech32 : string -> outcome bytes) (UnpackAny : bytes -> outcome bytes) (Address_String : bytes -> string).
#[local] Notation IS := (InitState W).

Definition on_init {A} (m : M W A) : M IS A := fun s =>
  let '(w, r) := m (init_node s) in (mkInitState w (ChainID s) (init_vals s), r).
Definition on_vals {A} (m : M (string * ValidatorSet) A) : M IS A := fun s =>
  let '(v, r) := m (init_vals s) in (mkInitState (init_node s) (ChainID s) v, r).

(** The loop that waits for the node, for at most [polls] polls; [None] when
    they were not enough. *)
Fixpoint wait_synced (polls : nat) : M W (option unit) :=
  match polls with
  | O => ret None
  | Datatypes.S polls =>
      let! syncing := GetSyncing in
      if negb syncing then ret (Some tt) else wait_synced polls
  end.

Definition InitValidators (polls : nat) (addr : string) : M IS (option unit) :=
  let! synced := on_init (wait_synced polls) in
  match synced with
  | None => ret None
  | Some _ =>
      let! network := on_init GetNetwork in
      do! modify (fun s => mkInitState (init_node s) network (init_vals s)) in
      let! restRes := on_init (rest_GetRequest (addr ++ "/status")) in
      let! info := lift (Unmarshal_info restRes) in
      let! tip := on_init QueryTipValidator in
      let '(blockHeight, values) := tip in
      do! on_vals (doInitValidator Address_String ConsAddressFromBech32 UnpackAny info blockHeight values) in
      ret (Some tt)
  end.
End Init.

(** ** Lemmas *)

Section Lemmas.
Context {W G S E : Type} `{R : JoltRpc W G S E} `{K : Backoff} `{LK : !BackoffLaws K}.
#[local] Notation JC := (JoltClient W G S E).

Definition with_rpc (w : W) (c : JC) : JC :=
  mkJoltClient w (GrpcClient c) (WsClient c) (CurrentNewBlockChan c) (CurrentNewValidator c)
    (ChannelQueueNewBlock c) (ChannelQueueValidator c) (grpcLock c) (retryLock c).

(** The events the loop has still to see, in order. *)
Definition blocks (c : JC) : list E := (ChannelQueueNewBlock c ++ waiting (CurrentNewBlockChan c))%list.
Definition churns (c : JC) : list E := (ChannelQueueValidator c ++ waiting (CurrentNewValidator c))%list.

Definition follows (c c' : JC) : Prop :=
  blocks c `prefix_of` blocks c' /\ churns c `prefix_of` churns c' /\ grpcLock c' = grpcLock c.

(** Both channels are filled by the client in use. *)
Definition subscribed (c : JC) : Prop :=
  subscribed_on (CurrentNewBlockChan c) = Some (WsClient c) /\
  subscribed_on (CurrentNewValidator c) = Some (WsClient c).

#[local] Instance follows_preorder : PreOrder follows.
Proof.
  split; [by intros c|]. intros a b c (H1 & H2 & H3) (H4 & H5 & H6).
  split_and!; [by etrans|by etrans|congruence].
Qed.

Lemma on_rpc_eq {A} (f : JC -> M W A) c : on_rpc f c = (with_rpc (f c (rpc c)).1 c, (f c (rpc c)).2).
Proof. unfold on_rpc, with_rpc. by destruct (f c (rpc c)). Qed.

Lemma keeps_on_rpc c0 {A} (f : JC -> M W A) : keeps (follows c0) (on_rpc f).
Proof. intros c Hc. rewrite on_rpc_eq. exact Hc. Qed.
Lemma keeps_retry_lock c0 b : keeps (follows c0) (modify (fun c => set_locks (grpcLock c) b c)).
Proof. by apply keeps_modify. Qed.
Lemma keeps_set_clients c0 g s : keeps (follows c0) (modify (set_clients g s)).
Proof. by apply keeps_modify. Qed.

Lemma subscribe_eq who query (c : JC) :
  subscribe who query c =
  (with_rpc (ws_Subscribe (WsClient c) who query (rpc c)).1 c,
   match (ws_Subscribe (WsClient c) who query (rpc c)).2 with
   | Ret l => Ret (mkChannel (Some (WsClient c)) l) | Fail e => Fail e | Panic => Panic end).
Proof.
  unfold subscribe, bind, get. rewrite on_rpc_eq. by destruct (ws_Subscribe _ _ _ _) as [w [l|e|]].
Qed.

(** Subscribing anew loses nothing, and the new channels are the client's. *)
Lemma UpdateSubscribe_spec (c c' : JC) r :
  UpdateSubscribe c = (c', r) ->
  follows c c' /\ WsClient c' = WsClient c /\ retryLock c' = retryLock c /\
  (r = Ret tt -> subscribed c') /\
  (r <> Ret tt -> CurrentNewBlockChan c' = CurrentNewBlockChan c /\ CurrentNewValidator c' = CurrentNewValidator c /\
    GrpcClient c' = GrpcClient c).
Proof.
  unfold UpdateSubscribe, bind. rewrite subscribe_eq. cbn [WsClient with_rpc rpc].
  destruct (ws_Subscribe _ _ churn_query _) as [w1 [v|e|]]; cbn -[subscribe]; [|intros; by simplify_eq/=..].
  rewrite subscribe_eq. cbn [WsClient with_rpc rpc].
  destruct (ws_Subscribe _ _ block_query _) as [w2 [b|e|]]; unfold modify; cbn; intros; simplify_eq/=; [|done..].
  split; [|by split_and!]. unfold follows, blocks, churns. cbn. split_and!; [by exists b|by exists v|done].
Qed.

Lemma keeps_UpdateSubscribe c0 : keeps (follows c0) (@UpdateSubscribe W G S E R).
Proof. intros c Hc. destruct (UpdateSubscribe c) as [c' r] eqn:Eq. etrans; [exact Hc|]. by apply UpdateSubscribe_spec in Eq as (? & _). Qed.

#[local] Hint Resolve keeps_on_rpc keeps_retry_lock keeps_set_clients keeps_UpdateSubscribe : keeps.

Lemma keeps_renew_op c0 : keeps (follows c0) (@renew_op W G S E R).
Proof. unfold renew_op. keep. Qed.

Definition same_channels (c c' : JC) : Prop :=
  CurrentNewBlockChan c' = CurrentNewBlockChan c /\ CurrentNewValidator c' = CurrentNewValidator c.

(** An attempt that returns nil has subscribed, one that fails has left the
    channels alone; the lock is given back. *)
Lemma renew_op_spec (c c' : JC) r :
  retryLock c = false -> renew_op c = (c', r) ->
  (r <> Panic -> retryLock c' = false) /\ (r = Ret tt -> subscribed c') /\ (r <> Ret tt -> same_channels c c').
Proof.
  intros Hl. unfold renew_op.
  unfold bind at 1. rewrite on_rpc_eq. destruct (grpc_Dial _) as [w1 [g|e|]]; cbn -[UpdateSubscribe]; [|intros; by simplify_eq/=..].
  unfold bind at 1. rewrite on_rpc_eq. cbn -[UpdateSubscribe]. destruct (ws_New _) as [w2 [s|e|]]; cbn -[UpdateSubscribe]; [|intros; by simplify_eq/=..].
  unfold bind at 1. rewrite on_rpc_eq. cbn -[UpdateSubscribe]. destruct (ws_Start _ _) as [w3 [[]|e|]]; cbn -[UpdateSubscribe]; [|intros; by simplify_eq/=..].
  unfold bind, modify, try. rewrite on_rpc_eq. cbn -[UpdateSubscribe]. destruct (ws_Stop _ _) as [w4 [[]|e|]]; cbn -[UpdateSubscribe].
  3: intros; by simplify_eq/=.
  all: rewrite on_rpc_eq; cbn -[UpdateSubscribe]; destruct (grpc_Close _ _) as [w5 [[]|e'|]]; cbn -[UpdateSubscribe]; [| |intros; by simplify_eq/=].
  all: destruct (UpdateSubscribe _) as [c1 r1] eqn:Eq; apply UpdateSubscribe_spec in Eq as (_ & Hw & _ & Hs & Hc).
  all: destruct r1 as [[]|e1|]; unfold ret, fail; cbn; intros; simplify_eq/=; split_and!; try done; intros _; try by apply Hs.
  all: by destruct Hc as (? & ? & _).
Qed.

Lemma retry_renew n (c c' : JC) r :
  retryLock c = false -> retry_loop n renew_op c = (c', r) ->
  follows c c' /\ (r <> Panic -> retryLock c' = false) /\ (r = Ret tt -> subscribed c') /\
  (r <> Ret tt -> same_channels c c').
Proof.
  revert c. induction n as [|n IH]; intros c Hl; cbn [retry_loop];
    destruct (renew_op c) as [c1 r1] eqn:Eq; destruct (renew_op_spec _ _ _ Hl Eq) as (Hl1 & Hs & Hc);
    pose proof (keeps_renew_op c c (reflexivity c)) as Hf; rewrite Eq in Hf; cbn [fst] in Hf;
    destruct r1 as [[]|e|]; intros H; simplify_eq; try by split_and!.
  apply IH in H as (H & H1 & H2 & H3); [|by apply Hl1]. split_and!; [by etrans|done|done|].
  intros Hr. destruct (H3 Hr) as [Hb Hv]. unfold same_channels. rewrite Hb, Hv. by apply Hc.
Qed.

(** The two answers [RetryOppyChain] takes for a sound connection. *)
Definition answers (c : JC) (w' : W) : Prop :=
  exists h w, GetLatestBlock (GrpcClient c) (rpc c) = (w, Ret h) /\ ws_Status (WsClient c) w = (w', Ret tt).

Lemma RetryOppyChain_sound (c : JC) w' : answers c w' -> RetryOppyChain c = (with_rpc w' c, Ret tt).
Proof.
  intros (h & w & E1 & E2). unfold RetryOppyChain, bind, try. rewrite on_rpc_eq, E1. cbn.
  by rewrite on_rpc_eq; cbn; rewrite E2.
Qed.

(** Either the connection was sound, or the attempts were made from a state
    that differs in the world only. *)
Lemma RetryOppyChain_cases (c c' : JC) r :
  RetryOppyChain c = (c', r) ->
  (exists w', answers c w' /\ c' = with_rpc w' c /\ r = Ret tt) \/
  (exists w', c' = with_rpc w' c /\ r = Panic) \/
  (exists w', retry_loop 3 renew_op (with_rpc w' c) = (c', r)).
Proof.
  unfold RetryOppyChain, bind, try. rewrite on_rpc_eq.
  destruct (GetLatestBlock _ _) as [w1 [h|e|]] eqn:E1; cbn -[retry_loop]; [| |intros; simplify_eq; right; left; by eexists];
    rewrite on_rpc_eq; cbn -[retry_loop]; destruct (ws_Status _ _) as [w2 [[]|e'|]] eqn:E2; cbn -[retry_loop];
    intros H; try (simplify_eq; right; left; by eexists).
  1: unfold ret in H; simplify_eq/=; left; exists w2; split_and!; [by exists h, w1|done|done].
  all: right; right; rewrite Retry_spec in H by lia; by eexists.
Qed.
End Lemmas.

(** ** Properties *)

Section Properties.
Context {W G S E : Type} `{R : JoltRpc W G S E} `{K : Backoff} `{LK : !BackoffLaws K}.
#[local] Notation JC := (JoltClient W G S E).


(** Fact (a lost subscription is not noticed). When a reconnection gives up
    after the client was replaced, because subscribing failed, the channels
    are still those of the old client; and from then on, while the new client
    answers, [RetryOppyChain] finds everything sound and changes nothing: no
    new block reaches the loop again. *)
Theorem lost_subscription_unnoticed (c c' : JC) e w w' :
  subscribed c -> retryLock c = false ->
  RetryOppyChain c = (c', Fail e) -> WsClient c' <> WsClient c -> answers (with_rpc w c') w' ->
  RetryOppyChain (with_rpc w c') = (with_rpc w' c', Ret tt) /\
  subscribed_on (CurrentNewBlockChan (with_rpc w' c')) = Some (WsClient c) /\ ~ subscribed (with_rpc w' c').
Proof.
  intros [Hs _] Hl [(? & _ & _ & ?)|[(? & _ & ?)|(w1 & H)]]%RetryOppyChain_cases Hw Ha; [done..|].
  apply retry_renew in H as (_ & _ & _ & H); [|done]. destruct H as [H _]; [done|].
  rewrite (RetryOppyChain_sound _ _ Ha). split; [done|]. unfold subscribed. cbn in *. rewrite H, Hs.
  split; [done|]. intros [? _]. congruence.
Qed.

(** Fact (the height of the chain). [GetLastBlockHeightWithLock] returns the
    node's answer; only when that is an error does it reconnect, once, and
    the error is returned whatever came of it. *)
Theorem GetLastBlockHeightWithLock_spec (c c' : JC) r :
  grpcLock c = false -> retryLock c = false ->
  GetLastBlockHeightWithLock c = (c', r) -> r <> Panic ->
  let q := GetLatestBlock (GrpcClient c) (rpc c) in
  r = q.2 /\ grpcLock c' = false /\ retryLock c' = false /\ follows c c' /\
  (is_ret q.2 = true -> c' = with_rpc q.1 c).
Proof.
  intros Hg Hl. unfold GetLastBlockHeightWithLock, bind, modify, try. rewrite on_rpc_eq.
  destruct c; cbn [set_locks with_rpc GrpcClient rpc grpcLock retryLock] in *. subst.
  destruct (GetLatestBlock _ _) as [w [h|e|]]; cbn -[RetryOppyChain]; [unfold ret; intros; by simplify_eq| |by intros; simplify_eq].
  destruct (RetryOppyChain _) as [c1 r1] eqn:Eq. intros H Hr.
  assert (r1 <> Panic /\ r = Fail e /\ c' = c1) as (Hp & -> & ->) by (destruct r1; cbn in H; unfold fail in H; by simplify_eq).
  apply RetryOppyChain_cases in Eq as [(w1 & _ & -> & _)|[(? & _ & ?)|(w1 & Eq)]]; [done|done|].
  apply retry_renew in Eq as ((H1 & H2 & H3) & H4 & _); [|done].
  split; [done|]. split; [exact H3|]. split; [by apply H4|]. by split.
Qed.
End Properties.

Section InitProperties.
Context {W : Type} `{JT : JoltStatus W}.
Context (ConsAddressFromBech32 : string -> outcome bytes) (UnpackAny : bytes -> outcome bytes) (Address_String : bytes -> string).

Lemma SetupValidatorSet_from_empty (l : list Validator) h m h0 :
  (SetupValidatorSet Address_String l h (mkValidatorSet m h0)).1 =
  mkValidatorSet (fold_left (fun m el => <[Address_String (Address el) := el]> m) l m) h.
Proof.
  unfold SetupValidatorSet, bind, modify. cbn. clear h0. revert m.
  induction l as [|el l IH]; intros m; [done|]. cbn -[insert]. unfold bind. cbn -[insert]. rewrite IH. by destruct el.
Qed.

(** Fact (what InitValidators leaves). When it returns nil, the node has said
    that it is synced, the chain id is the node's network, the node's own key
    is the one the "status" page of the address shows, and the set holds the
    decoded validators of the chain's tip at its height, under their
    addresses, whatever it held before. *)
Theorem InitValidators_exact polls addr (s s' : InitState W) :
  InitValidators ConsAddressFromBech32 UnpackAny Address_String polls addr s = (s', Ret (Some tt)) ->
  exists w1 w2 w3 w4 page h values vals,
    wait_synced polls (init_node s) = (w1, Ret (Some tt)) /\ GetNetwork w1 = (w2, Ret (ChainID s')) /\
    rest_GetRequest (addr ++ "/status") w2 = (w3, Ret page) /\ Unmarshal_info page = Ret (fst (init_vals s')) /\
    QueryTipValidator w3 = (w4, Ret (h, values)) /\ init_values ConsAddressFromBech32 UnpackAny values = Ret vals /\
    snd (init_vals s') = mkValidatorSet (fold_left (fun m el => <[Address_String (Address el) := el]> m) vals ∅) h.
Proof.
  unfold InitValidators, on_init, on_vals. intros H.
  apply bind_ret_inv in H as (s1 & r & H1 & H). destruct (wait_synced polls _) as [w1 r1] eqn:E1. simplify_eq.
  destruct r as [[]|]; [|by unfold ret in H; simplify_eq].
  apply bind_ret_inv in H as (s2 & net & H1 & H). cbn in H1. destruct (GetNetwork w1) as [w2 r2] eqn:E2. simplify_eq.
  apply bind_ret_inv in H as (s3 & ? & H1 & H). unfold modify in H1. simplify_eq/=.
  apply bind_ret_inv in H as (s4 & page & H1 & H). cbn in H1. destruct (rest_GetRequest _ w2) as [w3 r3] eqn:E3. simplify_eq.
  apply bind_ret_inv in H as (s5 & info & H1 & H). unfold lift in H1. simplify_eq.
  apply bind_ret_inv in H as (s6 & [h values] & H4 & H). cbn in H4. destruct (QueryTipValidator w3) as [w4 r4] eqn:E4. simplify_eq.
  apply bind_ret_inv in H as (s7 & [] & H5 & H). unfold ret in H. simplify_eq.
  unfold doInitValidator, bind, modify, lift in H5. cbn -[SetupValidatorSet] in H5.
  destruct (init_values _ _ values) as [vals|e|] eqn:E5; [|done..].
  pose proof (SetupValidatorSet_from_empty vals h ∅ 0) as Hs.
  change (mkValidatorSet ∅ 0) with NewValidator in Hs.
  destruct (SetupValidatorSet _ vals h NewValidator) as [vs r5]. simplify_eq/=.
  by exists w1, w2, w3, w4, page, h, values, vals.
Qed.
End InitProperties.

(** More polls than were needed change nothing; the loop ends because the
    context of the poll expires after [grpcTimeout], which is an error. *)
Theorem wait_synced_enough `{JT : JoltStatus W} n m (w : W) :
  (n <= m)%nat -> (wait_synced n w).2 <> Ret None -> wait_synced m w = wait_synced n w.
Proof.
  revert m w. induction n as [|n IH]; intros m w Hm Hn; [done|]. destruct m as [|m]; [lia|].
  cbn in *. unfold bind in *. destruct (GetSyncing w) as [w1 [[]|e|]]; cbn in *; try done. apply IH; [lia|done].
Qed.

(** ** A reference connection, for the examples

    The world is the number of clients made so far and the number of
    subscriptions that will still fail; the first client is dead. *)
Definition jolt_rpc_ref : JoltRpc (nat * nat) unit nat Z := {|
  grpc_Dial := ret tt;
  ws_New := fun w => ((Datatypes.S w.1, w.2), Ret w.1);
  ws_Start := fun _ => ret tt;
  ws_Stop := fun _ => ret tt;
  ws_Status := fun s => if (s =? 0)%nat then fail "no answer" else ret tt;
  grpc_Close := fun _ => ret tt;
  GetLatestBlock := fun _ => ret 70;
  ws_Subscribe := fun s _ _ w => match w.2 with O => (w, Ret [71]) | Datatypes.S n => ((w.1, n), Fail "no answer") end;
|}.

Definition jolt_client_ref (failures : nat) : JoltClient (nat * nat) unit nat Z :=
  mkJoltClient (1%nat, failures) tt 0%nat (mkChannel (Some 0%nat) [3; 4]) (mkChannel (Some 0%nat) []) [1; 2] [] false false.

Definition jolt_status_ref : JoltStatus nat := {|
  GetSyncing := fun n => match n with O => (O, Ret false) | Datatypes.S n => (n, Ret true) end;
  GetNetwork := ret "joltify_1";
  rest_GetRequest := fun _ => ret [Byte.x05];
  Unmarshal_info := fun _ => Ret "key";
  QueryTipValidator := ret (9, [mkTmValidator "a" [Byte.x07] 3]);
|}.

Section Witnesses.
#[local] Existing Instance jolt_rpc_ref.
#[local] Existing Instance backoff_ref.
#[local] Existing Instance jolt_status_ref.


Lemma lost_subscription_unnoticed_witness :
  let c' := (RetryOppyChain (jolt_client_ref 8)).1 in
  RetryOppyChain (with_rpc (9, 0)%nat c') = (with_rpc (9, 0)%nat c', Ret tt) /\ ~ subscribed (with_rpc (9, 0)%nat c').
Proof.
  assert (answers (with_rpc (9, 0)%nat (RetryOppyChain (jolt_client_ref 8)).1) (9, 0)%nat) as Ha
    by (exists 70, (9, 0)%nat; vm_compute; by split).
  assert (WsClient (RetryOppyChain (jolt_client_ref 8)).1 <> 0%nat) as Hw by (vm_compute; discriminate).
  assert ((RetryOppyChain (jolt_client_ref 8)).2 = Fail "no answer") as Hr by (vm_compute; reflexivity).
  destruct (RetryOppyChain (jolt_client_ref 8)) as [c' r] eqn:Eq. cbn [fst snd] in *. subst r.
  destruct (lost_subscription_unnoticed (jolt_client_ref 8) c' "no answer" (9, 0)%nat (9, 0)%nat
    (conj eq_refl eq_refl) eq_refl Eq Hw Ha) as (H1 & _ & H2). by split.
Defined.

Lemma GetLastBlockHeightWithLock_spec_witness :
  (GetLastBlockHeightWithLock (jolt_client_ref 0)).2 = Ret 70.
Proof.
  destruct (GetLastBlockHeightWithLock (jolt_client_ref 0)) as [c' r] eqn:Eq.
  apply (GetLastBlockHeightWithLock_spec (jolt_client_ref 0) c' r eq_refl eq_refl Eq).
  vm_compute in Eq. injection Eq as _ <-. discriminate.
Defined.

Lemma InitValidators_exact_witness :
  exists s' vals, (InitValidators (fun _ => Ret [Byte.x01]) Ret hex_EncodeToString 5 "http://n" (mkInitState 2%nat "" ("", NewValidator))).1 = s' /\
    ChainID s' = "joltify_1" /\ snd (init_vals s') =
      mkValidatorSet (fold_left (fun m el => <[hex_EncodeToString (Address el) := el]> m) vals ∅) 9.
Proof.
  assert ((InitValidators (fun _ => Ret [Byte.x01]) Ret hex_EncodeToString 5 "http://n" (mkInitState 2%nat "" ("", NewValidator))).2
    = Ret (Some tt)) as Hr by (vm_compute; reflexivity).
  destruct (InitValidators _ _ _ 5 _ _) as [s' r] eqn:Eq. cbn [fst snd] in *. subst r.
  destruct (InitValidators_exact _ _ _ _ _ _ _ Eq) as (w1 & w2 & w3 & w4 & page & h & values & vals & _ & H2 & _ & _ & H5 & _ & H7).
  exists s', vals. cbn in H2, H5. unfold ret in H2, H5. injection H2 as _ H2. injection H5 as _ <- _. by split_and!.
Defined.

Lemma wait_synced_enough_witness : wait_synced 9 2%nat = (O, Ret (Some tt)).
Proof. transitivity (wait_synced 3 2%nat); [apply (wait_synced_enough 3 9 2%nat); [lia|discriminate]|reflexivity]. Defined.
End Witnesses.
