(* ===== verification/EventLoop.v ===== *)
(** * The event loop: bridge/bridge_service.go and bridge/pubchain_routine.go

    [Bridge] is the state behind [addEventLoop]; one handler per case of its
    select statement, each composed of the components' operations in the
    order of the source.  Queues, channels and flags are shared between them
    exactly as in the source; goroutines that process a batch are the
    [EvFinish...] events, which may come at any time after the batch was
    taken. *)

From Stdlib Require Import Ascii String.
From S2P Require Import Prelude GoLib Sdk Requests Fees ItemQueue TokenList Signature MoveFundQueue Pools Validators PubClient Keysign TxSend MoveFund Inbound Outbound CosTx Keygen Processing Flow JoltClient.

#[local] Open Scope string_scope.
#[local] Open Scope Z_scope.
#[local] Open Scope go_scope.

(** ** Definitions *)

(** What the new-block handler asks of the joltify node: the latest pools, the
    latest first, and the raw transactions of a block. *)
Class JoltBlocks (J : Type) := {
  QueryLastPoolAddress : M J (list VaultPool);
  GetBlockByHeight : Z -> M J (list bytes);
}.

(** The connection to the joltify chain, which JoltClient.v models, as a part
    of the joltify side's state. *)
Class JoltConnection (J : Type) := {
  conn_W : Type;
  conn_G : Type;
  conn_S : Type;
  conn_E : Type;
  conn_rpc :: JoltRpc conn_W conn_G conn_S conn_E;
  on_connection : forall {A}, M (JoltClient conn_W conn_G conn_S conn_E) A -> M J A;
}.

Record Bridge (W C J Msg : Type) := mkBridge {
  br_eth : ChainInfo W C;
  br_bsc : ChainInfo W C;
  br_jolt : J;
  br_pools : PoolState;
  br_in : InFlow;
  br_out : OutFlow;
  br_vals : ValidatorSet;
  br_cache : list (TssPoolMsg Msg);
  br_keygen : bool;                   (* inKeygenInProgress *)
  br_jobs : list (list string * Z);   (* key generations that are running *)
  br_tokens : TokenList;
  CurrentHeight : Z;
}.
Arguments mkBridge {W C J Msg}. Arguments br_eth {W C J Msg}. Arguments br_bsc {W C J Msg}. Arguments br_jolt {W C J Msg}.
Arguments br_pools {W C J Msg}. Arguments br_in {W C J Msg}. Arguments br_out {W C J Msg}. Arguments br_vals {W C J Msg}.
Arguments br_cache {W C J Msg}. Arguments br_keygen {W C J Msg}. Arguments br_jobs {W C J Msg}. Arguments br_tokens {W C J Msg}. Arguments CurrentHeight {W C J Msg}.

(** What the loop waits for. *)
Inductive event :=
| EvChurn (is_block : bool)                 (* ChannelQueueValidator *)
| EvKeygenEnd (i : nat)                     (* the goroutine it started *)
| EvJoltBlock (height : Z)                  (* ChannelQueueNewBlock *)
| EvPubHead (head : BlockHead) (resp : option (gmap string bytes))   (* ChannelQueue *)
| EvTakeInbound                             (* InboundReqChan *)
| EvFinishInbound (i : nat)
| EvTakeOutbound                            (* OutboundReqChan *)
| EvFinishOutbound (i : nat) (resp : option (gmap string bytes))
| EvHealthCheck                             (* the goroutine of each new block *)
| EvTimeout.                                (* time.After *)

Section EventLoop.
Context {W C J Msg : Type} `{EC : EthClient W C} `{TW : TssServer W} `{CN : CosmosNode J Msg} `{TJ : TssServer J} `{JS : JoltService J}.
Context `{JB : JoltBlocks J} `{JCn : JoltConnection J} `{KG : KeygenServer J Msg}.
Context `{G : EthSigner} `{S : SdkMath} `{N : SdkCoins} `{B : Bech32} `{E : Eth} `{K : Backoff} `{R : GoRuntime}.
Context `{AB : TokenAbi} `{JH : !JoltHandler} `{MC : MemoCodec} `{JN : !JoltNode}.
Context (attempts submits : nat) (HexToHash : string -> bytes).
Context (GetConsAddress : bytes -> bytes) (Address_String : bytes -> string) (myValidatorKey : string).
Context (ReadFile : outcome bytes) (Unmarshal : bytes -> outcome (list TokenItem)).
Context (feeModule : gmap string FeeModule) (oppyRollbackGap pubRollbackGap : Z).
#[local] Notation BR := (Bridge W C J Msg).

(** *** Running a component's operation on its part of the state *)

Definition on_jolt {A} (m : M J A) : M BR A := fun b =>
  let '(j, r) := m (br_jolt b) in
  (mkBridge (br_eth b) (br_bsc b) j (br_pools b) (br_in b) (br_out b) (br_vals b) (br_cache b) (br_keygen b) (br_jobs b) (br_tokens b) (CurrentHeight b), r).
Definition on_pools {A} (m : M PoolState A) : M BR A := fun b =>
  let '(p, r) := m (br_pools b) in
  (mkBridge (br_eth b) (br_bsc b) (br_jolt b) p (br_in b) (br_out b) (br_vals b) (br_cache b) (br_keygen b) (br_jobs b) (br_tokens b) (CurrentHeight b), r).
Definition on_tokens {A} (m : M TokenList A) : M BR A := fun b =>
  let '(t, r) := m (br_tokens b) in
  (mkBridge (br_eth b) (br_bsc b) (br_jolt b) (br_pools b) (br_in b) (br_out b) (br_vals b) (br_cache b) (br_keygen b) (br_jobs b) t (CurrentHeight b), r).
Definition on_keygen {A} (m : M (KeygenState J Msg) A) : M BR A := fun b =>
  let '(k, r) := m (mkKeygenState (br_jolt b) (br_vals b) (br_cache b) (br_keygen b)) in
  (mkBridge (br_eth b) (br_bsc b) (kg_node k) (br_pools b) (br_in b) (br_out b) (validatorSet k) (keyGenCache k) (inKeygenProcess k) (br_jobs b) (br_tokens b) (CurrentHeight b), r).
Definition on_in {A} (m : M (J * InFlow) A) : M BR A := fun b =>
  let '((j, f), r) := m (br_jolt b, br_in b) in
  (mkBridge (br_eth b) (br_bsc b) j (br_pools b) f (br_out b) (br_vals b) (br_cache b) (br_keygen b) (br_jobs b) (br_tokens b) (CurrentHeight b), r).
Definition set_CurrentHeight (h : Z) : M BR unit := modify (fun b =>
  mkBridge (br_eth b) (br_bsc b) (br_jolt b) (br_pools b) (br_in b) (br_out b) (br_vals b) (br_cache b) (br_keygen b) (br_jobs b) (br_tokens b) h).

(** [pi.GetChainClient]: the client is shared, so what a handler does to it
    is written back. *)
Definition chain_of (chainType : string) (b : BR) : option (ChainInfo W C) := GetChainClient (br_eth b) (br_bsc b) chainType.
Definition set_chain (chainType : string) (c : ChainInfo W C) (b : BR) : BR :=
  mkBridge (if bool_decide (chainType = "ETH") then c else br_eth b)
    (if bool_decide (chainType = "ETH") then br_bsc b else c)
    (br_jolt b) (br_pools b) (br_in b) (br_out b) (br_vals b) (br_cache b) (br_keygen b) (br_jobs b) (br_tokens b) (CurrentHeight b).
Definition set_flows (fi : InFlow) (fo : OutFlow) (b : BR) : BR :=
  mkBridge (br_eth b) (br_bsc b) (br_jolt b) (br_pools b) fi fo (br_vals b) (br_cache b) (br_keygen b) (br_jobs b) (br_tokens b) (CurrentHeight b).

Definition on_client {A} (ct : string) (m : M (ChainInfo W C) A) : M BR A := fun b =>
  match chain_of ct b with
  | None => (b, Panic)
  | Some c => let '(c, r) := m c in (set_chain ct c b, r)
  end.
Definition on_out {A} (ct : string) (m : M (ChainInfo W C * J * OutFlow) A) : M BR A := fun b =>
  match chain_of ct b with
  | None => (b, Panic)
  | Some c =>
      let '((c, j, f), r) := m (c, br_jolt b, br_out b) in
      (set_chain ct c (mkBridge (br_eth b) (br_bsc b) j (br_pools b) (br_in b) f (br_vals b) (br_cache b) (br_keygen b) (br_jobs b) (br_tokens b) (CurrentHeight b)), r)
  end.
Definition on_inbound_block {A} (ct : string) (m : M (InState W C) A) : M BR A := fun b =>
  match chain_of ct b with
  | None => (b, Panic)
  | Some c =>
      let '(s, r) := m (mkInState c (in_q (br_in b)) (out_q (br_out b))) in
      (set_flows (in_set_q (inq s) (br_in b)) (out_set_q (outq s) (br_out b)) (set_chain ct (ichain s) b), r)
  end.
Definition on_fund {A} (ct : string) (m : M (FundState W C) A) : M BR A := fun b =>
  match chain_of ct b with
  | None => (b, Panic)
  | Some c =>
      let '(s, r) := m (mkFundState c (moveFundReq (br_pools b))) in
      (mkBridge (br_eth (set_chain ct (fchain s) b)) (br_bsc (set_chain ct (fchain s) b)) (br_jolt b)
        (mkPoolState (pi_pools (br_pools b)) (jc_pools (br_pools b)) (fqueue s))
        (br_in b) (br_out b) (br_vals b) (br_cache b) (br_keygen b) (br_jobs b) (br_tokens b) (CurrentHeight b), r)
  end.
Definition on_payouts {A} (m : M (ItemQueue OutBoundReq) A) : M BR A := fun b =>
  let '(q, r) := m (out_q (br_out b)) in (set_flows (br_in b) (out_set_q q (br_out b)) b, r).

Definition signer_check (pool : option PoolInfo) : outcome bool :=
  match pool with
  | None => Panic
  | Some p => CheckWhetherSigner operator_address (Some (pi_PoolInfo p))
  end.

(** *** The handlers *)

(** The goroutine of [HandleUpdateValidators] is running from here to its
    [EvKeygenEnd]; its error is read before it can have ended. *)
Definition set_jobs (kg : bool) (l : list (list string * Z)) : M BR unit := modify (fun b =>
  mkBridge (br_eth b) (br_bsc b) (br_jolt b) (br_pools b) (br_in b) (br_out b) (br_vals b) (br_cache b) kg l (br_tokens b) (CurrentHeight b)).

Definition churn (is_block : bool) : M BR unit :=
  let! height := try (on_jolt (LatestHeight (Msg := Msg))) in
  match height with
  | inr _ => ret tt
  | inl height =>
      if negb is_block then ret tt
      else
        let! job := try (on_keygen (update_validators GetConsAddress Address_String myValidatorKey height)) in
        match job with
        | inl (Some job) => let! b := get in set_jobs true (br_jobs b ++ [job])
        | _ => ret tt
        end
  end.

Definition finish_keygen (i : nat) : M BR unit :=
  let! b := get in
  match br_jobs b !! i with
  | None => ret tt
  | Some (pubKeys, blockHeight) =>
      do! on_keygen (keygen_job pubKeys blockHeight) in
      let! b := get in set_jobs (br_keygen b) (delete i (br_jobs b))
  end.

(** The new-block handler up to the inbound section; the result is the
    processable height, or [None] after a [continue]. *)
Definition jolt_block_prefix (currentProcessBlockHeight latestHeight : Z) (pools : Slots) : M BR (option Z) :=
  do! on_keygen (CheckAndUpdatePool latestHeight) in
  let! poolInfo := try (on_jolt QueryLastPoolAddress) in
  match poolInfo with
  | inl [qc0; qc1] =>
      let! go_on := on_pools (refresh_pools qc0 qc1 latestHeight) in
      if negb go_on then ret None
      else
        let! processable := (
          if oppyRollbackGap <? currentProcessBlockHeight then
            let processable := i64 (currentProcessBlockHeight - oppyRollbackGap) in
            let! block := try (on_jolt (GetBlockByHeight processable)) in
            match block with
            | inr _ => ret None
            | inl txs =>
                let! amISigner := try (lift (signer_check (slot1 pools))) in
                match amISigner with
                | inl true =>
                    do! forM txs (fun el =>
                      let! b := get in
                      on_payouts (CheckOutBoundTx (br_tokens b) feeModule (jc_pools (br_pools b)) processable el)) in
                    ret (Some processable)
                | _ => ret None
                end
            end
          else ret (Some 0)) in
        match processable with
        | None => ret None
        | Some processable =>
            do! set_CurrentHeight currentProcessBlockHeight in
            do! try (on_tokens (UpdateTokenList ReadFile Unmarshal currentProcessBlockHeight)) in
            ret (Some processable)
        end
  | _ => ret None
  end.

Definition jolt_block (currentProcessBlockHeight : Z) : M BR unit :=
  let! d := try (on_jolt DialGrpc) in
  match d with
  | inr _ => ret tt
  | inl _ =>
      let! latestHeight := try (on_jolt (LatestHeight (Msg := Msg))) in
      match latestHeight with
      | inr _ => ret tt
      | inl latestHeight =>
          let! b := get in
          let pools := jc_pools (br_pools b) in
          let! processable := jolt_block_prefix currentProcessBlockHeight latestHeight pools in
          match processable with
          | None => ret tt
          | Some processable =>
              let! b := get in
              on_in (inbound_section (Msg := Msg) (slot1 pools) (br_keygen b) latestHeight currentProcessBlockHeight processable)
          end
      end
  end.

(** The fund movement of [pubchainProcess]: whether the rest is skipped. *)
Definition move_funds (ct : string) (joltBlockHeight : Z) (resp : option (gmap string bytes)) : M BR bool :=
  let! item := on_fund ct (on_queue (PopMoveFundItemAfterBlock joltBlockHeight ct)) in
  match item with
  | (None, _) => ret false
  | (Some item, height) =>
      let! b := get in
      let! ethClient := try (on_client ct (let! c := get in call (fun _ => Dial (WsAddr c)))) in
      match ethClient with
      | inr _ => do! on_fund ct (on_queue (AddMoveFundItem (mf_PoolInfo item) height ct)) in ret false
      | inl ethClient =>
          match mf_PoolInfo item with
          | None => panic
          | Some previousPool =>
              on_fund ct (MoveFound attempts HexToHash (br_tokens b) (GetPool (pi_pools (br_pools b))) resp height previousPool ethClient)
          end
      end
  end.

(** The metrics' health check is left out. *)
Definition pubchainProcess (blockHead : BlockHead) (resp : option (gmap string bytes)) : M BR unit :=
  let ct := head_ChainType blockHead in
  let! b := get in
  match chain_of ct b with
  | None => ret tt
  | Some _ =>
      let! latest := try (on_client ct (GetBlockByNumberWithLock None)) in
      match latest with
      | inr _ => ret tt
      | inl latest =>
          let! joltBlockHeight := try (on_jolt (LatestHeight (Msg := Msg))) in
          match joltBlockHeight with
          | inr _ => ret tt
          | inl joltBlockHeight =>
              let processable := Head blockHead - pubRollbackGap in
              let! b := get in
              match slot1 (jc_pools (br_pools b)) with
              | None => ret tt
              | Some pool =>
                  let! amISigner := try (lift (signer_check (Some pool))) in
                  match amISigner with
                  | inl true =>
                      do! try (on_inbound_block ct (ProcessNewBlock (br_tokens b) (pi_pools (br_pools b)) feeModule ct processable)) in
                      let! isMoveFund := move_funds ct joltBlockHeight resp in
                      if isMoveFund then ret tt
                      else
                        let! b := get in
                        on_out ct (outbound_section HexToHash pool (br_keygen b) ct (NumberU64 latest) processable)
                  | _ => ret tt
                  end
              end
          end
      end
  end.

Definition finish_payouts (i : nat) (resp : option (gmap string bytes)) : M BR unit :=
  let! b := get in
  match out_running (br_out b) !! i with
  | None => ret tt
  | Some [] => panic
  | Some (item0 :: _) =>
      on_out (Requests.ChainType item0)
        (finish_outbound (Msg := Msg) attempts submits HexToHash (GetPool (pi_pools (br_pools b))) (br_vals b) resp i)
  end.

Definition handle (e : event) : M BR unit :=
  match e with
  | EvChurn is_block => churn is_block
  | EvKeygenEnd i => finish_keygen i
  | EvJoltBlock h => jolt_block h
  | EvPubHead head resp => pubchainProcess head resp
  | EvTakeInbound => on_in take_inbound
  | EvFinishInbound i => on_in (finish_inbound (Msg := Msg) i)
  | EvTakeOutbound => on_out "BSC" take_outbound
  | EvFinishOutbound i resp => finish_payouts i resp
  | EvHealthCheck => do! on_client "BSC" HealthCheckAndReset in on_client "ETH" HealthCheckAndReset
  | EvTimeout =>
      do! try (on_client "ETH" RetryPubChain) in
      do! try (on_client "BSC" RetryPubChain) in
      do! try (on_jolt (on_connection RetryOppyChain)) in
      ret tt
  end.

(** The states the loop passes through from [b0]. *)
Inductive reached (b0 : BR) : BR -> Prop :=
| reached_start : reached b0 b0
| reached_event b e b' r : reached b0 b -> handle e b = (b', r) -> reached b0 b'.
End EventLoop.

(** ** Lemmas *)

Section Lemmas.
Context {W C J Msg : Type} `{EC : EthClient W C} `{TW : TssServer W} `{CN : CosmosNode J Msg} `{TJ : TssServer J} `{JS : JoltService J}.
Context `{JB : JoltBlocks J} `{JCn : JoltConnection J} `{KG : KeygenServer J Msg}.
Context `{G : EthSigner} `{S : SdkMath} `{N : SdkCoins} `{B : Bech32} `{E : Eth} `{K : Backoff} `{R : GoRuntime}.
Context `{AB : TokenAbi} `{JH : !JoltHandler} `{MC : MemoCodec} `{JN : !JoltNode}.
Context (attempts submits : nat) (HexToHash : string -> bytes).
Context (GetConsAddress : bytes -> bytes) (Address_String : bytes -> string) (myValidatorKey : string).
Context (ReadFile : outcome bytes) (Unmarshal : bytes -> outcome (list TokenItem)).
Context (feeModule : gmap string FeeModule) (oppyRollbackGap pubRollbackGap : Z).
#[local] Notation BR := (Bridge W C J Msg).

(** A property of the two flows that only looks at their flags and that the
    sections, takings and endings keep is kept by every handler. *)
Context (PI : InFlow -> Prop) (PO : OutFlow -> Prop).
Context (PI_flags : forall f f', in_flags f = in_flags f' -> PI f -> PI f').
Context (PO_flags : forall f f', out_flags f = out_flags f' -> PO f -> PO f').
Context (PI_section : forall pool1 kg lh cur pb (s : J * InFlow), PI (snd s) -> PI (snd (fst (inbound_section (Msg := Msg) pool1 kg lh cur pb s)))).
Context (PI_take : forall (s : J * InFlow), PI (snd s) -> PI (snd (fst (take_inbound s)))).
Context (PI_finish : forall i (s : J * InFlow), PI (snd s) -> PI (snd (fst (finish_inbound (Msg := Msg) i s)))).
Context (PO_section : forall pool1 kg ht lh pb (s : ChainInfo W C * J * OutFlow), PO (snd s) -> PO (snd (fst (outbound_section HexToHash pool1 kg ht lh pb s)))).
Context (PO_take : forall (s : ChainInfo W C * J * OutFlow), PO (snd s) -> PO (snd (fst (take_outbound s)))).
Context (PO_finish : forall pools v resp i (s : ChainInfo W C * J * OutFlow), PO (snd s) ->
  PO (snd (fst (finish_outbound (Msg := Msg) attempts submits HexToHash pools v resp i s)))).

Definition flows (b : BR) : Prop := PI (br_in b) /\ PO (br_out b).

Lemma keeps_on_jolt {A} (m : M J A) : keeps flows (on_jolt m).
Proof. intros b H. unfold on_jolt. by destruct (m _). Qed.
Lemma keeps_on_pools {A} (m : M PoolState A) : keeps flows (on_pools m).
Proof. intros b H. unfold on_pools. by destruct (m _). Qed.
Lemma keeps_on_tokens {A} (m : M TokenList A) : keeps flows (on_tokens m).
Proof. intros b H. unfold on_tokens. by destruct (m _). Qed.
Lemma keeps_on_keygen {A} (m : M (KeygenState J Msg) A) : keeps flows (on_keygen m).
Proof. intros b H. unfold on_keygen. by destruct (m _). Qed.
Lemma keeps_set_CurrentHeight h : keeps flows (set_CurrentHeight h).
Proof. by intros b H. Qed.
Lemma keeps_set_jobs kg l : keeps flows (set_jobs kg l).
Proof. by intros b H. Qed.
Lemma keeps_on_client {A} ct (m : M (ChainInfo W C) A) : keeps flows (on_client ct m).
Proof. intros b H. unfold on_client. destruct (chain_of ct b); [|done]. by destruct (m _). Qed.
Lemma keeps_on_fund {A} ct (m : M (FundState W C) A) : keeps flows (on_fund ct m).
Proof. intros b H. unfold on_fund. destruct (chain_of ct b); [|done]. by destruct (m _). Qed.
Lemma keeps_on_payouts {A} (m : M (ItemQueue OutBoundReq) A) : keeps flows (on_payouts m).
Proof. intros b [HI HO]. unfold on_payouts. destruct (m _). split; [done|]. by apply (PO_flags (br_out b)). Qed.
Lemma keeps_on_inbound_block {A} ct (m : M (InState W C) A) : keeps flows (on_inbound_block ct m).
Proof.
  intros b [HI HO]. unfold on_inbound_block. destruct (chain_of ct b); [|done]. destruct (m _).
  split; [by apply (PI_flags (br_in b))|by apply (PO_flags (br_out b))].
Qed.
Lemma keeps_on_in {A} (m : M (J * InFlow) A) : (forall s, PI (snd s) -> PI (snd (fst (m s)))) -> keeps flows (on_in m).
Proof.
  intros Hm b [HI HO]. unfold on_in. specialize (Hm (br_jolt b, br_in b) HI). by destruct (m _) as [[j f] r].
Qed.
Lemma keeps_on_bridge_out {A} ct (m : M (ChainInfo W C * J * OutFlow) A) :
  (forall s, PO (snd s) -> PO (snd (fst (m s)))) -> keeps flows (on_out ct m).
Proof.
  intros Hm b [HI HO]. unfold on_out. destruct (chain_of ct b) as [c|]; [|done].
  specialize (Hm (c, br_jolt b, br_out b) HO). by destruct (m _) as [[[c' j] f] r].
Qed.
#[local] Hint Resolve keeps_on_jolt keeps_on_pools keeps_on_tokens keeps_on_keygen keeps_set_CurrentHeight keeps_set_jobs
  keeps_on_client keeps_on_fund keeps_on_payouts keeps_on_inbound_block keeps_on_in keeps_on_bridge_out : keeps.

Lemma churn_keeps is_block : keeps flows (churn (C := C) (W := W) (Msg := Msg) GetConsAddress Address_String myValidatorKey is_block).
Proof. unfold churn. keep. Qed.

Lemma finish_keygen_keeps i : keeps flows (finish_keygen (C := C) (W := W) (Msg := Msg) i).
Proof. unfold finish_keygen. keep. Qed.

Lemma jolt_block_prefix_keeps h lh pools :
  keeps flows (jolt_block_prefix (W := W) (C := C) (Msg := Msg) ReadFile Unmarshal feeModule oppyRollbackGap h lh pools).
Proof. unfold jolt_block_prefix. keep. Qed.
#[local] Hint Resolve jolt_block_prefix_keeps : keeps.

Lemma jolt_block_keeps h : keeps flows (jolt_block (W := W) (C := C) (Msg := Msg) ReadFile Unmarshal feeModule oppyRollbackGap h).
Proof. unfold jolt_block. keep. Qed.

Lemma move_funds_keeps ct h resp : keeps flows (move_funds (J := J) (Msg := Msg) attempts HexToHash ct h resp).
Proof. unfold move_funds. keep. Qed.
#[local] Hint Resolve move_funds_keeps : keeps.

Lemma pubchainProcess_keeps head resp : keeps flows (pubchainProcess (J := J) (Msg := Msg) attempts HexToHash feeModule pubRollbackGap head resp).
Proof. unfold pubchainProcess. keep. Qed.

Lemma finish_payouts_keeps i resp : keeps flows (finish_payouts (J := J) (Msg := Msg) attempts submits HexToHash i resp).
Proof. unfold finish_payouts. keep. Qed.

Lemma handle_keeps e : keeps flows (handle (J := J) (Msg := Msg) attempts submits HexToHash GetConsAddress Address_String myValidatorKey
  ReadFile Unmarshal feeModule oppyRollbackGap pubRollbackGap e).
Proof.
  destruct e; cbn [handle];
    [apply churn_keeps|apply finish_keygen_keeps|apply jolt_block_keeps|apply pubchainProcess_keeps
    |auto with keeps|auto with keeps|auto with keeps|apply finish_payouts_keeps|keep|keep].
Qed.
End Lemmas.

(** ** Properties *)

Section Properties.
Context {W C J Msg : Type} `{EC : EthClient W C} `{TW : TssServer W} `{CN : CosmosNode J Msg} `{TJ : TssServer J} `{JS : JoltService J}.
Context `{JB : JoltBlocks J} `{JCn : JoltConnection J} `{KG : KeygenServer J Msg}.
Context `{G : EthSigner} `{S : SdkMath} `{N : SdkCoins} `{B : Bech32} `{E : Eth} `{K : Backoff} `{R : GoRuntime}.
Context `{AB : TokenAbi} `{JH : !JoltHandler} `{MC : MemoCodec} `{JN : !JoltNode}.
Context (attempts submits : nat) (HexToHash : string -> bytes).
Context (GetConsAddress : bytes -> bytes) (Address_String : bytes -> string) (myValidatorKey : string).
Context (ReadFile : outcome bytes) (Unmarshal : bytes -> outcome (list TokenItem)).
Context (feeModule : gmap string FeeModule) (oppyRollbackGap pubRollbackGap : Z).
#[local] Notation BR := (Bridge W C J Msg).
#[local] Notation reached := (reached (W := W) (C := C) (J := J) (Msg := Msg) attempts submits HexToHash GetConsAddress Address_String
  myValidatorKey ReadFile Unmarshal feeModule oppyRollbackGap pubRollbackGap).

(** Fact (at most one batch in flight). Whatever events come in whatever order,
    from a start with empty channels there is never more than one inbound and
    one outbound batch between the feeding and the end of its goroutine, and a
    flag that says "done" means that there is none. *)
Theorem one_batch_in_flight (b0 b : BR) :
  in_one (br_in b0) -> out_one (br_out b0) -> reached b0 b -> in_one (br_in b) /\ out_one (br_out b).
Proof.
  intros HI HO. induction 1 as [|b e b' r _ IH He]; [done|].
  pose proof (handle_keeps attempts submits HexToHash GetConsAddress Address_String myValidatorKey ReadFile Unmarshal
    feeModule oppyRollbackGap pubRollbackGap in_one out_one in_one_flags out_one_flags inbound_section_one take_inbound_one
    finish_inbound_one (outbound_section_one HexToHash) take_outbound_one (finish_outbound_one attempts submits HexToHash) e b IH) as Hk.
  by rewrite He in Hk.
Qed.

(** C39 (a stopped mint flow stays stopped). Once nothing is in flight while
    the flag says "not done", which one failed account query brings about, no
    event ever puts a batch on the inbound channel again: the deposits stay in
    the queue until the program is restarted. *)
Theorem wedged_forever (b0 b : BR) :
  in_wedged (br_in b0) -> reached b0 b ->
  in_wedged (br_in b) /\ InboundReqChan (br_in b) = [] /\ in_running (br_in b) = [].
Proof.
  intros HI H. assert (in_wedged (br_in b)) as Hw; [|by destruct Hw as (? & ? & ?)].
  induction H as [|b e b' r _ IH He]; [done|].
  assert (flows in_wedged (fun _ => True) b) as Hf by done.
  pose proof (handle_keeps attempts submits HexToHash GetConsAddress Address_String myValidatorKey ReadFile Unmarshal
    feeModule oppyRollbackGap pubRollbackGap in_wedged (fun _ => True) in_wedged_flags (fun _ _ _ _ => I) inbound_section_wedged
    take_inbound_wedged finish_inbound_wedged (fun _ _ _ _ _ _ _ => I) (fun _ _ => I) (fun _ _ _ _ _ _ => I) e b Hf) as Hk.
  rewrite He in Hk. by destruct Hk.
Qed.
End Properties.

(** ** Witnesses *)

#[local] Definition blocks_ref : JoltBlocks cos_world := {|
  QueryLastPoolAddress := ret [vault "k01"; vault "k02"];
  GetBlockByHeight := fun _ => ret [];
|}.

(** The connection is the reference one, made anew each time. *)
#[local] Definition connection_ref : JoltConnection cos_world := {|
  conn_rpc := jolt_rpc_ref;
  on_connection := fun _ m j => (j, snd (m (jolt_client_ref 0)));
|}.

#[local] Definition keygen_ref : KeygenServer cos_world string := {|
  KeyGen := fun _ _ => ret (true, "k07");
  MarshalPubKey := fun b => Ret (hex_EncodeToString b);
  NewMsgCreateCreatePool := fun _ pk h => (pk ++ h)%string;
  getValidators := fun _ => ret [mkVaultValidator [Byte.x07] 3];
|}.

Section Witnesses.
#[local] Existing Instance eth_client_ref.
#[local] Existing Instance tss_ref.
#[local] Existing Instance cosmos_ref.
#[local] Existing Instance tss_cos_ref.
#[local] Existing Instance blocks_ref.
#[local] Existing Instance connection_ref.
#[local] Existing Instance keygen_ref.
#[local] Existing Instance eth_signer_ref.
#[local] Existing Instance sdk_math_ref.
#[local] Existing Instance sdk_coins_ref.
#[local] Existing Instance bech32_ref.
#[local] Existing Instance eth_ref.
#[local] Existing Instance backoff_ref.
#[local] Existing Instance go_runtime_ref.
#[local] Existing Instance abi_ref.
#[local] Existing Instance handler_ref.

#[local] Definition signer_pool (k : string) : PoolInfo :=
  mkPoolInfo k (CosAddress (pool_of k)) (EthAddress (pool_of k)) (mkVaultPool "1" k [Byte.x09] [[Byte.x0b]]).
#[local] Definition caches : Slots := mkSlots (Some (signer_pool "k02")) (Some (signer_pool "k01")).
#[local] Definition deposit : InBoundReq := NewAccountInboundReq [Byte.x01] [] (mkCoin "abnb" 3) [Byte.x02] 10.

#[local] Definition bridge0 (sequences : list Z) (done : bool) : Bridge ref_world unit cos_world string :=
  mkBridge (chain_ref [3]) (chain_ref [3]) (sequences, []) (mkPoolState caches caches ∅)
    (mkInFlow (mkQueue {[ InBoundReq_Index deposit := deposit ]} []) [] [] 0 0 false done false 100)
    (mkOutFlow empty_queue [] [] 0 (mkPerChain 0 0) false true true (mkPerChain 0 0))
    NewValidator [] false [] (mkTokenList ∅ ∅ 20) 0.

#[local] Notation step_ref e st := (handle (C := unit) (JS := jolt_ref true) (MC := memo_ref "JOLTIFY") (JN := node_ref "BSC")
  4 3 (fun _ => []) (fun b => b) hex_EncodeToString "" (Fail "no file") (fun _ => Fail "no file") ∅ 3 3 e st).

Lemma one_batch_in_flight_witness : exists b1 r1 b2 r2,
  step_ref (EvJoltBlock 203) (bridge0 [30] true) = (b1, r1) /\ length (InboundReqChan (br_in b1)) = 1%nat /\
  step_ref EvTakeInbound b1 = (b2, r2) /\ in_one (br_in b2).
Proof.
  destruct (step_ref (EvJoltBlock 203) (bridge0 [30] true)) as [b1 r1] eqn:E1.
  assert (length (InboundReqChan (br_in b1)) = 1%nat) as Hl.
  { apply (f_equal (fun x => length (InboundReqChan (br_in (fst x))))) in E1. cbn [fst] in E1. rewrite <- E1. vm_compute. reflexivity. }
  destruct (step_ref EvTakeInbound b1) as [b2 r2] eqn:E2.
  exists b1, r1, b2, r2. split; [reflexivity|]. split; [exact Hl|]. split; [exact E2|].
  refine (proj1 (one_batch_in_flight (JS := jolt_ref true) (MC := memo_ref "JOLTIFY") (JN := node_ref "BSC")
    4 3 (fun _ => []) (fun b => b) hex_EncodeToString "" (Fail "no file") (fun _ => Fail "no file") ∅ 3 3 (bridge0 [30] true) b2 _ _ _)).
  - split; [intros _; split; reflexivity|]. cbn. lia.
  - split; [intros _; split; reflexivity|]. cbn. lia.
  - eapply reached_event; [eapply reached_event; [apply reached_start|exact E1]|exact E2].
Defined.

Lemma wedged_forever_witness : exists b1 r1,
  step_ref (EvJoltBlock 203) (bridge0 [30] false) = (b1, r1) /\ Size (in_q (br_in b1)) = 1 /\ InboundReqChan (br_in b1) = [].
Proof.
  destruct (step_ref (EvJoltBlock 203) (bridge0 [30] false)) as [b1 r1] eqn:E1.
  assert (Size (in_q (br_in b1)) = 1) as Hl.
  { apply (f_equal (fun x => Size (in_q (br_in (fst x))))) in E1. cbn [fst] in E1. rewrite <- E1. vm_compute. reflexivity. }
  exists b1, r1. split; [reflexivity|]. split; [exact Hl|].
  refine (proj1 (proj2 (wedged_forever (JS := jolt_ref true) (MC := memo_ref "JOLTIFY") (JN := node_ref "BSC")
    4 3 (fun _ => []) (fun b => b) hex_EncodeToString "" (Fail "no file") (fun _ => Fail "no file") ∅ 3 3 (bridge0 [30] false) b1 _ _))).
  - split; [reflexivity|]. split; reflexivity.
  - eapply reached_event; [apply reached_start|exact E1].
Defined.
End Witnesses.
