(* ===== verification/Wellformed.v ===== *)
(** * The queues of the running service stay loadable

    The requests that wait are kept in maps under their own index, and pending
    fund movements under their own height and chain; saving to disk relies on
    it, since only the values are written.  Every operation of every
    component that touches one of these maps keeps it so, and with it every
    handler of the event loop. *)

From Stdlib Require Import Ascii String.
From S2P Require Import Prelude GoLib Sdk Requests Fees ItemQueue TokenList Signature MoveFundQueue Pools Validators PubClient Keysign TxSend MoveFund Inbound Outbound CosTx Keygen Processing Flow JoltClient EventLoop.

#[local] Open Scope string_scope.
#[local] Open Scope Z_scope.
#[local] Open Scope go_scope.

(** ** Definitions *)

(** Both queues and the pending fund movements, each under its own keys. *)
Definition bridge_wf `{E : Eth} {W C J Msg : Type} (b : Bridge W C J Msg) : Prop :=
  queue_wf (in_q (br_in b)) /\ queue_wf (out_q (br_out b)) /\ mf_keyed (moveFundReq (br_pools b)).

(** ** Lemmas *)

(** *** The operations of the queues *)

Section Queue.
Context {A : Type} `{I : Indexed A} `{R : GoRuntime}.

Lemma AddItem_keeps_wf (a : A) : keeps queue_wf (AddItem a).
Proof.
  intros q Hq. unfold AddItem, bind, lift. destruct (Index a) as [k|e|] eqn:E; [|done..].
  intros k' a'. cbn. rewrite lookup_insert_Some. intros [[<- <-]|[_ H]]; [done|by apply Hq].
Qed.

Lemma AddOnHoldQueue_keeps_wf (a : A) : keeps queue_wf (AddOnHoldQueue a).
Proof. by apply keeps_modify. Qed.

Lemma DumpQueue_keeps_wf : keeps queue_wf (@DumpQueue A).
Proof. intros q Hq. by rewrite DumpQueue_ret. Qed.

Lemma load_and_delete_keeps_wf k : keeps queue_wf (@load_and_delete A k).
Proof.
  intros q Hq. unfold load_and_delete, bind, get. destruct (pending q !! k); [|done].
  intros k' a'. cbn. rewrite lookup_delete_Some. intros [_ H]. by apply Hq.
Qed.
#[local] Hint Resolve load_and_delete_keeps_wf : keeps.

Lemma load_all_keeps_wf ks : keeps queue_wf (@load_all A ks).
Proof. induction ks as [|k ks IH]; cbn [load_all]; keep. Qed.
#[local] Hint Resolve load_all_keeps_wf : keeps.

Lemma PopItem_keeps_wf sel n : keeps queue_wf (@PopItem_where A R sel n).
Proof. unfold PopItem_where. keep. Qed.
End Queue.

Lemma AddMoveFundItem_keeps_keyed pool h c : keeps mf_keyed (AddMoveFundItem pool h c).
Proof.
  intros q Hq k it. rewrite AddMoveFundItem_eq. cbn [fst]. rewrite lookup_insert_Some. intros [[<- <-]|[_ H]]; [done|by apply Hq].
Qed.

Lemma PopMoveFundItem_keeps_keyed `{R : GoRuntime} h c : keeps mf_keyed (PopMoveFundItemAfterBlock h c).
Proof.
  intros q Hq. unfold PopMoveFundItemAfterBlock, bind, get. destruct (_ && _); [|done].
  assert (mf_keyed (delete (move_key (min_height c q) c) q)) as H.
  { intros k it. rewrite lookup_delete_Some. intros [_ H]. by apply Hq. }
  cbn. by destruct (q !! _).
Qed.

#[export] Hint Resolve AddItem_keeps_wf AddOnHoldQueue_keeps_wf DumpQueue_keeps_wf PopItem_keeps_wf
  AddMoveFundItem_keeps_keyed PopMoveFundItem_keeps_keyed : keeps.

(** *** Minting *)

Section Mint.
Context {J Msg : Type} `{CN : CosmosNode J Msg} `{T : TssServer J} `{JS : JoltService J} `{S : SdkMath} `{N : SdkCoins} `{B : Bech32} `{E : Eth}.
Context `{K : Backoff} `{R : GoRuntime}.

Definition mint_wf (s : MintState J) : Prop := queue_wf (mint_q s).
Definition in_wf (s : J * InFlow) : Prop := queue_wf (in_q (snd s)).

Lemma keeps_on_mnode {A} (m : M J A) : keeps mint_wf (on_mnode m).
Proof. intros s H. unfold on_mnode. by destruct (m _). Qed.
Lemma keeps_set_failedIn f : keeps mint_wf (set_failedIn (W := J) f).
Proof. by apply keeps_modify. Qed.
Lemma keeps_on_mq {A} (m : M (ItemQueue InBoundReq) A) : keeps queue_wf m -> keeps mint_wf (on_mq m).
Proof. intros Hm s H. unfold on_mq. specialize (Hm _ H). by destruct (m _). Qed.
#[local] Hint Resolve keeps_on_mnode keeps_set_failedIn keeps_on_mq : keeps.

Lemma check_minted_wf m k : keeps mint_wf (check_minted (W := J) m k).
Proof. unfold check_minted. keep. Qed.
#[local] Hint Resolve check_minted_wf : keeps.

Lemma processInbound_wf items : keeps mint_wf (processInbound (Msg := Msg) (W := J) items).
Proof. unfold processInbound. keep. Qed.

Lemma putOnHoldBlockInBoundBack_wf : keeps mint_wf (putOnHoldBlockInBoundBack (W := J)).
Proof. unfold putOnHoldBlockInBoundBack. keep. Qed.

Lemma keeps_on_mint_wf {A} (m : M (MintState J) A) : keeps mint_wf m -> keeps in_wf (on_mint m).
Proof. intros Hm [j f] H. unfold on_mint. specialize (Hm (mkMintState j (in_q f) (in_failed f) (in_wait f)) H). by destruct (m _). Qed.
Lemma keeps_on_flow_wf g : (forall f, in_q (g f) = in_q f) -> keeps in_wf (@on_flow J g).
Proof. intros Hg [j f] H. unfold in_wf. cbn. by rewrite Hg. Qed.

Lemma FeedTx_inbound_wf n op p : keeps (fun s : J * InboundQueue.t => queue_wf (snd s)) (FeedTx_inbound (Msg := Msg) n op p).
Proof.
  unfold FeedTx_inbound. keep.
  - intros [w q] H. by destruct (queryAccount _ _) as [w' []].
  - intros [w q] H. pose proof (PopItem_keeps_wf (fun _ => true) n q H) as Hq. unfold InboundQueue.PopItem. by destruct (PopItem_where _ n q).
Qed.

Lemma feed_inbound_wf p : keeps in_wf (feed_inbound (Msg := Msg) (J := J) p).
Proof.
  intros [j f] H. unfold feed_inbound.
  pose proof (FeedTx_inbound_wf GroupSign operator_address p (j, in_q f) H) as Hq.
  by destruct (FeedTx_inbound _ _ _ _) as [[j' q'] [[batch|]|e|]].
Qed.
#[local] Hint Resolve processInbound_wf putOnHoldBlockInBoundBack_wf keeps_on_mint_wf feed_inbound_wf : keeps.
#[local] Hint Extern 1 (keeps in_wf (on_flow _)) => apply keeps_on_flow_wf; intros f; try destruct (InboundReqChan f); reflexivity : keeps.

Lemma inbound_section_wf pool1 kg lh cur pb : keeps in_wf (inbound_section (Msg := Msg) (J := J) pool1 kg lh cur pb).
Proof. unfold inbound_section. keep. Qed.
Lemma take_inbound_wf : keeps in_wf (take_inbound (J := J)).
Proof. unfold take_inbound. keep. Qed.
Lemma finish_inbound_wf i : keeps in_wf (finish_inbound (Msg := Msg) (J := J) i).
Proof. unfold finish_inbound. keep. Qed.
End Mint.

(** *** Paying out *)

Section Pay.
Context {W C J Msg : Type} `{EC : EthClient W C} `{TW : TssServer W} `{CN : CosmosNode J Msg} `{TJ : TssServer J} `{JS : JoltService J}.
Context `{G : EthSigner} `{S : SdkMath} `{N : SdkCoins} `{B : Bech32} `{E : Eth} `{K : Backoff} `{R : GoRuntime}.
Context (attempts submits : nat) (HexToHash : string -> bytes).
#[local] Notation PS := (PayState W J C).

Definition pay_wf (s : PS) : Prop := queue_wf (pay_q s).
Definition out_wf (s : ChainInfo W C * J * OutFlow) : Prop := queue_wf (out_q (snd s)).

Lemma keeps_on_pchain {A} (m : M (ChainInfo W C) A) : keeps pay_wf (on_pchain m).
Proof. intros s H. unfold on_pchain. by destruct (m _). Qed.
Lemma keeps_on_pjolt {A} (m : M J A) : keeps pay_wf (on_pjolt m).
Proof. intros s H. unfold on_pjolt. by destruct (m _). Qed.
Lemma keeps_set_failedOut f : keeps pay_wf (set_failedOut (W := W) (J := J) (C := C) f).
Proof. by apply keeps_modify. Qed.
Lemma keeps_on_pq {A} (m : M (ItemQueue OutBoundReq) A) : keeps queue_wf m -> keeps pay_wf (on_pq m).
Proof. intros Hm s H. unfold on_pq. specialize (Hm _ H). by destruct (m _). Qed.
#[local] Hint Resolve keeps_on_pchain keeps_on_pjolt keeps_set_failedOut keeps_on_pq : keeps.

Lemma to_process_wf v items : keeps pay_wf (to_process (W := W) (C := C) HexToHash v items).
Proof. induction items as [|el items IH]; cbn [to_process]; unfold needs_processing; keep. Qed.

Lemma outbound_worker_wf pools resp i item : keeps pay_wf (outbound_worker (Msg := Msg) (J := J) attempts submits HexToHash pools resp i item).
Proof. unfold outbound_worker. keep. Qed.
#[local] Hint Resolve to_process_wf outbound_worker_wf : keeps.

Lemma outbound_workers_wf pools resp i items : keeps pay_wf (outbound_workers (Msg := Msg) (J := J) attempts submits HexToHash pools resp i items).
Proof. revert i. induction items as [|el items IH]; intros i; cbn [outbound_workers]; keep. Qed.
#[local] Hint Resolve outbound_workers_wf : keeps.

Lemma outbound_round_wf pools v resp items : keeps pay_wf (outbound_round (Msg := Msg) (J := J) attempts submits HexToHash pools v resp items).
Proof. unfold outbound_round. keep. Qed.

Lemma putOnHoldBlockOutBoundBack_wf : keeps pay_wf (putOnHoldBlockOutBoundBack (W := W) (C := C) (J := J) HexToHash).
Proof. unfold putOnHoldBlockOutBoundBack, put_back_one. keep. Qed.

Lemma keeps_on_pay_wf {A} (m : M PS A) : keeps pay_wf m -> keeps out_wf (on_pay m).
Proof.
  intros Hm [[c j] f] H. unfold on_pay. specialize (Hm (mkPayState c j (out_q f) (out_failed f) (out_wait f)) H). by destruct (m _).
Qed.
Lemma keeps_on_out_wf g : (forall f, out_q (g f) = out_q f) -> keeps out_wf (@Flow.on_out W J C g).
Proof. intros Hg. apply keeps_modify. intros [[c j] f] H. unfold out_wf. cbn. by rewrite Hg. Qed.
Lemma keeps_on_outq_wf {A} (m : M (ItemQueue OutBoundReq) A) : keeps queue_wf m -> keeps out_wf (@on_outq W J C A m).
Proof. intros Hm [[c j] f] H. unfold on_outq. specialize (Hm _ H). by destruct (m _). Qed.
Lemma keeps_on_oclient_wf {A} (m : M (ChainInfo W C) A) : keeps out_wf (@on_oclient W J C A m).
Proof. intros [[c j] f] H. unfold on_oclient. by destruct (m _). Qed.
Lemma keeps_olift_wf {A} (g : OutFlow -> outcome A) : keeps out_wf (@olift W J C A g).
Proof. by intros [[c j] f] H. Qed.
Lemma OutPopItem_keeps_wf n ct : keeps queue_wf (OutboundQueue.PopItem n ct).
Proof. apply PopItem_keeps_wf. Qed.
#[local] Hint Resolve outbound_round_wf putOnHoldBlockOutBoundBack_wf keeps_on_pay_wf keeps_on_outq_wf keeps_on_oclient_wf keeps_olift_wf
  OutPopItem_keeps_wf : keeps.
#[local] Hint Extern 1 (keeps out_wf (Flow.on_out _)) => apply keeps_on_out_wf; intros f; try destruct (OutboundReqChan f); reflexivity : keeps.

Lemma outbound_section_wf pool1 kg ht lh pb : keeps out_wf (outbound_section (W := W) (C := C) (J := J) HexToHash pool1 kg ht lh pb).
Proof. unfold outbound_section. keep. Qed.
Lemma take_outbound_wf : keeps out_wf (take_outbound (W := W) (C := C) (J := J)).
Proof. unfold take_outbound. keep. Qed.
Lemma finish_outbound_wf pools v resp i : keeps out_wf (finish_outbound (Msg := Msg) (J := J) attempts submits HexToHash pools v resp i).
Proof. unfold finish_outbound. keep. Qed.
End Pay.

(** *** Blocks of the two sides

    The handlers of blocks add requests and nothing else, so they keep any
    property of the queues that adding keeps. *)

Section Blocks.
Context {W C : Type} `{EC : EthClient W C} `{S : SdkMath} `{N : SdkCoins} `{E : Eth} `{B : Bech32}.
Context `{AB : TokenAbi} `{JH : !JoltHandler} `{MC : MemoCodec} {L : Type} `{BL : BridgeTokenListI L}.
Context (QI : ItemQueue InBoundReq -> Prop) (QO : ItemQueue OutBoundReq -> Prop).
Context (QI_add : forall a, keeps QI (AddItem a)) (QO_add : forall a, keeps QO (AddItem a)).
#[local] Notation IS := (InState W C).

Definition block_queues (s : IS) : Prop := QI (inq s) /\ QO (outq s).

Lemma keeps_on_ichain {A} (m : M (ChainInfo W C) A) : keeps block_queues (on_ichain m).
Proof. intros s H. unfold on_ichain. by destruct (m _). Qed.
Lemma keeps_block_inq a : keeps block_queues (@on_inq W C unit (AddItem a)).
Proof. intros s [H H']. unfold on_inq. specialize (QI_add a _ H). by destruct (AddItem a _). Qed.
Lemma keeps_block_outq a : keeps block_queues (@Inbound.on_outq W C unit (AddItem a)).
Proof. intros s [H H']. unfold Inbound.on_outq. specialize (QO_add a _ H'). by destruct (AddItem a _). Qed.
#[local] Hint Resolve keeps_on_ichain keeps_block_inq keeps_block_outq : keeps.

Lemma processInboundERC20Tx_queues tl txID ct n a to v addr : keeps block_queues (processInboundERC20Tx (W := W) (C := C) (L := L) tl txID ct n a to v addr).
Proof. unfold processInboundERC20Tx. keep. Qed.
Lemma processJoltifyInbound_queues tl memo ct tx to n : keeps block_queues (processJoltifyInbound (W := W) (C := C) (L := L) tl memo ct tx to n).
Proof. unfold processJoltifyInbound. keep. Qed.
Lemma processDstInbound_queues tl slots fm info h ct : keeps block_queues (processDstInbound (W := W) (C := C) (L := L) tl slots fm info h ct).
Proof. unfold processDstInbound, AddOutBoundItem. keep. Qed.
#[local] Hint Resolve processInboundERC20Tx_queues processJoltifyInbound_queues processDstInbound_queues : keeps.

Lemma process_contract_call_queues tl slots fm ct bn n tx info : keeps block_queues (process_contract_call (W := W) (C := C) (L := L) tl slots fm ct bn n tx info).
Proof. unfold process_contract_call, ProcessInBoundERC20. keep. Qed.
Lemma process_native_queues tl slots ct n tx to : keeps block_queues (process_native (W := W) (C := C) (L := L) tl slots ct n tx to).
Proof. unfold process_native. keep. Qed.
#[local] Hint Resolve process_contract_call_queues process_native_queues : keeps.

Lemma ProcessNewBlock_queues tl slots fm ct n : keeps block_queues (ProcessNewBlock (W := W) (C := C) (L := L) tl slots fm ct n).
Proof. unfold ProcessNewBlock, processEachBlock, process_tx. keep. Qed.
End Blocks.

Section Joltify.
Context `{S : SdkMath} `{N : SdkCoins} `{E : Eth} `{B : Bech32} `{JN : !JoltNode} {L : Type} `{BL : BridgeTokenListI L}.
Context (QO : ItemQueue OutBoundReq -> Prop) (QO_add : forall a, keeps QO (AddItem a)).

Lemma CheckOutBoundTx_queues tl fm slots n tx : keeps QO (CheckOutBoundTx (L := L) tl fm slots n tx).
Proof. unfold CheckOutBoundTx, check_msg, processMsg, processOutBoundRequest. keep. Qed.
End Joltify.

(** *** Pools and fund movements *)

Section Funds.
Context {W C : Type} `{EC : EthClient W C} `{T : TssServer W} `{G : EthSigner} `{E : Eth} `{B : Bech32} `{K : Backoff} `{R : GoRuntime}.
Context (attempts : nat) (HexToHash : string -> bytes).
Context (PM : gmap string MoveFundItem -> Prop) (PM_add : forall p h c, keeps PM (AddMoveFundItem p h c)).
Context (PC : Slots -> Prop) (PC_update : forall el, keeps PC (jolt_UpdatePool el)).
#[local] Notation FS := (FundState W C).

Definition fund_keep (s : FS) : Prop := PM (fqueue s).
Definition pools_keep (s : PoolState) : Prop := PM (moveFundReq s) /\ PC (jc_pools s).

Lemma keeps_on_fchain {A} (m : M (ChainInfo W C) A) : keeps fund_keep (on_fchain m).
Proof. intros s H. unfold on_fchain. by destruct (m _). Qed.
Lemma keeps_on_queue {A} (m : M MoveFundQueue A) : keeps PM m -> keeps fund_keep (@on_queue W C A m).
Proof. intros Hm s H. unfold on_queue. specialize (Hm _ H). by destruct (m _). Qed.
#[local] Hint Resolve keeps_on_fchain keeps_on_queue : keeps.

Lemma token_worker_keep h n p a resp i t : keeps fund_keep (token_worker (W := W) (C := C) attempts HexToHash h n p a resp i t).
Proof. unfold token_worker. keep. Qed.
#[local] Hint Resolve token_worker_keep : keeps.
Lemma token_workers_keep h n p a resp i l : keeps fund_keep (token_workers (W := W) (C := C) attempts HexToHash h n p a resp i l).
Proof. revert i. induction l as [|t l IH]; intros i; cbn [token_workers]; keep. Qed.
#[local] Hint Resolve token_workers_keep : keeps.

Lemma MoveFound_keep {L} `{BL : BridgeTokenListI L} (tl : L) pools resp h p cl :
  keeps fund_keep (MoveFound (W := W) (C := C) attempts HexToHash tl pools resp h p cl).
Proof. unfold MoveFound, prepare_move, finish_move, retry_later. keep. Qed.

Lemma keeps_on_pi {A} (m : M Slots A) : keeps pools_keep (on_pi m).
Proof. intros s H. unfold on_pi. by destruct (m _). Qed.
Lemma keeps_on_jc {A} (m : M Slots A) : keeps PC m -> keeps pools_keep (on_jc m).
Proof. intros Hm s [H H']. unfold on_jc. specialize (Hm _ H'). by destruct (m _). Qed.
Lemma keeps_on_mf {A} (m : M MoveFundQueue A) : keeps PM m -> keeps pools_keep (on_mf m).
Proof. intros Hm s [H H']. unfold on_mf. specialize (Hm _ H). by destruct (m _). Qed.
#[local] Hint Resolve keeps_on_pi keeps_on_jc keeps_on_mf : keeps.

Lemma refresh_pools_keep qc0 qc1 h : keeps pools_keep (refresh_pools qc0 qc1 h).
Proof. unfold refresh_pools, order_movements. keep. Qed.
End Funds.

(** *** The event loop

    A property of the three parts of the state the handlers share is kept by
    every event when it is kept by adding requests and by what the flows and
    the fund movements do. *)

Section EventLoop.
Context {W C J Msg : Type} `{EC : EthClient W C} `{TW : TssServer W} `{CN : CosmosNode J Msg} `{TJ : TssServer J} `{JS : JoltService J}.
Context `{JB : JoltBlocks J} `{JCn : JoltConnection J} `{KG : KeygenServer J Msg}.
Context `{G : EthSigner} `{S : SdkMath} `{N : SdkCoins} `{B : Bech32} `{E : Eth} `{K : Backoff} `{R : GoRuntime}.
Context `{AB : TokenAbi} `{JH : !JoltHandler} `{MC : MemoCodec} `{JN : !JoltNode}.
Context (attempts submits : nat) (HexToHash : string -> bytes).
Context (GetConsAddress : bytes -> bytes) (Address_String : bytes -> string) (myValidatorKey : string).
Context (ReadFile : outcome bytes) (Unmarshal : bytes -> outcome (list TokenItem)).
Context (feeModule : gmap string FeeModule) (oppyRollbackGap pubRollbackGap : Z).
#[local] Notation BR := (Bridge W C J Msg).

Section Parts.
Context (PI : InFlow -> Prop) (PO : OutFlow -> Prop) (PM : gmap string MoveFundItem -> Prop).
Context (PI_add : forall f a, keeps (fun q => PI (in_set_q q f)) (AddItem a)) (PO_add : forall f a, keeps (fun q => PO (out_set_q q f)) (AddItem a)).
Context (PM_add : forall p h c, keeps PM (AddMoveFundItem p h c)) (PM_pop : forall h c, keeps PM (PopMoveFundItemAfterBlock h c)).
Context (PC : Slots -> Prop) (PC_update : forall el, keeps PC (jolt_UpdatePool el)).
Context (PI_section : forall pool1 kg lh cur pb, keeps (fun s : J * InFlow => PI (snd s)) (inbound_section (Msg := Msg) pool1 kg lh cur pb)).
Context (PI_take : keeps (fun s : J * InFlow => PI (snd s)) take_inbound).
Context (PI_finish : forall i, keeps (fun s : J * InFlow => PI (snd s)) (finish_inbound (Msg := Msg) i)).
Context (PO_section : forall pool1 kg ht lh pb, (exists s, PC s /\ slot1 s = Some pool1) -> keeps (fun s : ChainInfo W C * J * OutFlow => PO (snd s)) (outbound_section HexToHash pool1 kg ht lh pb)).
Context (PO_take : keeps (fun s : ChainInfo W C * J * OutFlow => PO (snd s)) take_outbound).
Context (PO_finish : forall pools v resp i, keeps (fun s : ChainInfo W C * J * OutFlow => PO (snd s))
  (finish_outbound (Msg := Msg) attempts submits HexToHash pools v resp i)).

Definition parts (b : BR) : Prop := PI (br_in b) /\ PO (br_out b) /\ PM (moveFundReq (br_pools b)) /\ PC (jc_pools (br_pools b)).

Lemma parts_on_jolt {A} (m : M J A) : keeps parts (on_jolt m).
Proof. intros b H. unfold on_jolt. by destruct (m _). Qed.
Lemma parts_on_tokens {A} (m : M TokenList A) : keeps parts (on_tokens m).
Proof. intros b H. unfold on_tokens. by destruct (m _). Qed.
Lemma parts_on_keygen {A} (m : M (KeygenState J Msg) A) : keeps parts (on_keygen m).
Proof. intros b H. unfold on_keygen. by destruct (m _). Qed.
Lemma parts_set_CurrentHeight h : keeps parts (set_CurrentHeight h).
Proof. by intros b H. Qed.
Lemma parts_set_jobs kg l : keeps parts (set_jobs kg l).
Proof. by intros b H. Qed.
Lemma parts_on_client {A} ct (m : M (ChainInfo W C) A) : keeps parts (on_client ct m).
Proof. intros b H. unfold on_client. destruct (chain_of ct b); [|done]. by destruct (m _). Qed.
Lemma parts_on_pools {A} (m : M PoolState A) : keeps (pools_keep PM PC) m -> keeps parts (on_pools m).
Proof. intros Hm b (Hi & Ho & H). unfold on_pools. specialize (Hm _ H). by destruct (m _). Qed.
Lemma parts_on_fund {A} ct (m : M (FundState W C) A) : keeps (fund_keep PM) m -> keeps parts (on_fund ct m).
Proof.
  intros Hm b (Hi & Ho & H & Hc). unfold on_fund. destruct (chain_of ct b) as [c|]; [|done].
  specialize (Hm (mkFundState c (moveFundReq (br_pools b))) H). by destruct (m _).
Qed.
Lemma parts_on_payouts {A} (m : M (ItemQueue OutBoundReq) A) : (forall f, keeps (fun q => PO (out_set_q q f)) m) -> keeps parts (on_payouts m).
Proof.
  intros Hm b (Hi & Ho & H). unfold on_payouts. specialize (Hm (br_out b) (out_q (br_out b))). destruct (br_out b).
  specialize (Hm Ho). by destruct (m _).
Qed.
Lemma parts_on_inbound_block {A} ct (m : M (InState W C) A) :
  (forall f g, keeps (block_queues (fun q => PI (in_set_q q f)) (fun q => PO (out_set_q q g))) m) -> keeps parts (on_inbound_block ct m).
Proof.
  intros Hm b (Hi & Ho & H). unfold on_inbound_block. destruct (chain_of ct b) as [c|]; [|done].
  assert (block_queues (fun q => PI (in_set_q q (br_in b))) (fun q => PO (out_set_q q (br_out b)))
    (mkInState c (in_q (br_in b)) (out_q (br_out b)))) as H0 by (split; [by destruct (br_in b)|by destruct (br_out b)]).
  destruct (Hm _ _ _ H0) as [H1 H2]. by destruct (m _).
Qed.
Lemma parts_on_in {A} (m : M (J * InFlow) A) : keeps (fun s => PI (snd s)) m -> keeps parts (on_in m).
Proof. intros Hm b (Hi & Ho & H). unfold on_in. specialize (Hm (br_jolt b, br_in b) Hi). by destruct (m _) as [[j f] r]. Qed.
Lemma parts_on_out {A} ct (m : M (ChainInfo W C * J * OutFlow) A) : keeps (fun s => PO (snd s)) m -> keeps parts (on_out ct m).
Proof.
  intros Hm b (Hi & Ho & H). unfold on_out. destruct (chain_of ct b) as [c|]; [|done].
  specialize (Hm (c, br_jolt b, br_out b) Ho). by destruct (m _) as [[[c' j] f] r].
Qed.
#[local] Hint Resolve parts_on_jolt parts_on_tokens parts_on_keygen parts_set_CurrentHeight parts_set_jobs parts_on_client parts_on_pools
  parts_on_fund parts_on_payouts parts_on_inbound_block parts_on_in parts_on_out keeps_on_queue : keeps.
#[local] Hint Resolve refresh_pools_keep CheckOutBoundTx_queues ProcessNewBlock_queues MoveFound_keep : keeps.

Lemma jolt_block_parts h : keeps parts (jolt_block (W := W) (C := C) (Msg := Msg) ReadFile Unmarshal feeModule oppyRollbackGap h).
Proof. unfold jolt_block, jolt_block_prefix. keep. Qed.

Lemma pubchainProcess_parts head resp : keeps parts (pubchainProcess (J := J) (Msg := Msg) attempts HexToHash feeModule pubRollbackGap head resp).
Proof.
  unfold pubchainProcess, move_funds.
  do 6 keep_step; try solve [auto with keeps]. apply keeps_read. intros b (_ & _ & _ & Hc).
  destruct (slot1 _) as [pool|] eqn:Es; [|apply keeps_ret]. assert (exists s, PC s /\ slot1 s = Some pool) as Hp by eauto. keep.
Qed.

Lemma handle_parts e : keeps parts (handle (J := J) (Msg := Msg) attempts submits HexToHash GetConsAddress Address_String myValidatorKey
  ReadFile Unmarshal feeModule oppyRollbackGap pubRollbackGap e).
Proof.
  destruct e; cbn [handle]; unfold churn, finish_keygen, finish_payouts;
    [keep|keep|apply jolt_block_parts|apply pubchainProcess_parts|auto with keeps|auto with keeps|auto with keeps|keep|keep|keep].
Qed.
End Parts.

Lemma keeps_bridge_wf {A} (m : M BR A) :
  keeps (parts (fun f => queue_wf (in_q f)) (fun f => queue_wf (out_q f)) mf_keyed (fun _ => True)) m -> keeps bridge_wf m.
Proof. intros Hm b (Hi & Ho & H). by destruct (Hm b) as (? & ? & ? & _). Qed.

(** Every event of the loop keeps the maps well-formed. *)
Lemma handle_wf e : keeps (@bridge_wf E W C J Msg) (handle (J := J) (Msg := Msg) attempts submits HexToHash GetConsAddress Address_String
  myValidatorKey ReadFile Unmarshal feeModule oppyRollbackGap pubRollbackGap e).
Proof.
  apply keeps_bridge_wf, handle_parts; intros;
    first [done|apply AddItem_keeps_wf|apply AddMoveFundItem_keeps_keyed|apply PopMoveFundItem_keeps_keyed|apply inbound_section_wf|apply take_inbound_wf
      |apply finish_inbound_wf|apply outbound_section_wf|apply take_outbound_wf|apply finish_outbound_wf].
Qed.
End EventLoop.
