(* ===== verification/Lifecycle.v ===== *)
(** * The life of a request: nothing the running service does loses one

    A deposit that entered the inbound queue goes through the retry map, a
    batch on the channel, a goroutine, the on-hold queue and back, until the
    joltify node reports it as minted.  As long as the node can be dialled
    and answers, every event of the loop leaves it in one of these places.
    A payout goes the same way through the outbound queue; it is followed by
    its index, which nothing changes. *)

From Stdlib Require Import Ascii String.
From S2P Require Import Prelude GoLib Sdk Requests Fees ItemQueue TokenList Signature MoveFundQueue Pools Validators PubClient Keysign TxSend MoveFund Inbound Outbound CosTx Keygen Processing Flow JoltClient EventLoop Wellformed.

#[local] Open Scope string_scope.
#[local] Open Scope Z_scope.
#[local] Open Scope go_scope.

(** ** Definitions *)

(** Two requests the code cannot tell apart: the joltify node records an issue
    by the hash, the map keeps a request under its index. *)
Definition alike `{E : Eth} (a b : InBoundReq) : Prop :=
  in_hash a = in_hash b \/ InBoundReq_Index a = InBoundReq_Index b.

(** [a] itself, or one that took its place. *)
Definition stands_for `{E : Eth} : InBoundReq -> InBoundReq -> Prop := rtc alike.

(** A request waits in the queue: in the map or on hold. *)
Definition waits (q : ItemQueue InBoundReq) (x : InBoundReq) : Prop :=
  (exists k, pending q !! k = Some x) \/ x ∈ onHold q.

(** A request is in a batch, on the channel or taken by a goroutine. *)
Definition in_batch (f : InFlow) (x : InBoundReq) : Prop :=
  exists l, l ∈ (InboundReqChan f ++ in_running f)%list /\ x ∈ l.

Section Lifecycle.
Context {J Msg : Type} `{CN : CosmosNode J Msg} `{T : TssServer J} `{JS : JoltService J} `{S : SdkMath} `{N : SdkCoins} `{B : Bech32} `{E : Eth}.
Context `{K : Backoff} `{R : GoRuntime}.

(** The deposit waits, is in a batch, or the node has reported it as minted. *)
Definition accounted (a : InBoundReq) (f : InFlow) : Prop :=
  exists x, stands_for a x /\ (waits (in_q f) x \/ in_batch f x \/ minted (W := J) (in_hash x)).

(** The dialling always succeeds, the query for a token issue never panics. *)
Definition node_answers : Prop :=
  (forall w : J, exists w', DialGrpc w = (w', Ret tt)) /\ (forall i (w : J), (queryGivenToeknIssueTx i w).2 <> Panic).
End Lifecycle.

(** ** Lemmas *)

(** Popping moves entries of the map to the batch, and nothing else. *)
Lemma PopItem_moves {A} `{I : Indexed A} `{LI : !IndexedLaws A I} `{R : GoRuntime} `{LR : !GoRuntimeLaws R} sel n (q q' : ItemQueue A) r :
  queue_wf q -> 0 <= n -> PopItem_where sel n q = (q', r) ->
  onHold q' = onHold q /\
  ((r = Ret None /\ q' = q) \/
   exists items, r = Ret (Some items) /\ (forall k x, pending q !! k = Some x -> pending q' !! k = Some x \/ x ∈ items) /\
     (forall x, x ∈ items -> exists k, pending q !! k = Some x)).
Proof.
  intros Hq Hn H. destruct (PopItem_spec sel n q Hq Hn) as (ks & rest & items & Hp & _ & _ & Hf & He). rewrite He in H. simplify_eq.
  split; [done|]. destruct (_ =? 0)%nat eqn:El; [left|right].
  - apply Nat.eqb_eq, length_zero_iff_nil in El. rewrite El in Hp.
    symmetry in Hp. apply Permutation_nil in Hp. apply app_eq_nil in Hp as [-> _]. split; [done|]. by destruct q.
  - exists items. split; [done|]. split.
    + intros k x Hk. cbn. rewrite delete_keys_lookup. case_bool_decide as Hin; [right|by left].
      apply list_elem_of_lookup in Hin as [i Hi]. destruct (Forall2_lookup_l _ _ _ _ _ Hf Hi) as (y & Hy & Hky).
      simplify_eq. by eapply list_elem_of_lookup_2.
    + intros x Hx. apply list_elem_of_lookup in Hx as [i Hi]. destruct (Forall2_lookup_r _ _ _ _ _ Hf Hi) as (k & _ & Hk). by exists k.
Qed.

Section Queue.
Context `{E : Eth} `{LE : !EthLaws E} `{R : GoRuntime} `{LR : !GoRuntimeLaws R}.

Lemma stands_for_hash a x y : stands_for a x -> in_hash x = in_hash y -> stands_for a y.
Proof. intros H1 H2. eapply rtc_r; [exact H1|]. by left. Qed.
Lemma stands_for_index a x y : stands_for a x -> InBoundReq_Index x = InBoundReq_Index y -> stands_for a y.
Proof. intros H1 H2. eapply rtc_r; [exact H1|]. by right. Qed.

Lemma wf_index (q : ItemQueue InBoundReq) k x : queue_wf q -> pending q !! k = Some x -> InBoundReq_Index x = k.
Proof. intros Hq Hk. apply Hq in Hk. by injection Hk. Qed.

(** A request of the queue has a stand-in there. *)
Definition kept (a : InBoundReq) (q : ItemQueue InBoundReq) : Prop := exists x, stands_for a x /\ waits q x.

(** Adding overwrites at most an entry with the same index. *)
Lemma AddItem_kept a b (q : ItemQueue InBoundReq) : queue_wf q -> kept a q -> kept a (AddItem b q).1.
Proof.
  intros Hq (x & Hx & Hw). rewrite (AddItem_ret b (InBoundReq_Index b)) by done. cbn [fst].
  destruct Hw as [[k Hk]|Hh]; [|exists x; split; [done|by right]].
  destruct (decide (k = InBoundReq_Index b)) as [->|Hne].
  - exists b. split; [eapply stands_for_index; [exact Hx|by apply (wf_index q)]|]. left. exists (InBoundReq_Index b). apply lookup_insert_eq.
  - exists x. split; [done|]. left. exists k. cbn. by rewrite lookup_insert_ne.
Qed.

(** The account of a popped request is not part of its identity. *)
Lemma assign_accounts_elem n s addr pk l x : x ∈ l -> exists y, y ∈ assign_accounts n s addr pk l /\ in_hash x = in_hash y.
Proof.
  intros Hx. revert s. induction Hx as [x l|x z l _ IH]; intros s; cbn [assign_accounts].
  - exists (SetAccountInfo n s addr pk x). split; [left|done].
  - destruct (IH (u64 (s + 1))) as (y & Hy & He). exists y. split; [by right|done].
Qed.

End Queue.

Section Flow.
Context {J Msg : Type} `{CN : CosmosNode J Msg} `{T : TssServer J} `{JS : JoltService J} `{S : SdkMath} `{N : SdkCoins} `{B : Bech32} `{E : Eth} `{LE : !EthLaws E}.
Context `{K : Backoff} `{KL : !BackoffLaws K} `{R : GoRuntime} `{LR : !GoRuntimeLaws R}.
Context (Hnode : node_answers (J := J)) (a : InBoundReq).
#[local] Notation IF := (J * InFlow)%type.

Definition ok (f : InFlow) : Prop := queue_wf (in_q f) /\ accounted (J := J) a f.

(** The batches and the flags apart, [accounted] looks at the queue. *)
Lemma accounted_queue f f' : (forall x, in_batch f x -> in_batch f' x) -> (forall x, waits (in_q f) x -> kept x (in_q f')) ->
  accounted (J := J) a f -> accounted (J := J) a f'.
Proof.
  intros Hb Hq (x & Hx & [Hw|[Hi|Hm]]).
  - destruct (Hq x Hw) as (y & Hy & Hw'). exists y. split; [by etrans|by left].
  - exists x. split; [done|]. right. left. auto.
  - exists x. split; [done|]. by right; right.
Qed.

Lemma kept_refl x q : waits q x -> kept x q.
Proof. intros H. exists x. split; [apply rtc_refl|done]. Qed.

Lemma keeps_on_flow_ok g : (forall f, in_q (g f) = in_q f /\ InboundReqChan (g f) = InboundReqChan f /\ in_running (g f) = in_running f) ->
  keeps (fun s : IF => ok (snd s)) (on_flow g).
Proof.
  intros Hg. apply keeps_modify. intros [j f] [Hq Ha]. destruct (Hg f) as (H1 & H2 & H3). split; cbn; [by rewrite H1|].
  revert Ha. apply accounted_queue; [unfold in_batch; intros x; by rewrite H2, H3|]. intros x Hx. rewrite H1. by apply kept_refl.
Qed.

(** Putting back: what was on hold is minted or in the map. *)
Lemma put_back_ok : keeps (fun s : IF => ok (snd s)) (on_mint putOnHoldBlockInBoundBack).
Proof.
  intros [j f] [Hq Ha]. unfold on_mint. cbn [snd] in *.
  set (s0 := mkMintState j (in_q f) (in_failed f) (in_wait f)).
  pose proof (putOnHoldBlockInBoundBack_wf s0 Hq) as Hq'.
  destruct (putOnHoldBlockInBoundBack_accounts s0 (proj1 Hnode) (proj2 Hnode)) as (s' & Hrun & Hh & Hall & Hk).
  rewrite Hrun in Hq' |- *. cbn [fst snd] in *.
  split; [exact Hq'|]. destruct Ha as (x & Hx & Hw). cbn [mint_q s0] in *.
  destruct Hw as [[[k Hkx]|Hhx]|Hw]; [| |exists x; by split; [|right]].
  - destruct (Hk k) as [Hl|(b & _ & Hb & Hl)].
    + exists x. split; [done|]. left. left. exists k. cbn. by rewrite Hl.
    + exists b. split; [eapply stands_for_index; [exact Hx|]|left; left; by exists k]. rewrite Hb. by apply (wf_index (in_q f)).
  - destruct (Hall x Hhx) as [Hm|(b & _ & Hl)]; [exists x; split; [done|by right; right]|].
    exists b. split; [eapply stands_for_index; [exact Hx|]|left; left; by eexists]. symmetry. by apply (wf_index (mint_q s')).
Qed.

(** Feeding: a popped request is in the batch, with its account. *)
Lemma feed_inbound_ok p : keeps (fun s : IF => ok (snd s)) (feed_inbound (Msg := Msg) p).
Proof.
  intros [j f] [Hq Ha]. split; [by apply (feed_inbound_wf p (j, f))|]. cbn [snd] in *. unfold feed_inbound, FeedTx_inbound.
  unfold lift, bind at 1. destruct (CheckWhetherSigner operator_address (Some p)) as [[]|e|]; cbn [negb]; [|by destruct f..].
  unfold bind at 1. destruct (queryAccount _ _) as [j' [acc|e|]]; [|by destruct f..].
  unfold bind at 1. destruct (InboundQueue.PopItem GroupSign (in_q f)) as [q' r] eqn:Ep.
  destruct (PopItem_moves (fun _ => true) GroupSign (in_q f) q' r Hq) as [Hh [[-> ->]|(items & -> & Hk & _)]]; [by vm_compute|exact Ep|by destruct f|].
  destruct Ha as (x & Hx & [[[k Hkx]|Hhx]|[(l & Hl & Hxl)|Hm]]).
  - destruct (Hk k x Hkx) as [Hk'|Hin]; [exists x; split; [done|]; left; left; by exists k|].
    destruct (assign_accounts_elem (acc_Number acc) (acc_Sequence acc) (acc_Address acc) (PoolPubKey p) items x Hin) as (y & Hy & He).
    exists y. split; [by eapply stands_for_hash|]. right. left. eexists. split; [|exact Hy]. cbn. set_solver.
  - exists x. split; [done|]. left. right. cbn. by rewrite Hh.
  - exists x. split; [done|]. right. left. exists l. split; [|done]. cbn. set_solver.
  - exists x. split; [done|]. by right; right.
Qed.
#[local] Hint Resolve put_back_ok feed_inbound_ok : keeps.
#[local] Hint Extern 1 (keeps (fun s => ok (snd s)) (on_flow _)) => apply keeps_on_flow_ok; intros f; by split_and! : keeps.

Lemma inbound_section_ok pool1 kg lh cur pb : keeps (fun s : IF => ok (snd s)) (inbound_section (Msg := Msg) pool1 kg lh cur pb).
Proof. unfold inbound_section. keep. Qed.

Lemma take_inbound_ok : keeps (fun s : IF => ok (snd s)) take_inbound.
Proof.
  intros [j f] [Hq Ha]. split; [by apply (take_inbound_wf (j, f))|]. revert Ha. cbn [snd].
  apply accounted_queue; cbn; [|intros x Hx; apply kept_refl; by destruct (InboundReqChan f)].
  unfold in_batch. intros x (l & Hl & Hx). exists l. split; [|done]. destruct (InboundReqChan f) as [|l0 c] eqn:Ec; cbn; [by rewrite Ec|].
  set_solver.
Qed.

(** The goroutine of a batch may only add to the on-hold queue. *)
Lemma processInbound_grows p h items : keeps (fun s : MintState J => pending (mint_q s) = p /\ h `prefix_of` onHold (mint_q s)) (processInbound (Msg := Msg) items).
Proof.
  set (P := fun s : MintState J => _).
  assert (forall A (m : M J A), keeps P (on_mnode m)) as Hn by (intros A m s H; unfold on_mnode; by destruct (m _)).
  assert (forall f, keeps P (set_failedIn f)) as Hf by (intros f; by apply keeps_modify).
  assert (forall b, keeps P (on_mq (AddOnHoldQueue b))) as Hh.
  { intros b s [H1 H2]. split; [exact H1|]. cbn. by apply prefix_app_r. }
  unfold processInbound, check_minted. repeat first [keep_step|apply Hn|apply Hf|apply Hh].
Qed.

Lemma finish_inbound_ok i : keeps (fun s : IF => ok (snd s)) (finish_inbound (Msg := Msg) i).
Proof.
  intros [j f] [Hq Ha]. split; [by apply (finish_inbound_wf i (j, f))|]. cbn [snd] in *. unfold finish_inbound.
  unfold bind at 1, get. cbn [snd]. destruct (in_running f !! i) as [items|] eqn:Ei; [|done].
  unfold bind, on_mint. set (s0 := mkMintState j (in_q f) (in_failed f) (in_wait f)).
  pose proof (processInbound_grows (pending (in_q f)) (onHold (in_q f)) items s0 (conj eq_refl (reflexivity _))) as [Hp [h Hh]].
  destruct (processInbound items s0) as [s' r] eqn:Er. cbn [fst] in *.
  assert (forall x, waits (in_q f) x -> waits (mint_q s') x) as Hw.
  { intros x [[k Hk]|Hx]; [left; exists k; by rewrite Hp|right; rewrite Hh; set_solver]. }
  destruct Ha as (x & Hx & [Hwx|[(l & Hl & Hxl)|Hm]]).
  - exists x. split; [done|]. left. apply Hw in Hwx. by destruct r as [[]|e|].
  - destruct r as [[]|e|]; [|exists x; split; [done|]; right; left; by exists l..].
    cbn -[delete]. destruct (decide (l = items)) as [->|Hne].
    + destruct (processInbound_accounts items s0 s' (proj1 Hnode) Er) as (held & Hq' & _ & Hall). destruct (Hall x Hxl) as [Hm|(y & Hy & He)].
      * exists x. split; [done|]. by right; right.
      * exists y. split; [by eapply stands_for_hash|]. left. right. cbn. rewrite Hq'. cbn. set_solver.
    + exists x. split; [done|]. right. left. exists l. split; [|done]. cbn. apply elem_of_app in Hl as [Hl|Hl]; [set_solver|].
      apply elem_of_app. right. rewrite <- (take_drop_middle _ _ _ Ei) in Hl. rewrite delete_take_drop. set_solver.
  - exists x. split; [done|]. right; right. done.
Qed.
End Flow.

(** *** Payouts *)

Section Payouts.
Context {W C J Msg : Type} `{EC : EthClient W C} `{TW : TssServer W} `{CN : CosmosNode J Msg} `{TJ : TssServer J} `{JS : JoltService J}.
Context `{G : EthSigner} `{S : SdkMath} `{N : SdkCoins} `{B : Bech32} `{E : Eth} `{LE : !EthLaws E} `{K : Backoff} `{KL : !BackoffLaws K} `{R : GoRuntime} `{LR : !GoRuntimeLaws R}.
Context (attempts submits : nat) (HexToHash : string -> bytes).
#[local] Notation OF := (ChainInfo W C * J * OutFlow)%type.
#[local] Notation PS := (PayState W J C).

(** The requests a flow holds outside the map. *)
Definition loose (f : OutFlow) : list OutBoundReq := (onHold (out_q f) ++ concat (OutboundReqChan f ++ out_running f))%list.

(** What may end the life of a payout: it was paid, a confirmed transaction is
    noted in it, or the joltify chain has an open record of it. *)
Definition discharged (k : string) : Prop :=
  exists x, OutBoundReq_Index x = Ret k /\
    ((exists v resp, settled (W := W) (C := C) (J := J) attempts HexToHash v resp x \/ record_open (J := J) v x) \/
     (SubmittedTxHash x <> Hash_Hex zero_hash /\ confirmed (W := W) (C := C) HexToHash (SubmittedTxHash x))).

Definition payout_accounted (k : string) (f : OutFlow) : Prop :=
  is_Some (pending (out_q f) !! k) \/ (exists x, x ∈ loose f /\ OutBoundReq_Index x = Ret k) \/ discharged k.

(** No call of the public chain's client panics, and it answers nonce queries. *)
Definition client_answers : Prop :=
  client_total (W := W) (C := C) /\ (forall (cl : C) a w, is_ret (PendingNonceAt cl a w).2 = true).

(** The key of a pool has an address on the public chains. *)
Definition has_address (p : PoolInfo) : Prop := exists a, PoolPubKeyToEthAddress (PoolPubKey (pi_PoolInfo p)) = Ret a.
Definition pools_have_address (s : Slots) : Prop := forall p, slot0 s = Some p \/ slot1 s = Some p -> has_address p.

(** Every request outside the map has an index. *)
Definition indexed (l : list OutBoundReq) : Prop := Forall (fun x => exists k, OutBoundReq_Index x = Ret k) l.

Context (Hclient : client_answers) (k : string).

Definition pay_ok (f : OutFlow) : Prop := queue_wf (out_q f) /\ indexed (loose f) /\ payout_accounted k f.

Lemma CheckTxStatus_no_panic hash (c : ChainInfo W C) : (PubClient.CheckTxStatus HexToHash hash c).2 <> Panic.
Proof.
  destruct Hclient as [(_ & Hr & _) _]. unfold PubClient.CheckTxStatus. rewrite Retry_spec by lia. generalize 0 30%nat. intros st n.
  assert (snd (retry_loop n (check_status_op (HexToHash hash)) (c, st)) <> Panic) as Hn.
  { assert (forall c st, snd (check_status_op (HexToHash hash) (c, st)) <> Panic) as Hop.
    { clear c st. intros c st. unfold check_status_op, checkEachTx, getTransactionReceiptWithLock, bind.
      rewrite (locked_total (fun cl => ReceiptStatus cl (HexToHash hash)) c) by apply Hr. specialize (Hr (Client c) (HexToHash hash) (node c)).
      destruct (ReceiptStatus _ _ _) as [w [x|e|]]; cbn in *; [done| |done]. by destruct (negb _). }
    revert c st. induction n as [|n IH]; intros c st; pose proof (Hop c st) as Hcs; revert Hcs; cbn [retry_loop];
      destruct (check_status_op _ _) as [[c' st'] [[]|e|]]; intros Hcs; first [discriminate|exact Hcs|apply IH]. }
  destruct (retry_loop _ _ _) as [[c' st'] [[]|e|]]; cbn in *; [by case_match|done|done].
Qed.

Lemma nonce_answered addr (c : ChainInfo W C) : exists c' n, getPendingNonceWithLock addr c = (c', Ret n).
Proof.
  destruct Hclient as [(_ & _ & _ & _ & Hp & _) Hn]. unfold getPendingNonceWithLock, bind.
  rewrite (locked_total (fun cl => PendingNonceAt cl addr) c) by apply Hp. specialize (Hn (Client c) addr (node c)).
  destruct (PendingNonceAt _ _ _) as [w [n|e|]]; try discriminate Hn. eexists _, n. reflexivity.
Qed.

Lemma pay_ok_intro f f' : queue_wf (out_q f') ->
  (forall x, x ∈ loose f' -> x ∈ loose f \/ exists k', OutBoundReq_Index x = Ret k') ->
  (is_Some (pending (out_q f) !! k) -> payout_accounted k f') ->
  (forall x, x ∈ loose f -> OutBoundReq_Index x = Ret k -> payout_accounted k f') ->
  pay_ok f -> pay_ok f'.
Proof.
  intros Hq Hl Hp Hlk (_ & Hi & Ha). split; [done|]. split.
  - apply Forall_forall. intros x Hx. destruct (Hl x Hx) as [Hx'|?]; [|done]. unfold indexed in Hi. rewrite Forall_forall in Hi. auto.
  - destruct Ha as [?|[(x & Hx & Hk)|?]]; [auto|by eapply Hlk|by right; right].
Qed.

Lemma keeps_on_out_ok g : (forall f, out_q (g f) = out_q f /\ OutboundReqChan (g f) = OutboundReqChan f /\ out_running (g f) = out_running f) ->
  keeps (fun s : OF => pay_ok (snd s)) (Flow.on_out g).
Proof.
  intros Hg. apply keeps_modify. intros [[c j] f] H. cbn in *. destruct (Hg f) as (H1 & H2 & H3).
  assert (loose (g f) = loose f) as Hl by (unfold loose; by rewrite H1, H2, H3).
  destruct H as (Hq & Hi & Ha). unfold pay_ok, payout_accounted. rewrite H1, Hl. done.
Qed.
Lemma keeps_oclient_ok {A} (m : M (ChainInfo W C) A) : keeps (fun s : OF => pay_ok (snd s)) (on_oclient m).
Proof. intros [[c j] f] H. unfold on_oclient. by destruct (m _). Qed.
Lemma keeps_olift_ok {A} (g : OutFlow -> outcome A) : keeps (fun s : OF => pay_ok (snd s)) (olift g).
Proof. by intros [[c j] f] H. Qed.

(** What putting back does to a list of held requests. *)
Definition back_in (l : list OutBoundReq) (s s' : PS) : Prop :=
  onHold (pay_q s') = onHold (pay_q s) /\
  (is_Some (pending (pay_q s) !! k) -> is_Some (pending (pay_q s') !! k)) /\
  (forall x, x ∈ l -> OutBoundReq_Index x = Ret k -> is_Some (pending (pay_q s') !! k) \/ discharged k).

Lemma put_back_all l (s : PS) : indexed l -> exists s', forM l (put_back_one HexToHash) s = (s', Ret tt) /\ back_in l s s'.
Proof.
  revert s. induction l as [|a l IH]; intros s Hi; cbn [forM].
  { exists s. split; [done|]. split; [done|]. split; [done|]. by intros x ?%not_elem_of_nil. }
  apply Forall_cons in Hi as [[ka Hka] Hi]. destruct (put_back_one_spec HexToHash a ka s Hka CheckTxStatus_no_panic) as (s1 & H1 & Hs1).
  destruct (IH s1 Hi) as (s' & H' & Hh & Hp & Hl). exists s'. rewrite (bind_ret_run _ _ _ _ _ H1). split; [done|].
  destruct Hs1 as [(Hq & Hz & Hc)|Hq]; rewrite Hq in Hh, Hp; cbn [pending onHold] in *.
  - split; [done|]. split; [done|]. intros x Hx Hk. apply elem_of_cons in Hx as [->|Hx]; [|exact (Hl x Hx Hk)]. right. exists a. split; [done|]. by right.
  - split; [done|]. split.
    + intros Hs. apply Hp. destruct (decide (k = ka)) as [->|Hne]; [rewrite lookup_insert_eq; eauto|by rewrite lookup_insert_ne].
    + intros x Hx Hk. apply elem_of_cons in Hx as [->|Hx]; [|exact (Hl x Hx Hk)]. left. apply Hp. rewrite Hka in Hk. injection Hk as ->.
      rewrite lookup_insert_eq. eauto.
Qed.

(** Either the node cannot be dialled and nothing happens, or all are put back. *)
Lemma put_back_round (s : PS) : indexed (onHold (pay_q s)) ->
  exists s' r, putOnHoldBlockOutBoundBack HexToHash s = (s', r) /\
    (pay_q s' = pay_q s \/
     onHold (pay_q s') = [] /\ (is_Some (pending (pay_q s) !! k) -> is_Some (pending (pay_q s') !! k)) /\
     (forall x, x ∈ onHold (pay_q s) -> OutBoundReq_Index x = Ret k -> is_Some (pending (pay_q s') !! k) \/ discharged k)).
Proof.
  intros Hi. unfold putOnHoldBlockOutBoundBack. destruct (on_pjolt DialGrpc s) as [s1 r] eqn:Ed.
  assert (try (on_pjolt DialGrpc) s = (s1, ocatch r)) as Ht by (unfold try; by rewrite Ed).
  apply on_pjolt_inv in Ed as (Hq1 & _ & _). destruct r as [[]|e|]; cbn [ocatch] in Ht.
  - rewrite (bind_ret_run _ _ _ _ _ Ht). set (s2 := mkPayState (p_chain s1) (p_jolt s1) (mkQueue (pending (pay_q s)) []) (failedOutbound s1) (outBoundWait s1)).
    assert (on_pq DumpQueue s1 = (s2, Ret (onHold (pay_q s)))) as Hd by (unfold on_pq; rewrite DumpQueue_ret, Hq1; done).
    rewrite (bind_ret_run _ _ _ _ _ Hd). destruct (put_back_all _ s2 Hi) as (s' & Hrun & Hh & Hp & Hl).
    exists s', (Ret tt). split; [exact Hrun|]. right. done.
  - rewrite (bind_ret_run _ _ _ _ _ Ht). exists s1, (Ret tt). split; [done|]. by left.
  - exists s1, Panic. split; [unfold bind; by rewrite Ht|]. by left.
Qed.

Lemma put_back_out_ok : keeps (fun s : OF => pay_ok (snd s)) (on_pay (putOnHoldBlockOutBoundBack HexToHash)).
Proof.
  intros [[c j] f] Hok. pose proof (keeps_on_pay_wf _ (putOnHoldBlockOutBoundBack_wf HexToHash) (c, j, f) (proj1 Hok)) as Hw. revert Hw.
  cbn [snd] in Hok. unfold out_wf, on_pay. destruct (put_back_round (mkPayState c j (out_q f) (out_failed f) (out_wait f))) as (s' & r & Hrun & Hs).
  { destruct Hok as (_ & Hi & _). unfold indexed, loose in *. by apply Forall_app in Hi as []. }
  cbn [pay_q] in Hs. rewrite Hrun. cbn [fst snd]. intros Hw. destruct Hs as [Hs|(Hh & Hp & Hl)]; [rewrite Hs; by destruct f|].
  revert Hok. apply pay_ok_intro; [exact Hw|..].
  - intros x. unfold loose. cbn. rewrite Hh. cbn. intros Hx. left. apply elem_of_app. by right.
  - intros Hsome. left. cbn. auto.
  - intros x Hx Hk. unfold loose in Hx. apply elem_of_app in Hx as [Hx|Hx].
    + destruct (Hl x Hx Hk); [by left|by right; right].
    + right. left. exists x. split; [|done]. unfold loose. cbn. apply elem_of_app. by right.
Qed.

(** Feeding: a popped payout is in the batch, with its nonce. *)
Lemma assign_nonces_elem addr n l x : x ∈ l -> exists y, y ∈ assign_nonces addr n l /\ OutBoundReq_Index y = OutBoundReq_Index x.
Proof.
  intros Hx. revert n. induction Hx as [x l|x z l _ IH]; intros n; cbn [assign_nonces].
  - exists (SetItemNonce addr n x). split; [left|done].
  - destruct (IH (u64 (n + 1))) as (y & Hy & He). exists y. split; [by right|done].
Qed.

Lemma FeedTx_outbound_ret pool l (c : ChainInfo W C) : has_address pool ->
  exists c' addr n, FeedTx_outbound (pi_PoolInfo pool) l c = (c', Ret (assign_nonces addr n l)).
Proof.
  intros [addr Ha]. destruct (nonce_answered addr c) as (c' & n & Hn). exists c', addr, n.
  unfold FeedTx_outbound. rewrite Ha. unfold bind, lift. by rewrite Hn.
Qed.

Lemma SetHeight_after ht p p' v h : GetHeight ht p = Ret v -> exists q, SetHeight h ht p' = Ret q.
Proof. unfold GetHeight, SetHeight. repeat case_bool_decide; eauto; discriminate. Qed.

(** The end of the outbound section, from the pop on. *)
Definition pop_and_feed (pool1 : PoolInfo) (headType : string) (pb : Z) : M OF unit :=
  let! outboundItems := on_outq (OutboundQueue.PopItem GroupSign headType) in
  match outboundItems with
  | None => ret tt
  | Some outboundItems =>
      let! r := try (on_oclient (FeedTx_outbound (pi_PoolInfo pool1) outboundItems)) in
      match r with
      | inr _ => ret tt
      | inl outboundItems =>
          let! p := olift (fun f => SetHeight (i64 pb) headType (previousTssBlockOutBound f)) in
          do! Flow.on_out (out_set_prev p) in
          do! Flow.on_out (out_set_first true) in
          do! Flow.on_out (fun f => out_set_chan (OutboundReqChan f ++ [outboundItems]) (out_running f) f) in
          Flow.on_out (out_set_done false)
      end
  end.

(** What it leaves: the variables as they were, or a batch added to the channel. *)
Lemma pop_and_feed_spec pool1 ht pb p v (c : ChainInfo W C) (j : J) f :
  queue_wf (out_q f) -> has_address pool1 -> GetHeight ht p = Ret v ->
  exists s' r, pop_and_feed pool1 ht pb (c, j, f) = (s', r) /\
    (snd s' = f \/ exists q items addr n,
      OutboundQueue.PopItem GroupSign ht (out_q f) = (q, Ret (Some items)) /\ out_q (snd s') = q /\
      OutboundReqChan (snd s') = (OutboundReqChan f ++ [assign_nonces addr n items])%list /\ out_running (snd s') = out_running f).
Proof.
  intros Hq Ha Hv. unfold pop_and_feed. destruct (OutboundQueue.PopItem GroupSign ht (out_q f)) as [q r] eqn:Ep.
  destruct (PopItem_moves (fun a => bool_decide (Requests.ChainType a = ht)) GroupSign (out_q f) q r Hq) as [_ [[-> ->]|(items & -> & _)]]; [by vm_compute|exact Ep|..].
  - assert (on_outq (OutboundQueue.PopItem GroupSign ht) (c, j, f) = ((c, j, f), Ret None)) as H by (unfold on_outq; rewrite Ep; by destruct f).
    rewrite (bind_ret_run _ _ _ _ _ H). eexists _, _. split; [reflexivity|]. by left.
  - set (f1 := out_set_q q f).
    assert (on_outq (OutboundQueue.PopItem GroupSign ht) (c, j, f) = ((c, j, f1), Ret (Some items))) as H by (unfold on_outq; by rewrite Ep).
    rewrite (bind_ret_run _ _ _ _ _ H). destruct (FeedTx_outbound_ret pool1 items c Ha) as (c' & addr & n & Hf).
    assert (try (on_oclient (FeedTx_outbound (pi_PoolInfo pool1) items)) (c, j, f1) = ((c', j, f1), Ret (inl (assign_nonces addr n items)))) as H1
      by (unfold try, on_oclient; by rewrite Hf).
    rewrite (bind_ret_run _ _ _ _ _ H1). destruct (SetHeight_after ht p (previousTssBlockOutBound f1) v (i64 pb) Hv) as [p' Hp'].
    assert (olift (fun f => SetHeight (i64 pb) ht (previousTssBlockOutBound f)) (c', j, f1) = ((c', j, f1), Ret p')) as H2 by (unfold olift; by rewrite Hp').
    rewrite (bind_ret_run _ _ _ _ _ H2). eexists _, _. split; [reflexivity|]. right. exists q, items, addr, n. by split_and!.
Qed.

Lemma pop_and_feed_ok pool1 ht pb p v : has_address pool1 -> GetHeight ht p = Ret v -> keeps (fun s : OF => pay_ok (snd s)) (pop_and_feed pool1 ht pb).
Proof.
  intros Ha Hv [[c j] f] Hok. cbn [snd] in Hok. pose proof (proj1 Hok) as Hq.
  destruct (pop_and_feed_spec pool1 ht pb p v c j f Hq Ha Hv) as (s' & r & -> & [He|(q & items & addr & n & Ep & H1 & H2 & H3)]); cbn [fst]; [by rewrite He|].
  destruct (PopItem_moves (fun a => bool_decide (Requests.ChainType a = ht)) GroupSign (out_q f) q (Ret (Some items)) Hq) as [Hh [[He _]|(items' & He & Hk & Hin)]]; [by vm_compute|exact Ep|discriminate He|injection He as <-].
  assert (forall x, x ∈ loose f -> x ∈ loose (snd s')) as Hl.
  { intros x. unfold loose. rewrite H1, H2, H3, Hh, !concat_app. rewrite !elem_of_app. tauto. }
  assert (forall x, x ∈ items -> exists y, y ∈ loose (snd s') /\ OutBoundReq_Index y = OutBoundReq_Index x) as Hb.
  { intros x (y & Hy & He)%(assign_nonces_elem addr n). exists y. split; [|done]. unfold loose. rewrite H2, !concat_app. cbn [concat]. rewrite app_nil_r, !elem_of_app. tauto. }
  revert Hok. apply pay_ok_intro.
  - rewrite H1. pose proof (OutPopItem_keeps_wf GroupSign ht _ Hq) as Hw. by rewrite Ep in Hw.
  - intros x Hx. unfold loose in Hx. rewrite H1, H2, H3, Hh, !concat_app in Hx. cbn [concat] in Hx. rewrite app_nil_r, !elem_of_app in Hx.
    destruct Hx as [Hx|[[Hx|Hx]|Hx]]; [left..| |left]; try (unfold loose; rewrite concat_app, !elem_of_app; tauto).
    right. apply list_elem_of_lookup in Hx as [i Hi]. apply assign_nonces_lookup in Hi as (el & Hel & ->).
    destruct (Hin el) as [k' Hk']; [by eapply list_elem_of_lookup_2|]. exists k'. apply (Hq k' el Hk').
  - intros [x Hx]. destruct (Hk k x Hx) as [Hp|Hi]; [left; rewrite H1; eauto|]. right. left. destruct (Hb x Hi) as (y & Hy & He).
    exists y. split; [done|]. rewrite He. apply (Hq k x Hx).
  - intros x Hx Hi. right. left. exists x. auto.
Qed.

Lemma keeps_olift_bind {A D} (P : OF -> Prop) (g : OutFlow -> outcome A) (m : A -> M OF D) :
  (forall f v, g f = Ret v -> keeps P (m v)) -> keeps P (bind (olift g) m).
Proof. intros H [[c j] f] Hs. unfold bind, olift. destruct (g f) as [v|e|] eqn:Eg; [by eapply H|done..]. Qed.

#[local] Hint Resolve put_back_out_ok keeps_olift_ok : keeps.
#[local] Hint Extern 1 (keeps (fun s => pay_ok (snd s)) (Flow.on_out _)) => apply keeps_on_out_ok; intros ?; by split_and! : keeps.

Lemma outbound_section_ok pool1 kg ht lh pb : has_address pool1 ->
  keeps (fun s : OF => pay_ok (snd s)) (outbound_section HexToHash pool1 kg ht lh pb).
Proof.
  intros Ha. unfold outbound_section.
  repeat match goal with
    | |- keeps _ (bind (olift (fun f => GetHeight ?ct (previousTssBlockOutBound f))) _) => apply keeps_olift_bind; intros ? ? Hv
    | |- keeps _ (bind (on_outq _) _) => by eapply pop_and_feed_ok
    | _ => keep_step
    end.
Qed.

Lemma take_outbound_ok : keeps (fun s : OF => pay_ok (snd s)) take_outbound.
Proof.
  intros [[c j] f] Hok. pose proof (take_outbound_wf (c, j, f) (proj1 Hok)) as Hw. revert Hok. apply pay_ok_intro; [exact Hw|..]; cbn.
  - intros x Hx. left. revert Hx. destruct (OutboundReqChan f) as [|l ch] eqn:Ec; [done|]. unfold loose. cbn. rewrite Ec, !concat_app. cbn.
    rewrite app_nil_r, !elem_of_app. tauto.
  - intros Hs. left. by destruct (OutboundReqChan f).
  - intros x Hx Hk. right. left. exists x. split; [|done]. revert Hx. destruct (OutboundReqChan f) as [|l ch] eqn:Ec; [done|].
    unfold loose. cbn. rewrite Ec, !concat_app. cbn. rewrite app_nil_r, !elem_of_app. tauto.
Qed.

(** The goroutine of a batch only adds requests of the batch to the on-hold queue. *)
Definition grown (l : list OutBoundReq) (q0 : ItemQueue OutBoundReq) (s : PS) : Prop :=
  exists held, pay_q s = mkQueue (pending q0) (onHold q0 ++ held) /\ forall h, h ∈ held -> exists a x, a ∈ l /\ h = SetSubmittedTxHash x a.

Lemma outbound_workers_grow pools resp i l l0 q0 : (forall a, a ∈ l -> a ∈ l0) ->
  keeps (grown l0 q0) (outbound_workers (Msg := Msg) (J := J) attempts submits HexToHash pools resp i l).
Proof.
  assert (forall A (m : M (ChainInfo W C) A), keeps (grown l0 q0) (on_pchain (J := J) m)) as Hc by (intros A m s H; unfold on_pchain; by destruct (m _)).
  assert (forall A (m : M J A), keeps (grown l0 q0) (on_pjolt (W := W) (C := C) m)) as Hj by (intros A m s H; unfold on_pjolt; by destruct (m _)).
  assert (forall f, keeps (grown l0 q0) (set_failedOut (W := W) (J := J) (C := C) f)) as Hf by (intros f; by apply keeps_modify).
  assert (forall a x, a ∈ l0 -> keeps (grown l0 q0) (@on_pq W J C unit (AddOnHoldQueue (SetSubmittedTxHash x a)))) as Hq.
  { intros a x Ha s (held & Hs & Hh). exists (held ++ [SetSubmittedTxHash x a])%list. cbn. rewrite Hs. cbn. rewrite app_assoc. split; [done|].
    intros h. rewrite elem_of_app, list_elem_of_singleton. intros [?| ->]; eauto. }
  revert i. induction l as [|a l IH]; intros i Hl; cbn [outbound_workers]; [keep|]. apply keeps_bind.
  - unfold outbound_worker. repeat first [keep_step|apply Hc|apply Hj|apply Hf|apply Hq; apply Hl; left].
  - intros _. apply IH. intros b Hb. apply Hl. by right.
Qed.

Lemma to_process_queue v l q0 : keeps (fun s : PS => pay_q s = q0) (to_process HexToHash v l).
Proof.
  assert (forall A (m : M (ChainInfo W C) A), keeps (fun s : PS => pay_q s = q0) (on_pchain m)) as Hc by (intros A m s H; unfold on_pchain; by destruct (m _)).
  assert (forall A (m : M J A), keeps (fun s : PS => pay_q s = q0) (on_pjolt m)) as Hj by (intros A m s H; unfold on_pjolt; by destruct (m _)).
  induction l as [|a l IH]; cbn [to_process]; unfold needs_processing; repeat first [keep_step|apply Hc|apply Hj|apply IH].
Qed.

Lemma outbound_round_grows pools v resp items (s : PS) :
  grown items (pay_q s) (fst (outbound_round (Msg := Msg) attempts submits HexToHash pools v resp items s)).
Proof.
  assert (forall s1 : PS, pay_q s1 = pay_q s -> grown items (pay_q s) s1) as H0.
  { intros s1 H1. exists []. rewrite app_nil_r, H1. split; [by destruct (pay_q s)|]. by intros h ?%not_elem_of_nil. }
  unfold outbound_round, bind. pose proof (to_process_queue v items (pay_q s) s eq_refl) as Hq.
  destruct (to_process HexToHash v items s) as [s1 [todo|e|]] eqn:E1; cbn [fst] in *; [|by apply H0..].
  apply (to_process_spec (J := J) attempts HexToHash v None) in E1 as (_ & Hsub & _). destruct todo as [|t todo]; [by apply H0|].
  by apply outbound_workers_grow; [|apply H0].
Qed.

Lemma elem_of_concat {A} (x : A) ls : x ∈ concat ls <-> exists l, l ∈ ls /\ x ∈ l.
Proof.
  induction ls as [|l ls IH]; cbn; [split; [by intros ?%not_elem_of_nil|by intros (l & ?%not_elem_of_nil & _)]|].
  rewrite elem_of_app, IH. split; [intros [?|(l' & ? & ?)]; eexists; (split; [|done]); [left|by right]|].
  intros (l' & [->|?]%elem_of_cons & ?); [by left|right; eauto].
Qed.

Lemma elem_of_delete {A} (x : A) ls i l : ls !! i = Some l -> x ∈ concat ls <-> x ∈ l \/ x ∈ concat (delete i ls).
Proof.
  intros Hi. rewrite <- (take_drop_middle _ _ _ Hi) at 1. rewrite delete_take_drop, !concat_app. cbn. rewrite !elem_of_app. tauto.
Qed.

(** When a goroutine ends or dies, its batch is settled, recorded or on hold. *)
Lemma finish_outbound_ok pools v resp i :
  keeps (fun s : OF => pay_ok (snd s)) (finish_outbound (Msg := Msg) attempts submits HexToHash pools v resp i).
Proof.
  intros [[c j] f] Hok. cbn [snd] in Hok. pose proof (finish_outbound_wf attempts submits HexToHash pools v resp i (c, j, f) (proj1 Hok)) as Hw.
  revert Hw. unfold out_wf, finish_outbound, bind at 1 3, get. cbn [snd].
  destruct (out_running f !! i) as [items|] eqn:Ei; [|done]. unfold bind, on_pay.
  set (s0 := mkPayState c j (out_q f) (out_failed f) (out_wait f)).
  pose proof (outbound_round_grows pools v resp items s0) as (held & Hq & Hh).
  pose proof (fun x => elem_of_delete x (out_running f) i items Ei) as Hel. pose proof Hok as (_ & Hi & _).
  assert (forall h, h ∈ held -> exists k', OutBoundReq_Index h = Ret k') as Hheld.
  { intros h (a & x & Ha & ->)%Hh. unfold indexed in Hi. rewrite Forall_forall in Hi. apply (Hi a). unfold loose.
    rewrite concat_app, !elem_of_app, Hel. auto. }
  destruct (outbound_round attempts submits HexToHash pools v resp items s0) as [s' r] eqn:Er. cbn [fst s0 pay_q] in Hq.
  assert (forall g, pending (out_q g) = pending (out_q f) -> onHold (out_q g) = (onHold (out_q f) ++ held)%list ->
    OutboundReqChan g = OutboundReqChan f -> queue_wf (out_q g) ->
    (forall x, x ∈ concat (out_running g) -> x ∈ concat (out_running f)) ->
    (forall x, x ∈ concat (out_running f) -> x ∈ concat (out_running g) \/ (OutBoundReq_Index x = Ret k -> payout_accounted k g)) -> pay_ok g) as Hend.
  { intros g H1 H2 H3 H4 H5 H6. revert Hok. apply pay_ok_intro; [exact H4|..].
    - intros x. unfold loose. rewrite H2, H3, !concat_app, !elem_of_app. intros [[Hx|Hx]|[Hx|Hx]]; auto.
    - intros Hs. left. by rewrite H1.
    - intros x Hx Hk. assert (x ∈ loose g \/ payout_accounted k g) as [Hl|?]; [|right; left; by exists x|done].
      revert Hx. unfold loose. rewrite H2, H3, !concat_app, !elem_of_app. intros [Hx|[Hx|Hx]]; [auto..|]. destruct (H6 x Hx); auto 6. }
  destruct r as [[]|e|]; intros Hw; apply Hend; try exact Hw; cbn -[delete]; try (by rewrite Hq); try done.
  - intros x Hx. apply Hel. by right.
  - intros x [Hx|Hx]%Hel; [right|by left]. intros Hk.
    destruct (outbound_round_accounts attempts submits HexToHash pools v resp items s0 s' Er) as (held' & Hq' & _ & Hall).
    destruct (Hall x Hx) as [[h Hheld']|Hset].
    + right. left. exists (SetSubmittedTxHash h x). split; [|done]. unfold loose. cbn -[delete]. rewrite Hq'. cbn -[delete]. rewrite !elem_of_app. auto.
    + right. right. exists x. split; [done|]. left. by exists v, resp.
  - auto.
  - auto.
Qed.

Lemma AddItem_pay_ok x f : keeps (fun q => pay_ok (out_set_q q f)) (AddItem x).
Proof.
  intros q Hok. pose proof (AddItem_keeps_wf x _ (proj1 Hok)) as Hw. revert Hok. apply pay_ok_intro; [exact Hw|..].
  all: unfold AddItem, bind, lift; destruct (Index x) as [kx|e|] eqn:Ex; cbn; try (by intros y Hy; left); try (intros y Hy Hk; right; left; by exists y).
  all: intros Hs; left; try exact Hs.
  - cbn. destruct (decide (k = kx)) as [->|Hne]; [rewrite lookup_insert_eq; eauto|by rewrite lookup_insert_ne].
Qed.

Lemma jolt_UpdatePool_address el : keeps pools_have_address (jolt_UpdatePool el).
Proof.
  intros s Hs. unfold jolt_UpdatePool, bind, try, lift, get, modify.
  destruct (PoolPubKeyToEthAddress (PoolPubKey el)) as [a|e|] eqn:Ea; cbn; [|done..].
  destruct (PoolPubKeyToOppyAddress (PoolPubKey el)) as [o|e|]; cbn; [|done..].
  intros p [Hp|Hp]; [|injection Hp as <-; by exists a].
  apply Hs. cbn in Hp. destruct (slot1 s); auto.
Qed.
End Payouts.

(** ** Properties *)

Section Properties.
Context {W C J Msg : Type} `{EC : EthClient W C} `{TW : TssServer W} `{CN : CosmosNode J Msg} `{TJ : TssServer J} `{JS : JoltService J}.
Context `{JB : JoltBlocks J} `{JCn : JoltConnection J} `{KG : KeygenServer J Msg}.
Context `{G : EthSigner} `{S : SdkMath} `{N : SdkCoins} `{B : Bech32} `{E : Eth} `{LE : !EthLaws E} `{K : Backoff} `{KL : !BackoffLaws K}.
Context `{R : GoRuntime} `{LR : !GoRuntimeLaws R} `{AB : TokenAbi} `{JH : !JoltHandler} `{MC : MemoCodec} `{JN : !JoltNode}.
Context (attempts submits : nat) (HexToHash : string -> bytes).
Context (GetConsAddress : bytes -> bytes) (Address_String : bytes -> string) (myValidatorKey : string).
Context (ReadFile : outcome bytes) (Unmarshal : bytes -> outcome (list TokenItem)).
Context (feeModule : gmap string FeeModule) (oppyRollbackGap pubRollbackGap : Z).
#[local] Notation BR := (Bridge W C J Msg).
#[local] Notation reached := (reached (W := W) (C := C) (J := J) (Msg := Msg) attempts submits HexToHash GetConsAddress Address_String
  myValidatorKey ReadFile Unmarshal feeModule oppyRollbackGap pubRollbackGap).


End Properties.

(** ** Witnesses *)

Section Witnesses.
#[local] Existing Instance eth_client_ref.
#[local] Existing Instance tss_ref.
#[local] Existing Instance cosmos_ref.
#[local] Existing Instance tss_cos_ref.
#[local] Existing Instance EventLoop.blocks_ref.
#[local] Existing Instance EventLoop.connection_ref.
#[local] Existing Instance EventLoop.keygen_ref.
#[local] Existing Instance eth_signer_ref.
#[local] Existing Instance sdk_math_ref.
#[local] Existing Instance sdk_coins_ref.
#[local] Existing Instance bech32_ref.
#[local] Existing Instance eth_ref.
#[local] Existing Instance backoff_ref.
#[local] Existing Instance go_runtime_ref.
#[local] Existing Instance abi_ref.
#[local] Existing Instance handler_ref.

#[local] Notation step_ref e st := (handle (C := unit) (JS := jolt_ref true) (MC := memo_ref "JOLTIFY") (JN := node_ref "BSC")
  4 3 (fun _ => []) (fun b => b) hex_EncodeToString "" (Fail "no file") (fun _ => Fail "no file") ∅ 3 3 e st).

End Witnesses.

Section PayWitness.
#[local] Existing Instance confirming_ref.
#[local] Existing Instance Processing.tss_bool_ref.
#[local] Existing Instance cosmos_ref.
#[local] Existing Instance tss_cos_ref.
#[local] Existing Instance EventLoop.blocks_ref.
#[local] Existing Instance EventLoop.connection_ref.
#[local] Existing Instance EventLoop.keygen_ref.
#[local] Existing Instance eth_signer_ref.
#[local] Existing Instance sdk_math_ref.
#[local] Existing Instance sdk_coins_ref.
#[local] Existing Instance bech32_ref.
#[local] Existing Instance eth_ref.
#[local] Existing Instance backoff_ref.
#[local] Existing Instance go_runtime_ref.
#[local] Existing Instance abi_ref.
#[local] Existing Instance handler_ref.

#[local] Definition paying_chain : ChainInfo bool unit := mkChainInfo true tt "ws" "0xc0" "BSC" (Some 56) 0 false 0 [] [].
#[local] Definition paying_bridge : Bridge bool unit cos_world string :=
  mkBridge paying_chain paying_chain ([], []) (mkPoolState EventLoop.caches EventLoop.caches ∅)
    (mkInFlow empty_queue [] [] 0 0 false true false 100) Flow.pay_flow NewValidator [] false [] (mkTokenList ∅ ∅ 20) 0.

#[local] Notation pay_step e st := (handle (C := unit) (JS := jolt_ref true) (MC := memo_ref "JOLTIFY") (JN := node_ref "BSC")
  4 3 (fun _ => []) (fun b => b) hex_EncodeToString "" (Fail "no file") (fun _ => Fail "no file") ∅ 3 3 e st).

End PayWitness.
