(* ===== verification/Progress.v ===== *)
(** * Every waiting deposit gets its turn

    From every state of the mint flow in which no batch is under way, however
    many failures have been counted and whatever pause is set, blocks of the
    joltify chain feed the waiting deposits batch by batch until none waits,
    as long as the node answers and no round crashes.  The heights at which
    this happens are bounded. *)

From Stdlib Require Import Ascii String.
From S2P Require Import Prelude GoLib Sdk Requests Fees ItemQueue TokenList Signature MoveFundQueue Pools Validators PubClient Keysign Goroutine TxSend MoveFund Inbound Outbound CosTx Keygen Processing MintRound Flow JoltClient EventLoop Wellformed Lifecycle.

#[local] Open Scope string_scope.
#[local] Open Scope Z_scope.
#[local] Open Scope go_scope.

(** ** Definitions *)

Section MintRuns.
Context {J Msg : Type} `{CN : CosmosNode J Msg} `{T : TssServer J} `{JS : JoltService J} `{S : SdkMath} `{N : SdkCoins} `{B : Bech32} `{E : Eth}.
Context `{K : Backoff} `{R : GoRuntime}.
(** The pool, and the gap of the service ([oppyRollbackGap]). *)
Context (p : PoolInfo) (gap : Z).
#[local] Notation IF := (J * InFlow)%type.

(** The end of the case of a joltify block at height [h], without a key
    generation. *)
Definition block (h : Z) : M IF unit := inbound_section (Msg := Msg) (Some p) false h h (i64 (h - gap)).

(** Blocks of increasing height, the taking of a batch, the end of its
    goroutine; the height is that of the last block. *)
Inductive mint_run : Z -> IF -> Z -> IF -> Prop :=
| run_end h s : mint_run h s h s
| run_block h h1 h2 s s1 s2 : h < h1 -> block h1 s = (s1, Ret tt) -> mint_run h1 s1 h2 s2 -> mint_run h s h2 s2
| run_take h h2 s s1 s2 : take_inbound s = (s1, Ret tt) -> mint_run h s1 h2 s2 -> mint_run h s h2 s2
| run_finish h h2 s s1 s2 : finish_inbound (Msg := Msg) 0 s = (s1, Ret tt) -> mint_run h s1 h2 s2 -> mint_run h s h2 s2.

(** No batch is under way. *)
Definition mint_idle (f : InFlow) : Prop := inBoundProcessDone f = true /\ InboundReqChan f = [] /\ in_running f = [].

(** The node can be dialled and tells the pool's account, this node is one of
    its signers, and no call of a round panics. *)
Definition node_works : Prop :=
  (forall w : J, exists w', DialGrpc w = (w', Ret tt)) /\
  (forall w : J, exists w' acc, queryAccount (AccAddress_String (PoolAddr (pi_PoolInfo p))) w = (w', Ret acc)) /\
  CheckWhetherSigner operator_address (Some (pi_PoolInfo p)) = Ret true /\
  (forall items (s : MintState J), items <> [] -> (processInbound (Msg := Msg) items s).2 <> Panic).

(** The heights the flow remembers are up to [H]. *)
Definition heights_upto (H : Z) (f : InFlow) : Prop := 0 <= previousTssBlockInbound f <= H /\ inboundPauseHeight f <= H.
End MintRuns.

(** ** Lemmas *)

Section ProgressLemmas.
Context {J Msg : Type} `{CN : CosmosNode J Msg} `{T : TssServer J} `{JS : JoltService J} `{S : SdkMath} `{N : SdkCoins} `{B : Bech32} `{E : Eth} `{LE : !EthLaws E}.
Context `{K : Backoff} `{KL : !BackoffLaws K} `{R : GoRuntime} `{LR : !GoRuntimeLaws R}.
Context (p : PoolInfo) (gap : Z).
#[local] Notation IF := (J * InFlow)%type.
#[local] Notation block := (block (J := J) (Msg := Msg) p gap).
#[local] Notation mint_run := (mint_run (J := J) (Msg := Msg) p gap).
#[local] Notation node_works := (node_works (J := J) (Msg := Msg) p).

Lemma run_app h h1 h2 (s s1 s2 : IF) : mint_run h s h1 s1 -> mint_run h1 s1 h2 s2 -> mint_run h s h2 s2.
Proof. induction 1; [done|..]; intros; [eapply run_block|eapply run_take|eapply run_finish]; eauto. Qed.

Lemma round_end_hundred h : 0 <= h -> h mod 100 = 0 -> round_end h = h + 100.
Proof.
  intros H0 Hm. unfold round_end, bridge_ROUNDBLOCK. rewrite Z.quot_div_nonneg by lia. pose proof (Z.div_mod h 100). lia.
Qed.

(** After more than five failures the block sets the pause. *)
Lemma block_pauses h (j : J) f : 5 < in_failed f -> 0 <= h < 2 ^ 62 -> h mod 100 = 0 ->
  block h (j, f) = ((j, in_set_pause (h + 100) true (in_set_failed 0 f)), Ret tt).
Proof.
  intros Hf Hh Hm. unfold block, Progress.block, inbound_section, bind at 1, get at 1. cbn [snd].
  rewrite (proj2 (Z.ltb_lt 5 (in_failed f))) by lia. erewrite bind_ret_run by reflexivity. cbn [fst snd].
  unfold bind at 1, get at 1. cbn [snd in_set_pause inboundPauseHeight].
  rewrite round_end_hundred, i64_small by (unfold in_i64, MinInt64, MaxInt64, two63; lia).
  rewrite (proj2 (Z.ltb_lt h (h + 100))) by lia. rewrite (proj2 (Z.eqb_neq h (i64 (h + 100 - 1)))); [done|].
  rewrite i64_small by (unfold in_i64, MinInt64, MaxInt64, two63; lia). lia.
Qed.

(** The first block after a batch waits for a full one. *)
Lemma block_waits h (j : J) f : in_failed f <= 5 -> inboundPauseHeight f <= h -> IsEmpty (in_q f) = false ->
  GroupBlockGap <= i64 (i64 (h - gap) - previousTssBlockInbound f) -> Size (in_q f) < GroupSign -> firstTimeInbound f = true ->
  block h (j, f) = ((j, in_set_first false (in_set_pause (inboundPauseHeight f) false f)), Ret tt).
Proof.
  intros H1 H2 H3 H4 H5 H6. unfold block, Progress.block, inbound_section, bind at 1, get at 1. cbn [snd].
  rewrite (proj2 (Z.ltb_ge 5 (in_failed f))) by lia. rewrite bind_ret_l. unfold bind at 1, get at 1. cbn [snd].
  rewrite (proj2 (Z.ltb_ge h (inboundPauseHeight f))) by lia.
  erewrite bind_ret_run by reflexivity. cbn [fst snd]. unfold bind at 1, get at 1. cbn [snd in_set_pause in_q].
  rewrite H3. rewrite bind_ret_l. unfold bind at 1, get at 1. cbn [snd in_set_pause in_q previousTssBlockInbound firstTimeInbound].
  by rewrite H3, (proj2 (Z.leb_le _ _) H4), H6, (proj2 (Z.ltb_lt _ _) H5).
Qed.

Lemma IsEmpty_pending {A} `{I : Indexed A} (q : ItemQueue A) : IsEmpty q = false <-> pending q <> ∅.
Proof.
  unfold IsEmpty. pose proof (map_range_perm (pending q)) as Hp. split.
  - intros H He. rewrite He in H, Hp. rewrite map_to_list_empty in Hp. apply Permutation_nil_r in Hp. by rewrite Hp in H.
  - intros H. destruct (map_range (pending q)); [|done]. apply Permutation_nil_l in Hp. symmetry in Hp. apply map_to_list_empty_iff in Hp. done.
Qed.

(** What is popped leaves the map. *)
Lemma PopItem_takes {A} `{I : Indexed A} `{LI : !IndexedLaws A I} sel n (q : ItemQueue A) : queue_wf q -> 0 < n ->
  (exists k x, pending q !! k = Some x /\ sel x = true) -> exists q' items,
  PopItem_where sel n q = (q', Ret (Some items)) /\ items <> [] /\ onHold q' = onHold q /\ pending q' ⊆ pending q /\
  (size (pending q') < size (pending q))%nat /\ (forall x, x ∈ items -> exists k, pending q !! k = Some x) /\
  forall k x, pending q !! k = Some x -> pending q' !! k = Some x \/ x ∈ items.
Proof.
  intros Hq Hn (k0 & x0 & Hk0 & Hs0). destruct (PopItem_spec sel n q Hq) as (ks & rest & items & Hp & _ & Hlen & Hf & He); [lia|].
  destruct (PopItem_where sel n q) as [q' r] eqn:Eq. pose proof (PopItem_moves sel n q q' r Hq ltac:(lia) Eq) as (Hh & Hm).
  assert (k0 ∈ selected_keys sel q) as Hsel by (apply selected_keys_spec; by exists x0).
  injection He as -> ->. rewrite (proj2 (Nat.eqb_neq _ 0)) in Hm by (destruct (selected_keys sel q); [by apply not_elem_of_nil in Hsel|done]).
  rewrite (proj2 (Nat.eqb_neq _ 0)) by (destruct (selected_keys sel q); [by apply not_elem_of_nil in Hsel|done]).
  exists (mkQueue (delete_keys ks (pending q)) (onHold q)), items. destruct Hm as [[? _]|(items' & [= <-] & Hk & Hin)]; [done|]. split; [done|].
  assert (items <> []) as Hi.
  { intros ->. apply Forall2_nil_inv_r in Hf as ->. cbn in Hlen. destruct (selected_keys sel q); [by apply not_elem_of_nil in Hsel|]. cbn in Hlen. lia. }
  assert (delete_keys ks (pending q) ⊆ pending q) as Hsub by (apply map_subseteq_spec; intros k x; rewrite delete_keys_lookup; by case_bool_decide).
  split; [done|]. split; [done|]. split; [done|]. split; [|by split]. apply map_subset_size, strict_spec_alt. split; [done|].
  intros Heq. destruct Hf as [|k x ks items Hkx _]; [done|]. pose proof (delete_keys_lookup (k :: ks) (pending q) k) as Hd.
  rewrite bool_decide_true in Hd by left. change (delete_keys (k :: ks) (pending q) = pending q) in Heq. rewrite Heq in Hd. congruence.
Qed.

(** *** A round ends without an error *)

Definition unfailing {St A} (m : M St A) : Prop := forall s e, (m s).2 <> Fail e.

Lemma unfailing_try {St A} (m : M St A) : unfailing (try m).
Proof. intros s e. unfold try. by destruct (m s) as [s' [a|e'|]]. Qed.
Lemma unfailing_bind {St A A'} (m : M St A) (k : A -> M St A') : unfailing m -> (forall a, unfailing (k a)) -> unfailing (bind m k).
Proof. intros Hm Hk s e. unfold bind. specialize (Hm s). destruct (m s) as [s' [a|e'|]]; [apply Hk|by specialize (Hm e')|done]. Qed.
Lemma unfailing_forM {St A} (l : list A) (f : A -> M St unit) : (forall a, unfailing (f a)) -> unfailing (forM l f).
Proof. intros Hf. induction l as [|a l IH]; [done|]. by apply unfailing_bind. Qed.
Lemma unfailing_on_mnode {A} (m : M J A) : unfailing m -> unfailing (on_mnode m).
Proof. intros Hm s e. unfold on_mnode. specialize (Hm (m_node s) e). by destruct (m (m_node s)). Qed.

Lemma not_yet_minted_unfailing items : unfailing (not_yet_minted (W := J) items).
Proof.
  induction items as [|a items IH]; cbn [not_yet_minted]; [done|]. apply unfailing_bind; [|intros b; by apply unfailing_bind].
  apply unfailing_bind; [|done]. intros w e. unfold issue_query. by destruct (queryGivenToeknIssueTx _ w) as [w' [|e'|]].
Qed.

Lemma processInbound_returns items (s : MintState J) : (processInbound (Msg := Msg) items s).2 <> Panic ->
  exists s', processInbound (Msg := Msg) items s = (s', Ret tt).
Proof.
  intros Hp. assert (unfailing (processInbound (W := J) (Msg := Msg) items)) as Hu.
  { unfold processInbound. apply unfailing_bind; [apply unfailing_try|]. intros [[]|]; [|done].
    apply unfailing_bind; [apply unfailing_on_mnode, not_yet_minted_unfailing|]. intros [|t todo]; [done|].
    apply unfailing_bind; [apply unfailing_try|]. intros [m|]; apply unfailing_forM; [|done]. intros i. unfold check_minted.
    apply unfailing_bind; [apply unfailing_try|]. intros [[]|]; [|done]. apply unfailing_bind; [apply unfailing_try|]. intros [[]|]; [done|].
    apply unfailing_bind; [done|]. intros s'. apply unfailing_bind; [by destruct (inBoundWait s')|]. intros []. by destruct (by_hash items !! i). }
  specialize (Hu s). destruct (processInbound items s) as [s' [[]|e|]]; [by exists s'|by specialize (Hu e)|done].
Qed.

(** *** Feeding, taking and ending *)

(** The state after a batch is fed. *)
Definition fed (h : Z) (q : ItemQueue InBoundReq) (batch : list InBoundReq) (f : InFlow) : InFlow :=
  in_set_first true (in_set_prev h (in_set_done false (in_set_chan [batch] (in_running f) (in_set_q q (in_set_pause (inboundPauseHeight f) false f))))).

Lemma block_feeds_one h (j : J) f : node_works -> mint_idle f -> queue_wf (in_q f) -> feeds f false h (i64 (h - gap)) ->
  exists j' q items n sq addr pk, block h (j, f) = ((j', fed h q (assign_accounts n sq addr pk items) f), Ret tt) /\
    InboundQueue.PopItem GroupSign (in_q f) = (q, Ret (Some items)) /\ items <> [] /\ onHold q = onHold (in_q f) /\ pending q ⊆ pending (in_q f) /\
    (size (pending q) < size (pending (in_q f)))%nat /\ forall k x, pending (in_q f) !! k = Some x -> pending q !! k = Some x \/ x ∈ items.
Proof.
  intros (_ & Hacc & Hs & _) (_ & Hc & _) Hq Hf. destruct (PopItem_takes (fun _ => true) GroupSign (in_q f) Hq) as (q & items & Hpop & Hi & Ho & Hsub & Hsz & _ & Hrest); [done| |].
  { destruct Hf as (_ & _ & He & _). apply IsEmpty_pending, map_choose in He as (k & x & Hk). by exists k, x. }
  destruct (Hacc j) as (j' & acc & Ha). exists j', q, items, (acc_Number acc), (acc_Sequence acc), (acc_Address acc), (PoolPubKey (pi_PoolInfo p)).
  split; [|by split_and!]. unfold block, Progress.block. rewrite inbound_section_feeds by done. unfold bind at 1, try, feed_inbound, FeedTx_inbound.
  unfold bind, lift. rewrite Hs. cbn [negb]. rewrite Ha. cbn [in_set_pause in_q]. unfold InboundQueue.PopItem. rewrite Hpop. cbn. unfold fed. by rewrite Hc.
Qed.

Lemma take_and_finish h q batch (j : J) f : node_works -> mint_idle f -> batch <> [] ->
  exists j' f' held, take_inbound (j, fed h q batch f) = ((j, in_set_chan [] [batch] (fed h q batch f)), Ret tt) /\
    finish_inbound (Msg := Msg) 0 (j, in_set_chan [] [batch] (fed h q batch f)) = ((j', f'), Ret tt) /\
    mint_idle f' /\ in_q f' = mkQueue (pending q) (onHold q ++ held) /\ previousTssBlockInbound f' = h /\ inboundPauseHeight f' = inboundPauseHeight f /\
    (forall a, a ∈ batch -> minted (W := J) (in_hash a) \/ exists y, y ∈ held /\ in_hash y = in_hash a).
Proof.
  intros (Hd & _ & _ & Hr) (_ & _ & Hrun) Hb. set (s0 := mkMintState j q (in_failed f) false).
  destruct (processInbound_returns batch s0 (Hr _ _ Hb)) as [s' Hs']. destruct (processInbound_accounts _ _ _ Hd Hs') as (held & Hq & _ & Hall).
  exists (m_node s'), (in_set_done true (in_set_chan [] [] (in_set_failed (failedInbound s') (in_set_q (mint_q s') (in_set_chan [] [batch] (fed h q batch f)))))), held.
  split; [unfold take_inbound, on_flow, modify; cbn; by rewrite Hrun|]. split; [|split; [done|split; [exact Hq|done]]].
  unfold finish_inbound, bind, get. cbn [snd in_set_chan in_running lookup list_lookup]. unfold on_mint. cbn [in_q in_failed in_wait fed in_set_first in_set_prev in_set_done in_set_chan in_set_q in_set_pause].
  fold s0. by rewrite Hs'.
Qed.

(** *** From any state to the next batch *)

Definition same_requests (f f' : InFlow) : Prop :=
  in_q f' = in_q f /\ in_flags f' = in_flags f /\ previousTssBlockInbound f' = previousTssBlockInbound f.

Lemma gap_over h f : 0 <= gap -> 0 <= previousTssBlockInbound f -> previousTssBlockInbound f + gap + 8 <= h < 2 ^ 62 ->
  GroupBlockGap <= i64 (i64 (h - gap) - previousTssBlockInbound f).
Proof.
  intros. unfold GroupBlockGap. assert (in_i64 (h - gap) /\ in_i64 (h - gap - previousTssBlockInbound f)) as [Hi1 Hi2] by (unfold in_i64, MinInt64, MaxInt64, two63; lia).
  rewrite (i64_small _ Hi1), (i64_small _ Hi2). lia.
Qed.

(** At most one block later the count of failures is low. *)
Lemma run_past_failures h h1 (j : J) f : h < h1 -> 0 <= h1 < 2 ^ 62 -> h1 mod 100 = 0 -> exists h' f', mint_run h (j, f) h' (j, f') /\
  h <= h' <= h1 /\ same_requests f f' /\ in_failed f' <= 5 /\ (inboundPauseHeight f' = inboundPauseHeight f \/ inboundPauseHeight f' = h1 + 100).
Proof.
  intros Hh Hb Hm. destruct (Z.ltb_spec 5 (in_failed f)) as [Hf|Hf].
  - exists h1, (in_set_pause (h1 + 100) true (in_set_failed 0 f)). split; [|split; [lia|split; [done|split; [done|by right]]]].
    eapply run_block; [exact Hh|by apply block_pauses|apply run_end].
  - exists h, f. split; [apply run_end|]. split; [lia|]. split; [done|]. split; [lia|by left].
Qed.

(** At most one block later a batch need not be full. *)
Lemma run_past_waiting h h1 (j : J) f : h < h1 -> in_failed f <= 5 -> inboundPauseHeight f <= h1 -> pending (in_q f) <> ∅ ->
  GroupBlockGap <= i64 (i64 (h1 - gap) - previousTssBlockInbound f) -> exists h' f', mint_run h (j, f) h' (j, f') /\
  h <= h' <= h1 /\ same_requests f f' /\ in_failed f' <= 5 /\ inboundPauseHeight f' = inboundPauseHeight f /\
  (GroupSign <= Size (in_q f') \/ firstTimeInbound f' = false).
Proof.
  intros Hh Hf Hp Hne Hg. assert (mint_run h (j, f) h (j, f)) as H0 by apply run_end.
  destruct (Z.leb_spec GroupSign (Size (in_q f))) as [Hs|Hs]; [exists h, f; split; [done|split; [lia|by repeat split; auto]]|].
  destruct (firstTimeInbound f) eqn:Ef; [|exists h, f; split; [done|split; [lia|by repeat split; auto]]].
  exists h1, (in_set_first false (in_set_pause (inboundPauseHeight f) false f)). split; [|split; [lia|by repeat split; auto]].
  eapply run_block; [exact Hh|apply block_waits; try done; by apply IsEmpty_pending|apply run_end].
Qed.

Lemma mint_cycle h H (j : J) f : node_works -> mint_idle f -> queue_wf (in_q f) -> pending (in_q f) <> ∅ ->
  0 <= h <= H -> heights_upto H f -> 0 <= gap -> H + gap + 1000 < 2 ^ 62 -> exists h' j' f' held, mint_run h (j, f) h' (j', f') /\
    h' <= H + gap + 1000 /\ 0 <= h' /\ heights_upto (H + gap + 1000) f' /\ mint_idle f' /\ queue_wf (in_q f') /\
    (size (pending (in_q f')) < size (pending (in_q f)))%nat /\ onHold (in_q f') = (onHold (in_q f) ++ held)%list /\
    forall k x, pending (in_q f) !! k = Some x -> pending (in_q f') !! k = Some x \/ minted (W := J) (in_hash x) \/ exists y, y ∈ held /\ in_hash y = in_hash x.
Proof.
  intros Hn Hi Hq Hne Hh [Hp1 Hp2] Hg Hb. set (h1 := ((H + gap + 8) / 100 + 1) * 100).
  assert (H + gap + 8 < h1 <= H + gap + 108) as Hh1 by (subst h1; pose proof (Z.mul_div_le (H + gap + 8) 100); pose proof (Z.mul_succ_div_gt (H + gap + 8) 100); lia).
  destruct (run_past_failures h h1 j f) as (ha & fa & Ra & Hha & (Qa & Fa & Pa) & Fla & Paa); [lia|lia|subst h1; apply Z.mod_mul; lia|].
  destruct (run_past_waiting ha (h1 + 100) j fa) as (hb & fb & Rb & Hhb & (Qb & Fb & Pb) & Flb & Pbb & Sb); [lia|done|lia|by rewrite Qa|apply gap_over; lia|].
  assert (mint_idle fb) as Hib by (unfold mint_idle in *; unfold in_flags in *; by simplify_eq/=; destruct fb, fa, f; cbn in *; simplify_eq).
  destruct (block_feeds_one (h1 + 101) j fb) as (j1 & q & items & n & sq & addr & pk & Hblk & _ & Hit & Hhold & Hsub & Hsize & Hk); [done|done|by rewrite Qb, Qa| |].
  { split; [done|]. split; [lia|]. split; [apply IsEmpty_pending; by rewrite Qb, Qa|]. split; [apply gap_over; lia|]. by destruct Hib. }
  set (batch := assign_accounts n sq addr pk items) in *.
  assert (batch <> []) as Hbatch by (destruct items; done).
  destruct (take_and_finish (h1 + 101) q batch j1 fb Hn Hib Hbatch) as (j2 & f2 & held & Ht & Hf & Hi2 & Hq2 & Hprev & Hpause & Hall).
  exists (h1 + 101), j2, f2, held. split.
  { eapply run_app; [exact Ra|]. eapply run_app; [exact Rb|]. eapply run_block; [|exact Hblk|eapply run_take; [exact Ht|eapply run_finish; [exact Hf|apply run_end]]]. lia. }
  split; [lia|]. split; [lia|]. split; [unfold heights_upto; lia|]. split; [done|]. rewrite Hq2. cbn [pending onHold]. rewrite Qb, Qa in *.
  split; [|split; [done|split; [by rewrite Hhold|]]].
  - intros k x Hx. apply Hq. by eapply lookup_weaken.
  - intros k x Hx. destruct (Hk k x Hx) as [|Hin]; [by left|]. right. destruct (assign_accounts_elem n sq addr pk items x Hin) as (y & Hy & ->). by apply Hall.
Qed.
End ProgressLemmas.

(** ** Properties *)

Section Properties.
Context {J Msg : Type} `{CN : CosmosNode J Msg} `{T : TssServer J} `{JS : JoltService J} `{S : SdkMath} `{N : SdkCoins} `{B : Bech32} `{E : Eth} `{LE : !EthLaws E}.
Context `{K : Backoff} `{KL : !BackoffLaws K} `{R : GoRuntime} `{LR : !GoRuntimeLaws R}.
Context (p : PoolInfo) (gap : Z).

End Properties.

(** ** Witnesses *)

(** A node that tells the account and the token issues, but not its height, so
    no transaction is sent. *)
#[local] Definition silent_node : CosmosNode cos_world string := {|
  SetMsgs_check := SetMsgs_check (CosmosNode := cosmos_ref);
  SetSignatures_check := SetSignatures_check (CosmosNode := cosmos_ref);
  GetSignBytes := GetSignBytes (CosmosNode := cosmos_ref);
  TxEncoder := TxEncoder (CosmosNode := cosmos_ref);
  Sha256 := Sha256 (CosmosNode := cosmos_ref);
  Keyring_Key := Keyring_Key (CosmosNode := cosmos_ref);
  Keyring_Sign := Keyring_Sign (CosmosNode := cosmos_ref);
  queryAccount := fun _ w => (w, Ret (mkAccount 30 1 [Byte.x09]));
  Node_BroadcastTx := Node_BroadcastTx (CosmosNode := cosmos_ref);
  Simulate := Simulate (CosmosNode := cosmos_ref);
  LatestHeight := fail "no answer";
  NewMsgCreateIssueToken := NewMsgCreateIssueToken (CosmosNode := cosmos_ref);
  NewMsgCreateOutboundTx := NewMsgCreateOutboundTx (CosmosNode := cosmos_ref);
|}.

Section Witnesses.
#[local] Existing Instance silent_node.
#[local] Existing Instance tss_cos_ref.
#[local] Existing Instance sdk_math_ref.
#[local] Existing Instance sdk_coins_ref.
#[local] Existing Instance bech32_ref.
#[local] Existing Instance backoff_ref.
#[local] Existing Instance eth_ref.
#[local] Existing Instance go_runtime_ref.

(** Another deposit than the one the node knows as minted. *)
#[local] Definition deposit2 : InBoundReq := NewAccountInboundReq [Byte.x01] [] (mkCoin "abnb" 5) [Byte.x04] 11.
#[local] Definition two_deposits : ItemQueue InBoundReq :=
  mkQueue (<[InBoundReq_Index deposit2 := deposit2]> {[ InBoundReq_Index EventLoop.deposit := EventLoop.deposit ]}) [].

Lemma not_yet_minted_silent (JS := jolt_ref true) items (w : cos_world) : (not_yet_minted items w).2 <> Panic.
Proof.
  revert w. induction items as [|a items IH]; intros w; cbn [not_yet_minted]; [done|]. unfold already_exists, issue_query, bind.
  cbn [queryGivenToeknIssueTx JS jolt_ref]. destruct (Processing.minted_ref w (Hash_Hex (InBoundReq_Hash a))); cbn; specialize (IH w); by destruct (not_yet_minted items w) as [w' []].
Qed.

Lemma silent_works (JS := jolt_ref true) : node_works (J := cos_world) (Msg := string) (EventLoop.signer_pool "k01").
Proof.
  split; [exact dial_ref|]. split; [intros w; by exists w, (mkAccount 30 1 [Byte.x09])|]. split; [reflexivity|].
  intros items s _. unfold processInbound, bind at 1, try, on_mnode at 1. cbn. unfold bind at 1, on_mnode at 1. cbn [m_node].
  pose proof (not_yet_minted_silent items (m_node s)) as Hn. destruct (not_yet_minted items (m_node s)) as [w [[|t todo]|e|]]; [done| |done|done].
  cbn. by rewrite hold_all_spec.
Qed.

End Witnesses.
