(* ===== verification/PayProgress.v ===== *)
(** * Every waiting payout gets its turn

    The same for the payouts of one public chain: heads of the chain feed the
    payouts to it batch by batch until none waits.  The failures, the pause
    and the last batch are counted per chain there; so first, no operation of
    a client changes which chain it is a client of. *)

From Stdlib Require Import Ascii String.
From S2P Require Import Prelude GoLib Sdk Requests Fees ItemQueue TokenList Signature MoveFundQueue Pools Validators PubClient Keysign Goroutine TxSend MoveFund Inbound Outbound CosTx Keygen Processing MintRound Flow JoltClient EventLoop Wellformed Lifecycle Progress.

#[local] Open Scope string_scope.
#[local] Open Scope Z_scope.
#[local] Open Scope go_scope.

(** ** Definitions *)

Section PayRuns.
Context {W J C Msg : Type} `{EC : EthClient W C} `{TW : TssServer W} `{CN : CosmosNode J Msg} `{TJ : TssServer J} `{JS : JoltService J}.
Context `{G : EthSigner} `{S : SdkMath} `{N : SdkCoins} `{B : Bech32} `{E : Eth} `{K : Backoff} `{R : GoRuntime}.
Context (attempts submits : nat) (HexToHash : string -> bytes).
(** The pool, the gap of the service ([pubRollbackGap]), the chain. *)
Context (p : PoolInfo) (gap : Z) (ct : string).
#[local] Notation OF := (ChainInfo W C * J * OutFlow)%type.

(** The end of pubchainProcess for a head of height [h]. *)
Definition head (h : Z) : M OF unit := outbound_section HexToHash p false ct h (h - gap).

(** Heads of increasing height, the taking of a batch, the end of its
    goroutine with some signatures, as in [mint_run]. *)
Inductive pay_run : Z -> OF -> Z -> OF -> Prop :=
| pay_end h s : pay_run h s h s
| pay_head h h1 h2 s s1 s2 : h < h1 -> head h1 s = (s1, Ret tt) -> pay_run h1 s1 h2 s2 -> pay_run h s h2 s2
| pay_take h h2 s s1 s2 : take_outbound s = (s1, Ret tt) -> pay_run h s1 h2 s2 -> pay_run h s h2 s2
| pay_finish pools v resp h h2 s s1 s2 : finish_outbound (Msg := Msg) attempts submits HexToHash pools v resp 0 s = (s1, Ret tt) ->
    pay_run h s1 h2 s2 -> pay_run h s h2 s2.

Definition pay_idle (f : OutFlow) : Prop := outBoundProcessDone f = true /\ OutboundReqChan f = [] /\ out_running f = [].

(** The clients answer nonce queries, the pool has an address, and the round
    of every batch of requests with an index can end. *)
Definition clients_work : Prop :=
  client_answers (W := W) (C := C) /\ has_address p /\
  forall items (s : PayState W J C), items <> [] -> indexed items ->
    exists pools v resp s', outbound_round (Msg := Msg) attempts submits HexToHash pools v resp items s = (s', Ret tt).

(** The heights the flow remembers for the chain are up to [H]. *)
Definition out_heights (H : Z) (f : OutFlow) : Prop := exists prev pause,
  GetHeight ct (previousTssBlockOutBound f) = Ret prev /\ GetHeight ct (outboundPauseHeight f) = Ret pause /\ 0 <= prev <= H /\ pause <= H.

(** Paid, or recorded without a transaction: [y] is the payout with the nonce
    of its batch. *)
Definition dealt_with (x : OutBoundReq) : Prop := exists y v resp, OutBoundReq_Index y = OutBoundReq_Index x /\
  (settled (W := W) (C := C) (J := J) attempts HexToHash v resp y \/ record_open (J := J) v y).
End PayRuns.

(** ** Lemmas: the chain of a client *)

Lemma keeps_retry {St} `{K : Backoff} `{KL : !BackoffLaws K} (P : St -> Prop) n (op : M St unit) : (0 < n)%nat -> keeps P op -> keeps P (Retry n op).
Proof.
  intros Hn Hop s. rewrite Retry_spec by done. clear Hn. revert s. induction n as [|n IH]; intros s Hs; cbn [retry_loop];
    specialize (Hop s Hs); destruct (op s) as [s' [[]|e|]]; try done. by apply IH.
Qed.

Section Typed.
Context {W C : Type} `{EC : EthClient W C} `{T : TssServer W} `{G : EthSigner} `{E : Eth} `{B : Bech32} `{K : Backoff} `{KL : !BackoffLaws K}.
Context (ct : string).
#[local] Notation CI := (ChainInfo W C).

Definition typed (c : CI) : Prop := PubClient.ChainType c = ct.

Lemma keeps_call {A} (f : C -> M W A) : keeps typed (call f).
Proof. intros c H. unfold call. by destruct (f _ _). Qed.
Lemma keeps_on_node {A} (m : M W A) : keeps typed (on_node (C := C) m).
Proof. intros c H. unfold on_node. by destruct (m _). Qed.
Lemma keeps_RLock : keeps typed RLock.
Proof. by apply keeps_modify. Qed.
Lemma keeps_RUnlock : keeps typed RUnlock.
Proof. by apply keeps_modify. Qed.
Lemma keeps_spawn_reset : keeps typed spawn_reset.
Proof. by apply keeps_modify. Qed.
#[local] Hint Resolve keeps_call keeps_on_node keeps_RLock keeps_RUnlock keeps_spawn_reset : keeps.

Lemma keeps_locked {A} (f : C -> M W A) : keeps typed (locked f).
Proof. unfold locked. keep. Qed.
#[local] Hint Resolve keeps_locked : keeps.
Lemma keeps_GetBlockByNumber n : keeps typed (GetBlockByNumberWithLock n).
Proof. unfold GetBlockByNumberWithLock. keep. Qed.
Lemma keeps_receipt h : keeps typed (getTransactionReceiptWithLock h).
Proof. unfold getTransactionReceiptWithLock. keep. Qed.
Lemma keeps_GetFeeLimit : keeps typed GetFeeLimitWithLock.
Proof. unfold GetFeeLimitWithLock. keep. Qed.
Lemma keeps_PendingNonce a : keeps typed (getPendingNonceWithLock a).
Proof. unfold getPendingNonceWithLock. keep. Qed.
Lemma keeps_sendTransaction tx : keeps typed (sendTransactionWithLock tx).
Proof. unfold sendTransactionWithLock. keep. Qed.
#[local] Hint Resolve keeps_GetBlockByNumber keeps_receipt keeps_GetFeeLimit keeps_PendingNonce keeps_sendTransaction : keeps.

Lemma keeps_CheckTxStatus HexToHash h : keeps typed (PubClient.CheckTxStatus HexToHash h).
Proof.
  intros c Hc. unfold PubClient.CheckTxStatus. assert (keeps (fun s : CI * Z => typed s.1) (check_status_op (HexToHash h))) as Hop.
  { intros [c0 st] H. unfold check_status_op, checkEachTx. pose proof (keeps_receipt (HexToHash h) c0 H). by destruct (getTransactionReceiptWithLock _ c0) as [c1 []]. }
  pose proof (keeps_retry _ 30 _ ltac:(lia) Hop (c, 0) Hc) as Hr. by destruct (Retry 30 _ _) as [[c' st] []].
Qed.

Lemma keeps_waitToSend attempts addr n : (0 < attempts)%nat -> keeps typed (waitToSend attempts addr n).
Proof.
  intros Ha c Hc. unfold waitToSend. assert (keeps (fun s : CI * bool => typed s.1) (wait_op addr n)) as Hop.
  { intros [c0 b] H. unfold wait_op. pose proof (keeps_PendingNonce addr c0 H). destruct (getPendingNonceWithLock addr c0) as [c1 [m|e|]]; [|done|done].
    destruct (m =? n); [done|]. by destruct (n <? m). }
  pose proof (keeps_retry _ attempts _ Ha Hop (c, false) Hc) as Hr. destruct (Retry attempts _ _) as [[c' []] []]; done.
Qed.
#[local] Hint Resolve keeps_CheckTxStatus keeps_waitToSend : keeps.

(** *** Sending *)

Context (attempts : nat) (Ha : (0 < attempts)%nat).
#[local] Notation SS := (SendState W C).
Definition typed_send (s : SS) : Prop := typed (chain s).

Lemma keeps_on_chain {A} (m : M CI A) : keeps typed m -> keeps typed_send (on_chain m).
Proof. intros Hm s H. unfold on_chain. specialize (Hm (chain s) H). by destruct (m _). Qed.
Lemma keeps_send_req i d : keeps typed_send (send_req i d).
Proof. by apply keeps_modify. Qed.
Lemma keeps_no_hash {St} (P : St -> Prop) e : keeps P (no_hash e).
Proof. apply keeps_ret. Qed.
#[local] Hint Resolve keeps_on_chain keeps_send_req keeps_no_hash : keeps.
Lemma keeps_wait_and_send a n tx : keeps typed (wait_and_send attempts a n tx).
Proof using Ha KL. unfold wait_and_send. keep. Qed.
Lemma keeps_chain_id : keeps typed chain_id.
Proof. unfold chain_id. keep. Qed.
Lemma keeps_batch_signer i a cid resp a' tx : keeps typed_send (batch_signer i a cid resp a' tx).
Proof. unfold batch_signer. keep. Qed.
#[local] Hint Resolve keeps_wait_and_send keeps_chain_id keeps_batch_signer : keeps.

Lemma keeps_ProcessOutBound i a b t n m resp : keeps typed_send (ProcessOutBound attempts i a b t n m resp).
Proof using Ha KL. unfold ProcessOutBound, SendNativeTokenBatch, SendTokenBatch. keep. Qed.

Lemma keeps_on_send {A} (m : M SS A) : keeps typed_send m -> keeps typed (on_send m).
Proof. intros Hm c H. unfold on_send. specialize (Hm (mkSendState c []) H). by destruct (m _). Qed.
#[local] Hint Resolve keeps_ProcessOutBound keeps_on_send : keeps.

Lemma keeps_FeedTx_outbound pool l : keeps typed (FeedTx_outbound pool l).
Proof. unfold FeedTx_outbound. keep. Qed.

(** *** A payout round *)

Context {J Msg : Type} `{CN : CosmosNode J Msg} `{TJ : TssServer J} `{JS : JoltService J} `{S : SdkMath} `{N : SdkCoins} `{R : GoRuntime}.
Context (submits : nat) (HexToHash : string -> bytes).
#[local] Notation PS := (PayState W J C).
Definition typed_pay (s : PS) : Prop := typed (p_chain s).

Lemma typed_pchain {A} (m : M CI A) : keeps typed m -> keeps typed_pay (on_pchain m).
Proof. intros Hm s H. unfold on_pchain. specialize (Hm (p_chain s) H). by destruct (m _). Qed.
Lemma typed_pjolt {A} (m : M J A) : keeps typed_pay (on_pjolt m).
Proof. intros s H. unfold on_pjolt. by destruct (m _). Qed.
Lemma typed_pq {A} (m : M (ItemQueue OutBoundReq) A) : keeps typed_pay (on_pq m).
Proof. intros s H. unfold on_pq. by destruct (m _). Qed.
Lemma typed_failed f : keeps typed_pay (set_failedOut f).
Proof. by apply keeps_modify. Qed.
#[local] Hint Resolve typed_pchain typed_pjolt typed_pq typed_failed : keeps.

Lemma typed_round pools v resp items : keeps typed_pay (outbound_round (Msg := Msg) attempts submits HexToHash pools v resp items).
Proof using Ha KL.
  assert (forall l, keeps typed_pay (to_process HexToHash v l)) as Ht.
  { intros l. induction l as [|a l IH]; cbn [to_process]; [auto with keeps|]. unfold needs_processing. keep. }
  assert (forall i l, keeps typed_pay (outbound_workers (Msg := Msg) attempts submits HexToHash pools resp i l)) as Hw.
  { intros i l. revert i. induction l as [|a l IH]; intros i; cbn [outbound_workers]; [auto with keeps|]. unfold outbound_worker, GetOutBoundInfo. keep. }
  unfold outbound_round. keep.
Qed.
End Typed.

(** ** Lemmas: from any state to the next batch *)

Section PayLemmas.
Context {W J C Msg : Type} `{EC : EthClient W C} `{TW : TssServer W} `{CN : CosmosNode J Msg} `{TJ : TssServer J} `{JS : JoltService J}.
Context `{G : EthSigner} `{S : SdkMath} `{N : SdkCoins} `{B : Bech32} `{E : Eth} `{LE : !EthLaws E} `{K : Backoff} `{KL : !BackoffLaws K}.
Context `{R : GoRuntime} `{LR : !GoRuntimeLaws R}.
Context (attempts submits : nat) (HexToHash : string -> bytes) (Hatt : (0 < attempts)%nat) (p : PoolInfo) (gap : Z) (ct : string).
#[local] Notation CI := (ChainInfo W C).
#[local] Notation OF := (CI * J * OutFlow)%type.
#[local] Notation head := (head (W := W) (J := J) (C := C) HexToHash p gap ct).
#[local] Notation pay_run := (pay_run (W := W) (J := J) (C := C) (Msg := Msg) attempts submits HexToHash p gap ct).

Lemma pay_run_app h h1 h2 (s s1 s2 : OF) : pay_run h s h1 s1 -> pay_run h1 s1 h2 s2 -> pay_run h s h2 s2.
Proof. induction 1; [done|..]; intros; [eapply pay_head|eapply pay_take|eapply pay_finish]; eauto. Qed.

Lemma GetHeight_set pc pc' v h : GetHeight ct pc = Ret v -> SetHeight h ct pc = Ret pc' -> GetHeight ct pc' = Ret h.
Proof. unfold GetHeight, SetHeight. repeat case_bool_decide; intros; by simplify_eq/=. Qed.

Lemma u64_height z : 0 <= z < 2 ^ 63 -> u64 z = z.
Proof. intros. apply u64_small. unfold in_u64, two64. lia. Qed.

(** After more than five failures the head sets the pause. *)
Lemma head_pauses h (c : CI) (j : J) f pause : typed ct c -> GetHeight ct (outboundPauseHeight f) = Ret pause ->
  5 < out_failed f -> 0 <= h < 2 ^ 62 -> h mod 100 = 0 -> exists pc,
  head h (c, j, f) = ((c, j, out_set_pause pc true (out_set_failed 0 f)), Ret tt) /\ GetHeight ct pc = Ret (h + 100).
Proof.
  intros Hc Hp Hf Hh Hm. destruct (SetHeight_after ct _ (outboundPauseHeight f) _ (h + 100) Hp) as [pc Hpc]. exists pc.
  assert (GetHeight ct pc = Ret (h + 100)) as Hg by (by eapply GetHeight_set). split; [|done].
  unfold head, PayProgress.head, outbound_section, bind at 1, get at 1. cbn [fst snd]. rewrite Hc.
  rewrite (proj2 (Z.ltb_lt 5 (out_failed f))) by lia. rewrite (round_end_hundred h), u64_height by lia.
  unfold bind at 1, bind at 1, olift at 1. rewrite Hpc. unfold Flow.on_out at 1, modify at 1. unfold bind at 1, olift at 1.
  cbn [out_set_pause out_set_failed outboundPauseHeight]. rewrite Hg. rewrite (proj2 (Z.ltb_lt h (h + 100))) by lia.
  rewrite u64_height by lia. by rewrite (proj2 (Z.eqb_neq h (h + 100 - 1))) by lia.
Qed.

(** A head with few failures, past the pause, with no batch under way. *)
Lemma head_goes_on h (c : CI) (j : J) f pause prev : typed ct c -> pay_idle f -> out_failed f <= 5 ->
  GetHeight ct (outboundPauseHeight f) = Ret pause -> pause <= h -> GetHeight ct (previousTssBlockOutBound f) = Ret prev ->
  pending (out_q f) <> ∅ -> cos_GroupBlockGap <= i64 (i64 (h - gap) - prev) ->
  head h (c, j, f) =
  (if (Size (out_q f) <? GroupSign) && firstTimeOutbound f then Flow.on_out (out_set_first false)
   else pop_and_feed p ct (h - gap)) (c, j, out_set_pause (outboundPauseHeight f) false f).
Proof.
  intros Hc (Hd & _ & _) Hf Hp Hle Hprev Hne Hg. unfold head, PayProgress.head, outbound_section, bind at 1, get at 1. cbn [fst snd]. rewrite Hc.
  rewrite (proj2 (Z.ltb_ge 5 (out_failed f))) by lia. rewrite bind_ret_l. unfold bind at 1, olift at 1. rewrite Hp.
  rewrite (proj2 (Z.ltb_ge h pause)) by lia. erewrite bind_ret_run by reflexivity. unfold bind at 1, get at 1. cbn [snd out_set_pause outBoundProcessDone out_q].
  rewrite Hd. cbn [negb]. rewrite (proj2 (IsEmpty_pending (out_q f)) Hne). rewrite bind_ret_l. unfold bind at 1, olift at 1. cbn [previousTssBlockOutBound out_set_pause].
  rewrite Hprev. unfold bind at 1, get at 1. cbn [snd out_q firstTimeOutbound]. rewrite (proj2 (IsEmpty_pending (out_q f)) Hne), (proj2 (Z.leb_le _ _) Hg). reflexivity.
Qed.

(** The state after a batch is fed, its last head noted in [pc]. *)
Definition fed_out (q : ItemQueue OutBoundReq) (pc : PerChain) (batch : list OutBoundReq) (f : OutFlow) : OutFlow :=
  out_set_done false (out_set_chan [batch] (out_running f) (out_set_first true (out_set_prev pc (out_set_q q (out_set_pause (outboundPauseHeight f) false f))))).

Lemma pop_and_feed_one h (c : CI) (j : J) f prev : clients_work (W := W) (C := C) (J := J) (Msg := Msg) attempts submits HexToHash p -> typed ct c ->
  pay_idle f -> queue_wf (out_q f) -> GetHeight ct (previousTssBlockOutBound f) = Ret prev ->
  (exists k x, pending (out_q f) !! k = Some x /\ Requests.ChainType x = ct) -> 0 <= h - gap < 2 ^ 62 ->
  exists c' q items pc addr n, pop_and_feed p ct (h - gap) (c, j, out_set_pause (outboundPauseHeight f) false f) =
      ((c', j, fed_out q pc (assign_nonces addr n items) f), Ret tt) /\ typed ct c' /\ GetHeight ct pc = Ret (h - gap) /\
    items <> [] /\ indexed (assign_nonces addr n items) /\ onHold q = onHold (out_q f) /\ pending q ⊆ pending (out_q f) /\
    (size (pending q) < size (pending (out_q f)))%nat /\ forall k x, pending (out_q f) !! k = Some x -> pending q !! k = Some x \/ x ∈ items.
Proof.
  intros (Hcl & Hadr & _) Hc (_ & Hch & _) Hq Hprev (k0 & x0 & Hk0 & Hx0) Hb.
  destruct (PopItem_takes (fun req => bool_decide (Requests.ChainType req = ct)) GroupSign (out_q f) Hq) as (q & items & Hpop & Hi & Ho & Hsub & Hsz & Hin & Hk); [done| |].
  { exists k0, x0. split; [done|]. by apply bool_decide_true. }
  destruct (FeedTx_outbound_ret Hcl p items c Hadr) as (c' & addr & n & Hfeed).
  destruct (SetHeight_after ct _ (previousTssBlockOutBound f) _ (h - gap) Hprev) as [pc Hpc].
  exists c', q, items, pc, addr, n. split; [|split; [|split; [by eapply GetHeight_set|split; [done|split; [|by split_and!]]]]].
  - unfold pop_and_feed, bind at 1, on_outq. cbn [out_q out_set_pause]. unfold OutboundQueue.PopItem. rewrite Hpop.
    unfold bind at 1, try, on_oclient. rewrite Hfeed. cbn [ocatch]. unfold bind at 1, olift. cbn [out_set_q out_set_pause previousTssBlockOutBound].
    rewrite i64_small by (unfold in_i64, MinInt64, MaxInt64, two63; lia). rewrite Hpc. unfold fed_out. cbn. by rewrite Hch.
  - pose proof (keeps_FeedTx_outbound ct (pi_PoolInfo p) items c Hc) as Hkc. by rewrite Hfeed in Hkc.
  - apply Forall_forall. intros y Hy. apply list_elem_of_lookup in Hy as [i Hy]. apply assign_nonces_lookup in Hy as (x & Hx & ->).
    destruct (Hin x) as [k Hkx]; [by eapply list_elem_of_lookup_2|]. exists k. by apply (Hq k x).
Qed.

Lemma take_and_finish_out q pc batch (c : CI) (j : J) f : clients_work (W := W) (C := C) (J := J) (Msg := Msg) attempts submits HexToHash p -> typed ct c ->
  pay_idle f -> batch <> [] -> indexed batch ->
  exists pools v resp c' j' f' held, take_outbound (c, j, fed_out q pc batch f) = ((c, j, out_set_chan [] [batch] (fed_out q pc batch f)), Ret tt) /\
    finish_outbound (Msg := Msg) attempts submits HexToHash pools v resp 0 (c, j, out_set_chan [] [batch] (fed_out q pc batch f)) = ((c', j', f'), Ret tt) /\
    typed ct c' /\ pay_idle f' /\ out_q f' = mkQueue (pending q) (onHold q ++ held) /\ previousTssBlockOutBound f' = pc /\
    outboundPauseHeight f' = outboundPauseHeight f /\
    (forall a, a ∈ batch -> (exists y, SetSubmittedTxHash y a ∈ held) \/ settled (W := W) (C := C) (J := J) attempts HexToHash v resp a \/ record_open (J := J) v a).
Proof.
  intros (_ & _ & Hr) Hc (_ & _ & Hrun) Hb Hix. set (s0 := mkPayState c j q (out_failed f) false).
  destruct (Hr batch s0 Hb Hix) as (pools & v & resp & s' & Hs'). destruct (outbound_round_accounts _ _ _ _ _ _ _ _ _ Hs') as (held & Hq & _ & Hall).
  exists pools, v, resp, (p_chain s'), (p_jolt s'),
    (out_set_done true (out_set_chan [] [] (out_set_failed (failedOutbound s') (out_set_q (pay_q s') (out_set_chan [] [batch] (fed_out q pc batch f)))))), held.
  split; [unfold take_outbound, Flow.on_out, modify; cbn; by rewrite Hrun|]. split; [|split; [|split; [done|split; [exact Hq|done]]]].
  - unfold finish_outbound, bind, get. cbn [snd out_set_chan out_running lookup list_lookup]. unfold on_pay.
    cbn [out_q out_failed out_wait fed_out out_set_first out_set_prev out_set_done out_set_chan out_set_q out_set_pause]. fold s0. by rewrite Hs'.
  - pose proof (typed_round ct attempts Hatt (Msg := Msg) submits HexToHash pools v resp batch s0 Hc) as Hk. by rewrite Hs' in Hk.
Qed.

Definition same_payouts (f f' : OutFlow) : Prop :=
  out_q f' = out_q f /\ out_flags f' = out_flags f /\ previousTssBlockOutBound f' = previousTssBlockOutBound f.

Lemma pay_idle_same f f' : same_payouts f f' -> pay_idle f -> pay_idle f'.
Proof. intros (_ & [= H1 H2 H3] & _) (H4 & H5 & H6). unfold pay_idle. by rewrite H1, H2, H3. Qed.

(** At most one head later the count of failures is low. *)
Lemma pay_past_failures h h1 (c : CI) (j : J) f pause : typed ct c -> GetHeight ct (outboundPauseHeight f) = Ret pause ->
  h < h1 -> 0 <= h1 < 2 ^ 62 -> h1 mod 100 = 0 -> exists h' f' pause', pay_run h (c, j, f) h' (c, j, f') /\
  h <= h' <= h1 /\ same_payouts f f' /\ out_failed f' <= 5 /\ GetHeight ct (outboundPauseHeight f') = Ret pause' /\ (pause' = pause \/ pause' = h1 + 100).
Proof.
  intros Hc Hp Hh Hb Hm. destruct (Z.ltb_spec 5 (out_failed f)) as [Hf|Hf].
  - destruct (head_pauses h1 c j f pause Hc Hp Hf Hb Hm) as (pc & Hrun & Hpc). exists h1, (out_set_pause pc true (out_set_failed 0 f)), (h1 + 100).
    split; [eapply pay_head; [exact Hh|exact Hrun|apply pay_end]|]. split; [lia|]. split; [done|]. split; [done|]. split; [exact Hpc|by right].
  - exists h, f, pause. split; [apply pay_end|]. split; [lia|]. split; [done|]. split; [lia|]. split; [done|by left].
Qed.

(** At most one head later a batch need not be full. *)
Lemma pay_past_waiting h h1 (c : CI) (j : J) f pause prev : typed ct c -> pay_idle f -> out_failed f <= 5 ->
  GetHeight ct (outboundPauseHeight f) = Ret pause -> pause <= h1 -> GetHeight ct (previousTssBlockOutBound f) = Ret prev ->
  h < h1 -> pending (out_q f) <> ∅ -> cos_GroupBlockGap <= i64 (i64 (h1 - gap) - prev) ->
  exists h' f', pay_run h (c, j, f) h' (c, j, f') /\ h <= h' <= h1 /\ same_payouts f f' /\ out_failed f' <= 5 /\
    outboundPauseHeight f' = outboundPauseHeight f /\ (Size (out_q f') <? GroupSign) && firstTimeOutbound f' = false.
Proof.
  intros Hc Hi Hf Hp Hle Hprev Hh Hne Hg. destruct ((Size (out_q f) <? GroupSign) && firstTimeOutbound f) eqn:Ew.
  - pose proof (head_goes_on h1 c j f pause prev Hc Hi Hf Hp Hle Hprev Hne Hg) as Hr. rewrite Ew in Hr.
    exists h1, (out_set_first false (out_set_pause (outboundPauseHeight f) false f)). split; [eapply pay_head; [exact Hh|exact Hr|apply pay_end]|].
    split; [lia|]. split; [done|]. split; [done|]. split; [done|]. apply andb_false_r.
  - exists h, f. split; [apply pay_end|]. split; [lia|]. by repeat split.
Qed.

Lemma pay_cycle h H (c : CI) (j : J) f : clients_work (W := W) (C := C) (J := J) (Msg := Msg) attempts submits HexToHash p -> typed ct c ->
  pay_idle f -> queue_wf (out_q f) -> (exists k x, pending (out_q f) !! k = Some x /\ Requests.ChainType x = ct) ->
  0 <= h <= H -> out_heights ct H f -> 0 <= gap -> H + gap + 1000 < 2 ^ 62 ->
  exists h' c' j' f' held, pay_run h (c, j, f) h' (c', j', f') /\ h' <= H + gap + 1000 /\ 0 <= h' /\ typed ct c' /\ out_heights ct (H + gap + 1000) f' /\
    pay_idle f' /\ queue_wf (out_q f') /\ (size (pending (out_q f')) < size (pending (out_q f)))%nat /\ onHold (out_q f') = (onHold (out_q f) ++ held)%list /\
    forall k x, pending (out_q f) !! k = Some x -> pending (out_q f') !! k = Some x \/
      dealt_with (W := W) (C := C) (J := J) attempts HexToHash x \/ exists y, y ∈ held /\ OutBoundReq_Index y = OutBoundReq_Index x.
Proof.
  intros Hn Hc Hi Hq Hct Hh (prev & pause & Hprev & Hpause & Hp1 & Hp2) Hg Hb. set (h1 := ((H + gap + 8) / 100 + 1) * 100).
  assert (pending (out_q f) <> ∅) as Hne by (destruct Hct as (k & x & Hk & _); intros He; by rewrite He in Hk).
  assert (H + gap + 8 < h1 <= H + gap + 108) as Hh1 by (subst h1; pose proof (Z.mul_div_le (H + gap + 8) 100); pose proof (Z.mul_succ_div_gt (H + gap + 8) 100); lia).
  destruct (pay_past_failures h h1 c j f pause) as (ha & fa & pa & Ra & Hha & (Qa & Fa & Pa) & Fla & Gpa & Paa); [done|done|lia|lia|subst h1; apply Z.mod_mul; lia|]. clearbody h1.
  assert (forall h, h1 <= h < 2 ^ 62 -> cos_GroupBlockGap <= i64 (i64 (h - gap) - prev)) as Hgap.
  { intros h0 Hh0. assert (in_i64 (h0 - gap) /\ in_i64 (h0 - gap - prev)) as [Hi1 Hi2] by (unfold in_i64, MinInt64, MaxInt64, two63; lia).
    rewrite (i64_small _ Hi1), (i64_small _ Hi2). unfold cos_GroupBlockGap. lia. }
  assert (pay_idle fa) as Hia by (by eapply pay_idle_same).
  destruct (pay_past_waiting ha (h1 + 100) c j fa pa prev) as (hb & fb & Rb & Hhb & Hsb & Flb & Pbb & Wb); [done|done|done|done|lia|by rewrite Pa|lia|by rewrite Qa|apply Hgap; lia|].
  assert (pay_idle fb) as Hib by (by eapply pay_idle_same). destruct Hsb as (Qb & _ & Pb).
  pose proof (head_goes_on (h1 + 101) c j fb pa prev Hc Hib Flb) as Hr. rewrite Pbb, Pb, Pa, Qb, Qa in Hr. specialize (Hr Gpa ltac:(lia) Hprev Hne (Hgap (h1 + 101) ltac:(lia))).
  rewrite Qb, Qa in Wb. rewrite Wb, <- Pbb in Hr.
  destruct (pop_and_feed_one (h1 + 101) c j fb prev Hn Hc Hib) as (c1 & q & items & pc & addr & n & Hblk & Hc1 & Hpc & Hit & Hix & Hhold & Hsub & Hsize & Hk);
    [by rewrite Qb, Qa|by rewrite Pb, Pa|by rewrite Qb, Qa|lia|]. rewrite Hblk in Hr. set (batch := assign_nonces addr n items) in *.
  assert (batch <> []) as Hbatch by (destruct items; done).
  destruct (take_and_finish_out q pc batch c1 j fb Hn Hc1 Hib Hbatch Hix) as (pools & v & resp & c2 & j2 & f2 & held & Ht & Hf & Hc2 & Hi2 & Hq2 & Hprev2 & Hpause2 & Hall).
  exists (h1 + 101), c2, j2, f2, held. split.
  { eapply pay_run_app; [exact Ra|]. eapply pay_run_app; [exact Rb|]. eapply pay_head; [|exact Hr|eapply pay_take; [exact Ht|eapply pay_finish; [exact Hf|apply pay_end]]]. lia. }
  split; [lia|]. split; [lia|]. split; [done|]. split; [exists (h1 + 101 - gap), pa; rewrite Hprev2, Hpause2, Pbb; split_and!; [done|done|lia|lia|lia]|].
  split; [done|]. rewrite Hq2. cbn [pending onHold]. rewrite Qb, Qa in *. split; [|split; [done|split; [by rewrite Hhold|]]].
  - intros k x Hx. apply Hq. by eapply lookup_weaken.
  - intros k x Hx. destruct (Hk k x Hx) as [|Hin]; [by left|]. right. destruct (assign_nonces_elem addr n items x Hin) as (y & Hy & He).
    destruct (Hall y Hy) as [[z Hz]|Hs]; [right; exists (SetSubmittedTxHash z y); by rewrite <- He|left; by exists y, v, resp].
Qed.
End PayLemmas.

(** ** Properties *)

Section Properties.
Context {W J C Msg : Type} `{EC : EthClient W C} `{TW : TssServer W} `{CN : CosmosNode J Msg} `{TJ : TssServer J} `{JS : JoltService J}.
Context `{G : EthSigner} `{S : SdkMath} `{N : SdkCoins} `{B : Bech32} `{E : Eth} `{LE : !EthLaws E} `{K : Backoff} `{KL : !BackoffLaws K}.
Context `{R : GoRuntime} `{LR : !GoRuntimeLaws R}.
Context (attempts submits : nat) (HexToHash : string -> bytes) (p : PoolInfo) (gap : Z) (ct : string).

End Properties.

(** ** Witnesses *)

Section Witnesses.
#[local] Existing Instance confirming_ref.
#[local] Existing Instance Processing.tss_bool_ref.
#[local] Existing Instance cosmos_ref.
#[local] Existing Instance tss_cos_ref.
#[local] Existing Instance eth_signer_ref.
#[local] Existing Instance sdk_math_ref.
#[local] Existing Instance sdk_coins_ref.
#[local] Existing Instance bech32_ref.
#[local] Existing Instance eth_ref.
#[local] Existing Instance backoff_ref.
#[local] Existing Instance go_runtime_ref.

#[local] Notation PS := (PayState bool cos_world unit).

Lemma confirming_answers : client_answers (W := bool) (C := unit).
Proof. split; [|intros cl a w; reflexivity]. repeat apply conj; try (intros; reflexivity). intros cl h [|]; reflexivity. Qed.

Lemma to_process_ends (JS := jolt_ref true) items (s : PS) : indexed items ->
  exists s' todo, to_process (C := unit) (J := cos_world) (fun _ => []) NewValidator items s = (s', Ret todo) /\ indexed todo.
Proof.
  intros H. revert s. induction H as [|a items Ha Hitems IH]; intros s; cbn [to_process]; [exists s, []; split; [done|constructor]|].
  assert (exists s1 b, needs_processing (C := unit) (J := cos_world) (fun _ => []) NewValidator a s = (s1, Ret b)) as (s1 & b & Hb).
  { unfold needs_processing, bind at 1, try, on_pjolt, submitted_query, GetPubChainSubmittedTx, OutBoundReq_Hash.
    destruct Ha as [k Hk]. unfold OutBoundReq_Index in Hk. destruct (tx_bytes a) as [d|e|]; [|discriminate Hk..]. cbn [obind].
    destruct (queryOutboundTx _ _) as [j' [m|e|]] eqn:Eq; cbn [obind GetActiveValidators ocatch]; [|by eexists _, _|].
    - destruct (negb _); [|by eexists _, _]. unfold bind, try, on_pchain. cbn [p_chain].
      pose proof (CheckTxStatus_no_panic (fun _ => []) confirming_answers (first_with_quorum (quorum (Z.of_nat (length (fst (GetActiveValidators NewValidator))))) (map_range m)) (p_chain s)) as Hn.
      cbn in Hn |- *. destruct (PubClient.CheckTxStatus _ _ _) as [c' [[]|e|]]; [by eexists _, _|by eexists _, _|done].
    - cbn in Eq. destruct (p_jolt s).1; discriminate Eq. }
  destruct (IH s1) as (s2 & todo & Ht & Hi). exists s2, (if b then a :: todo else todo). unfold bind. rewrite Hb, Ht. split; [by destruct b|].
  destruct b; [by constructor|done].
Qed.

(** Without signatures nothing is sent. *)
Lemma nothing_sent i a b t n m (s : SendState bool unit) : exists s' e,
  ProcessOutBound 4 i a b t n m None s = (s', Ret (Hash_Hex zero_hash, Some e)).
Proof.
  assert (forall tx s1 cid, exists s2 e, try (batch_signer (W := bool) (C := unit) i b cid None b tx) s1 = (s2, Ret (inr e)) /\ e <> "already known") as Hs.
  { intros tx s1 cid. unfold try, batch_signer. rewrite bool_decide_true by done. by eexists _, _. }
  assert (forall s1, exists s2 r, try (on_chain (W := bool) (C := unit) chain_id) s1 = (s2, Ret r) /\ forall e, r = inr e -> e = "no chain id specified") as Hc.
  { intros [c ob]. unfold try, on_chain, chain_id, bind, get. cbn. destruct (PubClient.ChainID c); eexists _, _; (split; [reflexivity|]); [done|]. by intros e [= <-]. }
  unfold ProcessOutBound. case_bool_decide as Ht.
  - assert (exists s1 r, try (on_chain (W := bool) (C := unit) GetFeeLimitWithLock) s = (s1, Ret (inl r))) as (s1 & [[fee price] gas] & Hf) by by eexists _, _.
    unfold SendNativeTokenBatch, bind. rewrite Hf. destruct (Hc s1) as (s2 & [cid|e] & -> & He); [|by rewrite (He e eq_refl); eexists _, _].
    cbn [lift deref]. destruct (Hs (mkLegacyTx (Uint64 m) price gas a n []) s2 cid) as (s3 & e & -> & Hne). cbn. by rewrite bool_decide_false; [eexists _, _|].
  - unfold SendTokenBatch, bind. destruct (Hc s) as (s2 & [cid|e] & -> & He); [|by rewrite (He e eq_refl); eexists _, _].
    cbn. unfold batch_signer. rewrite bool_decide_true by done. cbn. by eexists _, _.
Qed.

Lemma workers_end (JS := jolt_ref true) i l (s : PS) : exists s',
  outbound_workers (C := unit) (Msg := string) 4 3 (fun _ => []) [] None i l s = (s', Ret tt).
Proof.
  revert i s. induction l as [|a l IH]; intros i s; cbn [outbound_workers]; [by eexists|].
  assert (exists s1, outbound_worker (C := unit) (Msg := string) 4 3 (fun _ => []) [] None i a s = (s1, Ret tt)) as [s1 H1].
  { unfold outbound_worker, GetOutBoundInfo, on_pchain at 1, on_send, bind at 1.
    destruct (nothing_sent i (OutReceiverAddress a) (FromPoolAddr a) (Requests.TokenAddr a) (Amount (ob_Coin a)) (Nonce a) (mkSendState (p_chain s) [])) as (s2 & e & ->).
    unfold bind at 1. rewrite bool_decide_true by done. cbn [negb]. unfold ret at 1. cbv iota beta. unfold bind, get, on_pq, AddOnHoldQueue, modify, set_failedOut. cbn.
    destruct (outBoundWait s); by eexists. }
  unfold bind. rewrite H1. apply IH.
Qed.

Lemma confirming_works (JS := jolt_ref true) :
  clients_work (W := bool) (C := unit) (J := cos_world) (Msg := string) 4 3 (fun _ => []) (EventLoop.signer_pool "k01").
Proof.
  split; [exact confirming_answers|]. split; [eexists; vm_compute; reflexivity|]. intros items s _ Hi.
  destruct (to_process_ends items s Hi) as (s1 & todo & Ht & _). destruct (workers_end 0 todo s1) as [s2 Hw].
  exists [], NewValidator, None. unfold outbound_round. rewrite (bind_ret_run _ _ _ _ _ Ht). destruct todo; [by eexists|]. by exists s2.
Qed.

End Witnesses.
