(* ===== verification/BridgeThreads.v ===== *)
(** * The service as threads: addEventLoop with everything it starts

    EventLoop.v runs a case of the loop, and a goroutine the loop started,
    from beginning to end.  Here every case of addEventLoop, pubchainProcess
    and the goroutines they start are threads in the sense of Threads.v, of
    one action per remote call, queue operation, counter, flag or channel
    operation, so that a batch is processed while the loop handles further
    blocks.  The groups of goroutines and the signing rounds are those of
    MintRound.v, PayoutRound.v and MoveRound.v, on the state of the whole
    bridge. *)

From Stdlib Require Import Ascii String.
From S2P Require Import Prelude GoLib Sdk Requests Fees ItemQueue TokenList Signature MoveFundQueue Pools Validators PubClient Keysign Goroutine TxSend SendPrograms MoveFund Inbound Outbound CosTx Keygen Processing MintRound PayoutRound MoveRound Flow JoltClient EventLoop Wellformed Threads.

#[local] Open Scope string_scope.
#[local] Open Scope Z_scope.
#[local] Open Scope go_scope.

(** ** Definitions *)

(** The four [go] statements of the loop. *)
Inductive kind := KMint | KPayout | KKeygen | KHealth.

(** The cases of the select statement. *)
Inductive arrival :=
| ArrValidators (is_block : bool)     (* ChannelQueueValidator *)
| ArrJoltBlock (height : Z)           (* ChannelQueueNewBlock *)
| ArrPubHead (head : BlockHead)       (* ChannelQueue *)
| ArrInbound                          (* InboundReqChan *)
| ArrOutbound                         (* OutboundReqChan *)
| ArrTimeAfter.                       (* time.After *)

(** *** Programs on a part of the state, next to local variables [L] *)

Section Lifts.
Context {St St' L : Type} (on : forall B, M St B -> M St' B).

(** The program does not touch the variables ... *)
Definition apart : forall B, M St B -> M (St' * L) B := fun B m s =>
  let '(s', r) := on B m (fst s) in ((s', snd s), r).

(** ... or works on them as well. *)
Definition along : forall B, M (St * L) B -> M (St' * L) B := fun B m s =>
  match on _ (fun x => let '((x', l'), r) := m (x, snd s) in (x', Ret (l', r))) (fst s) with
  | (s', Ret (l', r)) => ((s', l'), r)
  | (s', Fail e) => ((s', snd s), Fail e)
  | (s', Panic) => ((s', snd s), Panic)
  end.
End Lifts.

Section Service.
Context {W C J Msg : Type} `{EC : EthClient W C} `{TW : TssServer W} `{CN : CosmosNode J Msg} `{TJ : TssServer J} `{JS : JoltService J}.
Context `{JB : JoltBlocks J} `{JCn : JoltConnection J} `{KG : KeygenServer J Msg}.
Context `{G : EthSigner} `{S : SdkMath} `{N : SdkCoins} `{B : Bech32} `{E : Eth} `{K : Backoff} `{R : GoRuntime} `{GK : GoBackoff}.
Context `{AB : TokenAbi} `{JH : !JoltHandler} `{MC : MemoCodec} `{JN : !JoltNode}.
Context (attempts submits : nat) (HexToHash : string -> bytes).
Context (GetConsAddress : bytes -> bytes) (Address_String : bytes -> string) (myValidatorKey : string).
Context (ReadFile : outcome bytes) (Unmarshal : bytes -> outcome (list TokenItem)).
Context (feeModule : gmap string FeeModule) (oppyRollbackGap pubRollbackGap : Z).
#[local] Notation BR := (Bridge W C J Msg).
#[local] Notation T := (thread kind BR).

(** A read of the state that cannot fail. *)
Definition look {A} (f : BR -> A) (k : A -> T) : T :=
  Do (fun b => (b, Ret (f b))) (fun r => match r with inl a => k a | inr _ => Finished end).
#[local] Notation "'look*' x ':=' f 'in' k" := (look f (fun x => k)) (at level 10, x pattern, f at level 100, k at level 200).

(** A nil pointer, an index out of range. *)
Definition crash : T := Do (panic (A := unit)) (fun _ => Finished).

Definition store_in (f : InFlow -> InFlow) : M BR unit := on_in (on_flow f).
Definition store_out (f : OutFlow -> OutFlow) : M BR unit := fun b => (set_flows (br_in b) (f (br_out b)) b, Ret tt).
Definition heights {A} (f : OutFlow -> outcome A) : M BR A := fun b => (b, f (br_out b)).

Definition mint_on : forall D, M (MintState J) D -> M BR D := fun D m => on_in (Flow.on_mint m).
Definition pay_on (ct : string) : forall D, M (PayState W J C) D -> M BR D := fun D m => EventLoop.on_out ct (Flow.on_pay m).
Definition fund_on (ct : string) : forall D, M (FundState W C) D -> M BR D := fun D m => on_fund ct m.

(** *** putOnHoldBlockInBoundBack, putOnHoldBlockOutBoundBack *)

Definition put_back_in (k : T) : T :=
  let* d := on_jolt DialGrpc in
  match d with
  | inr _ => k
  | inl _ =>
      let* itemInbound := mint_on _ (on_mq DumpQueue) in
      match itemInbound with
      | inr _ => k
      | inl itemInbound => WaitGroup tt (map (fun each => glift (apart mint_on) (put_back_go each)) itemInbound) (fun _ => k)
      end
  end.

(** The goroutine of one held payout. *)
Definition put_back_out_go (each : OutBoundReq) : go (PayState W J C) (option (gmap string bytes)) unit :=
  if bool_decide (SubmittedTxHash each = Hash_Hex zero_hash) then do^ act (on_pq (AddItem each)) in Return tt
  else
    let^ r := glift (@on_pchain W J C) (SendPrograms.CheckTxStatus_go HexToHash (SubmittedTxHash each)) in
    match r with
    | inr _ => do^ act (on_pq (AddItem each)) in Return tt
    | inl _ => Return tt
    end.

Definition put_back_out (ct : string) (k : T) : T :=
  let* d := on_jolt DialGrpc in
  match d with
  | inr _ => k
  | inl _ =>
      let* itemsOutBound := on_payouts DumpQueue in
      match itemsOutBound with
      | inr _ => k
      | inl itemsOutBound => WaitGroup tt (map (fun each => glift (apart (pay_on ct)) (put_back_out_go each)) itemsOutBound) (fun _ => k)
      end
  end.

(** *** The goroutine of an inbound batch *)

(** The loop that asks for every request whether it is minted already. *)
Fixpoint ask_each (items need : list InBoundReq) (k : list InBoundReq -> T) : T :=
  match items with
  | [] => k need
  | item :: items =>
      let* r := mint_on _ (on_mnode (already_exists (Hash_Hex (InBoundReq_Hash item)))) in
      ask_each items (match r with inl true => need | _ => need ++ [item] end)%list k
  end.

(** [defer inBoundProcessDone.Store(true)] *)
Definition mint_over : T := do* store_in (in_set_done true) in Finished.

Definition mint_thread (items : list InBoundReq) : T :=
  let* d := on_jolt DialGrpc in
  match d with
  | inr _ => mint_over
  | inl _ =>
      let itemsMap := by_hash items in
      ask_each items [] (fun needToBeProcessed =>
        match needToBeProcessed with
        | [] => do* mint_on _ (set_failedIn (fun _ => 0)) in mint_over
        | _ =>
            let* r := on_jolt (DoProcessInBound needToBeProcessed) in
            match r with
            | inr _ => do_all (fun el => mint_on _ (on_mq (AddOnHoldQueue el))) items mint_over
            | inl hashIndexMap =>
                WaitGroup tt (map (fun i => glift (apart mint_on) (mint_go itemsMap i)) (map fst (map_range hashIndexMap))) (fun _ => mint_over)
            end
        end)
  end.

(** *** The goroutine of an outbound batch *)

Definition pay_over : T := do* store_out (out_set_done true) in Finished.

(** Its goroutines, on the state of the bridge: the validators and the pools
    are read when they are used. *)
Definition check_now (ct : string) (each : OutBoundReq) : go (BR * list OutBoundReq) (option (gmap string bytes)) unit :=
  check_body (fun s => along (pay_on ct) _ (on_ps (on_pjolt (submitted_query (br_vals s.1) each))) s)
    (fun tx => glift (fun D m => along (pay_on ct) D (on_ps (on_pchain m))) (CheckTxStatus_go HexToHash tx))
    (along (pay_on ct) _ (append each)).

Definition worker_now (ct : string) (item : OutBoundReq) : go (BR * unit) (option (gmap string bytes)) unit :=
  worker_body attempts submits HexToHash (apart (pay_on ct))
    (fun txHash s => apart (pay_on ct) _ (on_pjolt (submit_record (Msg := Msg) (GetPool (pi_pools (br_pools s.1))) item txHash)) s) item.

Definition sign_now (ct : string) (received : gmap nat bytes) : go (BR * unit) (option (gmap string bytes)) (option (gmap string bytes)) :=
  let^ pools := act (fun s => (s, Ret (GetPool (pi_pools (br_pools s.1))))) in
  match pools with
  | inr _ => Return None
  | inl pools => glift (apart (pay_on ct)) (sign_go pools received)
  end.

Definition payout_thread (items : list OutBoundReq) : T :=
  match items with
  | [] => crash
  | item0 :: _ =>
      let ct := Requests.ChainType item0 in
      WaitGroup [] (map (check_now ct) items) (fun needToBeProcessed =>
        match needToBeProcessed with
        | [] => do* pay_on ct _ (set_failedOut (fun _ => 0)) in pay_over
        | _ => sign_round_thread (length needToBeProcessed) (sign_now ct) tt (map (worker_now ct) needToBeProcessed) (fun _ => pay_over)
        end)
  end.

(** *** The goroutine of a key generation *)

Fixpoint keygen_tries (tries : nat) (pubKeys : list string) (blockHeight : Z) (k : option string -> T) : T :=
  match tries with
  | O => k None
  | Datatypes.S tries =>
      let* resp := on_jolt (KeyGen pubKeys blockHeight) in
      match resp with
      | inl (true, pk) => k (Some pk)
      | _ => keygen_tries tries pubKeys blockHeight k
      end
  end.

Definition keygen_thread (pubKeys : list string) (blockHeight : Z) : T :=
  do* on_keygen (set_inKeygen true) in
  keygen_tries maxretry (sort_slice String.ltb pubKeys) blockHeight (fun pk =>
    let over := do* on_keygen (set_inKeygen false) in Finished in
    match pk with
    | None => over
    | Some pk =>
        let* creator := lift Keyring_Key in
        match creator with
        | inr _ => over
        | inl (_, addr) => do* on_keygen (prepareTssPool addr pk (FormatInt (i64 (blockHeight + 1)))) in over
        end
    end).

Definition validators_thread (is_block : bool) : T :=
  let* height := on_jolt (LatestHeight (Msg := Msg)) in
  match height with
  | inr _ => Finished
  | inl height =>
      if negb is_block then Finished
      else
        let* job := on_keygen (update_validators GetConsAddress Address_String myValidatorKey height) in
        match job with
        | inl (Some (pubKeys, blockHeight)) => Spawn KKeygen (keygen_thread pubKeys blockHeight) Finished
        | _ => Finished
        end
  end.

(** *** A new joltify block *)

Definition check_pool_thread (blockHeight : Z) (k : T) : T :=
  look* keyGenCache := br_cache in
  match keyGenCache with
  | [] => k
  | el :: _ =>
      if tp_blockHeight el <=? blockHeight then
        let* ok := on_jolt (submit_pool el) in
        match ok with
        | inl true => do* on_keygen (let! s := get in set_cache (tail (Keygen.keyGenCache s))) in k
        | _ => k
        end
      else k
  end.

Definition feed_inbound_thread (lastPoolInfo : VaultPool) (k : T) : T :=
  let* found := lift (CheckWhetherSigner operator_address (Some lastPoolInfo)) in
  match found with
  | inl true =>
      let* acc := on_jolt (queryAccount (AccAddress_String (PoolAddr lastPoolInfo))) in
      match acc with
      | inr _ => k
      | inl acc =>
          let* inboundItems := mint_on _ (on_mq (InboundQueue.PopItem GroupSign)) in
          match inboundItems with
          | inl (Some inboundItems) =>
              let batch := assign_accounts (acc_Number acc) (acc_Sequence acc) (acc_Address acc) (PoolPubKey lastPoolInfo) inboundItems in
              do* store_in (fun f => in_set_chan (InboundReqChan f ++ [batch]) (in_running f) f) in k
          | _ => k
          end
      end
  | _ => k
  end.

(** The section from [inBoundProcessDone.Load()] on. *)
Definition feed_if_done_in (pools : Slots) (currentProcessBlockHeight : Z) : T :=
  look* inBoundProcessDone := fun b => inBoundProcessDone (br_in b) in
  if negb inBoundProcessDone then Finished
  else
    look* inKeygenInProgress := br_keygen in
    if inKeygenInProgress : bool then Finished
    else match slot1 pools with
      | None => crash
      | Some pool =>
          feed_inbound_thread (pi_PoolInfo pool) (
            do* store_in (in_set_done false) in
            do* store_in (in_set_prev currentProcessBlockHeight) in
            do* store_in (in_set_first true) in
            Finished)
      end.

Definition inbound_section_thread (pools : Slots) (latestHeight currentProcessBlockHeight processableBlockHeight : Z) : T :=
  look* failedInbound := fun b => in_failed (br_in b) in
  let k :=
    look* inboundPauseHeight := fun b => inboundPauseHeight (br_in b) in
    if latestHeight <? inboundPauseHeight then
      if latestHeight =? i64 (inboundPauseHeight - 1) then put_back_in Finished else Finished
    else
      do* store_in (fun f => in_set_pause (Flow.inboundPauseHeight f) false f) in
      look* empty := fun b => IsEmpty (in_q (br_in b)) in
      let k :=
        look* previousTssBlockInbound := fun b => previousTssBlockInbound (br_in b) in
        look* empty := fun b => IsEmpty (in_q (br_in b)) in
        if (GroupBlockGap <=? i64 (processableBlockHeight - previousTssBlockInbound)) && negb empty then
          look* size := fun b => Size (in_q (br_in b)) in
          look* firstTimeInbound := fun b => firstTimeInbound (br_in b) in
          if (size <? GroupSign) && firstTimeInbound then do* store_in (in_set_first false) in Finished
          else
            feed_if_done_in pools currentProcessBlockHeight
        else Finished in
      if empty : bool then put_back_in k else k in
  if 5 <? failedInbound then
    do* store_in (in_set_failed 0) in
    do* store_in (fun f => in_set_pause (i64 (round_end latestHeight)) (in_wait f) f) in
    do* store_in (fun f => in_set_pause (Flow.inboundPauseHeight f) true f) in
    k
  else k.

(** The goroutine of each new block: [HealthCheckAndReset] of the instance. *)
Definition health_check_thread : T :=
  do* on_client "BSC" HealthCheckAndReset in do* on_client "ETH" HealthCheckAndReset in Finished.

Definition jolt_block_thread (currentProcessBlockHeight : Z) : T :=
  Spawn KHealth health_check_thread (
  let* d := on_jolt DialGrpc in
  match d with
  | inr _ => Finished
  | inl _ =>
      let* latestHeight := on_jolt (LatestHeight (Msg := Msg)) in
      match latestHeight with
      | inr _ => Finished
      | inl latestHeight =>
          check_pool_thread latestHeight (
          let* poolInfo := on_jolt QueryLastPoolAddress in
          match poolInfo with
          | inl [qc0; qc1] =>
              look* pools := fun b => jc_pools (br_pools b) in
              let* go_on := on_pools (refresh_pools qc0 qc1 latestHeight) in
              match go_on with
              | inl true =>
                  let k processableBlockHeight :=
                    do* set_CurrentHeight currentProcessBlockHeight in
                    do* on_tokens (UpdateTokenList ReadFile Unmarshal currentProcessBlockHeight) in
                    inbound_section_thread pools latestHeight currentProcessBlockHeight processableBlockHeight in
                  if oppyRollbackGap <? currentProcessBlockHeight then
                    let processableBlockHeight := i64 (currentProcessBlockHeight - oppyRollbackGap) in
                    let* processableBlock := on_jolt (GetBlockByHeight processableBlockHeight) in
                    match processableBlock with
                    | inr _ => Finished
                    | inl txs =>
                        let* amISigner := lift (signer_check (slot1 pools)) in
                        match amISigner with
                        | inl true =>
                            do_all (fun el =>
                              let! b := get in
                              on_payouts (CheckOutBoundTx (br_tokens b) feeModule (jc_pools (br_pools b)) processableBlockHeight el)) txs
                              (k processableBlockHeight)
                        | _ => Finished
                        end
                    end
                  else k 0
              | _ => Finished
              end
          | _ => Finished
          end)
      end
  end).

(** *** A new head of a public chain: pubchainProcess *)

(** [MoveFound], with its goroutines. *)
Definition move_found_thread (ct : string) (height : Z) (previousPool : PoolInfo) (ethClient : C) (k : bool -> T) : T :=
  look* b := fun b => b in
  let pools := GetPool (pi_pools (br_pools b)) in
  match chain_of ct b with
  | None => crash
  | Some chainInfo =>
      let chainType := PubClient.ChainType chainInfo in
      let* p := on_fund ct (prepare_move attempts HexToHash (br_tokens b) pools height previousPool chainType ethClient) in
      match p with
      | inr _ => Finished
      | inl (inl result) => k result
      | inl (inr (currentPool, nonce, needToMove)) =>
          sign_round_thread (length needToMove) (fun received => glift (along (fund_on ct)) (move_sign_go previousPool received)) true
            (map (glift (along (fund_on ct))) (token_programs attempts HexToHash chainInfo height nonce previousPool (EthAddress currentPool) 0 needToMove))
            (fun emptyERC20Tokens =>
              let* r := on_fund ct (finish_move attempts HexToHash pools height previousPool currentPool chainType emptyERC20Tokens) in
              match r with inl isMoveFund => k isMoveFund | inr _ => Finished end)
      end
  end.

Definition move_funds_thread (ct : string) (joltBlockHeight : Z) (k : bool -> T) : T :=
  let* item := on_fund ct (on_queue (PopMoveFundItemAfterBlock joltBlockHeight ct)) in
  match item with
  | inl (Some item, height) =>
      let* ethClient := on_client ct (let! c := get in call (fun _ => Dial (WsAddr c))) in
      match ethClient with
      | inr _ => do* on_fund ct (on_queue (AddMoveFundItem (mf_PoolInfo item) height ct)) in k false
      | inl ethClient =>
          match mf_PoolInfo item with
          | None => crash
          | Some previousPool => move_found_thread ct height previousPool ethClient k
          end
      end
  | _ => k false
  end.

Definition new_block_thread (ct : string) (number : Z) (k : T) : T :=
  let* block := on_inbound_block ct (on_ichain (GetBlockByNumberWithLock (Some number))) in
  match block with
  | inr _ => k
  | inl block =>
      do_all (fun tx =>
        let! b := get in
        on_inbound_block ct (process_tx (br_tokens b) (pi_pools (br_pools b)) feeModule ct (NumberU64 block) (i64 number) tx))
        (Transactions block) k
  end.

(** From [PopItem] on. *)
Definition feed_outbound_thread (pool : PoolInfo) (ct : string) (processableBlockHeight : Z) : T :=
  let* outboundItems := on_payouts (OutboundQueue.PopItem GroupSign ct) in
  match outboundItems with
  | inl (Some outboundItems) =>
      let* r := on_client ct (FeedTx_outbound (pi_PoolInfo pool) outboundItems) in
      match r with
      | inr _ => Finished
      | inl outboundItems =>
          let* p := heights (fun f => SetHeight (i64 processableBlockHeight) ct (previousTssBlockOutBound f)) in
          match p with
          | inr _ => Finished
          | inl p =>
              do* store_out (out_set_prev p) in
              do* store_out (out_set_first true) in
              do* store_out (fun f => out_set_chan (OutboundReqChan f ++ [outboundItems]) (out_running f) f) in
              do* store_out (out_set_done false) in
              Finished
          end
      end
  | _ => Finished
  end.

(** pubchainProcess from [outBoundProcessDone.Load()] on. *)
Definition feed_if_done_out (pool : PoolInfo) (ct : string) (processableBlockHeight : Z) : T :=
  look* outBoundProcessDone := fun b => outBoundProcessDone (br_out b) in
  if negb outBoundProcessDone then Finished
  else
    look* inKeygenInProgress := br_keygen in
    if inKeygenInProgress : bool then Finished
    else
      look* empty := fun b => IsEmpty (out_q (br_out b)) in
      let k :=
        let* prev := heights (fun f => GetHeight ct (previousTssBlockOutBound f)) in
        match prev with
        | inr _ => Finished
        | inl prev =>
            look* empty := fun b => IsEmpty (out_q (br_out b)) in
            if (cos_GroupBlockGap <=? i64 (i64 processableBlockHeight - prev)) && negb empty then
              look* size := fun b => Size (out_q (br_out b)) in
              look* firstTimeOutbound := fun b => firstTimeOutbound (br_out b) in
              if (size <? GroupSign) && firstTimeOutbound then do* store_out (out_set_first false) in Finished
              else
                feed_outbound_thread pool ct processableBlockHeight
            else Finished
        end in
      if empty : bool then put_back_out ct k else k.

Definition outbound_section_thread (pool : PoolInfo) (ct chainType : string) (latestHeight processableBlockHeight : Z) : T :=
  look* failedOutbound := fun b => out_failed (br_out b) in
  let k :=
    let* pause := heights (fun f => GetHeight chainType (outboundPauseHeight f)) in
    match pause with
    | inr _ => Finished
    | inl pause =>
        if latestHeight <? pause then
          if latestHeight =? u64 (pause - 1) then put_back_out ct Finished else Finished
        else
          do* store_out (fun f => out_set_pause (outboundPauseHeight f) false f) in
          feed_if_done_out pool ct processableBlockHeight
    end in
  if 5 <? failedOutbound then
    let* p := heights (fun f => SetHeight (u64 (round_end latestHeight)) chainType (outboundPauseHeight f)) in
    match p with
    | inr _ => Finished
    | inl p =>
        do* store_out (fun f => out_set_pause p (out_wait f) f) in
        do* store_out (out_set_failed 0) in
        do* store_out (fun f => out_set_pause (outboundPauseHeight f) true f) in
        k
    end
  else k.

Definition pub_head_thread (blockHead : BlockHead) : T :=
  let ct := head_ChainType blockHead in
  look* chainInfo := chain_of ct in
  match chainInfo with
  | None => Finished
  | Some chainInfo =>
      let* latest := on_client ct (GetBlockByNumberWithLock None) in
      match latest with
      | inr _ => Finished
      | inl latest =>
          let* joltBlockHeight := on_jolt (LatestHeight (Msg := Msg)) in
          match joltBlockHeight with
          | inr _ => Finished
          | inl joltBlockHeight =>
              let processableBlockHeight := Head blockHead - pubRollbackGap in
              look* pools := fun b => jc_pools (br_pools b) in
              match slot1 pools with
              | None => Finished
              | Some pool =>
                  let* amISigner := lift (signer_check (Some pool)) in
                  match amISigner with
                  | inl true =>
                      new_block_thread ct processableBlockHeight (
                      move_funds_thread ct joltBlockHeight (fun isMoveFund =>
                        if isMoveFund : bool then Finished
                        else outbound_section_thread pool ct (PubClient.ChainType chainInfo) (NumberU64 latest) processableBlockHeight))
                  | _ => Finished
                  end
              end
          end
      end
  end.

(** *** The loop *)

(** [case itemsRecv := <-pi.InboundReqChan] with something on the channel. *)
Definition receive_in : M BR (option (list InBoundReq)) := fun b =>
  match InboundReqChan (br_in b) with
  | [] => (b, Ret None)
  | items :: chan => (set_flows (in_set_chan chan (in_running (br_in b)) (br_in b)) (br_out b) b, Ret (Some items))
  end.
Definition receive_out : M BR (option (list OutBoundReq)) := fun b =>
  match OutboundReqChan (br_out b) with
  | [] => (b, Ret None)
  | items :: chan => (set_flows (br_in b) (out_set_chan chan (out_running (br_out b)) (br_out b)) b, Ret (Some items))
  end.

Definition on_arrival (a : arrival) : T :=
  match a with
  | ArrValidators is_block => validators_thread is_block
  | ArrJoltBlock height => jolt_block_thread height
  | ArrPubHead head => pub_head_thread head
  | ArrInbound =>
      let* itemsRecv := receive_in in
      match itemsRecv with inl (Some items) => Spawn KMint (mint_thread items) Finished | _ => Finished end
  | ArrOutbound =>
      let* itemsRecv := receive_out in
      match itemsRecv with inl (Some items) => Spawn KPayout (payout_thread items) Finished | _ => Finished end
  | ArrTimeAfter =>
      do* on_client "ETH" RetryPubChain in
      do* on_client "BSC" RetryPubChain in
      do* on_jolt (on_connection RetryOppyChain) in
      Finished
  end.

(** The service with its loop started on [b]. *)
Definition start_service (b : BR) : service kind BR := mkSvc b Finished [].
Definition svc_reaches (b : BR) (c : service kind BR) : Prop := rtc (svc_step on_arrival) (start_service b) c.
End Service.

(** ** Lemmas: what the actions leave alone *)

Section Quiet.
Context {W C J Msg : Type} `{EC : EthClient W C} `{TW : TssServer W} `{CN : CosmosNode J Msg}.
#[local] Notation BR := (Bridge W C J Msg).
Context (PI : InFlow -> Prop) (PO : OutFlow -> Prop) (PM : gmap string MoveFundItem -> Prop) (PC : Slots -> Prop).
#[local] Notation parts := (@Wellformed.parts W C J Msg PI PO PM PC).

Lemma parts_read {A} (f : BR -> outcome A) : keeps parts (fun b => (b, f b)).
Proof. by intros b H. Qed.
Lemma parts_lift {A} (o : outcome A) : keeps parts (lift o).
Proof. by intros b H. Qed.
Lemma parts_store_in g : (forall f, PI f -> PI (g f)) -> keeps parts (store_in g).
Proof. intros Hg b (H1 & H2). split; [by apply Hg|done]. Qed.
Lemma parts_store_out g : (forall f, PO f -> PO (g f)) -> keeps parts (store_out g).
Proof. intros Hg b (H1 & H2 & H3). split; [done|]. split; [by apply Hg|done]. Qed.

(** Operations on the variables of a mint round, and of a payout round. *)
Lemma parts_mint_on {A} (m : M (MintState J) A) :
  (forall f, keeps (fun s => PI (in_set_failed (failedInbound s) (in_set_q (mint_q s) f))) m) -> keeps parts (mint_on (W := W) (C := C) (Msg := Msg) _ m).
Proof.
  intros Hm b (H1 & H2). unfold mint_on, on_in, Flow.on_mint.
  specialize (Hm (br_in b) (mkMintState (br_jolt b) (in_q (br_in b)) (in_failed (br_in b)) (in_wait (br_in b)))).
  destruct (m _) as [s r]. cbn in *. split; [|done]. apply Hm. by destruct (br_in b).
Qed.

Lemma parts_pay_on {A} ct (m : M (PayState W J C) A) :
  (forall f, keeps (fun s => PO (out_set_failed (failedOutbound s) (out_set_q (pay_q s) f))) m) -> keeps parts (pay_on (Msg := Msg) ct _ m).
Proof.
  intros Hm b (H1 & H2 & H3). unfold pay_on, EventLoop.on_out, Flow.on_pay. destruct (chain_of ct b) as [c|]; [|done].
  specialize (Hm (br_out b) (mkPayState c (br_jolt b) (out_q (br_out b)) (out_failed (br_out b)) (out_wait (br_out b)))).
  destruct (m _) as [s r]. cbn in *. split; [done|]. split; [|done]. apply Hm. by destruct (br_out b).
Qed.

(** The mint variables do not change with the node, nor the payouts' with the
    client and the node. *)
Lemma keeps_mnode {P : InFlow -> Prop} f {A} (m : M J A) :
  keeps (fun s => P (in_set_failed (failedInbound s) (in_set_q (mint_q s) f))) (on_mnode m).
Proof. intros s H. unfold on_mnode. by destruct (m _). Qed.
Lemma keeps_pchain {P : OutFlow -> Prop} f {A} (m : M (ChainInfo W C) A) :
  keeps (fun s : PayState W J C => P (out_set_failed (failedOutbound s) (out_set_q (pay_q s) f))) (on_pchain m).
Proof. intros s H. unfold on_pchain. by destruct (m _). Qed.
Lemma keeps_pjolt {P : OutFlow -> Prop} f {A} (m : M J A) :
  keeps (fun s : PayState W J C => P (out_set_failed (failedOutbound s) (out_set_q (pay_q s) f))) (on_pjolt m).
Proof. intros s H. unfold on_pjolt. by destruct (m _). Qed.
Lemma keeps_failedIn {P : InFlow -> Prop} f g : (forall f n, P f -> P (in_set_failed n f)) ->
  keeps (fun s : MintState J => P (in_set_failed (failedInbound s) (in_set_q (mint_q s) f))) (set_failedIn g).
Proof. intros HP. apply keeps_modify. intros s H. cbn. apply (HP _ (g (failedInbound s))) in H. exact H. Qed.
Lemma keeps_failedOut {P : OutFlow -> Prop} f g : (forall f n, P f -> P (out_set_failed n f)) ->
  keeps (fun s : PayState W J C => P (out_set_failed (failedOutbound s) (out_set_q (pay_q s) f))) (set_failedOut g).
Proof. intros HP. apply keeps_modify. intros s H. cbn. apply (HP _ (g (failedOutbound s))) in H. exact H. Qed.

(** Local variables next to the state. *)
Lemma keeps_apart {St St' L A} (on : forall B, M St B -> M St' B) (P : St' -> Prop) (Q : L -> Prop) (m : M St A) :
  keeps P (on _ m) -> keeps (fun s => Q s.2 /\ P s.1) (apart on _ m).
Proof. intros Hm [s l] [Hq Hp]. unfold apart. specialize (Hm s Hp). cbn in *. by destruct (on _ m s). Qed.
End Quiet.
