(* ===== verification/ServiceRules.v ===== *)
(** * The rule for the service's threads

    An invariant of the two flows and of what the running goroutines hold is
    kept by every case of the event loop when it is kept by adding requests,
    by writes to the variables it does not speak of, and by the few threads
    that move requests: putting back, feeding, receiving a batch.  The
    invariants of DepositThreads.v, PayoutThreads.v and FlightThreads.v are
    proved with it. *)

From Stdlib Require Import Ascii String.
From S2P Require Import Prelude GoLib Sdk Requests Fees ItemQueue TokenList Signature MoveFundQueue Pools Validators PubClient Keysign Goroutine Threads TxSend MoveFund Inbound Outbound CosTx Keygen Processing MintRound PayoutRound MoveRound Flow JoltClient EventLoop Wellformed BridgeThreads.

#[local] Open Scope string_scope.
#[local] Open Scope Z_scope.
#[local] Open Scope go_scope.

(** ** What an invariant of a flow has to satisfy *)

(** [none] is what a goroutine holds that has nothing to do with the flow. *)
Record in_rules `{E : Eth} {G} (none : G) (PI : list G -> InFlow -> Prop) : Prop := {
  in_perm : forall f gs gs', gs ≡ₚ gs' -> PI gs f -> PI gs' f;
  in_none : forall f gs, PI (none :: gs) f <-> PI gs f;
  in_add : forall gs f a, keeps (fun q => PI gs (in_set_q q f)) (AddItem a);
  in_pause : forall gs f h w, PI gs f -> PI gs (in_set_pause h w f);
  in_failures : forall gs f n, PI gs f -> PI gs (in_set_failed n f);
  in_first : forall gs f b, PI gs f -> PI gs (in_set_first b f);
  in_prev : forall gs f h, PI gs f -> PI gs (in_set_prev h f);
}.

Record out_rules `{E : Eth} {G} (none : G) (PO : list G -> OutFlow -> Prop) : Prop := {
  out_perm : forall f gs gs', gs ≡ₚ gs' -> PO gs f -> PO gs' f;
  out_none : forall f gs, PO (none :: gs) f <-> PO gs f;
  out_add : forall gs f a, keeps (fun q => PO gs (out_set_q q f)) (AddItem a);
  out_pause : forall gs f p w, PO gs f -> PO gs (out_set_pause p w f);
  out_failures : forall gs f n, PO gs f -> PO gs (out_set_failed n f);
  out_first : forall gs f b, PO gs f -> PO gs (out_set_first b f);
  out_prev : forall gs f p, PO gs f -> PO gs (out_set_prev p f);
}.

Lemma in_rules_trivial `{E : Eth} {G} (none : G) : in_rules none (fun _ _ => True).
Proof. by split. Qed.
Lemma out_rules_trivial `{E : Eth} {G} (none : G) : out_rules none (fun _ _ => True).
Proof. by split. Qed.

Section Rules.
Context {W C J Msg : Type} `{EC : EthClient W C} `{TW : TssServer W} `{CN : CosmosNode J Msg} `{TJ : TssServer J} `{JS : JoltService J}.
Context `{JB : JoltBlocks J} `{JCn : JoltConnection J} `{KG : KeygenServer J Msg}.
Context `{Gs : EthSigner} `{S : SdkMath} `{N : SdkCoins} `{B : Bech32} `{E : Eth} `{K : Backoff} `{R : GoRuntime} `{GK : GoBackoff}.
Context `{AB : TokenAbi} `{JH : !JoltHandler} `{MC : MemoCodec} `{JN : !JoltNode}.
Context (attempts submits : nat) (HexToHash : string -> bytes).
Context (GetConsAddress : bytes -> bytes) (Address_String : bytes -> string) (myValidatorKey : string).
Context (ReadFile : outcome bytes) (Unmarshal : bytes -> outcome (list TokenItem)).
Context (feeModule : gmap string FeeModule) (oppyRollbackGap pubRollbackGap : Z).
#[local] Notation BR := (Bridge W C J Msg).
#[local] Notation T := (thread kind BR).

(** ** The invariant of the service *)

(** [PI] speaks of the deposits, [PO] of the payouts, [PC] of the cached
    pools; [none] is what a goroutine holds that has nothing to do with them,
    [g0] what the loop holds between two events. *)
Context {G : Type} (PI : list G -> InFlow -> Prop) (PO : list G -> OutFlow -> Prop) (PC : Slots -> Prop) (none g0 : G).
Context (Owns : kind -> G -> Prop) (E0 Lab : G -> Prop).

Definition service_inv (b : BR) (gs : list G) : Prop := parts (PI gs) (PO gs) (fun _ => True) PC b.

Context (LI : in_rules none PI) (LO : out_rules none PO).

Lemma service_inv_perm b gs gs' : gs ≡ₚ gs' -> service_inv b gs -> service_inv b gs'.
Proof using LI LO. intros Hp (H1 & H2 & H3). split; [by eapply (in_perm _ _ LI)|]. split; [by eapply (out_perm _ _ LO)|done]. Qed.

Lemma none_drops : drops service_inv none.
Proof using LI LO. intros b rest (H1 & H2 & H3). split; [by apply (in_none _ _ LI)|]. split; [by apply (out_none _ _ LO)|done]. Qed.

Lemma nones n b gs : service_inv b gs -> service_inv b (replicate n none ++ gs)%list.
Proof using LI LO.
  intros H. induction n as [|n (H1 & H2 & H3)]; [done|]. split; [by apply (in_none _ _ LI)|]. split; [by apply (out_none _ _ LO)|done].
Qed.

Lemma trades_nones g n : trades service_inv g (g :: replicate n none)%list.
Proof using LI LO.
  intros b rest H. apply (nones n) in H. revert H. apply service_inv_perm. cbn. symmetry. apply Permutation_middle.
Qed.

Lemma trades_same : trades service_inv g0 [g0].
Proof. by intros b rest. Qed.

(** *** Goroutines that leave the flows alone *)

Section Idle.
Context {Rp L : Type} (own : L -> G) (c : G) (own_same : forall l, own l = c).
#[local] Notation leaves_alone := (acts (fun D m => forall gs, keeps (fun s : BR * L => service_inv s.1 gs) m)).

Lemma idle_holds {A} (p : go (BR * L) Rp A) (Q : A -> G -> Prop) g :
  (forall a, Q a g) -> leaves_alone p -> holds (beside service_inv own (fun _ => True)) Q p g.
Proof using own_same.
  intros HQ Hp. eapply holds_mono; [|apply holds_acts]; [by intros a g' ->|]. clear HQ.
  induction p as [a|B' m k IH|k IH|d k IH|k IH|k IH]; cbn [acts] in *; auto. destruct Hp as [Hm Hk]. split; [|auto].
  intros gs [b l] [_ H]. pose proof (Hm (own l :: gs) (b, l) H) as Hs. destruct (m (b, l)) as [[b' l'] r].
  split; [done|]. cbn in *. by rewrite own_same in Hs |- *.
Qed.

Lemma idle_group (ps : list (go (BR * L) Rp unit)) : Forall leaves_alone ps ->
  group_holds service_inv own (fun _ => True) ps (replicate (length ps) none).
Proof using own_same LI LO.
  intros H. unfold group_holds. induction H as [|p ps Hp _ IH]; cbn; constructor; [|done].
  apply idle_holds; [|done]. intros _. apply none_drops.
Qed.

Lemma leaves_lifted {St X} (on : forall D, M St D -> M (BR * L) D) (f : X -> go St Rp unit) l :
  (forall D (m : M St D) gs, keeps (fun s => service_inv s.1 gs) (on D m)) -> Forall leaves_alone (map (fun x => glift on (f x)) l).
Proof. intros Hon. apply Forall_fmap, Forall_forall. intros x _. apply acts_glift. intros D m gs. apply Hon. Qed.
End Idle.

(** ** The rules for the parts *)

Context (PC_update : forall el, keeps PC (jolt_UpdatePool el)).
Context (Lab0 : Lab g0) (E00 : E0 g0) (Owns_none : Owns KHealth none /\ Owns KKeygen none).
#[local] Notation keeps_thread := (Threads.keeps_thread service_inv Owns E0 Lab).
Context (put_in : forall k, keeps_thread k g0 -> keeps_thread (put_back_in k) g0).
Context (put_out : forall ct k, keeps_thread k g0 -> keeps_thread (put_back_out HexToHash ct k) g0).
Context (feed_in : forall s h, keeps_thread (feed_if_done_in (Msg := Msg) s h) g0).
Context (feed_out : forall p ct h, (exists s, PC s /\ slot1 s = Some p) -> keeps_thread (feed_if_done_out HexToHash p ct h) g0).
Context (receive_in_ok : keeps_thread (on_arrival (Msg := Msg) attempts submits HexToHash GetConsAddress Address_String myValidatorKey ReadFile Unmarshal feeModule oppyRollbackGap pubRollbackGap ArrInbound) g0).
Context (receive_out_ok : keeps_thread (on_arrival (Msg := Msg) attempts submits HexToHash GetConsAddress Address_String myValidatorKey ReadFile Unmarshal feeModule oppyRollbackGap pubRollbackGap ArrOutbound) g0).

#[local] Hint Resolve parts_on_jolt parts_on_tokens parts_on_keygen parts_set_CurrentHeight parts_on_client parts_on_pools
  parts_on_fund parts_on_payouts parts_on_inbound_block keeps_on_queue parts_read parts_lift : keeps.
#[local] Hint Resolve refresh_pools_keep CheckOutBoundTx_queues process_contract_call_queues process_native_queues keeps_on_ichain : keeps.
Lemma keeps_true {St A} (m : M St A) : keeps (fun _ => True) m.
Proof. done. Qed.
#[local] Hint Resolve keeps_true : keeps.
#[local] Hint Extern 1 (keeps _ (heights _)) => apply parts_read : keeps.
#[local] Hint Extern 1 (keeps _ (AddItem _)) => first [apply (in_add _ _ LI)|apply (out_add _ _ LO)] : keeps.
#[local] Hint Extern 1 (keeps _ (store_in _)) => apply parts_store_in; intros f Hf; first [by eapply (in_pause _ _ LI)|by eapply (in_failures _ _ LI)|by eapply (in_first _ _ LI)|by eapply (in_prev _ _ LI)] : keeps.
#[local] Hint Extern 1 (keeps _ (store_out _)) => apply parts_store_out; intros f Hf; first [by eapply (out_pause _ _ LO)|by eapply (out_failures _ _ LO)|by eapply (out_first _ _ LO)|by eapply (out_prev _ _ LO)] : keeps.

(** The rules of Threads.v for actions that keep the parts. *)
Lemma thread_quiet {D} (Fin Lb : G -> Prop) g (m : M BR D) (k : D + string -> T) :
  (forall gs, keeps (parts (PI gs) (PO gs) (fun _ => True) PC) m) -> Lb g ->
  (forall r, Threads.keeps_thread service_inv Owns Fin Lb (k r) g) -> Threads.keeps_thread service_inv Owns Fin Lb (Do m k) g.
Proof. intros Hm. by apply thread_keep. Qed.

Lemma thread_quiet_all {A} (Fin Lb : G -> Prop) g (f : A -> M BR unit) l (k : T) :
  (forall gs x, keeps (parts (PI gs) (PO gs) (fun _ => True) PC) (f x)) -> Lb g ->
  Threads.keeps_thread service_inv Owns Fin Lb k g -> Threads.keeps_thread service_inv Owns Fin Lb (do_all f l k) g.
Proof. intros Hf. apply thread_do_all. intros x gs _. apply Hf. Qed.

(** Reading the state never fails. *)
Lemma thread_see {D} (Fin Lb : G -> Prop) g (f : BR -> D) (k : D -> T) : Lb g ->
  (forall a, Threads.keeps_thread service_inv Owns Fin Lb (k a) g) -> Threads.keeps_thread service_inv Owns Fin Lb (look f k) g.
Proof. intros HL Hk. split; [done|]. intros b rest b' r HI H. exists g. unfold try in H. injection H as <- <-. split; [done|apply Hk]. Qed.

Lemma thread_look {D} (Fin Lb : G -> Prop) g (f : BR -> D) (k : D -> T) : Fin g -> Lb g ->
  (forall a, Threads.keeps_thread service_inv Owns Fin Lb (k a) g) -> Threads.keeps_thread service_inv Owns Fin Lb (look f k) g.
Proof. intros _. apply thread_see. Qed.

(** What is known of what was read. *)
Lemma thread_look_known {D} (Fin Lb : G -> Prop) g (f : BR -> D) (Q : D -> Prop) (k : D -> T) : Fin g -> Lb g ->
  (forall b gs, service_inv b (g :: gs) -> Q (f b)) ->
  (forall a, Q a -> Threads.keeps_thread service_inv Owns Fin Lb (k a) g) -> Threads.keeps_thread service_inv Owns Fin Lb (look f k) g.
Proof.
  intros HE HL HQ Hk. split; [done|]. intros b rest b' r HI H. exists g. unfold try in H. injection H as <- <-. split; [done|].
  eapply Hk, HQ, HI.
Qed.

Lemma thread_crash (Fin Lb : G -> Prop) g : Fin g -> Lb g -> Threads.keeps_thread service_inv Owns Fin Lb crash g.
Proof. intros HE HL. by apply thread_quiet; [by intros gs b H| |]. Qed.

Lemma thread_panics (Fin Lb : G -> Prop) g : Lb g -> Threads.keeps_thread service_inv Owns Fin Lb crash g.
Proof. intros HL. split; [done|]. intros b rest b' r HI H. discriminate H. Qed.

(** One step of a thread that holds the same before and after. *)
#[local] Ltac thread_step :=
  match goal with
  | |- Threads.keeps_thread _ _ _ _ Finished _ => assumption
  | |- Threads.keeps_thread _ _ _ _ crash _ => apply thread_crash; assumption
  | |- Threads.keeps_thread _ _ _ _ (put_back_in _) _ => apply put_in
  | |- Threads.keeps_thread _ _ _ _ (put_back_out _ _ _) _ => apply put_out
  | |- Threads.keeps_thread _ _ _ _ (feed_if_done_in _ _) _ => apply feed_in
  | |- Threads.keeps_thread _ _ _ _ (look _ _) _ => apply thread_look; [assumption|assumption|intros ?]
  | |- Threads.keeps_thread _ _ _ _ (do_all _ _ _) _ => apply thread_quiet_all; [intros; solve [keep]|assumption|]
  | |- Threads.keeps_thread _ _ _ _ (Do _ _) _ => apply thread_quiet; [intros; solve [auto with keeps | keep]|assumption|intros [?|?]]
  | |- Threads.keeps_thread _ _ _ _ (match ?x with _ => _ end) _ => destruct x
  end.
#[local] Ltac thread_steps := cbv zeta; repeat thread_step; try assumption.

Lemma inbound_section_thread_ok pools lh cur pb : keeps_thread (inbound_section_thread (Msg := Msg) pools lh cur pb) g0.
Proof using Type*. unfold inbound_section_thread. thread_steps. Qed.

Lemma check_pool_thread_ok h k : keeps_thread k g0 -> keeps_thread (check_pool_thread (Msg := Msg) h k) g0.
Proof using Type*. intros Hk. unfold check_pool_thread. thread_steps. Qed.

(** Threads that leave the flows alone hold nothing. *)
Lemma spawn_ok kd t k : Owns kd none -> Threads.keeps_thread service_inv Owns (drops service_inv) (Owns kd) t none ->
  keeps_thread k g0 -> keeps_thread (Spawn kd t k) g0.
Proof using Type*.
  intros Ho Ht Hk. exists none, g0. split; [|done]. intros b rest H. apply (nones 1) in H. exact H.
Qed.

Lemma keygen_thread_ok pubKeys h : Threads.keeps_thread service_inv Owns (drops service_inv) (Owns KKeygen) (keygen_thread (Msg := Msg) pubKeys h) none.
Proof using Type*.
  destruct Owns_none as [_ Ho]. pose proof none_drops as Hd. unfold keygen_thread.
  apply thread_quiet; [auto with keeps|done|]. intros _.
  assert (forall k, (forall r, Threads.keeps_thread service_inv Owns (drops service_inv) (Owns KKeygen) (k r) none) ->
    forall n l, Threads.keeps_thread service_inv Owns (drops service_inv) (Owns KKeygen) (keygen_tries (Msg := Msg) n l h k) none) as Htries.
  { intros k Hk n l. induction n as [|n IH]; cbn [keygen_tries]; [apply Hk|]. thread_steps; apply Hk. }
  apply Htries. intros [pk|]; thread_steps.
Qed.

Lemma validators_thread_ok is_block : keeps_thread (validators_thread (W := W) (C := C) (Msg := Msg) GetConsAddress Address_String myValidatorKey is_block) g0.
Proof using Type*.
  unfold validators_thread. thread_steps. apply spawn_ok; [apply Owns_none|apply keygen_thread_ok|exact E00].
Qed.

Lemma jolt_block_thread_ok h :
  keeps_thread (jolt_block_thread (W := W) (C := C) (Msg := Msg) ReadFile Unmarshal feeModule oppyRollbackGap h) g0.
Proof using Type*.
  unfold jolt_block_thread, health_check_thread. apply spawn_ok; [apply Owns_none| |].
  - destruct Owns_none as [Ho _]. pose proof none_drops as Hd. thread_steps.
  - pose proof inbound_section_thread_ok. pose proof check_pool_thread_ok. thread_steps.
    apply check_pool_thread_ok. thread_steps.
    all: try apply inbound_section_thread_ok.
Qed.

Lemma outbound_section_thread_ok pool ct ch lh pb : (exists s, PC s /\ slot1 s = Some pool) ->
  keeps_thread (outbound_section_thread (Msg := Msg) HexToHash pool ct ch lh pb) g0.
Proof using Type*. intros Hp. unfold outbound_section_thread. thread_steps; by apply feed_out. Qed.

(** A round of [MoveFound]: its goroutines have nothing to do with the flows. *)
Lemma fund_along_keeps {L A} ct (m : M (FundState W C * L) A) gs : keeps (fun s => service_inv s.1 gs) (along (fund_on (J := J) (Msg := Msg) ct) _ m).
Proof using Type.
  intros [b l] H. unfold along, fund_on.
  pose proof (parts_on_fund (PI gs) (PO gs) (fun _ => True) PC ct (fun x => let '((x', l'), r) := m (x, l) in (x', Ret (l', r))) (keeps_true _) b H) as Hk.
  cbn [fst snd] in *. destruct (on_fund ct _ b) as [b' [[l' r]|e|]]; exact Hk.
Qed.

Lemma along_result {St St' L A} (on : forall D, M St D -> M St' D) (m : M (St * L) A) (s s' : St' * L) r :
  (forall D (m : M St D) s s' r, on D m s = (s', r) -> r <> Panic -> exists a a', m a = (a', r)) ->
  along on _ m s = (s', r) -> r <> Panic -> exists a a', m a = (a', r).
Proof.
  intros Hon. unfold along. destruct (on _ _ _) as [s1 [[l' r1]|e|]] eqn:E1; intros [= <- <-]; [intros _| |done].
  - destruct (Hon _ _ _ _ _ E1) as (a & a' & Ha); [done|]. destruct (m (a, s.2)) as [[x' l''] r2] eqn:Em. injection Ha as <- <- <-. eauto.
  - intros _. destruct (Hon _ _ _ _ _ E1) as (a & a' & Ha); [done|]. by destruct (m (a, s.2)) as [[x' l''] r2].
Qed.

Lemma fund_on_result ct D (m : M (FundState W C) D) (b b' : BR) r : fund_on ct _ m b = (b', r) -> r <> Panic -> exists a a', m a = (a', r).
Proof.
  unfold fund_on, on_fund. destruct (chain_of ct b) as [c|]; [|by intros [= <- <-]].
  destruct (m _) as [s r1] eqn:Em. intros [= <- <-] _. eauto.
Qed.

Lemma move_found_thread_ok ct h p cl k : (forall b, keeps_thread (k b) g0) ->
  keeps_thread (move_found_thread (J := J) (Msg := Msg) attempts HexToHash ct h p cl k) g0.
Proof using Type*.
  intros Hk. unfold move_found_thread. cbv zeta. thread_step. thread_step; [|thread_step]. 
  thread_step; [|done]. destruct s as [s|[[cur nonce] need]]; [apply Hk|].
  assert (forall D (m : M (FundState W C * bool) D) gs, keeps (fun s => service_inv s.1 gs) (along (fund_on (J := J) (Msg := Msg) ct) _ m)) as Hkeep
    by (intros; apply fund_along_keeps).
  exists (fun _ => g0), (fun _ => True), none, (replicate (length need) none). split.
  { apply (trades_nones g0 (Datatypes.S (length need))). }
  split_and!; [done| |..].
  - intros rcv. apply (idle_holds _ g0); [done|intros _; apply none_drops|]. apply acts_glift. intros D m gs. apply Hkeep.
  - rewrite <- (token_programs_length attempts HexToHash c h nonce p (EthAddress cur) 0 need), <- (length_map (glift (along (fund_on (J := J) (Msg := Msg) ct)))).
    apply (idle_group _ g0); [done|]. apply Forall_fmap, Forall_forall. intros q _. apply acts_glift. intros D m gs. apply Hkeep.
  - intros l _. split; [exact Lab0|]. thread_step; [apply Hk|done].
Qed.

Lemma move_funds_thread_ok ct h k : (forall b, keeps_thread (k b) g0) ->
  keeps_thread (move_funds_thread (J := J) (Msg := Msg) attempts HexToHash ct h k) g0.
Proof using Type*.
  intros Hk. unfold move_funds_thread. thread_steps; try apply Hk. by apply move_found_thread_ok.
Qed.

Lemma new_block_thread_ok ct n k : keeps_thread k g0 -> keeps_thread (new_block_thread (J := J) (Msg := Msg) feeModule ct n k) g0.
Proof using Type*.
  intros Hk. unfold new_block_thread. thread_steps. apply thread_quiet_all; [|done|done].
  intros gs x. apply keeps_bind; [by intros b H|]. intros b. apply parts_on_inbound_block. intros f g.
  unfold process_tx. keep.
Qed.

Lemma pub_head_thread_ok head : keeps_thread (pub_head_thread (Msg := Msg) attempts HexToHash feeModule pubRollbackGap head) g0.
Proof using Type*.
  unfold pub_head_thread. cbv zeta.
  repeat match goal with |- Threads.keeps_thread _ _ _ _ (look (fun b => jc_pools _) _) _ => fail 1 | _ => thread_step end.
  apply (thread_look_known _ _ _ _ PC); [done|done|by intros b gs (_ & _ & _ & H)|]. intros pools Hpools.
  destruct (slot1 pools) as [pool|] eqn:Ep; [|done]. thread_step; [|done]. thread_step; [|done].
  apply new_block_thread_ok, move_funds_thread_ok. intros []; [done|]. apply outbound_section_thread_ok. by exists pools.
Qed.

(** Every case of the event loop keeps the invariant. *)
Theorem on_arrival_keeps a : keeps_thread (on_arrival (Msg := Msg) attempts submits HexToHash GetConsAddress Address_String myValidatorKey
  ReadFile Unmarshal feeModule oppyRollbackGap pubRollbackGap a) g0.
Proof using Type*.
  destruct a; [apply validators_thread_ok|apply jolt_block_thread_ok|apply pub_head_thread_ok|exact receive_in_ok|exact receive_out_ok|].
  unfold on_arrival. thread_steps.
Qed.
End Rules.

(** ** Invariants of one flow

    The threads of the other flow keep them. *)

(** What a lifted computation returns is what it returned on its own part. *)
Section Results.
Context {W C J Msg : Type}.
#[local] Notation BR := (Bridge W C J Msg).

Lemma mint_on_result D (m : M (MintState J) D) (b b' : BR) r : mint_on _ m b = (b', r) -> r <> Panic -> exists a a', m a = (a', r).
Proof. unfold mint_on, on_in, Flow.on_mint. destruct (m _) as [s r1] eqn:Em. intros [= <- <-] _. eauto. Qed.

Lemma pay_on_result ct D (m : M (PayState W J C) D) (b b' : BR) r : pay_on ct _ m b = (b', r) -> r <> Panic -> exists a a', m a = (a', r).
Proof.
  unfold pay_on, EventLoop.on_out, Flow.on_pay. destruct (chain_of ct b) as [c|]; [|by intros [= <- <-]].
  destruct (m _) as [s r1] eqn:Em. intros [= <- <-] _. eauto.
Qed.

Lemma apart_result {St St' L A} (on : forall D, M St D -> M St' D) (m : M St A) (s s' : St' * L) r :
  (forall D (m : M St D) s s' r, on D m s = (s', r) -> r <> Panic -> exists a a', m a = (a', r)) ->
  apart on _ m s = (s', r) -> r <> Panic -> exists a a', m a = (a', r).
Proof. intros Hon. unfold apart. destruct (on _ m s.1) as [s1 r1] eqn:E1. intros [= <- <-] Hr. by eapply Hon. Qed.
End Results.

Section OneFlow.
Context {W C J Msg : Type} `{EC : EthClient W C} `{TW : TssServer W} `{CN : CosmosNode J Msg} `{TJ : TssServer J} `{JS : JoltService J}.
Context `{JB : JoltBlocks J} `{JCn : JoltConnection J} `{KG : KeygenServer J Msg}.
Context `{Gs : EthSigner} `{S : SdkMath} `{N : SdkCoins} `{B : Bech32} `{E : Eth} `{K : Backoff} `{R : GoRuntime} `{GK : GoBackoff} `{GL : !GoBackoffLaws GK}.
Context `{AB : TokenAbi} `{JH : !JoltHandler} `{MC : MemoCodec} `{JN : !JoltNode}.
Context (attempts submits : nat) (Hsubmits : (0 < submits)%nat) (HexToHash : string -> bytes).
#[local] Notation BR := (Bridge W C J Msg).
#[local] Notation T := (thread kind BR).
Context {G : Type} (none : G) (Owns : kind -> G -> Prop) (PC : Slots -> Prop).

(** *** Those that do not look at the queue of deposits *)

Section Inbound.
Context (PI : list G -> InFlow -> Prop) (LI : in_rules none PI) (PO : list G -> OutFlow -> Prop) (LO : out_rules none PO).
Context (blind : forall gs f n q, PI gs f -> PI gs (in_set_failed n (in_set_q q f))).
#[local] Notation inv := (service_inv (W := W) (C := C) (J := J) (Msg := Msg) PI PO PC).

Lemma any_mint_keeps {A} (m : M (MintState J) A) gs : keeps (fun b => inv b gs) (mint_on _ m).
Proof using blind.
  apply (parts_mint_on (PI gs) (PO gs) (fun _ => True) PC). intros f s H. destruct (m s) as [s' r]. cbn in *.
  apply (blind _ _ (failedInbound s') (mint_q s')) in H. exact H.
Qed.
Lemma any_jolt_keeps {A} (m : M J A) gs : keeps (fun b => inv b gs) (on_jolt m).
Proof. apply (parts_on_jolt (PI gs) (PO gs) (fun _ => True) PC). Qed.
Lemma any_apart_keeps {L A} (m : M (MintState J) A) gs : keeps (fun s : BR * L => inv s.1 gs) (apart mint_on _ m).
Proof using blind. intros [b l] H. unfold apart. pose proof (any_mint_keeps m gs b H) as Hk. by destruct (mint_on _ m _). Qed.
#[local] Hint Resolve any_mint_keeps any_jolt_keeps : keeps.

Context (Fin Lb : G -> Prop) (g : G) (HL : Lb g).
#[local] Notation keeps_thread := (keeps_thread inv Owns Fin Lb).

Lemma idle_mint_group {X} (f : X -> go (MintState J) unit unit) (l : list X) k : keeps_thread k g ->
  keeps_thread (WaitGroup tt (map (fun x => glift (apart mint_on) (f x)) l) (fun _ => k)) g.
Proof using LI LO blind HL.
  intros Hk. exists (fun _ => g), (fun _ => True), (replicate (length l) none). split; [by apply trades_nones|].
  split; [done|]. split; [|by intros _ _].
  rewrite <- (length_map (fun x => glift (apart (L := unit) (mint_on (W := W) (C := C) (Msg := Msg))) (f x)) l). apply (idle_group _ _ _ none LI LO _ g); [done|].
  apply leaves_lifted. intros D m gs. apply any_apart_keeps.
Qed.

#[local] Ltac idle_step :=
  match goal with
  | |- Threads.keeps_thread _ _ _ _ mint_over _ => assumption
  | |- Threads.keeps_thread _ _ _ _ Finished _ => assumption
  | |- Threads.keeps_thread _ _ _ _ crash _ => apply thread_crash; assumption
  | |- Threads.keeps_thread _ _ _ _ (look _ _) _ => apply thread_look; [assumption|assumption|intros ?]
  | |- Threads.keeps_thread _ _ _ _ (WaitGroup _ _ _) _ => apply idle_mint_group
  | |- Threads.keeps_thread _ _ _ _ (do_all _ _ _) _ => apply thread_do_all; [intros; apply any_mint_keeps|assumption|]
  | |- Threads.keeps_thread _ _ _ _ (Do _ _) _ => apply thread_keep; [intros; solve [auto with keeps|by intros b H]|assumption|intros [?|?]]
  | |- Threads.keeps_thread _ _ _ _ (match ?x with _ => _ end) _ => destruct x
  end.

Lemma idle_put_in k : keeps_thread k g -> keeps_thread (put_back_in k) g.
Proof using LI LO blind HL. intros Hk. unfold put_back_in. repeat idle_step; assumption. Qed.

Lemma idle_mint items : keeps_thread mint_over g -> keeps_thread (mint_thread (Msg := Msg) items) g.
Proof using LI LO blind HL.
  intros Hover. unfold mint_thread. cbv zeta. idle_step; [|exact Hover].
  match goal with |- Threads.keeps_thread _ _ _ _ (ask_each _ ?n ?k) _ => assert (forall need, Threads.keeps_thread inv Owns Fin Lb (k need) g) as Hk end.
  { intros [|a need]; repeat idle_step; try exact Hover. }
  revert Hk. match goal with |- _ -> Threads.keeps_thread _ _ _ _ (ask_each _ ?n ?k) _ => generalize n, k end.
  intros need k Hk. revert need. induction items as [|a items IH]; intros need; cbn [ask_each]; [apply Hk|]. idle_step; apply IH.
Qed.
End Inbound.

(** An invariant of the payouts only. *)
Section InboundFeed.
Context (PO : list G -> OutFlow -> Prop).
#[local] Notation inv := (service_inv (W := W) (C := C) (J := J) (Msg := Msg) (fun _ _ => True) PO PC).
Context (Fin Lb : G -> Prop) (g : G) (HF : Fin g) (HL : Lb g).
#[local] Notation keeps_thread := (keeps_thread inv Owns Fin Lb).

Lemma idle_feed_in s h : keeps_thread (feed_if_done_in (Msg := Msg) s h) g.
Proof using HL HF.
  assert (forall f gs, keeps (fun b : BR => inv b gs) (store_in f)) as Hs.
  { intros f gs. by apply (parts_store_in (fun _ => True) (PO gs) (fun _ => True) PC). }
  assert (forall D (m : M J D) gs, keeps (fun b : BR => inv b gs) (on_jolt m)) as Hj.
  { intros D m gs. apply (parts_on_jolt (fun _ => True) (PO gs) (fun _ => True) PC). }
  assert (forall D (m : M (MintState J) D) gs, keeps (fun b : BR => inv b gs) (mint_on _ m)) as Hm.
  { intros D m gs. by apply any_mint_keeps. }
  unfold feed_if_done_in, feed_inbound_thread.
  repeat match goal with
  | |- Threads.keeps_thread _ _ _ _ Finished _ => assumption
  | |- Threads.keeps_thread _ _ _ _ crash _ => apply thread_crash; assumption
  | |- Threads.keeps_thread _ _ _ _ (look _ _) _ => apply thread_look; [assumption|assumption|intros ?]
  | |- Threads.keeps_thread _ _ _ _ (Do _ _) _ => apply thread_keep; [intros; first [apply Hs|apply Hj|apply Hm|by intros b H]|assumption|intros [?|?]]
  | |- Threads.keeps_thread _ _ _ _ (match ?x with _ => _ end) _ => destruct x
  end.
Qed.

End InboundFeed.

(** *** Those that do not look at the queue of payouts *)

Section Outbound.
Context (PI : list G -> InFlow -> Prop) (LI : in_rules none PI) (PO : list G -> OutFlow -> Prop) (LO : out_rules none PO).
Context (blind : forall gs f n q, PO gs f -> PO gs (out_set_failed n (out_set_q q f))).
#[local] Notation inv := (service_inv (W := W) (C := C) (J := J) (Msg := Msg) PI PO PC).

Lemma any_pay_keeps {A} ct (m : M (PayState W J C) A) gs : keeps (fun b => inv b gs) (pay_on ct _ m).
Proof using blind.
  apply (parts_pay_on (PI gs) (PO gs) (fun _ => True) PC). intros f s H. destruct (m s) as [s' r]. cbn in *.
  apply (blind _ _ (failedOutbound s') (pay_q s')) in H. exact H.
Qed.
Lemma any_jolt_keeps' {A} (m : M J A) gs : keeps (fun b => inv b gs) (on_jolt m).
Proof. apply (parts_on_jolt (PI gs) (PO gs) (fun _ => True) PC). Qed.
Lemma any_client_keeps {A} ct (m : M (ChainInfo W C) A) gs : keeps (fun b => inv b gs) (on_client ct m).
Proof. apply (parts_on_client (PI gs) (PO gs) (fun _ => True) PC). Qed.
Lemma any_payouts_keeps {A} (m : M (ItemQueue OutBoundReq) A) gs : keeps (fun b => inv b gs) (on_payouts m).
Proof using blind.
  apply (parts_on_payouts (PI gs) (PO gs) (fun _ => True) PC). intros f q H. destruct (m q) as [q' r]. cbn.
  apply (blind _ _ (out_failed f) q') in H. by destruct f.
Qed.
Lemma any_pay_apart_keeps {L A} ct (m : M (PayState W J C) A) gs : keeps (fun s : BR * L => inv s.1 gs) (apart (pay_on ct) _ m).
Proof using blind. intros [b l] H. unfold apart. pose proof (any_pay_keeps ct m gs b H) as Hk. by destruct (pay_on ct _ m _). Qed.
Lemma any_pay_along_keeps {L A} ct (m : M (PayState W J C * L) A) gs : keeps (fun s : BR * L => inv s.1 gs) (along (pay_on ct) _ m).
Proof using blind.
  intros [b l] H. unfold along.
  pose proof (any_pay_keeps ct (fun x => let '((x', l'), r) := m (x, l) in (x', Ret (l', r))) gs b H) as Hk.
  cbn [fst snd] in *. destruct (pay_on ct _ _ b) as [b' [[l' r]|e|]]; exact Hk.
Qed.
#[local] Hint Resolve any_pay_keeps any_jolt_keeps' any_client_keeps any_payouts_keeps : keeps.

Context (Fin Lb : G -> Prop) (g : G) (HL : Lb g).
#[local] Notation keeps_thread := (keeps_thread inv Owns Fin Lb).

#[local] Ltac idle_step :=
  match goal with
  | |- Threads.keeps_thread _ _ _ _ pay_over _ => assumption
  | |- Threads.keeps_thread _ _ _ _ Finished _ => assumption
  | |- Threads.keeps_thread _ _ _ _ crash _ => apply thread_panics; assumption
  | |- Threads.keeps_thread _ _ _ _ (look _ _) _ => apply thread_see; [assumption|intros ?]
  | |- Threads.keeps_thread _ _ _ _ (Do _ _) _ => apply thread_keep; [intros; solve [auto with keeps|by intros b H]|assumption|intros [?|?]]
  | |- Threads.keeps_thread _ _ _ _ (match ?x with _ => _ end) _ => destruct x
  end.

Lemma idle_put_out ct k : keeps_thread k g -> keeps_thread (put_back_out HexToHash ct k) g.
Proof using LI LO blind HL.
  intros Hk. unfold put_back_out. repeat idle_step; try assumption.
  exists (fun _ => g), (fun _ => True). eexists. split; [apply (trades_nones _ _ _ none LI LO)|].
  split; [done|]. split; [|by intros _ _]. apply (idle_group _ _ _ none LI LO _ g); [done|].
  apply leaves_lifted. intros D m gs. apply any_pay_apart_keeps.
Qed.

Lemma idle_payout items : keeps_thread pay_over g -> keeps_thread (payout_thread (Msg := Msg) attempts submits HexToHash items) g.
Proof using LI LO blind HL GL Hsubmits.
  intros Hover. unfold payout_thread. destruct items as [|item0 items]; [idle_step|]. cbv zeta.
  generalize (Requests.ChainType item0) as ct, (item0 :: items) as all. clear items item0. intros ct all.
  exists (fun _ => g), (fun _ => True). eexists. split; [apply (trades_nones _ _ _ none LI LO)|].
  split; [done|]. split.
  { apply (idle_group _ _ _ none LI LO _ g); [done|]. apply Forall_fmap, Forall_forall. intros each _.
    apply check_body_acts; [intros gs s H; by apply any_pay_along_keeps|intros tx; apply acts_glift|]; intros; apply any_pay_along_keeps. }
  intros need _. split; [done|]. destruct need as [|n0 need]; [repeat idle_step|].
  exists (fun _ => g), (fun _ => True), none. eexists.
  split; [apply (trades_nones _ _ _ none LI LO g (Datatypes.S (length (map (worker_now attempts submits HexToHash ct) (n0 :: need)))))|].
  split_and!; [done| | |].
  - intros rcv. apply (idle_holds _ _ _ _ g); [done|intros _; apply (none_drops _ _ _ none LI LO)|].
    unfold sign_now. apply acts_bind; [split; [by intros gs s H|done]|]. intros [pools|e]; [|done]. apply acts_glift. intros D m gs. apply any_pay_apart_keeps.
  - apply (idle_group _ _ _ none LI LO _ g); [done|]. apply Forall_fmap, Forall_forall. intros item _.
    apply worker_body_acts; [done|intros D m gs; apply any_pay_apart_keeps|]. intros h gs s H. by apply any_pay_apart_keeps.
  - intros _ _. split; [done|]. repeat idle_step.
Qed.
End Outbound.

(** An invariant of the deposits only. *)
Section OutboundFeed.
Context (PI : list G -> InFlow -> Prop) (LI : in_rules none PI).
#[local] Notation inv := (service_inv (W := W) (C := C) (J := J) (Msg := Msg) PI (fun _ _ => True) PC).
Context (Fin Lb : G -> Prop) (g : G) (HF : Fin g) (HL : Lb g).
#[local] Notation keeps_thread := (keeps_thread inv Owns Fin Lb).

Lemma idle_feed_out p ct h : keeps_thread (feed_if_done_out HexToHash p ct h) g.
Proof using LI HL HF.
  assert (forall f gs, keeps (fun b : BR => inv b gs) (store_out f)) as Hs.
  { intros f gs. by apply (parts_store_out (PI gs) (fun _ => True) (fun _ => True) PC). }
  assert (forall D c (m : M (ChainInfo W C) D) gs, keeps (fun b : BR => inv b gs) (on_client c m)) as Hc.
  { intros D c m gs. apply (parts_on_client (PI gs) (fun _ => True) (fun _ => True) PC). }
  assert (forall D (m : M (ItemQueue OutBoundReq) D) gs, keeps (fun b : BR => inv b gs) (on_payouts m)) as Hm.
  { intros D m gs. by apply any_payouts_keeps. }
  unfold feed_if_done_out, feed_outbound_thread. cbv zeta.
  repeat match goal with
  | |- Threads.keeps_thread _ _ _ _ Finished _ => assumption
  | |- Threads.keeps_thread _ _ _ _ (look _ _) _ => apply thread_see; [assumption|intros ?]
  | |- Threads.keeps_thread _ _ _ _ (put_back_out _ _ _) _ => apply (idle_put_out PI LI (fun _ _ => True) (out_rules_trivial none)); [done|assumption|]
  | |- Threads.keeps_thread _ _ _ _ (Do _ _) _ => apply thread_keep; [intros; first [apply Hs|apply Hc|apply Hm|by intros b H]|assumption|intros [?|?]]
  | |- Threads.keeps_thread _ _ _ _ (match ?x with _ => _ end) _ => destruct x
  end.
Qed.
End OutboundFeed.
End OneFlow.
