(* ===== verification/ServiceTypes.v ===== *)
(** * The state of the running service stays well-typed

    The statement of Wellformed.v for the service of BridgeThreads.v: whoever
    acts, and in whatever order, the maps stay loadable and the counters and
    heights stay within the width of their types, and the batches on the
    channels are what [FeedTx] made of them.  Every action keeps it, so it
    holds at every moment. *)

From Stdlib Require Import Ascii String.
From S2P Require Import Prelude GoLib Sdk Requests Fees ItemQueue TokenList Signature MoveFundQueue Pools Validators PubClient Keysign Goroutine Threads TxSend SendPrograms MoveFund Inbound Outbound CosTx Keygen Processing MintRound PayoutRound MoveRound Flow JoltClient EventLoop Wellformed BridgeThreads.

#[local] Open Scope string_scope.
#[local] Open Scope Z_scope.
#[local] Open Scope go_scope.

(** ** Definitions *)

Definition in_i32 (z : Z) : Prop := -2147483648 <= z < 2147483648.

Lemma i32_range z : in_i32 (i32 z).
Proof. unfold in_i32, i32. pose proof (Z.mod_pos_bound (z + 2147483648) 4294967296). lia. Qed.

(** [failedInbound] is an [int32], [inboundPauseHeight] an [int64], the two
    heights of [OutboundPauseHeight] are [uint64]. *)
Definition in_typed `{E : Eth} (f : InFlow) : Prop :=
  queue_wf (in_q f) /\ in_i32 (in_failed f) /\ in_i64 (inboundPauseHeight f).
Definition out_typed `{E : Eth} (f : OutFlow) : Prop :=
  queue_wf (out_q f) /\ in_i32 (out_failed f) /\ in_u64 (at_BSC (outboundPauseHeight f)) /\ in_u64 (at_ETH (outboundPauseHeight f)).

Definition well_typed `{E : Eth} {W C J Msg : Type} (b : Bridge W C J Msg) : Prop :=
  in_typed (br_in b) /\ out_typed (br_out b) /\ mf_keyed (moveFundReq (br_pools b)).

(** What the requests of a batch have in common: there are one to [GroupSign]
    of them, with different indices in ascending order. *)
Definition grouped `{I : Indexed A} (items : list A) : Prop :=
  items <> [] /\ Z.of_nat (length items) <= GroupSign /\
  exists ks, Forall2 (fun k a => Index a = Ret k) ks items /\ NoDup ks /\ keys_sorted ks.

(** The number in place [i] of those that count up from [n]. *)
Definition counted (n : Z) (i : nat) : Z := if (i =? 0)%nat then n else u64 (n + Z.of_nat i).

(** Of one account, with consecutive sequence numbers. *)
Definition mint_batch `{E : Eth} (items : list InBoundReq) : Prop :=
  grouped items /\ exists num seq addr pk, forall i a, items !! i = Some a ->
    AccNum a = num /\ AccSeq a = counted seq i /\ PoolCosAddress a = addr /\ PoolPk a = pk.

(** To one chain and from one account, with consecutive nonces. *)
Definition payout_batch `{E : Eth} (items : list OutBoundReq) : Prop :=
  grouped items /\ exists ct addr nonce, forall i a, items !! i = Some a ->
    Requests.ChainType a = ct /\ FromPoolAddr a = addr /\ Nonce a = counted nonce i.

(** The whole invariant. *)
Definition in_inv `{E : Eth} (f : InFlow) : Prop :=
  queue_wf (in_q f) /\ in_i32 (in_failed f) /\ in_i64 (inboundPauseHeight f) /\ Forall mint_batch (InboundReqChan f).
Definition out_inv `{E : Eth} (f : OutFlow) : Prop :=
  queue_wf (out_q f) /\ in_i32 (out_failed f) /\ in_u64 (at_BSC (outboundPauseHeight f)) /\ in_u64 (at_ETH (outboundPauseHeight f)) /\
  Forall payout_batch (OutboundReqChan f).

(** ** Lemmas *)

(** What [PopItem] takes is grouped. *)
Lemma PopItem_grouped {A} `{I : Indexed A} `{LI : !IndexedLaws A I} `{R : GoRuntime} `{LR : !GoRuntimeLaws R} sel (q q' : ItemQueue A) items :
  queue_wf q -> PopItem_where sel GroupSign q = (q', Ret (Some items)) -> grouped items /\ Forall (fun a => sel a = true) items.
Proof.
  intros Hq H. destruct (PopItem_spec sel GroupSign q Hq (proj1 (Z.leb_le 0 GroupSign) eq_refl)) as (ks & rest & its & Hp & Hs & Hl & Hf & Heq).
  destruct (PopItem_conserves sel GroupSign q q' (Some items) Hq (proj1 (Z.leb_le 0 GroupSign) eq_refl) H) as (ks' & items' & Hi & _ & Hsel & _).
  rewrite H in Heq. destruct (length (selected_keys sel q) =? 0)%nat eqn:E0; [simplify_eq|]. injection Heq as -> ->. injection Hi as <-.
  split; [|done]. pose proof (Forall2_length _ _ _ Hf) as Hlen. apply Nat.eqb_neq in E0. split; [|split].
  - intros ->. cbn in Hlen. unfold GroupSign in Hl. lia.
  - rewrite <- Hlen. lia.
  - exists ks. split; [by eapply wf_popped_index|]. split.
    + pose proof (selected_keys_NoDup sel q) as Hnd. rewrite <- Hp in Hnd. by apply NoDup_app in Hnd as (? & _).
    + by apply StronglySorted_app in Hs as (_ & ? & _).
Qed.

Lemma grouped_map {A} `{I : Indexed A} (items items' : list A) :
  length items' = length items -> (forall i a, items' !! i = Some a -> exists b, items !! i = Some b /\ Index a = Index b) ->
  grouped items -> grouped items'.
Proof.
  intros Hl Hi (Hne & Hlen & ks & Hks & Hrest). split; [|split; [by rewrite Hl|]].
  - intros ->. by destruct items.
  - exists ks. split; [|done]. apply Forall2_lookup. intros i. pose proof (Forall2_length _ _ _ Hks) as Hkl.
    destruct (items' !! i) as [a|] eqn:Ea.
    + destruct (Hi i a Ea) as (b & Hb & Hab). destruct (Forall2_lookup_r _ _ _ _ _ Hks Hb) as (k & Hk & Hbk). rewrite Hk. constructor. by rewrite Hab.
    + apply lookup_ge_None in Ea. rewrite (proj2 (lookup_ge_None ks i)) by lia. constructor.
Qed.

Lemma fed_inbound_batch `{E : Eth} num seq addr pk items : grouped items -> mint_batch (assign_accounts num seq addr pk items).
Proof.
  intros H. split.
  - revert H. apply grouped_map; [apply assign_accounts_length|]. intros i a (b & Hb & ->)%assign_accounts_lookup. exists b. split; [done|reflexivity].
  - exists num, seq, addr, pk. by intros i a (b & Hb & ->)%assign_accounts_lookup.
Qed.

Lemma fed_outbound_batch `{E : Eth} ct addr nonce items : grouped items -> Forall (fun a => Requests.ChainType a = ct) items ->
  payout_batch (assign_nonces addr nonce items).
Proof.
  intros H Hct. split.
  - revert H. apply grouped_map; [apply assign_nonces_length|]. intros i a (b & Hb & ->)%assign_nonces_lookup. exists b. split; [done|reflexivity].
  - exists ct, addr, nonce. intros i a (b & Hb & ->)%assign_nonces_lookup. split; [|done]. exact (proj1 (Forall_lookup _ _) Hct i b Hb).
Qed.

Section Service.
Context {W C J Msg : Type} `{EC : EthClient W C} `{TW : TssServer W} `{CN : CosmosNode J Msg} `{TJ : TssServer J} `{JS : JoltService J}.
Context `{JB : JoltBlocks J} `{JCn : JoltConnection J} `{KG : KeygenServer J Msg}.
Context `{G : EthSigner} `{S : SdkMath} `{N : SdkCoins} `{B : Bech32} `{E : Eth} `{LE : !EthLaws E} `{K : Backoff} `{R : GoRuntime} `{LR : !GoRuntimeLaws R}.
Context `{GK : GoBackoff} `{GL : !GoBackoffLaws GK} `{AB : TokenAbi} `{JH : !JoltHandler} `{MC : MemoCodec} `{JN : !JoltNode}.
Context (attempts submits : nat) (Hsubmits : (0 < submits)%nat) (HexToHash : string -> bytes).
Context (GetConsAddress : bytes -> bytes) (Address_String : bytes -> string) (myValidatorKey : string).
Context (ReadFile : outcome bytes) (Unmarshal : bytes -> outcome (list TokenItem)).
Context (feeModule : gmap string FeeModule) (oppyRollbackGap pubRollbackGap : Z).
#[local] Notation BR := (Bridge W C J Msg).
#[local] Notation T := (thread kind BR).
#[local] Notation typed := (parts (W := W) (C := C) (J := J) (Msg := Msg) in_inv out_inv mf_keyed (fun _ => True)).
#[local] Notation always := (Threads.always typed).

Lemma typed_add_in f a : keeps (fun q => in_inv (in_set_q q f)) (AddItem a).
Proof. intros q (H & H'). split; [|done]. by apply AddItem_keeps_wf. Qed.
Lemma typed_add_out f a : keeps (fun q => out_inv (out_set_q q f)) (AddItem a).
Proof. intros q (H & H'). split; [|done]. by apply AddItem_keeps_wf. Qed.

Lemma typed_payouts {A} (m : M (ItemQueue OutBoundReq) A) : keeps queue_wf m -> keeps typed (on_payouts m).
Proof. intros Hm. apply parts_on_payouts. intros f q (H & H'). split; [|exact H']. by apply Hm. Qed.

(** The operations of a mint round. *)
Lemma typed_mint_queue {A} (m : M (ItemQueue InBoundReq) A) : keeps queue_wf m -> keeps typed (mint_on _ (on_mq m)).
Proof.
  intros Hm. apply parts_mint_on. intros f s (H1 & H2). unfold on_mq. specialize (Hm (mint_q s) H1). destruct (m (mint_q s)). split; [exact Hm|exact H2].
Qed.
Lemma typed_mint_node {A} (m : M J A) : keeps typed (mint_on _ (on_mnode m)).
Proof. apply parts_mint_on. intros f. apply keeps_mnode. Qed.
Lemma typed_mint_failed g : (forall n, in_i32 n -> in_i32 (g n)) -> keeps typed (mint_on _ (set_failedIn g)).
Proof. intros Hg. apply parts_mint_on. intros f. apply keeps_modify. intros s (H1 & H2 & H3). split; [done|]. split; [by apply Hg|done]. Qed.
Lemma typed_mint_read {A} (g : MintState J -> A) : keeps typed (mint_on _ (let! s := get in ret (g s))).
Proof. apply parts_mint_on. by intros f s' H. Qed.

(** Those of a payout round. *)
Lemma typed_pay_queue ct {A} (m : M (ItemQueue OutBoundReq) A) : keeps queue_wf m -> keeps typed (pay_on ct _ (on_pq m)).
Proof.
  intros Hm. apply parts_pay_on. intros f s (H1 & H2). unfold on_pq. specialize (Hm (pay_q s) H1). destruct (m (pay_q s)). split; [exact Hm|exact H2].
Qed.
Lemma typed_pay_chain ct {A} (m : M (ChainInfo W C) A) : keeps typed (pay_on ct _ (on_pchain m)).
Proof. apply parts_pay_on. intros f. apply keeps_pchain. Qed.
Lemma typed_pay_jolt ct {A} (m : M J A) : keeps typed (pay_on ct _ (on_pjolt m)).
Proof. apply parts_pay_on. intros f. apply keeps_pjolt. Qed.
Lemma typed_pay_failed ct g : (forall n, in_i32 n -> in_i32 (g n)) -> keeps typed (pay_on ct _ (set_failedOut g)).
Proof. intros Hg. apply parts_pay_on. intros f. apply keeps_modify. intros s (H1 & H2 & H3). split; [done|]. split; [by apply Hg|done]. Qed.
Lemma typed_pay_read ct {A} (g : PayState W J C -> A) : keeps typed (pay_on ct _ (let! s := get in ret (g s))).
Proof. apply parts_pay_on. by intros f s H. Qed.

(** Next to local variables. *)
Lemma typed_apart {St L A} (on : forall D, M St D -> M BR D) (m : M St A) :
  keeps typed (on _ m) -> keeps (fun x : BR * L => typed x.1) (apart on _ m).
Proof. intros Hm [b l] H. unfold apart. specialize (Hm b H). cbn in *. by destruct (on _ m b). Qed.
Lemma typed_along {St L A} (on : forall D, M St D -> M BR D) (m : M (St * L) A) :
  (forall l, keeps typed (on _ (fun x => let '((x', l'), r) := m (x, l) in (x', Ret (l', r))))) -> keeps (fun x : BR * L => typed x.1) (along on _ m).
Proof. intros Hm [b l] H. unfold along. specialize (Hm l b H). cbn in *. by destruct (on _ _ b) as [b' [[l' r]|e|]]. Qed.

(** *** The goroutines of the groups and rounds *)

#[local] Hint Resolve typed_mint_node typed_mint_read typed_pay_chain typed_pay_jolt typed_pay_read AddItem_keeps_wf AddOnHoldQueue_keeps_wf : keeps.
#[local] Hint Extern 1 (keeps _ (mint_on _ (on_mq _))) => apply typed_mint_queue : keeps.
#[local] Hint Extern 1 (keeps _ (pay_on _ _ (on_pq _))) => apply typed_pay_queue : keeps.
#[local] Hint Extern 1 (keeps _ (mint_on _ (set_failedIn _))) => apply typed_mint_failed; intros; first [apply i32_range|done] : keeps.
#[local] Hint Extern 1 (keeps _ (pay_on _ _ (set_failedOut _))) => apply typed_pay_failed; intros; first [apply i32_range|done] : keeps.
#[local] Hint Extern 1 (keeps _ (apart _ _ _)) => apply typed_apart : keeps.

(** One action, or one choice, of a program on a part of the state. *)
#[local] Ltac tame_step :=
  match goal with
  | |- acts _ (Return _) => exact I
  | |- acts _ (Sub _) => cbn [acts]
  | |- acts _ (Send _ _) => cbn [acts]
  | |- acts _ (Unsub _) => cbn [acts]
  | |- acts _ (gbind (act _) _) => apply acts_bind; [split; [|done]|intros ?]
  | |- acts _ (gbind _ _) => apply acts_bind; [|intros ?]
  | |- acts _ (act _) => split; [|done]
  | |- acts _ (retry_go _ _) => rewrite retry_go_spec by apply Nat.lt_0_succ; apply acts_retry
  | |- acts _ (match ?x with _ => _ end) => destruct x
  end.

Lemma minting_tame {X} (f : X -> go (MintState J) unit unit) l :
  (forall x, acts (fun D (m : M (MintState J) D) => keeps typed (mint_on _ m)) (f x)) ->
  Forall (tame typed) (map (fun x => glift (apart (L := unit) mint_on) (f x)) l).
Proof.
  intros Hf. apply Forall_fmap, Forall_forall. intros x _. apply acts_glift_if. eapply acts_mono; [|apply Hf].
  intros D m Hm. by apply typed_apart.
Qed.

Lemma put_back_go_typed each : acts (fun D (m : M (MintState J) D) => keeps typed (mint_on _ m)) (put_back_go each).
Proof using GL. unfold put_back_go, JoltCheckTxStatus_go. repeat tame_step; auto with keeps. Qed.

Lemma mint_go_typed itemsMap i : acts (fun D (m : M (MintState J) D) => keeps typed (mint_on _ m)) (mint_go itemsMap i).
Proof using GL.
  unfold mint_go, JoltCheckTxStatus_go. repeat tame_step; auto with keeps. destruct (itemsMap !! i); [auto with keeps|].
  apply parts_mint_on. by intros f s' H.
Qed.

Lemma put_back_out_go_typed ct each :
  acts (fun D (m : M (PayState W J C) D) => keeps typed (pay_on ct _ m)) (put_back_out_go HexToHash each).
Proof.
  unfold put_back_out_go. destruct (bool_decide _); repeat tame_step; auto with keeps. apply acts_glift. intros D m. apply typed_pay_chain.
Qed.

Lemma check_now_tame ct each : tame typed (check_now (Msg := Msg) HexToHash ct each).
Proof.
  apply check_body_acts.
  - intros [b l] H. refine (typed_along (pay_on ct) _ _ (b, l) H). intros l'. apply parts_pay_on. intros f s H'.
    unfold on_ps, on_pjolt. by destruct (submitted_query _ _ _).
  - intros tx. apply acts_glift. intros D m. apply typed_along. intros l. apply parts_pay_on. intros f s H'.
    unfold on_ps, on_pchain. cbn. by destruct (m _).
  - apply typed_along. intros l. apply parts_pay_on. by intros f s H'.
Qed.

Lemma worker_now_tame ct item : tame typed (worker_now (Msg := Msg) attempts submits HexToHash ct item).
Proof using GL Hsubmits.
  apply worker_body_acts_if; auto with keeps. intros h [b l] H. refine (typed_apart (pay_on ct) _ _ (b, l) H). apply typed_pay_jolt.
Qed.

Lemma sign_now_tame ct rcv : tame typed (sign_now (J := J) (Msg := Msg) ct rcv).
Proof.
  unfold tame, sign_now. repeat tame_step; [by intros x H|]. apply acts_glift_if. unfold sign_go. repeat tame_step; auto with keeps.
  all: apply typed_apart, parts_pay_on; intros f st H; by destruct (_ !! 1%nat) as [[?|]|].
Qed.

(** *** The goroutines of a fund movement *)

Lemma fund_along_typed {L A} ct (m : M (FundState W C * L) A) : (forall l, keeps (fund_keep mf_keyed) (fun x => let '((x', l'), r) := m (x, l) in (x', Ret (l', r)))) ->
  keeps (fun x : BR * L => typed x.1) (along (fund_on (J := J) (Msg := Msg) ct) _ m).
Proof. intros Hm. apply typed_along. intros l. by apply parts_on_fund. Qed.

Lemma mchain_inv {A} ct (m : M (ChainInfo W C) A) : keeps (fun x : BR * bool => typed x.1) (along (fund_on (J := J) (Msg := Msg) ct) _ (on_mchain m)).
Proof. apply fund_along_typed. intros l f H. unfold on_mchain, on_move, on_fchain. cbn. by destruct (m (fchain f)). Qed.

Lemma move_queue_typed ct p h c : keeps (fun x : BR * bool => typed x.1)
  (along (fund_on (J := J) (Msg := Msg) ct) _ (on_move (on_queue (AddMoveFundItem p h c)))).
Proof.
  apply fund_along_typed. intros l f H. unfold on_move, on_queue. cbn. pose proof (AddMoveFundItem_keeps_keyed p h c (fqueue f) H) as Hk.
  exact Hk.
Qed.

Lemma unset_typed ct : keeps (fun x : BR * bool => typed x.1) (along (fund_on (J := J) (Msg := Msg) ct) _ unset).
Proof. apply fund_along_typed. by intros l f H. Qed.
#[local] Hint Resolve mchain_inv move_queue_typed unset_typed : keeps.

Lemma token_worker_tame ct ci h n p r i t :
  tame typed (glift (along (fund_on (J := J) (Msg := Msg) ct)) (token_worker_go attempts HexToHash ci h n p r i t)).
Proof.
  apply acts_glift_if. unfold token_worker_go. repeat tame_step; auto with keeps.
  apply acts_glift. intros D m. apply mchain_inv.
Qed.

Lemma token_programs_tame ct ci h n p r i need :
  Forall (tame typed) (map (glift (along (fund_on (J := J) (Msg := Msg) ct))) (token_programs attempts HexToHash ci h n p r i need)).
Proof. revert i. induction need as [|t need IH]; intros i; cbn; constructor; [apply token_worker_tame|apply IH]. Qed.

Lemma move_sign_tame ct p rcv : tame typed (glift (along (fund_on (J := J) (Msg := Msg) ct)) (move_sign_go p rcv)).
Proof. apply acts_glift_if. unfold move_sign_go. repeat tame_step; auto with keeps. Qed.

(** *** The threads *)

Lemma typed_store_in g : (forall f, in_inv f -> in_inv (g f)) -> keeps typed (store_in g).
Proof. apply parts_store_in. Qed.
Lemma typed_store_out g : (forall f, out_inv f -> out_inv (g f)) -> keeps typed (store_out g).
Proof. apply parts_store_out. Qed.

#[local] Hint Resolve parts_on_jolt parts_on_tokens parts_on_keygen parts_set_CurrentHeight parts_on_client parts_on_pools
  parts_on_fund parts_on_payouts parts_on_inbound_block keeps_on_queue keeps_on_fchain parts_read parts_lift : keeps.
#[local] Hint Resolve refresh_pools_keep CheckOutBoundTx_queues process_contract_call_queues process_native_queues keeps_on_ichain
  typed_add_in typed_add_out AddMoveFundItem_keeps_keyed PopMoveFundItem_keeps_keyed DumpQueue_keeps_wf PopItem_keeps_wf : keeps.
#[local] Hint Extern 1 (keeps _ (on_payouts DumpQueue)) => apply typed_payouts : keeps.
#[local] Hint Extern 1 (keeps _ (on_payouts (OutboundQueue.PopItem _ _))) => apply typed_payouts, PopItem_keeps_wf : keeps.
#[local] Hint Extern 1 (keeps _ (mint_on _ (on_mq (InboundQueue.PopItem _)))) => apply typed_mint_queue, PopItem_keeps_wf : keeps.
#[local] Hint Extern 1 (keeps (fun _ => True) _) => done : keeps.
#[local] Hint Extern 1 (keeps _ (heights _)) => apply parts_read : keeps.
#[local] Hint Extern 1 (keeps _ (store_in _)) => apply typed_store_in; intros ? (? & ? & ? & ?); split_and!; cbn; first [done|apply i64_range|apply i32_range] : keeps.
#[local] Hint Extern 1 (keeps _ (store_out _)) => apply typed_store_out; intros ? (? & ? & ? & ? & ?); split_and!; cbn; first [done|apply i32_range] : keeps.

Lemma always_crash : always crash.
Proof. unfold crash. apply always_do; [intros b H; exact H|done]. Qed.

(** One action, or one choice, of a thread. *)
#[local] Ltac always_step :=
  match goal with
  | |- always Finished => exact Logic.I
  | |- always (look _ _) => unfold look; apply always_do; [by intros b H|intros [?|?]]
  | |- always (do_all _ _ _) => apply always_all; [intros ?; solve [keep]|]
  | |- always (Do _ _) => apply always_do; [solve [auto with keeps | keep]|intros [?|?]]
  | |- always (match ?x with _ => _ end) => destruct x
  | |- always crash => apply always_crash
  end.
#[local] Ltac always_steps := cbv zeta; repeat always_step.

Lemma put_back_in_always (k : T) : always k -> always (put_back_in k).
Proof using GL. intros Hk. unfold put_back_in. always_steps; try exact Hk. split; [|by intros _]. apply minting_tame, put_back_go_typed. Qed.

Lemma put_back_out_always ct (k : T) : always k -> always (put_back_out HexToHash ct k).
Proof.
  intros Hk. unfold put_back_out. always_steps; try exact Hk. split; [|by intros _]. apply Forall_fmap, Forall_forall. intros x _.
  apply acts_glift_if. eapply acts_mono; [|apply (put_back_out_go_typed ct)]. intros D m Hm. by apply typed_apart.
Qed.

Lemma mint_thread_always items : always (mint_thread (Msg := Msg) items).
Proof using GL.
  unfold mint_thread, mint_over. cbv zeta. always_step; [|always_steps].
  match goal with |- always (ask_each _ ?n ?k) => assert (forall need, always (k need)) as Hk end.
  { intros [|n need]; always_steps. split; [|intros _; always_steps]. apply minting_tame. intros i. apply mint_go_typed. }
  revert Hk. match goal with |- _ -> always (ask_each _ ?n ?k) => generalize n, k end. intros need k Hk. revert need.
  induction items as [|item items IH]; intros need; cbn [ask_each]; [apply Hk|]. always_step; apply IH.
Qed.

Lemma payout_thread_always items : always (payout_thread (Msg := Msg) attempts submits HexToHash items).
Proof using GL Hsubmits.
  unfold payout_thread, pay_over. destruct items as [|item0 items]; [always_steps|]. cbv zeta.
  split; [apply Forall_fmap, Forall_forall; intros; apply check_now_tame|]. intros [|n need]; [always_steps|]. split; [|split].
  - intros rcv. apply sign_now_tame.
  - apply Forall_fmap, Forall_forall. intros item _. by apply worker_now_tame.
  - intros _. always_steps.
Qed.

Lemma keygen_thread_always pubKeys h : always (keygen_thread (Msg := Msg) pubKeys h).
Proof.
  unfold keygen_thread. apply always_do; [auto with keeps|]. intros _.
  assert (forall k, (forall pk, always (k pk)) -> forall n l, always (keygen_tries (Msg := Msg) n l h k)) as Htries.
  { intros k Hk n l. induction n as [|n IH]; cbn [keygen_tries]; [apply Hk|]. always_steps; first [apply Hk|exact IH]. }
  apply Htries. intros [pk|]; always_steps.
Qed.

(** What [FeedTx] takes for the joltify chain is grouped. *)
Lemma taken_in (b b' : BR) items : typed b ->
  try (mint_on _ (on_mq (InboundQueue.PopItem GroupSign))) b = (b', Ret (inl (Some items))) -> grouped items.
Proof using LE LR.
  intros ((Hq & _) & _). unfold try, mint_on, on_in, Flow.on_mint, on_mq, InboundQueue.PopItem. cbn -[PopItem_where].
  match goal with |- context [PopItem_where ?s ?n ?q0] => destruct (PopItem_where s n q0) as [q r] eqn:Ep end. destruct r as [o|e|]; intros [= _ ->]. by eapply PopItem_grouped.
Qed.

Lemma feed_in_always s h : always (feed_if_done_in (Msg := Msg) s h).
Proof using LE LR.
  unfold feed_if_done_in. cbv zeta.
  match goal with |- context [feed_inbound_thread _ ?k] => assert (always k) as Hk by always_steps; revert Hk; generalize k end.
  intros k Hk. unfold feed_inbound_thread. repeat first [exact Hk|match goal with
    | |- always (Do (mint_on _ _) _) => split; [solve [auto with keeps | keep]|]; intros b1 b1' r Hb Hr; destruct r as [[items|]|?]; [|exact Hk..]
    | _ => always_step end].
  apply taken_in in Hr; [|done]. apply always_do; [|intros ?; exact Hk]. apply typed_store_in. intros f (? & ? & ? & ?).
  split_and!; try done. apply Forall_app_2; [done|]. constructor; [by apply fed_inbound_batch|constructor].
Qed.

Lemma inbound_section_always s lh cur pb : always (inbound_section_thread (Msg := Msg) s lh cur pb).
Proof using GL LE LR.
  unfold inbound_section_thread. always_steps; repeat first [apply put_back_in_always|apply feed_in_always|always_step].
Qed.

Lemma jolt_block_always h : always (jolt_block_thread (Msg := Msg) ReadFile Unmarshal feeModule oppyRollbackGap h).
Proof using GL LE LR.
  unfold jolt_block_thread, health_check_thread, check_pool_thread. cbv zeta. split; [always_steps|]. always_steps; try apply inbound_section_always.
Qed.

Lemma move_found_always ct h p cl k : (forall b, always (k b)) ->
  always (move_found_thread (J := J) (Msg := Msg) attempts HexToHash ct h p cl k).
Proof.
  intros Hk. unfold move_found_thread. cbv zeta. unfold look. apply always_do; [by intros b H|]. intros [b|e]; [|always_steps].
  destruct (chain_of ct b) as [c|]; [|always_steps]. apply always_do.
  { apply parts_on_fund. unfold prepare_move, retry_later. keep. }
  intros [[res|[[cur nonce] need]]|e]; [apply Hk| |always_steps]. split; [|split].
  - intros rcv. apply move_sign_tame.
  - apply token_programs_tame.
  - intros l. apply always_do; [|intros [m|e]; [apply Hk|always_steps]]. apply parts_on_fund. unfold finish_move, retry_later. keep.
Qed.

(** And for the public chains. *)
Lemma taken_out (b b' : BR) ct items : typed b -> try (on_payouts (OutboundQueue.PopItem GroupSign ct)) b = (b', Ret (inl (Some items))) ->
  grouped items /\ Forall (fun a => Requests.ChainType a = ct) items.
Proof using LE LR.
  intros (_ & (Hq & _) & _). unfold try, on_payouts, OutboundQueue.PopItem. cbn -[PopItem_where].
  match goal with |- context [PopItem_where ?s ?n ?q0] => destruct (PopItem_where s n q0) as [q r] eqn:Ep end. destruct r as [o|e|]; intros [= _ ->].
  destruct (PopItem_grouped _ _ _ _ Hq Ep) as [H1 H2]. split; [done|]. eapply Forall_impl; [exact H2|]. intros a. by rewrite bool_decide_eq_true.
Qed.

Lemma fed_out (b b' : BR) ct pool items batch : try (on_client ct (FeedTx_outbound pool items)) b = (b', Ret (inl batch)) ->
  exists addr nonce, batch = assign_nonces addr nonce items.
Proof.
  unfold try, on_client. destruct (chain_of ct b) as [c|]; [|done]. destruct (FeedTx_outbound pool items c) as [c' r] eqn:Ef.
  destruct r as [l|e|]; intros [= _ ->]. unfold FeedTx_outbound in Ef.
  apply bind_ret_inv in Ef as (c1 & addr & _ & (c2 & nonce & _ & Ef)%bind_ret_inv). unfold ret in Ef. injection Ef as _ <-. by exists addr, nonce.
Qed.

Lemma feed_outbound_always pool ct h : always (feed_outbound_thread (Msg := Msg) pool ct h).
Proof using LE LR.
  unfold feed_outbound_thread. split; [auto with keeps|]. intros b b' r Hb Hr. destruct r as [[items|]|?]; [|exact Logic.I..].
  split; [auto with keeps|]. intros b1 b1' r _ Hr1. destruct r as [batch|?]; [|exact Logic.I].
  repeat first [always_step|apply always_do; [|intros ?]].
  all: apply typed_store_out; intros f (? & ? & ? & ? & ?); split_and!; try done; apply Forall_app_2; [done|]; constructor; [|constructor].
  all: apply fed_out in Hr1 as (addr & nonce & ->); apply taken_out in Hr as [? ?]; [|done]; by eapply fed_outbound_batch.
Qed.

Lemma feed_out_always pool ct h : always (feed_if_done_out (Msg := Msg) HexToHash pool ct h).
Proof using LE LR.
  unfold feed_if_done_out. always_steps; repeat first [apply put_back_out_always|apply feed_outbound_always|always_step].
Qed.

(** The pause height of a chain comes from [SetHeight]. *)
Lemma SetHeight_range (z : Z) ct p p' : in_u64 z -> in_u64 (at_BSC p) /\ in_u64 (at_ETH p) -> SetHeight z ct p = Ret p' ->
  in_u64 (at_BSC p') /\ in_u64 (at_ETH p').
Proof. intros Hz [H1 H2]. unfold SetHeight. destruct (bool_decide _); [by intros [= <-]|]. destruct (bool_decide _); [by intros [= <-]|done]. Qed.

Lemma outbound_section_always pool ct ch lh pb : always (outbound_section_thread (Msg := Msg) HexToHash pool ct ch lh pb).
Proof using LE LR.
  unfold outbound_section_thread. cbv zeta. unfold look at 1. apply always_do; [by intros b H|]. intros [failedOutbound|e]; [|always_steps].
  match goal with |- always (if _ then _ else ?k) => assert (always k) as Hk end.
  { always_steps; repeat first [apply put_back_out_always|apply feed_out_always|always_step]. }
  destruct (5 <? failedOutbound); [|exact Hk]. split; [apply parts_read|]. intros b b' r Hb Hr. destruct r as [p|e]; [|always_steps].
  assert (in_u64 (at_BSC p) /\ in_u64 (at_ETH p)) as [H1 H2].
  { unfold try, heights in Hr. destruct Hb as (_ & (_ & _ & Hp1 & Hp2 & _) & _). destruct (SetHeight _ _ _) as [p'|e|] eqn:Es; try discriminate.
    injection Hr as _ ->. by eapply SetHeight_range; [apply u64_range|split; [exact Hp1|exact Hp2]|exact Es]. }
  apply always_do; [apply typed_store_out; intros f (Hq & Hf & _ & _ & Hb0); by split_and!|]. intros _.
  do 2 (apply always_do; [auto with keeps|intros _]). exact Hk.
Qed.

Lemma pub_head_always head : always (pub_head_thread (Msg := Msg) attempts HexToHash feeModule pubRollbackGap head).
Proof using LE LR.
  unfold pub_head_thread, new_block_thread, move_funds_thread. cbv zeta.
  repeat first [apply move_found_always; intros ?|apply outbound_section_always|always_step].
  all: apply always_all; [|repeat first [apply move_found_always; intros ?|apply outbound_section_always|always_step]].
  all: intros tx; apply keeps_bind; [by intros b' H|]; intros b'; apply parts_on_inbound_block; intros f g; unfold process_tx; keep.
Qed.

(** A batch leaves its channel. *)
Lemma receive_in_typed : keeps typed receive_in.
Proof.
  intros b H. unfold receive_in. destruct (InboundReqChan (br_in b)) as [|items chan] eqn:Ec; [done|].
  destruct H as ((Hq & Hf & Hh & Hc) & H). rewrite Ec in Hc. apply Forall_cons_1 in Hc as [_ Hc]. by split.
Qed.
Lemma receive_out_typed : keeps typed receive_out.
Proof.
  intros b H. unfold receive_out. destruct (OutboundReqChan (br_out b)) as [|items chan] eqn:Ec; [done|].
  destruct H as (H & (Hq & Hf & Hh & Hh' & Hc) & H'). rewrite Ec in Hc. apply Forall_cons_1 in Hc as [_ Hc]. by split; [|split].
Qed.

(** Every case of the event loop. *)
Lemma on_arrival_always e : always (on_arrival (Msg := Msg) attempts submits HexToHash GetConsAddress Address_String
  myValidatorKey ReadFile Unmarshal feeModule oppyRollbackGap pubRollbackGap e).
Proof using GL LE LR Hsubmits.
  destruct e; cbn [on_arrival].
  - unfold validators_thread. always_steps. split; [apply keygen_thread_always|exact Logic.I].
  - apply jolt_block_always.
  - apply pub_head_always.
  - apply always_do; [apply receive_in_typed|].
    intros [[items|]|e]; [|exact Logic.I..]. split; [apply mint_thread_always|exact Logic.I].
  - apply always_do; [apply receive_out_typed|].
    intros [[items|]|e]; [|exact Logic.I..]. split; [apply payout_thread_always|exact Logic.I].
  - always_steps.
Qed.

(** At every moment of the service's run, from empty channels on. *)
Lemma service_keeps (b : BR) (c : service kind BR) : well_typed b -> InboundReqChan (br_in b) = [] -> OutboundReqChan (br_out b) = [] ->
  svc_reaches attempts submits HexToHash GetConsAddress Address_String myValidatorKey ReadFile Unmarshal feeModule oppyRollbackGap pubRollbackGap b c ->
  typed (mem c).
Proof using GL LE LR Hsubmits.
  intros ((? & ? & ?) & (? & ? & ? & ?) & ?) Hci Hco Hc. eapply svc_always; [apply on_arrival_always|exact Hc|].
  split; [|split]; [..|done]; unfold in_inv, out_inv; rewrite ?Hci, ?Hco; by split_and!.
Qed.

Lemma service_typed (b : BR) (c : service kind BR) : well_typed b -> InboundReqChan (br_in b) = [] -> OutboundReqChan (br_out b) = [] ->
  svc_reaches attempts submits HexToHash GetConsAddress Address_String myValidatorKey ReadFile Unmarshal feeModule oppyRollbackGap pubRollbackGap b c ->
  well_typed (mem c).
Proof using GL LE LR Hsubmits. intros Hb Hi Ho Hc. destruct (service_keeps b c Hb Hi Ho Hc) as ((? & ? & ? & _) & (? & ? & ? & ? & _) & ? & _). by split_and!. Qed.

Lemma service_batches (b : BR) (c : service kind BR) : well_typed b -> InboundReqChan (br_in b) = [] -> OutboundReqChan (br_out b) = [] ->
  svc_reaches attempts submits HexToHash GetConsAddress Address_String myValidatorKey ReadFile Unmarshal feeModule oppyRollbackGap pubRollbackGap b c ->
  Forall mint_batch (InboundReqChan (br_in (mem c))) /\ Forall payout_batch (OutboundReqChan (br_out (mem c))).
Proof using GL LE LR Hsubmits. intros Hb Hi Ho Hc. by destruct (service_keeps b c Hb Hi Ho Hc) as ((_ & _ & _ & ?) & (_ & _ & _ & _ & ?) & _). Qed.
End Service.
