(* ===== verification/Following.v ===== *)
(** * One request followed from place to place

    The requests of a flow are in its queue (in the map or on hold), on its
    request channel, or with a goroutine that has taken them.  What a
    goroutine is answerable for is a set of requests, its debt.  The
    invariant says where a given request is, or one that took its place, or
    that it is settled; the lemmas say how the invariant passes from a state
    to the next.  DepositThreads.v and PayoutThreads.v instantiate it. *)

From Stdlib Require Import String.
From S2P Require Import Prelude GoLib Requests ItemQueue Threads.

#[local] Open Scope string_scope.
#[local] Open Scope Z_scope.
#[local] Open Scope go_scope.

(** ** Definitions *)

(** What a goroutine owes: the requests it has taken and neither given back
    nor seen settled. *)
Definition debt (A : Type) : Type := A -> Prop.
Definition nothing {A} : debt A := fun _ => False.
Definition owed {A} (gs : list (debt A)) (x : A) : Prop := exists g, g ∈ gs /\ g x.

(** In the map or on hold. *)
Definition waiting {A} (q : ItemQueue A) (x : A) : Prop := (exists k, pending q !! k = Some x) \/ x ∈ onHold q.
(** In a batch on the request channel. *)
Definition on_channel {A} (chan : list (list A)) (x : A) : Prop := exists l, l ∈ chan /\ x ∈ l.

(** A request that is [mine] waits, is on the channel, is owed or settled. *)
Definition item_at {A} `{I : Indexed A} (mine settled : A -> Prop) (gs : list (debt A)) (q : ItemQueue A) (chan : list (list A)) : Prop :=
  queue_wf q /\ exists x, mine x /\ (waiting q x \/ on_channel chan x \/ owed gs x \/ settled x).

(** With nobody. *)
Definition item_kept {A} (mine settled : A -> Prop) (q : ItemQueue A) (chan : list (list A)) : Prop :=
  exists x, mine x /\ (waiting q x \/ on_channel chan x \/ settled x).

(** Owed by somebody who does nothing: a request that has not arrived yet. *)
Definition everything {A} : debt A := fun _ => True.

(** ** Lemmas *)

Section Following.
Context {A : Type} `{I : Indexed A}.

Lemma owed_cons (g : debt A) gs x : owed (g :: gs) x <-> g x \/ owed gs x.
Proof.
  split; [intros (h & [->|Hh]%elem_of_cons & Hx); [by left|right; by exists h]|].
  intros [Hx|(h & Hh & Hx)]; [exists g|exists h]; (split; [|done]); [left|by right].
Qed.

Lemma owed_nothing (gs : list (debt A)) x : owed (nothing :: gs) x <-> owed gs x.
Proof. rewrite owed_cons. unfold nothing. tauto. Qed.

Lemma owed_nil (x : A) : ~ owed [] x.
Proof. by intros (g & ?%not_elem_of_nil & _). Qed.

Context (mine settled : A -> Prop).
#[local] Notation at_ := (item_at mine settled).

Lemma item_at_perm gs gs' q chan : gs ≡ₚ gs' -> at_ gs q chan -> at_ gs' q chan.
Proof.
  intros Hp [Hwf (x & Hx & Hw)]. split; [done|]. exists x. split; [done|].
  assert (owed gs x -> owed gs' x) as Hm; [|tauto]. intros (g & Hg & Hgx). exists g. by rewrite <- Hp.
Qed.

Lemma item_at_nothing gs q chan : at_ (nothing :: gs) q chan <-> at_ gs q chan.
Proof. split; intros [Hwf (x & Hx & Hw)]; (split; [done|]); exists x; (split; [done|]); revert Hw; rewrite owed_nothing; tauto. Qed.

(** Before the request arrives, when it has arrived, and when nothing runs. *)
Lemma item_expected gs x q chan : queue_wf q -> mine x -> at_ (gs ++ [everything])%list q chan.
Proof.
  intros Hq Hx. split; [done|]. exists x. split; [done|]. right. right. left. exists everything. split; [|done].
  apply elem_of_app. right. left.
Qed.

Lemma item_arrives frame gs q chan : item_kept mine settled q chan -> at_ (gs ++ frame)%list q chan -> at_ gs q chan.
Proof. intros (x & Hx & Hw) [Hq _]. split; [done|]. exists x. tauto. Qed.

Lemma item_at_end q chan : at_ [nothing] q chan -> item_kept mine settled q chan.
Proof.
  intros [_ (x & Hx & Hw)]. exists x. split; [done|]. rewrite owed_nothing in Hw. pose proof (owed_nil x). tauto.
Qed.

(** What moves: requests of the queue, of the channel and of the acting
    goroutine. *)
Lemma item_move g g' rest q q' chan chan' : (queue_wf q -> queue_wf q') ->
  (queue_wf q -> forall x, mine x -> waiting q x \/ on_channel chan x \/ g x ->
    exists y, mine y /\ (waiting q' y \/ on_channel chan' y \/ g' y \/ settled y)) ->
  at_ (g :: rest) q chan -> at_ (g' :: rest) q' chan'.
Proof.
  intros Hq Hm [Hwf (x & Hx & Hw)]. split; [auto|].
  assert (waiting q x \/ on_channel chan x \/ g x \/ owed rest x \/ settled x) as Hw' by (rewrite owed_cons in Hw; tauto).
  assert ((waiting q x \/ on_channel chan x \/ g x) \/ owed rest x \/ settled x) as [Hl|Hr] by tauto.
  - destruct (Hm Hwf x Hx Hl) as (y & Hy & Hyw). exists y. split; [done|]. rewrite owed_cons. tauto.
  - exists x. split; [done|]. rewrite owed_cons. tauto.
Qed.

(** The queue changes, the channel does not. *)
Lemma item_queue g g' rest q q' chan : (queue_wf q -> queue_wf q') ->
  (queue_wf q -> forall x, mine x -> waiting q x \/ g x -> exists y, mine y /\ (waiting q' y \/ g' y \/ settled y)) ->
  at_ (g :: rest) q chan -> at_ (g' :: rest) q' chan.
Proof.
  intros Hq Hm. apply item_move; [exact Hq|]. intros Hwf x Hx [Hw|[Hw|Hw]].
  - destruct (Hm Hwf x Hx (or_introl Hw)) as (y & Hy & ?). exists y. tauto.
  - exists x. tauto.
  - destruct (Hm Hwf x Hx (or_intror Hw)) as (y & Hy & ?). exists y. tauto.
Qed.

Lemma AddItem_wf b q : queue_wf q -> queue_wf (AddItem b q).1.
Proof.
  intros Hq. destruct (Index b) as [k|e|] eqn:Hb; [|unfold AddItem; unfold_go; by rewrite Hb..].
  rewrite (AddItem_ret b k) by done. intros j a. cbn. destruct (decide (j = k)) as [->|Hne].
  - rewrite lookup_insert_eq. by intros [= <-].
  - rewrite lookup_insert_ne by done. apply Hq.
Qed.

(** One more on hold. *)
Lemma AddOnHold_waiting (x b : A) q : waiting q x \/ x = b -> waiting (AddOnHoldQueue b q).1 x.
Proof.
  intros [[[k Hk]|Hx]| ->]; [left; by exists k|right..]; cbn; apply elem_of_app; [by left|right; left].
Qed.

(** *** Debts *)

(** A debt of settled requests may be forgotten. *)
Lemma item_settled (g : debt A) gs q chan : (forall x, g x -> mine x -> settled x) -> at_ (g :: gs) q chan -> at_ gs q chan.
Proof.
  intros Hg [Hwf (x & Hx & Hw)]. split; [done|]. exists x. split; [done|]. rewrite owed_cons in Hw. specialize (Hg x). tauto.
Qed.

(** A debt is passed on to those that take it over. *)
Lemma item_pass (g : debt A) gs rest q chan : (forall x, g x -> mine x -> owed gs x \/ settled x) -> at_ (g :: rest) q chan -> at_ (gs ++ rest)%list q chan.
Proof.
  intros Hg [Hwf (x & Hx & Hw)]. split; [done|]. exists x. split; [done|].
  rewrite owed_cons in Hw. assert (forall l, owed l x -> l ⊆ (gs ++ rest)%list -> owed (gs ++ rest)%list x) as Hsub.
  { intros l (h & Hh & Hhx) Hl. exists h. split; [by apply Hl|done]. }
  destruct Hw as [?|[?|[[Hw|Hw]|?]]]; auto.
  - destruct (Hg x Hw Hx) as [Hw'|?]; [|auto]. right. right. left. apply (Hsub gs Hw'). set_solver.
  - right. right. left. apply (Hsub rest Hw). set_solver.
Qed.

(** *** Popping, feeding and receiving a batch *)

(** What is popped is owed by the goroutine that popped it. *)
Lemma item_pop (items : list A) rest q q' chan : queue_wf q' -> onHold q' = onHold q ->
  (forall k x, pending q !! k = Some x -> pending q' !! k = Some x \/ x ∈ items) ->
  at_ (nothing :: rest) q chan -> at_ ((fun x => x ∈ items) :: rest) q' chan.
Proof.
  intros Hwf' Hh Hm. apply item_queue; [done|]. intros _ x Hx [[[k Hk]|Hw]|[]]; exists x; (split; [done|]).
  - destruct (Hm k x Hk) as [?|?]; [left; left; by exists k|by right; left].
  - left. right. by rewrite Hh.
Qed.

(** The batch is put on the channel, with what was looked up for it. *)
Lemma item_feed (items batch : list A) rest q chan : (forall x, x ∈ items -> mine x -> exists y, y ∈ batch /\ mine y) ->
  at_ ((fun x => x ∈ items) :: rest) q chan -> at_ (nothing :: rest) q (chan ++ [batch])%list.
Proof.
  intros Hb. apply item_move; [done|]. intros _ x Hx [Hw|[(l & Hl & Hw)|Hw]].
  - exists x. tauto.
  - exists x. split; [done|]. right. left. exists l. split; [set_solver|done].
  - destruct (Hb x Hw Hx) as (y & Hy & ?). exists y. split; [done|]. right. left. exists batch. split; [set_solver|done].
Qed.

(** The batch is taken off the channel. *)
Lemma item_receive (items : list A) rest q chan : at_ (nothing :: rest) q (items :: chan) -> at_ ((fun x => x ∈ items) :: rest) q chan.
Proof.
  apply item_move; [done|]. intros _ x Hx [Hw|[(l & [->|Hl]%elem_of_cons & Hw)|[]]]; exists x; (split; [done|]); [tauto..|].
  right. left. by exists l.
Qed.

(** Everything on hold is taken. *)
Lemma item_dump rest q chan : at_ (nothing :: rest) q chan -> at_ ((fun x => x ∈ onHold q) :: rest) (mkQueue (pending q) []) chan.
Proof.
  apply item_queue; [done|]. intros _ x Hx [[[k Hk]|Hw]|[]]; exists x; (split; [done|]); [left; left; by exists k|tauto].
Qed.
(** *** Adding *)

(** Requests kept under the same index cannot be told apart. *)
Context (mine_index : forall x y k, mine x -> Index x = Ret k -> Index y = Ret k -> mine y).

(** Adding overwrites at most an entry with the same index. *)
Lemma AddItem_waiting x b q : queue_wf q -> mine x -> waiting q x -> exists y, mine y /\ waiting (AddItem b q).1 y.
Proof using mine_index.
  intros Hq Hx Hw. destruct (Index b) as [k|e|] eqn:Hb; [|exists x; (split; [done|]); revert Hw; unfold AddItem; unfold_go; by rewrite Hb..].
  rewrite (AddItem_ret b k) by done. destruct Hw as [[j Hj]|Hh]; [|exists x; split; [done|by right]].
  destruct (decide (j = k)) as [->|Hne].
  - exists b. split; [eapply mine_index; [exact Hx|by apply Hq|done]|]. left. exists k. apply lookup_insert_eq.
  - exists x. split; [done|]. left. exists j. cbn. by rewrite lookup_insert_ne.
Qed.

Lemma item_at_add gs b q chan : at_ gs q chan -> at_ gs (AddItem b q).1 chan.
Proof using mine_index.
  intros [Hwf (x & Hx & Hw)]. split; [by apply AddItem_wf|]. destruct Hw as [Hw|Hw]; [|exists x; tauto].
  destruct (AddItem_waiting x b q Hwf Hx Hw) as (y & Hy & Hyw). exists y. tauto.
Qed.

End Following.
