(* ===== verification/DepositThreads.v ===== *)
(** * No deposit is lost, action by action

    The statement of Lifecycle.v for the service of BridgeThreads.v: a
    deposit is followed through the retry map, the on-hold queue, the request
    channel and the goroutines that have taken it off them, while the loop
    and all goroutines act in any order. *)

From Stdlib Require Import Ascii String.
From S2P Require Import Prelude GoLib Sdk Requests Fees ItemQueue TokenList Signature MoveFundQueue Pools Validators PubClient Keysign Goroutine Threads TxSend MoveFund Inbound Outbound CosTx Keygen Processing MintRound Flow JoltClient EventLoop Wellformed Lifecycle BridgeThreads ServiceRules Following.

#[local] Open Scope string_scope.
#[local] Open Scope Z_scope.
#[local] Open Scope go_scope.

(** ** Definitions *)

(** [a], or one that took its place, is in one of the places or minted. *)
Definition deposit_at {J} `{JS : JoltService J} `{E : Eth} (a : InBoundReq) (gs : list (debt InBoundReq)) (f : InFlow) : Prop :=
  item_at (stands_for a) (fun x => minted (W := J) (in_hash x)) gs (in_q f) (InboundReqChan f).

(** The same with nobody: waiting in the queue, on the request channel, or
    minted; [a] itself or a request that took its place. *)
Definition deposit_kept {J} `{JS : JoltService J} `{E : Eth} (a : InBoundReq) (f : InFlow) : Prop :=
  item_kept (stands_for a) (fun x => minted (W := J) (in_hash x)) (in_q f) (InboundReqChan f).

(** ** Lemmas *)

Section Deposits.
Context {W C J Msg : Type} `{EC : EthClient W C} `{TW : TssServer W} `{CN : CosmosNode J Msg} `{TJ : TssServer J} `{JS : JoltService J}.
Context `{JB : JoltBlocks J} `{JCn : JoltConnection J} `{KG : KeygenServer J Msg}.
Context `{G : EthSigner} `{S : SdkMath} `{N : SdkCoins} `{B : Bech32} `{E : Eth} `{LE : !EthLaws E} `{K : Backoff} `{R : GoRuntime} `{LR : !GoRuntimeLaws R}.
Context `{GK : GoBackoff} `{GL : !GoBackoffLaws GK} `{AB : TokenAbi} `{JH : !JoltHandler} `{MC : MemoCodec} `{JN : !JoltNode}.
Context (a : InBoundReq).
#[local] Notation BR := (Bridge W C J Msg).
#[local] Notation T := (thread kind BR).
#[local] Notation at_ := (deposit_at (J := J) a).
#[local] Notation settled_ x := (minted (W := J) (in_hash x)).
#[local] Notation item_at := (item_at (stands_for a) (fun x => minted (W := J) (in_hash x))).

Lemma dep_mine_index x y k : stands_for a x -> Index x = Ret k -> Index y = Ret k -> stands_for a y.
Proof. intros Hx H1 H2. eapply stands_for_index; [exact Hx|]. cbn in H1, H2. congruence. Qed.

Lemma deposit_rules : in_rules nothing at_.
Proof.
  split; try done.
  - intros f gs gs'. apply item_at_perm.
  - intros f gs. apply item_at_nothing.
  - intros gs f b q. apply (item_at_add _ _ dep_mine_index).
Qed.

#[local] Notation inv := (service_inv (W := W) (C := C) (J := J) (Msg := Msg) at_ (fun _ _ => True) (fun _ => True)).
#[local] Notation owns := (fun (_ : kind) (_ : debt InBoundReq) => True).
#[local] Notation shared := (beside (L := unit) inv (fun _ => nothing) (fun _ => True)).

Lemma dep_inv_at b gs : inv b gs -> at_ gs (br_in b).
Proof. by intros [? _]. Qed.
Lemma at_inv b gs : at_ gs (br_in b) -> inv b gs.
Proof. by split. Qed.

Lemma dep_nothing_drops : drops inv nothing.
Proof. apply (none_drops _ _ _ _ deposit_rules (out_rules_trivial nothing)). Qed.

(** A debt of requests that are minted may be forgotten. *)
Lemma minted_drops (g : debt InBoundReq) : (forall x, g x -> settled_ x) -> drops inv g.
Proof. intros Hg b rest H%dep_inv_at. apply at_inv. revert H. apply item_settled. auto. Qed.

(** Debts are passed on to the goroutines that take them over. *)
Lemma dep_debts_pass (g : debt InBoundReq) gs : (forall x, g x -> owed gs x \/ settled_ x) -> trades inv g gs.
Proof. intros Hg b rest H%dep_inv_at. apply at_inv. revert H. apply item_pass. intros y Hy _. by apply Hg. Qed.

(** *** The operations of the goroutines *)

(** An operation of the queue. *)
Lemma mint_queue_op {A} (m : M (ItemQueue InBoundReq) A) (b b' : BR) r : try (mint_on _ (on_mq m)) b = (b', Ret r) ->
  exists q o, m (in_q (br_in b)) = (q, o) /\ ocatch o = Ret r /\ br_in b' = in_set_q q (br_in b).
Proof.
  unfold try, mint_on, on_in, Flow.on_mint, on_mq. cbn. destruct (m (in_q (br_in b))) as [q o]. intros [= <- Ho]. by exists q, o.
Qed.

(** An operation of the node. *)
Lemma mint_node_op {A} (m : M J A) (b b' : BR) r : try (mint_on _ (on_mnode m)) b = (b', Ret r) ->
  br_in b' = br_in b /\ exists w w', try m w = (w', Ret r).
Proof.
  unfold try, mint_on, on_in, Flow.on_mint, on_mnode. cbn. destruct (m (br_jolt b)) as [w o] eqn:Em. intros [= <- Ho].
  split; [by destruct (br_in b)|]. exists (br_jolt b), w. by rewrite Em, Ho.
Qed.


Lemma try_apart {L A} (m : M (MintState J) A) (s s' : BR * L) r : try (apart mint_on _ m) s = (s', Ret r) ->
  try (mint_on _ m) s.1 = (s'.1, Ret r).
Proof. unfold try, apart. destruct (mint_on _ m s.1) as [b o]. by intros [= <- <-]. Qed.

(** In a group, an action of the node changes nothing, one of the queue is
    judged by what it does to the queue. *)
Lemma shared_node {A} (m : M J A) g rest s s' r : shared s (g :: rest) -> try (apart mint_on _ (on_mnode m)) s = (s', Ret r) ->
  shared s' (g :: rest) /\ exists w w', try m w = (w', Ret r).
Proof.
  intros [_ HI] [Hin Hw]%try_apart%mint_node_op. split; [|done]. split; [done|]. apply at_inv. rewrite Hin. by apply dep_inv_at.
Qed.

Lemma dep_shared_queue {A} (m : M (ItemQueue InBoundReq) A) g g' rest s s' r :
  (forall q q' o, m q = (q', o) -> ocatch o = Ret r -> forall rest chan, item_at (g :: rest) q chan -> item_at (g' :: rest) q' chan) ->
  shared s (g :: rest) -> try (apart mint_on _ (on_mq m)) s = (s', Ret r) -> shared s' (g' :: rest).
Proof.
  intros Hm [_ HI] (q & o & Ho & Hr & Hin)%try_apart%mint_queue_op. split; [done|]. apply at_inv. unfold deposit_at. rewrite Hin.
  apply dep_inv_at in HI. apply (item_at_perm _ _ (g' :: nothing :: rest)); [apply perm_swap|].
  eapply Hm; [exact Ho|exact Hr|]. revert HI. apply item_at_perm, perm_swap.
Qed.

Lemma status_holds index n (g : debt InBoundReq) : (0 < n)%nat ->
  holds shared (fun r g' => (r = inl tt -> minted (W := J) index) /\ g' = g) (glift (apart mint_on) (JoltCheckTxStatus_go index n)) g.
Proof.
  intros Hn. unfold JoltCheckTxStatus_go. rewrite retry_go_spec by done. apply holds_glift_retry. cbn.
  intros s rest s' r HJ Hm. destruct (shared_node _ _ _ _ _ _ HJ Hm) as (HJ' & w & w' & Hw). exists g. split; [done|]. split; [|done].
  intros ->. apply try_ret_inv in Hw. unfold status_op in Hw. apply bind_ret_inv in Hw as (w1 & b & H1 & H).
  apply (already_exists_minted index w w1). unfold already_exists, bind. rewrite H1. unfold ret.
  destruct (CheckWhetherAlreadyExist b); [done|]. unfold fail in H. discriminate.
Qed.

(** One held deposit: it is minted or goes back to the map. *)
Lemma put_back_go_holds each : holds shared (fun _ => drops inv) (glift (apart mint_on) (put_back_go each)) (fun x => x = each).
Proof.
  unfold put_back_go. apply holds_glift_bind. eapply holds_mono; [|apply status_holds, Nat.lt_0_succ].
  intros [[]|e] g [Hr ->]; cbn [glift gbind act holds].
  - apply minted_drops. intros x ->. by apply Hr.
  - intros s rest s' r HJ Hm. exists nothing. split; [|apply dep_nothing_drops]. revert HJ Hm. apply dep_shared_queue.
    intros q q' o Ho _ rest' chan. pose proof (AddItem_wf each q) as Hwf. rewrite Ho in Hwf. apply item_queue; [exact Hwf|].
    intros Hq x Hx [Hw| ->].
    + destruct (AddItem_waiting _ dep_mine_index x each q Hq Hx Hw) as (y & Hy & Hyw). rewrite Ho in Hyw. eauto.
    + exists each. split; [done|]. left. left. exists (InBoundReq_Index each).
      rewrite (AddItem_ret each (InBoundReq_Index each)) in Ho by done. injection Ho as <- _. cbn. apply lookup_insert_eq.
Qed.

Context (Hdial : forall w : J, exists w', DialGrpc w = (w', Ret tt)).

(** One index of the batch: its requests are minted, or one with that hash is
    put on hold. *)
Definition of_index (items : list InBoundReq) (index : string) : debt InBoundReq := fun x => x ∈ items /\ in_hash x = index.

Lemma dep_hold_moves h items index : in_hash h = index -> forall (q q' : ItemQueue InBoundReq) o, AddOnHoldQueue h q = (q', o) ->
  forall rest chan, item_at (of_index items index :: rest) q chan -> item_at (nothing :: rest) q' chan.
Proof.
  intros Hh q q' o Ho rest chan. assert (q' = (AddOnHoldQueue h q).1) as -> by (by rewrite Ho). clear Ho. apply item_queue; [done|].
  intros _ x Hx [Hw|[_ Hw]].
  - exists x. split; [done|]. left. apply AddOnHold_waiting. by left.
  - exists h. split; [eapply stands_for_hash; [exact Hx|congruence]|]. left. apply AddOnHold_waiting. by right.
Qed.

Lemma mint_go_holds items index : is_Some (by_hash items !! index) ->
  holds shared (fun _ => drops inv) (glift (apart mint_on) (mint_go (by_hash items) index)) (of_index items index).
Proof.
  intros [h Hh]. assert (in_hash h = index) as Hhash by (by apply by_hash_spec in Hh as [_ ->]).
  unfold mint_go. apply holds_glift_bind. cbn [glift gbind act holds]. intros s rest s' d HJ Hm.
  destruct (shared_node _ _ _ _ _ _ HJ Hm) as (HJ' & w & w' & Hw). exists (of_index items index). split; [done|].
  destruct d as [[]|e]; [|destruct (Hdial w) as [w1 Hw1]; unfold try in Hw; rewrite Hw1 in Hw; discriminate].
  apply holds_glift_bind. eapply holds_mono; [|apply status_holds, Nat.lt_0_succ]. clear s s' rest HJ Hm HJ' w w' Hw.
  assert (forall s rest s' r f, shared s (of_index items index :: rest) -> try (apart mint_on _ (set_failedIn f)) s = (s', Ret r) ->
    shared s' (of_index items index :: rest)) as Hfail.
  { intros s rest s' r f [_ HI] [= <- _]. split; [done|]. apply at_inv. apply dep_inv_at in HI. exact HI. }
  assert (holds shared (fun _ => drops inv)
    (glift (apart mint_on) (do^ act (Rp := unit) match by_hash items !! index with Some item => on_mq (AddOnHoldQueue item) | None => panic end in Return tt))
    (of_index items index)) as Hlast.
  { rewrite Hh. cbn [glift gbind act holds]. intros s rest s' r HJ Hm. exists nothing. split; [|apply dep_nothing_drops].
    revert HJ Hm. apply dep_shared_queue. intros q q' o Ho _. by apply (dep_hold_moves h items index Hhash q q' o Ho). }
  intros [[]|e] g [Hr ->].
  - cbn [glift gbind act holds]. intros s rest s' r HJ Hm. exists (of_index items index). split; [by eapply Hfail|].
    apply minted_drops. intros x [_ ->]. by apply Hr.
  - cbn [glift gbind act holds]. intros s rest s' r HJ Hm. exists (of_index items index).
    assert (shared s' (of_index items index :: rest)) as HJ'.
    { destruct HJ as [_ HI]. injection Hm as <- _. split; [done|]. apply at_inv. apply dep_inv_at in HI. exact HI. }
    split; [done|]. destruct r as [[]|e']; cbn [glift gbind act holds]; [exact Hlast|..];
      intros s1 rest1 s2 r2 HJ1 Hm1; exists (of_index items index); (split; [by eapply Hfail|]); exact Hlast.
Qed.

(** *** The threads *)

#[local] Notation keeps_thread := (keeps_thread inv owns).
#[local] Notation free := (fun _ : debt InBoundReq => True).

Lemma dep_thread_node {A} Fin (m : M J A) (k : A + string -> T) g :
  (forall r w w', try m w = (w', Ret r) -> keeps_thread Fin free (k r) g) -> keeps_thread Fin free (Do (on_jolt m) k) g.
Proof.
  intros Hk. apply (thread_keep_result inv owns Fin free _ _ (fun r => exists w w', try m w = (w', Ret r))); [|done| |].
  - intros gs. apply (parts_on_jolt (at_ gs) (fun _ => True) (fun _ => True) (fun _ => True)).
  - intros gs b b' r _. unfold try, on_jolt. destruct (m (br_jolt b)) as [w o] eqn:Em. intros [= _ <-].
    exists (br_jolt b), w. by rewrite Em.
  - intros r (w & w' & Hw). by eapply Hk.
Qed.

Lemma dep_thread_store Fin f (k : unit + string -> T) g : (forall h, in_q (f h) = in_q h /\ InboundReqChan (f h) = InboundReqChan h) ->
  (forall r, keeps_thread Fin free (k r) g) -> keeps_thread Fin free (Do (store_in f) k) g.
Proof.
  intros Hf Hk. apply thread_keep; [|done|done]. intros gs. apply (parts_store_in (at_ gs) (fun _ => True) (fun _ => True) (fun _ => True)).
  intros h. destruct (Hf h) as [H1 H2]. unfold deposit_at, on_channel. by rewrite H1, H2.
Qed.

Lemma dep_thread_read {A} (Fin : debt InBoundReq -> Prop) (f : BR -> A) (k : A -> T) g : Fin g -> (forall x, keeps_thread Fin free (k x) g) -> keeps_thread Fin free (look f k) g.
Proof. intros HF Hk. by apply thread_look. Qed.

(** An operation of the queue, in a thread. *)
Lemma dep_thread_queue {A} (Fin : debt InBoundReq -> Prop) (m : M (ItemQueue InBoundReq) A) (k : A + string -> T) g :
  (forall q q' o r, queue_wf q -> m q = (q', o) -> ocatch o = Ret r -> exists g',
    (forall rest chan, item_at (g :: rest) q chan -> item_at (g' :: rest) q' chan) /\ keeps_thread Fin free (k r) g') ->
  keeps_thread Fin free (Do (mint_on _ (on_mq m)) k) g.
Proof.
  intros Hm. split; [done|]. intros s rest s' r HI%dep_inv_at (q & o & Ho & Hr & Hin)%mint_queue_op. pose proof HI as [Hwf _].
  destruct (Hm _ _ _ _ Hwf Ho Hr) as (g' & Hmv & Hk). exists g'. split; [|done]. apply at_inv. unfold deposit_at. rewrite Hin.
  by apply Hmv.
Qed.

Lemma put_in_ok Fin k : Fin nothing -> keeps_thread Fin free k nothing -> keeps_thread Fin free (put_back_in k) nothing.
Proof.
  intros HF Hk. unfold put_back_in. apply dep_thread_node. intros [[]|e] _ _ _; [|done]. apply dep_thread_queue.
  intros q q' o r Hwf Hd Hr. rewrite DumpQueue_ret in Hd. injection Hd as <- <-. injection Hr as <-.
  exists (fun x => x ∈ onHold q). split.
  - intros rest chan. apply item_dump.
  - exists (fun _ => nothing), (fun _ => True), (map (fun each x => x = each) (onHold q)). split; [|split; [done|split]].
    + apply dep_debts_pass. intros x Hx. left. exists (fun y => y = x). split; [|done]. right. apply list_elem_of_fmap. by exists x.
    + apply Forall2_fmap, Forall_Forall2_diag, Forall_forall. intros each _. apply put_back_go_holds.
    + by intros _ _.
Qed.

(** *** The goroutine of a batch *)

#[local] Notation started := (keeps_thread (drops inv) free).

Lemma mint_over_ok g : drops inv g -> started mint_over g.
Proof. intros Hg. by apply dep_thread_store. Qed.

(** A smaller debt. *)
Lemma dep_started_less (t : T) g g' : (forall x, g x -> g' x \/ settled_ x) -> started t g' -> started t g.
Proof.
  intros Hg. assert (trades inv g [g']) as Ht.
  { apply dep_debts_pass. intros x [Hx|?]%Hg; [|by right]. left. exists g'. split; [left|done]. }
  apply thread_trade; [done| |done]. intros Hd b rest HI. by apply Hd, Ht.
Qed.

Lemma hold_all_ok items k : started k nothing ->
  started (do_all (fun el => mint_on _ (on_mq (AddOnHoldQueue el))) items k) (fun x => x ∈ items).
Proof.
  intros Hk. induction items as [|el items IH]; cbn [do_all].
  { eapply dep_started_less; [|exact Hk]. by intros x ?%not_elem_of_nil. }
  apply dep_thread_queue. intros q q' o r Hwf Ho _. exists (fun x => x ∈ items). split; [|exact IH].
  assert (q' = (AddOnHoldQueue el q).1) as -> by (by rewrite Ho). intros rest chan. apply item_queue; [done|].
  intros _ x Hx [Hw|[ ->|Hw]%elem_of_cons]; [|exists el|exists x; tauto].
  - exists x. split; [done|]. left. apply AddOnHold_waiting. by left.
  - split; [done|]. left. apply AddOnHold_waiting. by right.
Qed.

(** While the requests are asked for, the debt stays; those left out are
    minted. *)
Lemma ask_each_ok items need (k : list InBoundReq -> T) g :
  (forall need', (forall x, x ∈ need' -> x ∈ need \/ x ∈ items) ->
    (forall x, x ∈ need \/ x ∈ items -> x ∈ need' \/ settled_ x) -> started (k need') g) ->
  started (ask_each items need k) g.
Proof.
  revert need. induction items as [|item items IH]; intros need Hk; cbn [ask_each].
  { apply Hk; [auto|]. intros x [?|?%not_elem_of_nil]; [by left|done]. }
  apply (thread_keep_result inv owns (drops inv) free _ _ (fun r => r = inl true -> settled_ item)); [|done| |].
  - intros gs. apply (parts_mint_on (at_ gs) (fun _ => True) (fun _ => True) (fun _ => True)). intros f. apply keeps_mnode.
  - intros gs b b' r _ (_ & w & w' & Hw)%mint_node_op ->. apply try_ret_inv in Hw. by eapply already_exists_minted.
  - intros r Hr. apply IH. intros need' H1 H2. destruct r as [[|]|e].
    + apply Hk; [intros x [?|?]%H1; [by left|right; by right]|]. intros x [Hx|[ ->|Hx]%elem_of_cons]; [by apply H2; left|right; by apply Hr|by apply H2; right].
    + apply Hk; [intros x [[?| ->%list_elem_of_singleton]%elem_of_app|?]%H1; [by left|right; left|right; by right]|].
      intros x [Hx|[ ->|Hx]%elem_of_cons]; apply H2; rewrite elem_of_app, list_elem_of_singleton; auto.
    + apply Hk; [intros x [[?| ->%list_elem_of_singleton]%elem_of_app|?]%H1; [by left|right; left|right; by right]|].
      intros x [Hx|[ ->|Hx]%elem_of_cons]; apply H2; rewrite elem_of_app, list_elem_of_singleton; auto.
Qed.

Lemma mint_thread_ok items : started (mint_thread (Msg := Msg) items) (fun x => x ∈ items).
Proof.
  unfold mint_thread. cbv zeta. apply dep_thread_node. intros d w w' Hw.
  destruct d as [[]|e]; [|destruct (Hdial w) as [w1 Hw1]; unfold try in Hw; rewrite Hw1 in Hw; discriminate].
  apply ask_each_ok. intros need Hsub Hcov. assert (forall x, x ∈ items -> x ∈ need \/ settled_ x) as Hall by (intros; apply Hcov; by right).
  destruct need as [|n0 need].
  { apply (thread_keep inv owns); [|done|].
    - intros gs. apply (parts_mint_on (at_ gs) (fun _ => True) (fun _ => True) (fun _ => True)). intros f.
      by apply (keeps_failedIn (P := at_ gs)).
    - intros _. apply mint_over_ok, minted_drops. intros x Hx. destruct (Hall x Hx) as [?%not_elem_of_nil|]; done. }
  apply dep_thread_node. intros [m|e] w1 w2 Hw1; [|apply hold_all_ok, mint_over_ok, dep_nothing_drops].
  apply try_ret_inv in Hw1. pose proof (DoProcessInBound_keys _ _ _ _ Hw1) as Hk. destruct (by_hash_spec items) as [_ Hb].
  assert (forall k, k ∈ map fst (map_range m) <-> is_Some (m !! k)) as Hkeys.
  { intros k. rewrite list_elem_of_fmap. split.
    - intros ([k' x] & -> & Hx). rewrite map_range_perm, elem_of_map_to_list in Hx. by exists x.
    - intros [x Hx]. exists (k, x). split; [done|]. by rewrite map_range_perm, elem_of_map_to_list. }
  exists (fun _ => nothing), (fun _ => True), (map (of_index items) (map fst (map_range m))). split; [|split; [done|split]].
  - apply dep_debts_pass. intros x Hx. destruct (Hall x Hx) as [Hn|?]; [left|by right]. exists (of_index items (in_hash x)).
    split; [|done]. right. apply list_elem_of_fmap. exists (in_hash x). split; [done|]. apply Hkeys, Hk. by exists x.
  - apply Forall2_fmap, Forall_Forall2_diag, Forall_forall. intros k (x & Hx & ->)%Hkeys%Hk.
    apply mint_go_holds, Hb. destruct (Hsub x Hx) as [?%not_elem_of_nil|]; done.
  - intros _ _. split; [done|]. apply mint_over_ok, dep_nothing_drops.
Qed.

(** *** The loop: feeding and receiving a batch *)

#[local] Notation idle := (fun g : debt InBoundReq => trades inv g [nothing]).
#[local] Notation looping := (keeps_thread idle free).

Lemma dep_idle_nothing : idle nothing.
Proof. by intros b rest. Qed.

Lemma feed_in_ok s h : looping (feed_if_done_in (Msg := Msg) s h) nothing.
Proof.
  unfold feed_if_done_in. apply dep_thread_read; [apply dep_idle_nothing|]. intros [|]; [|apply dep_idle_nothing]. cbn [negb].
  apply dep_thread_read; [apply dep_idle_nothing|]. intros [|]; [apply dep_idle_nothing|].
  destruct (slot1 s) as [pool|]; [|apply thread_crash; [apply dep_idle_nothing|done]].
  match goal with |- looping (feed_inbound_thread _ ?k) _ => assert (looping k nothing) as Hk; [repeat (apply dep_thread_store; [done|intros _]); apply dep_idle_nothing|] end.
  unfold feed_inbound_thread. apply thread_keep; [by intros gs b H|done|]. intros [[]|e]; [|exact Hk..].
  apply dep_thread_node. intros [acc|e] _ _ _; [|exact Hk]. apply dep_thread_queue. intros q q' o r Hwf Hp Hr.
  pose proof (PopItem_keeps_wf (fun _ => true) GroupSign q Hwf) as Hwf'. unfold InboundQueue.PopItem in Hp. rewrite Hp in Hwf'. cbn in Hwf'.
  destruct (PopItem_moves (fun _ => true) GroupSign q q' o Hwf) as [Hh [[-> ->]|(items & -> & Hm & _)]]; [by vm_compute|exact Hp|..]; injection Hr as <-.
  - exists nothing. by split.
  - exists (fun x => x ∈ items). split; [intros rest chan; by apply item_pop|].
    split; [done|]. intros b rest b' r HI%dep_inv_at [= <- _]. exists nothing. split; [|exact Hk]. apply at_inv. revert HI.
    apply item_feed. intros x Hx Hm'.
    destruct (assign_accounts_elem (acc_Number acc) (acc_Sequence acc) (acc_Address acc) (PoolPubKey (pi_PoolInfo pool)) items x Hx) as (y & Hy & He).
    exists y. split; [done|]. eapply stands_for_hash; [exact Hm'|exact He].
Qed.

Context (attempts submits : nat) (Hsubmits : (0 < submits)%nat) (HexToHash : string -> bytes).
Context (GetConsAddress : bytes -> bytes) (Address_String : bytes -> string) (myValidatorKey : string).
Context (ReadFile : outcome bytes) (Unmarshal : bytes -> outcome (list TokenItem)).
Context (feeModule : gmap string FeeModule) (oppyRollbackGap pubRollbackGap : Z).
#[local] Notation arrives := (on_arrival (W := W) (C := C) (J := J) (Msg := Msg) attempts submits HexToHash GetConsAddress Address_String myValidatorKey
  ReadFile Unmarshal feeModule oppyRollbackGap pubRollbackGap).

Lemma receive_in_ok : looping (arrives ArrInbound) nothing.
Proof.
  unfold on_arrival. split; [done|]. intros b rest b' r HI%dep_inv_at Hm.
  assert (exists g, inv b' (g :: rest) /\ match r with inl (Some items) => g = (fun x => x ∈ items) | _ => g = nothing end) as (g & HI' & Hg).
  { unfold try, receive_in in Hm. destruct (InboundReqChan (br_in b)) as [|items chan] eqn:Ec; injection Hm as <- <-.
    - exists nothing. split; [by apply at_inv|done].
    - exists (fun x => x ∈ items). split; [|done]. apply at_inv. unfold deposit_at in *. rewrite Ec in HI. by apply item_receive. }
  exists g. split; [done|]. destruct r as [[items|]|e]; [|by rewrite Hg; apply dep_idle_nothing..].
  exists g, nothing. split; [|split; [done|]].
  - apply dep_debts_pass. intros x Hx. left. exists g. split; [left|done].
  - rewrite Hg. split; [apply mint_thread_ok|apply dep_idle_nothing].
Qed.

(** Every case of the loop keeps the invariant. *)
Lemma deposit_arrivals e : looping (arrives e) nothing.
Proof.
  apply (on_arrival_keeps attempts submits HexToHash GetConsAddress Address_String myValidatorKey ReadFile Unmarshal feeModule oppyRollbackGap
    pubRollbackGap at_ (fun _ _ => True) (fun _ => True) nothing nothing owns idle free deposit_rules (out_rules_trivial nothing)); try done.
  - apply dep_idle_nothing.
  - intros k Hk. apply put_in_ok; [apply dep_idle_nothing|done].
  - intros ct k Hk. by apply (idle_put_out HexToHash nothing owns (fun _ => True) at_ deposit_rules _ (out_rules_trivial nothing)).
  - intros. apply feed_in_ok.
  - intros p ct h _. apply (idle_feed_out HexToHash nothing owns (fun _ => True) at_ deposit_rules); [apply dep_idle_nothing|done].
  - exact receive_in_ok.
  - unfold on_arrival. apply thread_keep; [|done|].
    + intros gs b H. unfold receive_out. destruct (OutboundReqChan (br_out b)); exact H.
    + intros [[items|]|e0]; [|apply dep_idle_nothing..]. exists nothing, nothing. split; [|split; [done|split; [|apply dep_idle_nothing]]].
      * intros b rest HI. apply at_inv. apply dep_inv_at in HI. by apply (in_none _ _ deposit_rules).
      * apply (idle_payout attempts submits Hsubmits HexToHash nothing owns (fun _ => True) at_ deposit_rules _ (out_rules_trivial nothing)); [done|done|].
        apply thread_keep; [|done|intros _; apply dep_nothing_drops]. intros gs. by apply (parts_store_out (at_ gs) (fun _ => True) (fun _ => True) (fun _ => True)).
Qed.

(** A deposit that has arrived somewhere on the way is somewhere in the end. *)
Lemma deposit_rests (b0 : BR) (c1 c : service kind BR) :
  queue_wf (in_q (br_in b0)) -> rtc (svc_step arrives) (start_service b0) c1 -> rtc (svc_step arrives) c1 c -> at_rest c ->
  deposit_kept (J := J) a (br_in (mem c1)) -> deposit_kept (J := J) a (br_in (mem c)).
Proof using Hsubmits GL LE LR Hdial.
  intros Hq H1 Hc Hr Hk. apply item_at_end. apply dep_inv_at.
  eapply (svc_sound_rest _ (service_inv_perm _ _ _ _ deposit_rules (out_rules_trivial nothing)) _ _ _ _ [everything] b0);
    [|exact H1|exact Hc|exact Hr|apply at_inv; apply (item_expected _ _ [nothing] a); [done|apply rtc_refl]|].
  - exact deposit_arrivals.
  - intros gs HI%dep_inv_at. apply at_inv. by apply (item_arrives _ _ [everything]).
Qed.
End Deposits.

(** ** Properties *)

Section Properties.
Context {W C J Msg : Type} `{EC : EthClient W C} `{TW : TssServer W} `{CN : CosmosNode J Msg} `{TJ : TssServer J} `{JS : JoltService J}.
Context `{JB : JoltBlocks J} `{JCn : JoltConnection J} `{KG : KeygenServer J Msg}.
Context `{G : EthSigner} `{S : SdkMath} `{N : SdkCoins} `{B : Bech32} `{E : Eth} `{LE : !EthLaws E} `{K : Backoff} `{R : GoRuntime} `{LR : !GoRuntimeLaws R}.
Context `{GK : GoBackoff} `{GL : !GoBackoffLaws GK} `{AB : TokenAbi} `{JH : !JoltHandler} `{MC : MemoCodec} `{JN : !JoltNode}.
Context (attempts submits : nat) (HexToHash : string -> bytes).
Context (GetConsAddress : bytes -> bytes) (Address_String : bytes -> string) (myValidatorKey : string).
Context (ReadFile : outcome bytes) (Unmarshal : bytes -> outcome (list TokenItem)).
Context (feeModule : gmap string FeeModule) (oppyRollbackGap pubRollbackGap : Z).
#[local] Notation BR := (Bridge W C J Msg).
#[local] Notation arrives := (on_arrival (W := W) (C := C) (J := J) (Msg := Msg) attempts submits HexToHash GetConsAddress Address_String myValidatorKey
  ReadFile Unmarshal feeModule oppyRollbackGap pubRollbackGap).
#[local] Notation svc_reaches := (svc_reaches (W := W) (C := C) (J := J) (Msg := Msg) attempts submits HexToHash GetConsAddress Address_String
  myValidatorKey ReadFile Unmarshal feeModule oppyRollbackGap pubRollbackGap).

End Properties.

(** ** Witnesses *)

Section Witnesses.
#[local] Existing Instance eth_client_ref.
#[local] Existing Instance tss_ref.
#[local] Existing Instance cosmos_ref.
#[local] Existing Instance tss_cos_ref.
#[local] Existing Instance EventLoop.blocks_ref.
#[local] Existing Instance EventLoop.connection_ref.
#[local] Existing Instance EventLoop.keygen_ref.
#[local] Existing Instance eth_signer_ref.
#[local] Existing Instance sdk_math_ref.
#[local] Existing Instance sdk_coins_ref.
#[local] Existing Instance bech32_ref.
#[local] Existing Instance eth_ref.
#[local] Existing Instance backoff_ref.
#[local] Existing Instance go_backoff_ref.
#[local] Existing Instance go_runtime_ref.
#[local] Existing Instance abi_ref.
#[local] Existing Instance handler_ref.

#[local] Notation arrival_ref := (on_arrival (C := unit) (JS := jolt_ref true) (MC := memo_ref "JOLTIFY") (JN := node_ref "BSC")
  4 3 (fun _ => []) (fun b => b) hex_EncodeToString "" (Fail "no file") (fun _ => Fail "no file") ∅ 3 3).

(** A block feeds the deposit, the loop takes the batch and starts on the next
    block; then the loop and the thread of the batch act in turns. *)
#[local] Definition start_schedule : list (pick arrival) :=
  (PickEvent (ArrJoltBlock 203) :: repeat (PickLoop None) 40)%list.
#[local] Definition schedule : list (pick arrival) :=
  (PickEvent ArrInbound :: repeat (PickLoop None) 3 ++ PickOther 1 None :: PickEvent (ArrJoltBlock 204) :: concat (repeat [PickLoop None; PickOther 1 (Some 0%nat); PickOther 0 None] 40) ++
  repeat (PickOther 2 None) 3)%list.

#[local] Notation started := (start_service (EventLoop.bridge0 [30] true)).
#[local] Notation fed := (svc_sched arrival_ref start_schedule started).
#[local] Notation ended := (svc_sched arrival_ref schedule fed).

End Witnesses.
