(* ===== verification/PayoutThreads.v ===== *)
(** * No payout is lost, action by action

    The statement of Lifecycle.v for the service of BridgeThreads.v: a payout
    is followed by its index through the retry map, the on-hold queue, the
    request channel and the goroutines that have taken it off them, while the
    loop and all goroutines act in any order. *)

From Stdlib Require Import Ascii String.
From S2P Require Import Prelude GoLib Sdk Requests Fees ItemQueue TokenList Signature MoveFundQueue Pools Validators PubClient Keysign Goroutine Threads TxSend SendPrograms MoveFund Inbound Outbound CosTx Keygen Processing PayoutRound Flow JoltClient EventLoop Wellformed Lifecycle BridgeThreads ServiceRules Following.

#[local] Open Scope string_scope.
#[local] Open Scope Z_scope.
#[local] Open Scope go_scope.

(** ** Definitions *)

Section Definitions.
Context {W C J Msg : Type} `{EC : EthClient W C} `{TW : TssServer W} `{CN : CosmosNode J Msg} `{TJ : TssServer J} `{JS : JoltService J}.
Context `{G : EthSigner} `{S : SdkMath} `{N : SdkCoins} `{B : Bech32} `{E : Eth} `{R : GoRuntime}.
Context (HexToHash : string -> bytes).

(** The end of a payout: it was paid, the joltify chain has an open record of
    it, or the transaction noted in it is confirmed. *)
Definition payout_over (x : OutBoundReq) : Prop :=
  (exists v, paid (W := W) (J := J) (C := C) HexToHash v x) \/ (exists v, record_open (J := J) v x) \/
  (SubmittedTxHash x <> Hash_Hex zero_hash /\ confirmed_tx (W := W) (C := C) HexToHash (SubmittedTxHash x)).

(** The payout with index [k] is in one of the places or over. *)
Definition payout_at (k : string) (gs : list (debt OutBoundReq)) (f : OutFlow) : Prop :=
  item_at (fun x => OutBoundReq_Index x = Ret k) payout_over gs (out_q f) (OutboundReqChan f).

(** The same with nobody: in the map, on hold or on the request channel under
    its index, or over. *)
Definition payout_kept (k : string) (f : OutFlow) : Prop :=
  item_kept (fun x => OutBoundReq_Index x = Ret k) payout_over (out_q f) (OutboundReqChan f).
End Definitions.

(** ** Lemmas *)

Section Payouts.
Context {W C J Msg : Type} `{EC : EthClient W C} `{TW : TssServer W} `{CN : CosmosNode J Msg} `{TJ : TssServer J} `{JS : JoltService J}.
Context `{JB : JoltBlocks J} `{JCn : JoltConnection J} `{KG : KeygenServer J Msg}.
Context `{G : EthSigner} `{LG : !EthSignerLaws G} `{S : SdkMath} `{N : SdkCoins} `{B : Bech32} `{E : Eth} `{LE : !EthLaws E}.
Context `{K : Backoff} `{R : GoRuntime} `{LR : !GoRuntimeLaws R} `{GK : GoBackoff} `{GL : !GoBackoffLaws GK}.
Context `{AB : TokenAbi} `{JH : !JoltHandler} `{MC : MemoCodec} `{JN : !JoltNode}.
Context (HexToHash : string -> bytes) (k : string).
#[local] Notation BR := (Bridge W C J Msg).
#[local] Notation PS := (PayState W J C).
#[local] Notation T := (thread kind BR).
#[local] Notation over_ := (payout_over (W := W) (C := C) (J := J) HexToHash).
#[local] Notation at_ := (payout_at (W := W) (C := C) (J := J) HexToHash k).
#[local] Notation mine := (fun x => OutBoundReq_Index x = Ret k).
#[local] Notation item_at := (item_at mine over_).

Lemma pay_mine_index x y j : mine x -> Index x = Ret j -> Index y = Ret j -> mine y.
Proof. cbn. intros Hx H1 H2. congruence. Qed.

Lemma payout_rules : out_rules nothing at_.
Proof.
  split; try done.
  - intros f gs gs'. apply item_at_perm.
  - intros f gs. apply item_at_nothing.
  - intros gs f b q. apply (item_at_add _ _ pay_mine_index).
Qed.

#[local] Notation inv := (service_inv (W := W) (C := C) (J := J) (Msg := Msg) (fun _ _ => True) at_ pools_have_address).
#[local] Notation owns := (fun (_ : kind) (_ : debt OutBoundReq) => True).

Lemma pay_inv_at b gs : inv b gs -> at_ gs (br_out b).
Proof. by intros (_ & ? & _). Qed.
Lemma inv_pools b gs : inv b gs -> pools_have_address (jc_pools (br_pools b)).
Proof. by intros (_ & _ & _ & ?). Qed.

(** The state of the payouts is changed from [q] to [q']. *)
Definition stepped (b b' : BR) (q q' : ItemQueue OutBoundReq) : Prop :=
  out_q (br_out b) = q /\ out_q (br_out b') = q' /\ OutboundReqChan (br_out b') = OutboundReqChan (br_out b) /\
  jc_pools (br_pools b') = jc_pools (br_pools b).

Lemma inv_stepped b b' q q' gs gs' : stepped b b' q q' -> (forall chan, item_at gs q chan -> item_at gs' q' chan) -> inv b gs -> inv b' gs'.
Proof.
  intros (Hq & Hq' & Hc & Hp) Hi HI. split; [done|]. split; [|split; [done|rewrite Hp; by eapply inv_pools]].
  apply pay_inv_at in HI. unfold payout_at in *. rewrite Hq', Hc. apply Hi. by rewrite <- Hq.
Qed.

Lemma pay_nothing_drops : drops inv nothing.
Proof. apply (none_drops _ _ _ _ (in_rules_trivial nothing) payout_rules). Qed.

(** A debt of payouts that are over may be forgotten. *)
Lemma over_drops (g : debt OutBoundReq) : (forall x, g x -> mine x -> over_ x) -> drops inv g.
Proof. intros Hg b rest. eapply (inv_stepped b b); [by split|]. intros chan. by apply item_settled. Qed.

(** Debts are passed on to the goroutines that take them over. *)
Lemma pay_debts_pass (g : debt OutBoundReq) gs : (forall x, g x -> mine x -> owed gs x \/ over_ x) -> trades inv g gs.
Proof. intros Hg b rest. eapply (inv_stepped b b); [by split|]. intros chan. by apply item_pass. Qed.

(** *** The operations of the goroutines *)

Lemma pay_op {D} ct (m : M PS D) (b b' : BR) r : try (pay_on ct _ m) b = (b', Ret r) ->
  exists ps ps', try m ps = (ps', Ret r) /\ stepped b b' (pay_q ps) (pay_q ps').
Proof.
  unfold try, pay_on, EventLoop.on_out, Flow.on_pay. destruct (chain_of ct b) as [c|]; [|done].
  destruct (m _) as [s o] eqn:Em. intros [= <- Ho]. exists (mkPayState c (br_jolt b) (out_q (br_out b)) (out_failed (br_out b)) (out_wait (br_out b))), s.
  split; [by rewrite Em, Ho|]. by split_and!.
Qed.

Lemma pay_apart {L D} ct (m : M PS D) (s s' : BR * L) r : try (apart (pay_on ct) _ m) s = (s', Ret r) ->
  s'.2 = s.2 /\ exists ps ps', try m ps = (ps', Ret r) /\ stepped s.1 s'.1 (pay_q ps) (pay_q ps').
Proof.
  intros H. assert (try (pay_on ct _ m) s.1 = (s'.1, Ret r) /\ s'.2 = s.2) as [H1 H2]; [|split; [done|by eapply pay_op]].
  revert H. unfold try, apart. destruct (pay_on ct _ m s.1) as [b o]. intros [= <- Ho]. by rewrite Ho.
Qed.

Lemma pay_along {L D} ct (m : M (PS * L) D) (s s' : BR * L) r : try (along (pay_on ct) _ m) s = (s', Ret r) ->
  exists ps ps', try m (ps, s.2) = ((ps', s'.2), Ret r) /\ stepped s.1 s'.1 (pay_q ps) (pay_q ps').
Proof.
  unfold try, along, pay_on, EventLoop.on_out, Flow.on_pay. destruct (chain_of ct s.1) as [c|]; [|done].
  destruct (m _) as [[ps l] o] eqn:Em. destruct o as [d|e|]; intros [= <- <-].
  - eexists _, ps. rewrite Em. by split_and!.
  - eexists _, ps. rewrite Em. by split_and!.
Qed.

(** The goroutines of a group work next to what [own] of their variables is
    held. *)
Section Groups.
Context {L : Type} (own : L -> debt OutBoundReq) (ct : string).
#[local] Notation shared := (beside inv own (fun _ : L => True)).

Lemma shared_stepped s s' q q' g g' rest : stepped s.1 s'.1 q q' ->
  (forall chan rest, item_at (own s.2 :: g :: rest) q chan -> item_at (own s'.2 :: g' :: rest) q' chan) ->
  shared s (g :: rest) -> shared s' (g' :: rest).
Proof. intros Hs Hi [_ HI]. split; [done|]. revert HI. eapply inv_stepped; [exact Hs|]. intros chan. apply Hi. Qed.

(** An operation of the queue. *)
Lemma pay_shared_queue {D} (m : M (ItemQueue OutBoundReq) D) g g' rest s s' r :
  (forall q q' o, m q = (q', o) -> ocatch o = Ret r -> forall rest chan, item_at (g :: rest) q chan -> item_at (g' :: rest) q' chan) ->
  shared s (g :: rest) -> try (apart (pay_on ct) _ (on_pq m)) s = (s', Ret r) -> shared s' (g' :: rest).
Proof.
  intros Hm HJ (Hl & ps & ps' & Hr & Hs)%pay_apart. revert HJ. eapply shared_stepped; [exact Hs|]. rewrite Hl.
  unfold try, on_pq in Hr. destruct (m (pay_q ps)) as [q o] eqn:Eo. injection Hr as <- Ho. cbn.
  intros chan rest' HI. apply (item_at_perm _ _ (g' :: own s.2 :: rest')); [apply perm_swap|].
  eapply Hm; [exact Eo|exact Ho|]. revert HI. apply item_at_perm, perm_swap.
Qed.

(** A program of actions that leave the queue and the variables alone. *)
Lemma quiet_program {St D} (on : forall B, M St B -> M (BR * L) B) (p : go St (option (gmap string bytes)) D) (Q : D -> Prop) g :
  (forall B (m : M St B) s, (on B m s).1.2 = s.2 /\ exists q, stepped s.1 (on B m s).1.1 q q) ->
  (forall B (m : M St B) s s' r, on B m s = (s', r) -> r <> Panic -> exists a a', m a = (a', r)) ->
  yields p Q -> holds shared (fun a g' => Q a /\ g' = g) (glift on p) g.
Proof.
  intros Hon Hres Hp. apply (holds_quiet shared); [exact Hres| |exact Hp].
  intros B' m gs s [_ HI]. destruct (Hon B' m s) as (Hl & q & Hs). split; [done|]. rewrite Hl. revert HI.
  eapply inv_stepped; [exact Hs|]. auto.
Qed.

Lemma pay_on_stepped D (m : M PS D) (b : BR) : (forall ps, pay_q (m ps).1 = pay_q ps) -> exists q, stepped b (pay_on ct _ m b).1 q q.
Proof.
  intros Hm. exists (out_q (br_out b)). unfold pay_on, EventLoop.on_out, Flow.on_pay. destruct (chain_of ct b) as [c|]; [|by split_and!].
  specialize (Hm (mkPayState c (br_jolt b) (out_q (br_out b)) (out_failed (br_out b)) (out_wait (br_out b)))).
  destruct (m _) as [ps o]. cbn in *. by split_and!.
Qed.

Lemma chain_quiet {D} (p : go (ChainInfo W C) (option (gmap string bytes)) D) (Q : D -> Prop) g :
  yields p Q -> holds shared (fun a g' => Q a /\ g' = g) (glift (fun D m => apart (pay_on ct) D (on_pchain m)) p) g.
Proof.
  intros Hp. apply quiet_program; [..|exact Hp].
  - intros B' m s. assert (forall ps, pay_q (on_pchain (J := J) m ps).1 = pay_q ps) as Hq by (intros ps; unfold on_pchain; by destruct (m _)).
    pose proof (pay_on_stepped _ (on_pchain m) s.1 Hq) as Hs. unfold apart. by destruct (pay_on ct _ _ _).
  - intros B' m s s' r H Hr. apply apart_result in H as (a & a' & H); [|intros; by eapply pay_on_result|done]. apply on_pchain_inv in H as (_ & _ & H). eauto.
Qed.
End Groups.

Lemma on_pchain_queue D (m : M (ChainInfo W C) D) (ps : PS) : pay_q (on_pchain m ps).1 = pay_q ps.
Proof. unfold on_pchain. by destruct (m _). Qed.
Lemma on_pchain_result D (m : M (ChainInfo W C) D) (ps ps' : PS) r : on_pchain m ps = (ps', r) -> r <> Panic -> exists a a', m a = (a', r).
Proof. intros (_ & _ & H)%on_pchain_inv _. eauto. Qed.

(** Adding a request that is owed, to the map or on hold. *)
Lemma add_moves each : forall (q q' : ItemQueue OutBoundReq) o, AddItem each q = (q', o) ->
  forall rest chan, item_at ((fun x => x = each) :: rest) q chan -> item_at (nothing :: rest) q' chan.
Proof.
  intros q q' o Ho rest chan. assert (q' = (AddItem each q).1) as -> by (by rewrite Ho). clear Ho. apply item_queue; [apply AddItem_wf|].
  intros Hq x Hx [Hw| ->].
  - destruct (AddItem_waiting _ pay_mine_index x each q Hq Hx Hw) as (y & Hy & Hyw). exists y. tauto.
  - exists each. split; [done|]. left. left. exists k. rewrite (AddItem_ret each k) by done. apply lookup_insert_eq.
Qed.

Lemma pay_hold_moves txHash item : forall (q q' : ItemQueue OutBoundReq) o, AddOnHoldQueue (SetSubmittedTxHash txHash item) q = (q', o) ->
  forall rest chan, item_at ((fun x => x = item) :: rest) q chan -> item_at (nothing :: rest) q' chan.
Proof.
  intros q q' o Ho rest chan. assert (q' = (AddOnHoldQueue (SetSubmittedTxHash txHash item) q).1) as -> by (by rewrite Ho).
  clear Ho. apply item_queue; [done|]. intros _ x Hx [Hw| ->].
  - exists x. split; [done|]. left. apply AddOnHold_waiting. by left.
  - exists (SetSubmittedTxHash txHash item). split; [done|]. left. apply AddOnHold_waiting. by right.
Qed.

#[local] Notation alongside := (beside inv (fun _ : unit => nothing) (fun _ => True)).

(** One held payout: the transaction noted in it is confirmed, or it goes back
    to the map. *)
Lemma put_back_out_go_holds ct each :
  holds alongside (fun _ => drops inv) (glift (apart (pay_on ct)) (put_back_out_go HexToHash each)) (fun x => x = each).
Proof.
  assert (holds alongside (fun _ => drops inv) (glift (apart (pay_on ct)) (do^ act (Rp := option (gmap string bytes)) (@on_pq W J C _ (AddItem each)) in Return tt)) (fun x => x = each)) as Hadd.
  { intros s rest s' r HJ Hm. exists nothing. split; [|apply pay_nothing_drops]. revert HJ Hm. apply (pay_shared_queue (fun _ => nothing)).
    intros q q' o Ho _. by eapply add_moves. }
  unfold put_back_out_go. case_bool_decide as Hz; [exact Hadd|]. apply holds_glift_bind.
  eapply holds_mono; [|apply holds_glift_twice, (chain_quiet (fun _ => nothing)), CheckTxStatus_yields].
  intros [[]|e] g [Hok ->]; [|exact Hadd]. apply over_drops. intros x -> _. right. right. split; [done|]. by apply Hok.
Qed.

Context (attempts submits : nat) (Hsubmits : (0 < submits)%nat).

(** An action that leaves the queue alone. *)
Lemma quiet_keeps ct D (m : M PS D) : (forall ps, pay_q (m ps).1 = pay_q ps) ->
  forall s gs, alongside s gs -> alongside (apart (pay_on ct) _ m s).1 gs.
Proof.
  intros Hm s gs [_ HI]. destruct (pay_on_stepped ct _ m s.1 Hm) as [q Hs]. unfold apart. destruct (pay_on ct _ m s.1) as [b r].
  split; [done|]. revert HI. eapply inv_stepped; [exact Hs|]. auto.
Qed.

(** A worker: the payout is paid, or goes on hold. *)
Lemma worker_now_holds ct item :
  holds alongside (fun _ => drops inv) (worker_now (W := W) (J := J) (C := C) (Msg := Msg) attempts submits HexToHash ct item) (fun x => x = item).
Proof.
  unfold worker_now, worker_body, GetOutBoundInfo. cbn [holds]. apply holds_bind.
  eapply holds_mono; [|apply (chain_quiet (fun _ => nothing)); apply (ProcessOutBound_yields attempts)].
  intros [txHash err] g [Hpay ->]. cbn [fst] in Hpay. apply holds_bind.
  apply (holds_mono _ _ (fun (checked : bool) g' => (checked = true -> over_ item) /\ g' = (fun x => x = item))).
  2: { destruct (decide (txHash = Hash_Hex zero_hash)) as [Hz|Hz]; [by rewrite bool_decide_true by done|].
    rewrite bool_decide_false by done. cbn [negb]. destruct Hpay as [?|(h & Hh & Hc)]; [done|]. apply holds_bind.
    eapply holds_mono; [|apply (chain_quiet (fun _ => nothing)); apply CheckTxStatus_yields].
    intros [[]|e] g [Hok ->]; (split; [|done]); [|done]. intros _. left. exists NewValidator, txHash. split; [by apply Hok|]. right. by exists h. }
  intros checked g [Hchecked ->]. apply holds_bind.
  apply (holds_mono _ _ (fun _ => drops inv)); [by intros _ g Hg|].
  assert (forall f, forall s rest s' r, alongside s ((fun x => x = item) :: rest) -> try (apart (pay_on ct) _ (set_failedOut f)) s = (s', Ret r) ->
    alongside s' ((fun x => x = item) :: rest)) as Hfail.
  { intros f s rest s' r HJ (Hl & ps & ps' & Hr & Hs)%pay_apart. revert HJ. eapply (shared_stepped (fun _ => nothing)); [exact Hs|].
    injection Hr as <- _. cbn. auto. }
  destruct checked.
  - apply holds_bind. intros s rest s' r HJ Hm. exists (fun x => x = item). split; [by eapply Hfail|].
    apply holds_bind. rewrite retry_go_spec by done.
    eapply holds_mono; [|apply holds_acts, acts_retry].
    + intros r' g ->. apply over_drops. intros x -> _. by apply Hchecked.
    + split; [|done]. intros gs s1. apply (quiet_keeps ct). intros ps. unfold on_pjolt. by destruct (submit_record _ _ _ _).
  - apply holds_bind. intros s rest s' w HJ Hm. exists (fun x => x = item). split.
    { revert HJ. apply pay_apart in Hm as (Hl & ps & ps' & Hr & Hs). eapply (shared_stepped (fun _ => nothing)); [exact Hs|].
      injection Hr as <- _. cbn. auto. }
    apply holds_bind. apply (holds_mono _ _ (fun _ g => g = (fun x => x = item))).
    + intros r' g ->. apply holds_bind. intros s1 rest1 s2 r2 HJ1 Hm1. exists nothing. split; [|apply pay_nothing_drops].
      revert HJ1 Hm1. apply (pay_shared_queue (fun _ => nothing)). intros q q' o Ho _. by eapply pay_hold_moves.
    + assert (holds alongside (fun _ g => g = (fun x => x = item)) (act (Rp := option (gmap string bytes)) (apart (pay_on ct) _ (@set_failedOut W J C (fun n => i32 (n + 1)))))
        (fun x => x = item)) as Hcount.
      { intros s1 rest1 s2 r2 HJ1 Hm1. exists (fun x => x = item). split; [by eapply Hfail|done]. }
      destruct w as [[|]|e]; [done|exact Hcount..].
Qed.

(** The collector. *)
Lemma sign_now_holds ct rcv : holds alongside (fun _ => drops inv) (sign_now (W := W) (J := J) (C := C) (Msg := Msg) ct rcv) nothing.
Proof.
  eapply holds_mono; [|apply holds_acts]; [intros _ g ->; apply pay_nothing_drops|]. unfold sign_now.
  apply acts_bind; [split; [by intros gs s H|done]|]. intros [pools|e]; [|done]. apply acts_glift_if. unfold sign_go.
  split; [intros gs s; apply quiet_keeps; intros ps; by destruct (pools !! 1%nat) as [[p|]|]|]. intros [p|e]; [|done].
  split; [intros gs s; apply quiet_keeps, on_pchain_queue|]. intros [latest|e]; [|done].
  split; [intros gs s; apply quiet_keeps, on_pchain_queue|done].
Qed.

(** *** The first group of a round *)

#[local] Notation collecting := (beside inv (fun (l : list OutBoundReq) x => x ∈ l) (fun _ => True)).

Lemma along_on_ps ct D (m : M PS D) (s : BR * list OutBoundReq) : (forall ps, pay_q (m ps).1 = pay_q ps) ->
  (along (pay_on ct) _ (on_ps m) s).1.2 = s.2 /\ exists q, stepped s.1 (along (pay_on ct) _ (on_ps m) s).1.1 q q.
Proof.
  intros Hm. destruct (pay_on_stepped ct _ (fun x => let '((x', l'), r) := on_ps m (x, s.2) in (x', Ret (l', r))) s.1) as [q Hs].
  { intros ps. unfold on_ps. cbn. specialize (Hm ps). by destruct (m ps). }
  unfold along. destruct (pay_on ct _ _ s.1) as [b [[l r]|e|]] eqn:Eo; cbn in *; (split; [|by exists q]); try done.
  destruct (pay_on_result ct _ _ _ _ _ Eo) as (a & a' & Ha); [done|]. unfold on_ps in Ha. cbn in Ha. destruct (m a). by injection Ha as _ <- _.
Qed.

(** One request of the batch is appended, paid or recorded. *)
Lemma check_now_holds ct each :
  holds collecting (fun _ => drops inv) (check_now (W := W) (J := J) (C := C) (Msg := Msg) HexToHash ct each) (fun x => x = each).
Proof.
  assert (holds collecting (fun _ => drops inv) (do^ act (Rp := option (gmap string bytes)) (along (pay_on ct) _ (append (W := W) (J := J) (C := C) each)) in Return tt) (fun x => x = each)) as Happ.
  { intros s rest s' r HJ (ps & ps' & Hr & Hs)%pay_along. exists nothing. split; [|apply pay_nothing_drops]. revert HJ. injection Hr as <- Hl _.
    apply (shared_stepped (fun l x => x ∈ l) _ _ _ _ _ _ _ Hs). intros chan rest'. rewrite <- Hl.
    intros HI. apply (item_at_perm _ _ (nothing :: (fun x => x ∈ (s.2 ++ [each])%list) :: rest')); [apply perm_swap|].
    apply item_at_nothing. assert ((item_at ([fun x => x ∈ (s.2 ++ [each])%list] ++ rest')%list) (pay_q ps) chan) as H; [|exact H].
    destruct HI as [Hwf (x & Hx & Hw)]. split; [done|]. exists x. split; [done|]. rewrite !owed_cons in Hw. cbn [app]. rewrite owed_cons, elem_of_app, list_elem_of_singleton. tauto. }
  unfold check_now, check_body. apply holds_bind.
  assert (forall D (m : M J D) (s s' : BR * list OutBoundReq) r, try (along (pay_on ct) _ (on_ps (on_pjolt m))) s = (s', Ret r) ->
    exists w w', try m w = (w', Ret r)) as Hq.
  { intros D m s s' r (ps & ps' & Hr & _)%pay_along. unfold try, on_ps, on_pjolt in Hr. cbn in Hr. destruct (m (p_jolt ps)) as [w o] eqn:Em.
    injection Hr as _ _ Hr. exists (p_jolt ps), w. unfold try. by rewrite Em, Hr. }
  intros s rest s' r HJ Hm. exists (fun x => x = each).
  change (try (along (pay_on ct) _ (on_ps (on_pjolt (submitted_query (br_vals s.1) each)))) s = (s', Ret r)) in Hm. revert Hm. generalize (br_vals s.1) as v. intros v Hm. split.
  { destruct HJ as [_ HI]. split; [done|].
    destruct (along_on_ps ct _ (on_pjolt (submitted_query v each)) s) as (Hl & q & Hs); [intros ps; unfold on_pjolt; by destruct (submitted_query _ _ _)|].
    unfold try in Hm. destruct (along _ _ _ s) as [s1 o]. injection Hm as -> _. cbn [fst] in *. rewrite Hl. revert HI.
    eapply inv_stepped; [exact Hs|]. auto. }
  apply Hq in Hm as (w & w' & Hw). destruct r as [hash|e]; [|exact Happ]. apply try_ret_inv in Hw.
  cbn [holds]. case_bool_decide as Hz; cbn [negb].
  { apply over_drops. intros x -> _. right. left. exists v, w, w'. by rewrite Hw, Hz. }
  apply holds_bind.
  eapply holds_mono; [|apply (quiet_program (fun l x => x ∈ l)); [| |apply CheckTxStatus_yields]].
  - intros [[]|e] g [Hok ->]; [|exact Happ]. apply over_drops. intros x -> _. left. exists v, hash. split; [by apply Hok|]. left. eauto.
  - intros D m s1. apply along_on_ps. intros ps. apply on_pchain_queue.
  - intros D m s1 s2 r H Hr. apply along_result in H as (a & a' & H); [|intros; by eapply pay_on_result|done].
    unfold on_ps in H. destruct (on_pchain m a.1) as [ps o] eqn:Ep. injection H as _ ->. by eapply on_pchain_result.
Qed.

(** *** The threads *)

#[local] Notation keeps_thread := (keeps_thread inv owns).
#[local] Notation free := (fun _ : debt OutBoundReq => True).
#[local] Notation started := (keeps_thread (drops inv) free).

Lemma pay_thread_node {D} Fin (m : M J D) (kt : D + string -> T) g :
  (forall r, keeps_thread Fin free (kt r) g) -> keeps_thread Fin free (Do (on_jolt m) kt) g.
Proof.
  intros Hk. apply thread_keep; [|done|exact Hk]. intros gs. apply (parts_on_jolt (fun _ => True) (at_ gs) (fun _ => True) pools_have_address).
Qed.

Lemma pay_thread_store Fin f (kt : unit + string -> T) g : (forall h, out_q (f h) = out_q h /\ OutboundReqChan (f h) = OutboundReqChan h) ->
  (forall r, keeps_thread Fin free (kt r) g) -> keeps_thread Fin free (Do (store_out f) kt) g.
Proof.
  intros Hf Hk. apply thread_keep; [|done|exact Hk]. intros gs. apply (parts_store_out (fun _ => True) (at_ gs) (fun _ => True) pools_have_address).
  intros h. destruct (Hf h) as [H1 H2]. unfold payout_at. by rewrite H1, H2.
Qed.

Lemma pay_thread_read {A} (Fin : debt OutBoundReq -> Prop) (f : BR -> A) (kt : A -> T) g : Fin g -> (forall x, keeps_thread Fin free (kt x) g) -> keeps_thread Fin free (look f kt) g.
Proof. intros HF Hk. by apply thread_look. Qed.

(** An operation of the queue, in a thread. *)
Lemma pay_thread_queue {D} (Fin : debt OutBoundReq -> Prop) (m : M (ItemQueue OutBoundReq) D) (kt : D + string -> T) g :
  (forall q q' o r, queue_wf q -> m q = (q', o) -> ocatch o = Ret r -> exists g',
    (forall rest chan, item_at (g :: rest) q chan -> item_at (g' :: rest) q' chan) /\ keeps_thread Fin free (kt r) g') ->
  keeps_thread Fin free (Do (on_payouts m) kt) g.
Proof.
  intros Hm. split; [done|]. intros s rest s' r HI H. unfold try, on_payouts in H. destruct (m (out_q (br_out s))) as [q o] eqn:Eo.
  injection H as <- Ho. pose proof (pay_inv_at _ _ HI) as [Hwf _]. destruct (Hm _ _ _ _ Hwf Eo Ho) as (g' & Hmv & Hk).
  exists g'. split; [|done]. revert HI. eapply inv_stepped; [by split_and!|]. intros chan. apply Hmv.
Qed.

(** Doing the next thing with what is left of a debt. *)
Lemma pay_started_less (t : T) g g' : (forall x, g x -> mine x -> g' x \/ over_ x) -> started t g' -> started t g.
Proof.
  intros Hg. assert (trades inv g [g']) as Ht.
  { apply pay_debts_pass. intros x Hx Hm. destruct (Hg x Hx Hm); [left|by right]. exists g'. split; [left|done]. }
  apply thread_trade; [done| |done]. intros Hd b rest HI. by apply Hd, Ht.
Qed.

Lemma put_out_ok Fin ct kt : Fin nothing -> keeps_thread Fin free kt nothing -> keeps_thread Fin free (put_back_out HexToHash ct kt) nothing.
Proof.
  intros HF Hk. unfold put_back_out. apply pay_thread_node. intros [[]|e]; [|exact Hk]. apply pay_thread_queue.
  intros q q' o r Hwf Hd Hr. rewrite DumpQueue_ret in Hd. injection Hd as <- <-. injection Hr as <-.
  exists (fun x => x ∈ onHold q). split; [intros rest chan; apply item_dump|].
  exists (fun _ => nothing), (fun _ => True), (map (fun each x => x = each) (onHold q)). split; [|split; [done|split]].
  - apply pay_debts_pass. intros x Hx _. left. exists (fun y => y = x). split; [|done]. right. apply list_elem_of_fmap. by exists x.
  - apply Forall2_fmap, Forall_Forall2_diag, Forall_forall. intros each _. apply put_back_out_go_holds.
  - by intros _ _.
Qed.

(** *** The goroutine of a batch *)

Lemma pay_over_ok g : drops inv g -> started pay_over g.
Proof. intros Hg. by apply pay_thread_store. Qed.

Lemma payout_thread_ok items : started (payout_thread (Msg := Msg) attempts submits HexToHash items) (fun x => x ∈ items).
Proof using Hsubmits GL LE LG LR.
  unfold payout_thread. destruct items as [|item0 items].
  { apply thread_crash; [|done]. apply over_drops. by intros x ?%not_elem_of_nil. }
  cbv zeta. generalize (Requests.ChainType item0) as ct, (item0 :: items) as all. clear items item0. intros ct all.
  exists (fun l x => x ∈ l), (fun _ => True), (map (fun each x => x = each) all). split; [|split; [done|split]].
  { apply pay_debts_pass. intros x Hx _. left. exists (fun y => y = x). split; [|done]. right. apply list_elem_of_fmap. by exists x. }
  { apply Forall2_fmap, Forall_Forall2_diag, Forall_forall. intros each _. apply check_now_holds. }
  intros need _. split; [done|]. destruct need as [|n0 need].
  { apply (pay_started_less _ _ nothing); [by intros x ?%not_elem_of_nil|]. apply thread_keep; [|done|intros _; apply pay_over_ok, pay_nothing_drops].
    intros gs. apply (parts_pay_on (fun _ => True) (at_ gs) (fun _ => True) pools_have_address). intros f.
    by apply (keeps_failedOut (P := at_ gs)). }
  generalize (n0 :: need) as needed. clear n0 need. intros need. unfold sign_round_thread.
  exists (fun _ => nothing), (fun _ => True), nothing, (map (fun each x => x = each) need). split; [|split; [done|split; [|split]]].
  - apply pay_debts_pass. intros x Hx _. left. exists (fun y => y = x). split; [|done]. do 2 right. apply list_elem_of_fmap. by exists x.
  - intros rcv. apply sign_now_holds.
  - apply Forall2_fmap, Forall_Forall2_diag, Forall_forall. intros each _. apply worker_now_holds.
  - intros _ _. split; [done|]. apply pay_over_ok, pay_nothing_drops.
Qed.

(** *** The loop: feeding and receiving a batch *)

#[local] Notation idle := (fun g : debt OutBoundReq => trades inv g [nothing]).
#[local] Notation looping := (keeps_thread idle free).

Lemma pay_idle_nothing : idle nothing.
Proof. by intros b rest. Qed.

(** The node answers nonce queries. *)
Context (Hnonce : forall (cl : C) a w e, (PendingNonceAt cl a w).2 <> Fail e).

Lemma FeedTx_answered pool items (c c' : ChainInfo W C) r : has_address pool ->
  try (FeedTx_outbound (pi_PoolInfo pool) items) c = (c', Ret r) -> exists addr n, r = inl (assign_nonces addr n items).
Proof.
  intros [addr Ha] H. unfold try, FeedTx_outbound in H. rewrite Ha in H. unfold getPendingNonceWithLock, locked in H.
  unfold_go. unfold RLock, RUnlock, call, modify in H. unfold_go.
  pose proof (fun e => Hnonce (Client (with_locks (readers c + 1) (writer c) c)) addr (node (with_locks (readers c + 1) (writer c) c)) e) as Hn.
  destruct (PendingNonceAt _ _ _) as [w [n|e|]]; cbn in *; [|by destruct (Hn e)|done]. injection H as _ <-. eauto.
Qed.

Lemma feed_outbound_ok pool ct h : has_address pool -> (exists p v, GetHeight ct p = Ret v) -> looping (feed_outbound_thread pool ct h) nothing.
Proof.
  intros Ha (p & v & Hp). unfold feed_outbound_thread. apply pay_thread_queue. intros q q' o r Hwf Hpop Hr.
  pose proof (OutPopItem_keeps_wf GroupSign ct q Hwf) as Hwf'. rewrite Hpop in Hwf'.
  destruct (PopItem_moves (fun a => bool_decide (Requests.ChainType a = ct)) GroupSign q q' o Hwf) as [Hh [[-> ->]|(items & -> & Hm & _)]];
    [by vm_compute|exact Hpop|..]; injection Hr as <-.
  { exists nothing. split; [done|apply pay_idle_nothing]. }
  exists (fun x => x ∈ items). split; [intros rest chan; by apply item_pop|].
  apply (thread_keep_result inv owns idle free _ _ (fun r => exists addr n, r = inl (assign_nonces addr n items))); [|done| |].
  - intros gs. apply (parts_on_client (fun _ => True) (at_ gs) (fun _ => True) pools_have_address).
  - intros gs b b' r _ H. unfold try, on_client in H. destruct (chain_of ct b) as [c|]; [|done].
    destruct (FeedTx_outbound _ _ c) as [c' o] eqn:Ef. injection H as _ Ho.
    eapply (FeedTx_answered pool items c c'); [done|]. unfold try. by rewrite Ef, Ho.
  - intros r (addr & n & ->). set (batch := assign_nonces addr n items).
    apply (thread_keep_result inv owns idle free _ _ (fun r => exists p, r = inl p)); [|done| |].
    { intros gs b H. exact H. }
    { intros gs b b' r _ H. unfold try, heights in H. destruct (SetHeight_after ct p (previousTssBlockOutBound (br_out b)) v (i64 h) Hp) as [p' Hp'].
      rewrite Hp' in H. injection H as _ <-. eauto. }
    intros r (p' & ->). apply pay_thread_store; [done|intros _]. apply pay_thread_store; [done|intros _].
    split; [done|]. intros b rest b' r HI [= <- _]. exists nothing. split; [|apply pay_thread_store; [done|intros _; apply pay_idle_nothing]].
    split; [done|]. split; [|split; [done|by apply inv_pools in HI]]. apply pay_inv_at in HI. revert HI. unfold payout_at. cbn.
    apply item_feed. intros x Hx Hmx. destruct (assign_nonces_elem addr n items x Hx) as (y & Hy & He). exists y. split; [done|]. by rewrite He.
Qed.

Lemma feed_out_ok pool ct h : (exists s, pools_have_address s /\ slot1 s = Some pool) -> looping (feed_if_done_out HexToHash pool ct h) nothing.
Proof.
  intros (s & Hs & Hp). assert (has_address pool) as Ha by (apply Hs; by right). unfold feed_if_done_out.
  apply thread_see; [done|]. intros finished.
  match goal with |- looping (if ?c then _ else _) _ => destruct c; [apply pay_idle_nothing|] end.
  apply thread_see; [done|]. intros [|]; [apply pay_idle_nothing|]. apply thread_see; [done|]. intros empty.
  match goal with |- looping (if _ then put_back_out _ _ ?t else _) _ => assert (looping t nothing) as Hk end.
  { apply (thread_keep_result inv owns idle free _ _ (fun r => forall v, r = inl v -> exists p, GetHeight ct p = Ret v)); [|done| |].
    { by intros gs b H. }
    { intros gs b b' r _ H v ->. unfold try, heights in H. destruct (GetHeight ct _) as [v'|e|] eqn:Eg; try discriminate. injection H as _ <-. eauto. }
    intros [prev|e] Hr; [|apply pay_idle_nothing]. destruct (Hr prev eq_refl) as [p0 Hp0]. apply thread_see; [done|]. intros empty'.
    destruct (_ && _); [|apply pay_idle_nothing]. apply thread_see; [done|]. intros size. apply thread_see; [done|]. intros first.
    destruct (_ && _); [apply pay_thread_store; [done|intros _; apply pay_idle_nothing]|]. apply feed_outbound_ok; [done|eauto]. }
  destruct empty; [|exact Hk]. apply put_out_ok; [apply pay_idle_nothing|exact Hk].
Qed.

Context (GetConsAddress : bytes -> bytes) (Address_String : bytes -> string) (myValidatorKey : string).
Context (ReadFile : outcome bytes) (Unmarshal : bytes -> outcome (list TokenItem)).
Context (feeModule : gmap string FeeModule) (oppyRollbackGap pubRollbackGap : Z).
#[local] Notation arrives := (on_arrival (W := W) (C := C) (J := J) (Msg := Msg) attempts submits HexToHash GetConsAddress Address_String myValidatorKey
  ReadFile Unmarshal feeModule oppyRollbackGap pubRollbackGap).

Lemma receive_out_ok : looping (arrives ArrOutbound) nothing.
Proof using Hsubmits GL LE LG LR.
  unfold on_arrival. split; [done|]. intros b rest b' r HI Hm.
  assert (exists g, inv b' (g :: rest) /\ match r with inl (Some items) => g = (fun x => x ∈ items) | _ => g = nothing end) as (g & HI' & Hg).
  { unfold try, receive_out in Hm. destruct (OutboundReqChan (br_out b)) as [|items chan] eqn:Ec; injection Hm as <- <-.
    - by exists nothing.
    - exists (fun x => x ∈ items). split; [|done]. split; [done|]. split; [|split; [done|by apply inv_pools in HI]].
      apply pay_inv_at in HI. unfold payout_at in *. rewrite Ec in HI. by apply item_receive. }
  exists g. split; [done|]. destruct r as [[items|]|e]; [|by rewrite Hg; apply pay_idle_nothing..].
  exists g, nothing. split; [|split; [done|]].
  - apply pay_debts_pass. intros x Hx _. left. exists g. split; [left|done].
  - rewrite Hg. split; [by apply payout_thread_ok|apply pay_idle_nothing].
Qed.

(** Every case of the loop keeps the invariant. *)
Lemma payout_arrivals e : looping (arrives e) nothing.
Proof using Hsubmits GL LE LG LR Hnonce.
  apply (on_arrival_keeps attempts submits HexToHash GetConsAddress Address_String myValidatorKey ReadFile Unmarshal feeModule oppyRollbackGap
    pubRollbackGap (fun _ _ => True) at_ pools_have_address nothing nothing owns idle free (in_rules_trivial nothing) payout_rules); try done.
  - intros el. apply jolt_UpdatePool_address.
  - apply pay_idle_nothing.
  - intros kt Hk. by apply (idle_put_in nothing owns pools_have_address _ (in_rules_trivial nothing) at_ payout_rules).
  - intros ct kt Hk. apply put_out_ok; [apply pay_idle_nothing|done].
  - intros. apply (idle_feed_in owns pools_have_address at_); [apply pay_idle_nothing|done].
  - intros. by apply feed_out_ok.
  - unfold on_arrival. apply thread_keep; [|done|].
    + intros gs b H. unfold receive_in. destruct (InboundReqChan (br_in b)); exact H.
    + intros [[items|]|e0]; [|apply pay_idle_nothing..]. exists nothing, nothing. split; [|split; [done|split; [|apply pay_idle_nothing]]].
      * intros b rest HI. cbn. apply (nones _ _ _ nothing (in_rules_trivial nothing) payout_rules 1 b) in HI. exact HI.
      * apply (idle_mint nothing owns pools_have_address _ (in_rules_trivial nothing) at_ payout_rules); [done|done|].
        apply thread_keep; [|done|intros _; apply pay_nothing_drops]. intros gs. by apply (parts_store_in (fun _ => True) (at_ gs) (fun _ => True) pools_have_address).
  - by apply receive_out_ok.
Qed.

(** A payout that has arrived somewhere on the way is somewhere in the end. *)
Lemma payout_rests (b0 : BR) (c1 c : service kind BR) :
  pools_have_address (jc_pools (br_pools b0)) -> queue_wf (out_q (br_out b0)) ->
  rtc (svc_step arrives) (start_service b0) c1 -> rtc (svc_step arrives) c1 c -> at_rest c ->
  payout_kept (W := W) (C := C) (J := J) HexToHash k (br_out (mem c1)) -> payout_kept (W := W) (C := C) (J := J) HexToHash k (br_out (mem c)).
Proof using Hsubmits GL LE LG LR Hnonce.
  intros Hp Hq H1 Hc Hr Hk. apply item_at_end. eapply pay_inv_at, (svc_sound_rest _
    (service_inv_perm _ _ pools_have_address _ (in_rules_trivial nothing) payout_rules) _ _ _ _ [everything] b0);
    [|exact H1|exact Hc|exact Hr| |].
  - exact payout_arrivals.
  - split; [done|]. split; [|done]. destruct Hk as (x & Hx & _). by apply (item_expected _ _ [nothing] x).
  - intros gs (Hin & Hout & Hrest). split; [exact Hin|]. split; [|exact Hrest]. by apply (item_arrives _ _ [everything]).
Qed.
End Payouts.

(** ** Properties *)

Section Properties.
Context {W C J Msg : Type} `{EC : EthClient W C} `{TW : TssServer W} `{CN : CosmosNode J Msg} `{TJ : TssServer J} `{JS : JoltService J}.
Context `{JB : JoltBlocks J} `{JCn : JoltConnection J} `{KG : KeygenServer J Msg}.
Context `{G : EthSigner} `{LG : !EthSignerLaws G} `{S : SdkMath} `{N : SdkCoins} `{B : Bech32} `{E : Eth} `{LE : !EthLaws E}.
Context `{K : Backoff} `{R : GoRuntime} `{LR : !GoRuntimeLaws R} `{GK : GoBackoff} `{GL : !GoBackoffLaws GK}.
Context `{AB : TokenAbi} `{JH : !JoltHandler} `{MC : MemoCodec} `{JN : !JoltNode}.
Context (attempts submits : nat) (HexToHash : string -> bytes).
Context (GetConsAddress : bytes -> bytes) (Address_String : bytes -> string) (myValidatorKey : string).
Context (ReadFile : outcome bytes) (Unmarshal : bytes -> outcome (list TokenItem)).
Context (feeModule : gmap string FeeModule) (oppyRollbackGap pubRollbackGap : Z).
#[local] Notation BR := (Bridge W C J Msg).
#[local] Notation arrives := (on_arrival (W := W) (C := C) (J := J) (Msg := Msg) attempts submits HexToHash GetConsAddress Address_String myValidatorKey
  ReadFile Unmarshal feeModule oppyRollbackGap pubRollbackGap).
#[local] Notation svc_reaches := (svc_reaches (W := W) (C := C) (J := J) (Msg := Msg) attempts submits HexToHash GetConsAddress Address_String
  myValidatorKey ReadFile Unmarshal feeModule oppyRollbackGap pubRollbackGap).

End Properties.

(** ** Witnesses *)

Section Witnesses.
#[local] Existing Instance confirming_ref.
#[local] Existing Instance Processing.tss_bool_ref.
#[local] Existing Instance cosmos_ref.
#[local] Existing Instance tss_cos_ref.
#[local] Existing Instance EventLoop.blocks_ref.
#[local] Existing Instance EventLoop.connection_ref.
#[local] Existing Instance EventLoop.keygen_ref.
#[local] Existing Instance eth_signer_ref.
#[local] Existing Instance sdk_math_ref.
#[local] Existing Instance sdk_coins_ref.
#[local] Existing Instance bech32_ref.
#[local] Existing Instance eth_ref.
#[local] Existing Instance backoff_ref.
#[local] Existing Instance go_backoff_ref.
#[local] Existing Instance go_runtime_ref.
#[local] Existing Instance abi_ref.
#[local] Existing Instance handler_ref.

#[local] Notation arrival_ref := (on_arrival (C := unit) (JS := jolt_ref true) (MC := memo_ref "JOLTIFY") (JN := node_ref "BSC")
  4 3 (fun _ => []) (fun b => b) hex_EncodeToString "" (Fail "no file") (fun _ => Fail "no file") ∅ 3 3).

(** A head feeds two payouts, the loop takes the batch and goes on to the next
    head; then the two goroutines, the collector of their round and the loop
    act in turns. *)
#[local] Definition start_schedule : list (pick arrival) :=
  (PickEvent (ArrPubHead (mkBlockHead 40 "BSC")) :: repeat (PickLoop None) 40)%list.
#[local] Definition schedule : list (pick arrival) :=
  (PickEvent ArrOutbound :: repeat (PickLoop None) 3 ++
  PickOther 0 None :: PickEvent (ArrPubHead (mkBlockHead 41 "BSC")) ::
  concat (repeat [PickLoop None; PickOther 0 (Some 1%nat); PickOther 0 (Some 0%nat); PickOther 0 None] 80))%list.

#[local] Notation started := (start_service Lifecycle.paying_bridge).
#[local] Notation fed := (svc_sched arrival_ref start_schedule started).
#[local] Notation ended := (svc_sched arrival_ref schedule fed).

End Witnesses.
