(* ===== verification/ServiceRest.v ===== *)
(** * The service comes to rest

    Whatever the loop and the goroutines of BridgeThreads.v are doing, if no
    further event comes they end, in any order of their actions: nothing runs
    for ever, and nothing waits for ever for an answer, a subscription or
    room in a channel. *)

From Stdlib Require Import Ascii String.
From S2P Require Import Prelude GoLib Sdk Requests Fees ItemQueue TokenList Signature MoveFundQueue Pools Validators PubClient Keysign Goroutine Threads TxSend SendPrograms MoveFund Inbound Outbound CosTx Keygen Processing MintRound PayoutRound MoveRound Flow JoltClient EventLoop BridgeThreads Lifecycle PayoutThreads.

#[local] Open Scope string_scope.
#[local] Open Scope Z_scope.
#[local] Open Scope go_scope.

(** ** Definitions *)

(** A step of the loop or of a goroutine, with no new event. *)
Definition goes_on {Kd St} : service Kd St -> service Kd St -> Prop := svc_step (Ev := Empty_set) (fun e => match e with end).

(** ** Lemmas *)

(** What the goroutines of a group do on the whole state only acts, too. *)
Lemma only_acts_map {St St' Rp X} (on : forall D, M St D -> M St' D) (f : X -> go St Rp unit) l :
  (forall x, only_acts (f x)) -> Forall only_acts (map (fun x => glift on (f x)) l).
Proof. intros Hf. apply Forall_fmap, Forall_forall. intros x _. by apply only_acts_glift. Qed.

Lemma workers_map {St St' Rp} (on : forall D, M St D -> M St' D) (ps : list (go St Rp unit)) :
  Forall (worker_of WStart) ps -> Forall (worker_of WStart) (map (glift on) ps).
Proof. intros H. apply Forall_fmap. eapply Forall_impl; [exact H|]. intros p. apply steps_to_glift. Qed.

Lemma lively_all {Kd St A} (f : A -> M St unit) l (k : thread Kd St) : lively k -> lively (do_all f l k).
Proof. intros Hk. induction l as [|x l IH]; cbn; [done|]. intros s s' r _. exact IH. Qed.

Lemma prepare_move_round {W C} `{EC : EthClient W C} `{T : TssServer W} `{G : EthSigner} `{E : Eth} `{K : Backoff} `{R : GoRuntime} `{LR : !GoRuntimeLaws R}
    {L : Type} `{BL : BridgeTokenListI L} attempts HexToHash (tl : L) GetPool height pool ct cl (s s' : FundState W C) cur n need :
  prepare_move attempts HexToHash tl GetPool height pool ct cl s = (s', Ret (inr (cur, n, need))) -> need <> [].
Proof.
  destruct (GetPool !! 1%nat) as [[c|]|] eqn:Ec; [|unfold prepare_move; rewrite Ec; discriminate..].
  intros H. destruct (prepare_move_spec attempts HexToHash tl GetPool c _ _ _ _ _ _ _ Ec H) as (_ & _ & Hn & _). exact Hn.
Qed.

Section Service.
Context {W C J Msg : Type} `{EC : EthClient W C} `{TW : TssServer W} `{CN : CosmosNode J Msg} `{TJ : TssServer J} `{JS : JoltService J}.
Context `{JB : JoltBlocks J} `{JCn : JoltConnection J} `{KG : KeygenServer J Msg}.
Context `{G : EthSigner} `{S : SdkMath} `{N : SdkCoins} `{B : Bech32} `{E : Eth} `{K : Backoff} `{R : GoRuntime} `{LR : !GoRuntimeLaws R}.
Context `{GK : GoBackoff} `{GL : !GoBackoffLaws GK} `{AB : TokenAbi} `{JH : !JoltHandler} `{MC : MemoCodec} `{JN : !JoltNode}.
Context (attempts submits : nat) (Hattempts : (0 < attempts)%nat) (Hsubmits : (0 < submits)%nat) (HexToHash : string -> bytes).
Context (GetConsAddress : bytes -> bytes) (Address_String : bytes -> string) (myValidatorKey : string).
Context (ReadFile : outcome bytes) (Unmarshal : bytes -> outcome (list TokenItem)).
Context (feeModule : gmap string FeeModule) (oppyRollbackGap pubRollbackGap : Z).
#[local] Notation BR := (Bridge W C J Msg).
#[local] Notation T := (thread kind BR).

Lemma put_back_out_go_only_acts each : only_acts (put_back_out_go (W := W) (J := J) (C := C) HexToHash each).
Proof.
  unfold put_back_out_go. destruct (bool_decide _); [done|]. apply only_acts_bind; [apply only_acts_glift, CheckTxStatus_only_acts|].
  by intros [[]|e].
Qed.

Lemma check_now_only_acts ct each : only_acts (check_now (W := W) (J := J) (C := C) (Msg := Msg) HexToHash ct each).
Proof. apply check_body_only_acts. intros tx. apply only_acts_glift, CheckTxStatus_only_acts. Qed.

Lemma sign_now_only_acts ct rcv : only_acts (sign_now (W := W) (J := J) (C := C) (Msg := Msg) ct rcv).
Proof. intros [pools|e]; [|done]. apply only_acts_glift, sign_only_acts. Qed.

(** One action, or one choice, of a thread. *)
#[local] Ltac live_step :=
  match goal with
  | |- lively Finished => exact I
  | |- lively (look _ _) => unfold look
  | |- lively (do_all _ _ _) => apply lively_all
  | |- lively (Do _ _) => intros ? ? [?|?] _
  | |- lively (match ?x with _ => _ end) => destruct x
  | |- lively crash => intros ? ? ? _
  end.
#[local] Ltac live := repeat live_step.

Lemma put_back_in_lively (k : T) : lively k -> lively (put_back_in k).
Proof using GL. intros Hk. unfold put_back_in. live; try exact Hk. split; [|by intros _]. apply only_acts_map, put_back_go_only_acts. Qed.

Lemma put_back_out_lively ct (k : T) : lively k -> lively (put_back_out HexToHash ct k).
Proof using GL. intros Hk. unfold put_back_out. live; try exact Hk. split; [|by intros _]. apply only_acts_map, put_back_out_go_only_acts. Qed.

Lemma mint_thread_lively items : lively (mint_thread (W := W) (C := C) (Msg := Msg) items).
Proof using GL.
  unfold mint_thread, mint_over. cbv zeta. live_step; [|live].
  match goal with |- lively (ask_each _ ?n ?k) => assert (forall need, lively (k need)) as Hk end.
  { intros [|n need]; live. split; [|intros _; live]. apply only_acts_map, mint_go_only_acts. }
  revert Hk. match goal with |- _ -> lively (ask_each _ ?n ?k) => generalize n, k end. intros need k Hk. revert need.
  induction items as [|item items IH]; intros need; cbn [ask_each]; [apply Hk|]. live_step; apply IH.
Qed.

Lemma payout_thread_lively items : lively (payout_thread (W := W) (C := C) (J := J) (Msg := Msg) attempts submits HexToHash items).
Proof using GL Hattempts Hsubmits.
  unfold payout_thread, pay_over. destruct items as [|item0 items]; [live|]. cbv zeta.
  split; [apply Forall_fmap, Forall_forall; intros; apply check_now_only_acts|]. intros [|n need]; [live|]. apply lively_boot.
  - apply Nat.lt_0_succ.
  - by rewrite length_map.
  - apply Forall_fmap, Forall_forall. intros item _. by apply worker_body_protocol.
  - apply sign_now_only_acts.
  - intros _. live.
  - exact None.
Qed.

Lemma keygen_thread_lively pubKeys h : lively (keygen_thread (W := W) (C := C) (J := J) (Msg := Msg) pubKeys h).
Proof.
  unfold keygen_thread. intros s s' r _.
  assert (forall k, (forall pk, lively (k pk)) -> forall n l, lively (keygen_tries (W := W) (C := C) (J := J) (Msg := Msg) n l h k)) as Htries.
  { intros k Hk n l. induction n as [|n IH]; cbn [keygen_tries]; [apply Hk|]. live; first [apply Hk|exact IH]. }
  apply Htries. intros [pk|]; cbv zeta; live.
Qed.

Lemma feed_in_lively s h : lively (feed_if_done_in (W := W) (C := C) (J := J) (Msg := Msg) s h).
Proof. unfold feed_if_done_in, feed_inbound_thread. cbv zeta. live. Qed.

Lemma inbound_section_lively s lh cur pb : lively (inbound_section_thread (W := W) (C := C) (J := J) (Msg := Msg) s lh cur pb).
Proof using GL. unfold inbound_section_thread. cbv zeta. live; repeat first [apply put_back_in_lively|apply feed_in_lively|live_step]. Qed.

Lemma jolt_block_lively h : lively (jolt_block_thread (W := W) (C := C) (J := J) (Msg := Msg) ReadFile Unmarshal feeModule oppyRollbackGap h).
Proof using GL.
  unfold jolt_block_thread, health_check_thread, check_pool_thread. cbv zeta. split; [live|]. live; try apply inbound_section_lively.
Qed.

Lemma move_found_lively ct h p cl k : (forall b, lively (k b)) ->
  lively (move_found_thread (W := W) (C := C) (J := J) (Msg := Msg) attempts HexToHash ct h p cl k).
Proof using GL LR Hattempts.
  intros Hk. unfold move_found_thread. cbv zeta. intros s0 s0' [b|e] _; [|done]. destruct (chain_of ct b) as [c|]; [|by intros ? ? ? _].
  intros s s' r Hr. destruct r as [[res|[[cur nonce] need]]|e]; [apply Hk| |done]. unfold try, on_fund in Hr.
  destruct (chain_of ct s) as [c'|]; [|discriminate].
  destruct (prepare_move _ _ _ _ _ _ _ _ _) as [fs o] eqn:Ep. injection Hr as _ Ho. destruct o as [o|e|]; try discriminate. injection Ho as ->.
  apply prepare_move_round in Ep. apply lively_boot.
  - destruct need; [done|apply Nat.lt_0_succ].
  - rewrite length_map. apply token_programs_length.
  - apply workers_map. by apply token_programs_protocol.
  - intros rcv. apply only_acts_glift, move_sign_only_acts.
  - intros l s1 s1' [b'|e] _; [apply Hk|done].
  - exact None.
Qed.

Lemma feed_out_lively pool ct h : lively (feed_if_done_out (W := W) (C := C) (J := J) (Msg := Msg) HexToHash pool ct h).
Proof using GL.
  unfold feed_if_done_out, feed_outbound_thread. cbv zeta. repeat first [apply put_back_out_lively|live_step].
Qed.

Lemma pub_head_lively head : lively (pub_head_thread (W := W) (C := C) (J := J) (Msg := Msg) attempts HexToHash feeModule pubRollbackGap head).
Proof using GL LR Hattempts.
  unfold pub_head_thread, new_block_thread, move_funds_thread, outbound_section_thread. cbv zeta.
  repeat first [apply move_found_lively; intros ?|apply put_back_out_lively|apply feed_out_lively|live_step].
Qed.

(** Every case of the event loop. *)
Lemma on_arrival_lively e : lively (on_arrival (W := W) (C := C) (J := J) (Msg := Msg) attempts submits HexToHash GetConsAddress Address_String
  myValidatorKey ReadFile Unmarshal feeModule oppyRollbackGap pubRollbackGap e).
Proof using GL LR Hattempts Hsubmits.
  destruct e; cbn [on_arrival].
  - unfold validators_thread. live. split; [apply keygen_thread_lively|done].
  - apply jolt_block_lively.
  - apply pub_head_lively.
  - live. split; [apply mint_thread_lively|done].
  - live. split; [apply payout_thread_lively|done].
  - live.
Qed.

Lemma start_lively (b : BR) : Forall lively (all_threads (start_service b)).
Proof. repeat constructor. Qed.
End Service.

(** ** Properties *)

Section Properties.
Context {W C J Msg : Type} `{EC : EthClient W C} `{TW : TssServer W} `{CN : CosmosNode J Msg} `{TJ : TssServer J} `{JS : JoltService J}.
Context `{JB : JoltBlocks J} `{JCn : JoltConnection J} `{KG : KeygenServer J Msg}.
Context `{G : EthSigner} `{S : SdkMath} `{N : SdkCoins} `{B : Bech32} `{E : Eth} `{K : Backoff} `{R : GoRuntime} `{LR : !GoRuntimeLaws R}.
Context `{GK : GoBackoff} `{GL : !GoBackoffLaws GK} `{AB : TokenAbi} `{JH : !JoltHandler} `{MC : MemoCodec} `{JN : !JoltNode}.
Context (attempts submits : nat) (HexToHash : string -> bytes).
Context (GetConsAddress : bytes -> bytes) (Address_String : bytes -> string) (myValidatorKey : string).
Context (ReadFile : outcome bytes) (Unmarshal : bytes -> outcome (list TokenItem)).
Context (feeModule : gmap string FeeModule) (oppyRollbackGap pubRollbackGap : Z).
#[local] Notation BR := (Bridge W C J Msg).
#[local] Notation svc_reaches := (svc_reaches (W := W) (C := C) (J := J) (Msg := Msg) attempts submits HexToHash GetConsAddress Address_String
  myValidatorKey ReadFile Unmarshal feeModule oppyRollbackGap pubRollbackGap).


(** Fact (it can be brought to rest). From every state it reaches the service
    gets, by its own actions, to one in which nothing runs, or in which an
    action panics. *)
Theorem service_reaches_rest (b : BR) (c : service kind BR) :
  (0 < attempts)%nat -> (0 < submits)%nat -> svc_reaches b c ->
  exists c', rtc goes_on c c' /\ svc_reaches b c' /\ (at_rest c' \/ svc_crash c').
Proof.
  intros Ha Hs. induction (svc_comes_to_rest c) as [c _ IH]. intros Hc.
  destruct (svc_goes_on _ (start_service b) c (on_arrival_lively attempts submits Ha Hs HexToHash GetConsAddress Address_String myValidatorKey ReadFile Unmarshal
    feeModule oppyRollbackGap pubRollbackGap) (start_lively b) Hc) as [Hr|[Hr|(c1 & H1)]]; [exists c; split; [done|auto]..|].
  assert (svc_reaches b c1) as Hc1.
  { eapply rtc_r; [exact Hc|]. destruct H1 as [[]|s t s' t' new os Ht|i kd t s s' t' new lp os Hi Ht]; [by apply svc_loop|by eapply svc_other]. }
  destruct (IH c1 H1 Hc1) as (c' & Hc' & H). exists c'. split; [by eapply rtc_l|done].
Qed.
End Properties.

(** ** Witnesses *)

Section Witnesses.
#[local] Existing Instance confirming_ref.
#[local] Existing Instance Processing.tss_bool_ref.
#[local] Existing Instance cosmos_ref.
#[local] Existing Instance tss_cos_ref.
#[local] Existing Instance EventLoop.blocks_ref.
#[local] Existing Instance EventLoop.connection_ref.
#[local] Existing Instance EventLoop.keygen_ref.
#[local] Existing Instance eth_signer_ref.
#[local] Existing Instance sdk_math_ref.
#[local] Existing Instance sdk_coins_ref.
#[local] Existing Instance bech32_ref.
#[local] Existing Instance eth_ref.
#[local] Existing Instance backoff_ref.
#[local] Existing Instance go_backoff_ref.
#[local] Existing Instance go_runtime_ref.
#[local] Existing Instance abi_ref.
#[local] Existing Instance handler_ref.

#[local] Notation arrival_ref := (on_arrival (C := unit) (JS := jolt_ref true) (MC := memo_ref "JOLTIFY") (JN := node_ref "BSC")
  4 3 (fun _ => []) (fun b => b) hex_EncodeToString "" (Fail "no file") (fun _ => Fail "no file") ∅ 3 3).

#[local] Notation started := (start_service Lifecycle.paying_bridge).
(** In the middle of a payout round. *)
#[local] Notation halfway := (svc_sched arrival_ref (firstn 110 (PayoutThreads.start_schedule ++ PayoutThreads.schedule)%list) started).

End Witnesses.
