(* ===== verification/FlightThreads.v ===== *)
(** * One batch at a time, action by action

    The flags inBoundProcessDone and outBoundProcessDone are read and written
    by the loop and by the goroutines of the batches, with other actions in
    between.  In every order of these actions at most one batch of each flow
    is on its request channel or being processed. *)

From Stdlib Require Import Ascii String.
From S2P Require Import Prelude GoLib Sdk Requests Fees ItemQueue TokenList Signature MoveFundQueue Pools Validators PubClient Keysign Goroutine Threads TxSend MoveFund Inbound Outbound CosTx Keygen Processing MintRound PayoutRound Flow JoltClient EventLoop Wellformed BridgeThreads ServiceRules ServiceTypes Lifecycle PayoutThreads.

#[local] Open Scope string_scope.
#[local] Open Scope Z_scope.
#[local] Open Scope go_scope.

(** ** Definitions *)

#[export] Instance kind_eq_dec : EqDecision kind.
Proof. solve_decision. Defined.

(** The goroutines of that kind that have not ended. *)
Definition running_of {St} (kd : kind) (os : list (kind * thread kind St)) : list (kind * thread kind St) :=
  List.filter (fun p => bool_decide (p.1 = kd) && match p.2 with Finished => false | _ => true end) os.

(** What a goroutine has to do with a flow: nothing; the loop, between events,
    after it has seen the flag, after it has put a batch on the channel,
    after it has taken one; the goroutine of a batch. *)
Inductive token := Nobody | Outside | Seen | Fed | Taken | Busy.
#[export] Instance token_eq_dec : EqDecision token.
Proof. solve_decision. Defined.

Definition tally (t : token) (gs : list token) : nat := length (filter (fun x => x = t) gs).

(** [waiting] batches on the channel; [done]: the flag. *)
Definition one_flight (gs : list token) (waiting : nat) (done : bool) : Prop :=
  (tally Outside gs + tally Seen gs + tally Fed gs + tally Taken gs = 1)%nat /\
  (tally Busy gs + tally Taken gs + waiting + tally Seen gs <= 1)%nat /\
  (done = true -> (tally Busy gs + tally Taken gs + waiting <= tally Fed gs)%nat).

(** ** Lemmas *)

Lemma tally_cons t x gs : tally t (x :: gs) = ((if decide (x = t) then 1 else 0) + tally t gs)%nat.
Proof. unfold tally. rewrite filter_cons. by case_decide. Qed.

Lemma tally_perm t gs gs' : gs ≡ₚ gs' -> tally t gs = tally t gs'.
Proof. intros H. unfold tally. by rewrite H. Qed.

Lemma one_flight_perm gs gs' n d : gs ≡ₚ gs' -> one_flight gs n d -> one_flight gs' n d.
Proof. intros H. unfold one_flight. by rewrite !(tally_perm _ _ _ H). Qed.


Lemma one_flight_nobody gs n d : one_flight (Nobody :: gs) n d <-> one_flight gs n d.
Proof. unfold one_flight. by rewrite !tally_cons. Qed.

Section Changes.
Context (rest : list token) (n : nat).
Lemma flight_seen : one_flight (Outside :: rest) n true -> one_flight (Seen :: rest) n true.
Proof. unfold one_flight. rewrite !tally_cons. simpl. intros (H1 & H2 & Hd). specialize (Hd eq_refl). split_and!; lia. Qed.
Lemma flight_fed d : one_flight (Seen :: rest) n d -> one_flight (Fed :: rest) (n + 1) d.
Proof. unfold one_flight. rewrite !tally_cons. simpl. intros (H1 & H2 & Hd). split_and!; [lia..|]. intros Ht. specialize (Hd Ht). lia. Qed.
Lemma flight_unset d g : g = Seen \/ g = Fed -> one_flight (g :: rest) n d -> one_flight (Outside :: rest) n false.
Proof. intros [ ->| ->]; unfold one_flight; rewrite !tally_cons; simpl; intros (H1 & H2 & Hd); (split_and!; [lia|lia|done]). Qed.
Lemma flight_taken d : one_flight (Outside :: rest) (Datatypes.S n) d -> one_flight (Taken :: rest) n d.
Proof. unfold one_flight. rewrite !tally_cons. simpl. intros (H1 & H2 & Hd). split_and!; [lia..|]. intros Ht. specialize (Hd Ht). lia. Qed.
Lemma flight_split d : one_flight (Taken :: rest) n d -> one_flight (Busy :: Outside :: rest) n d.
Proof. unfold one_flight. rewrite !tally_cons. simpl. intros (H1 & H2 & Hd). split_and!; [lia..|]. intros Ht. specialize (Hd Ht). lia. Qed.
Lemma flight_over d : one_flight (Busy :: rest) n d -> one_flight (Nobody :: rest) n true.
Proof. unfold one_flight. rewrite !tally_cons. simpl. intros (H1 & H2 & Hd). split_and!; [lia..|]. intros _. lia. Qed.
Lemma flight_idle d : one_flight (Seen :: rest) n d -> one_flight (Outside :: rest) n d.
Proof. unfold one_flight. rewrite !tally_cons. simpl. intros (H1 & H2 & Hd). split_and!; [lia..|]. intros Ht. specialize (Hd Ht). lia. Qed.
End Changes.

(** What the threads hold bounds how many of them have not ended. *)
Lemma running_tally {St} (I : St -> list token -> Prop) (Owns : kind -> token -> Prop) kd os gls :
  (forall g, Owns kd g -> g = Busy) ->
  Forall2 (fun p => running I Owns (drops I) (Owns p.1) p.2) os gls -> (length (running_of kd os) <= tally Busy (concat gls))%nat.
Proof.
  intros Hg H. induction H as [|[kd' t] gl os gls Hr _ IH]; [done|]. cbn in Hr. cbn [concat].
  unfold tally in *. rewrite filter_app, length_app. unfold running_of in *. cbn [List.filter fst snd].
  destruct (bool_decide_reflect (kd' = kd)) as [->|]; cbn [andb]; [|lia].
  assert (t <> Finished -> (0 < length (filter (fun x => x = Busy) gl))%nat) as Ht.
  { intros Hn. destruct (running_holds _ _ _ _ _ _ Hr Hn) as (g & gl' & -> & Hgo). rewrite (Hg g Hgo), filter_cons_True by done. cbn. lia. }
  destruct t; cbn [length]; [lia|..]; (assert (0 < length (filter (fun x => x = Busy) gl))%nat by (by apply Ht)); lia.
Qed.

Definition in_flight_at (gs : list token) (f : InFlow) : Prop := one_flight gs (length (InboundReqChan f)) (inBoundProcessDone f).
Definition out_flight_at (gs : list token) (f : OutFlow) : Prop := one_flight gs (length (OutboundReqChan f)) (outBoundProcessDone f).

Section Flight.
Context {W C J Msg : Type} `{EC : EthClient W C} `{TW : TssServer W} `{CN : CosmosNode J Msg} `{TJ : TssServer J} `{JS : JoltService J}.
Context `{JB : JoltBlocks J} `{JCn : JoltConnection J} `{KG : KeygenServer J Msg}.
Context `{G : EthSigner} `{S : SdkMath} `{N : SdkCoins} `{B : Bech32} `{E : Eth} `{K : Backoff} `{R : GoRuntime} `{GK : GoBackoff} `{GL : !GoBackoffLaws GK}.
Context `{AB : TokenAbi} `{JH : !JoltHandler} `{MC : MemoCodec} `{JN : !JoltNode}.
Context (attempts submits : nat) (Hsubmits : (0 < submits)%nat) (HexToHash : string -> bytes).
Context (GetConsAddress : bytes -> bytes) (Address_String : bytes -> string) (myValidatorKey : string).
Context (ReadFile : outcome bytes) (Unmarshal : bytes -> outcome (list TokenItem)).
Context (feeModule : gmap string FeeModule) (oppyRollbackGap pubRollbackGap : Z).
#[local] Notation BR := (Bridge W C J Msg).
#[local] Notation T := (thread kind BR).
#[local] Notation free := (fun _ : token => True).
#[local] Notation arrives := (on_arrival (W := W) (C := C) (J := J) (Msg := Msg) attempts submits HexToHash GetConsAddress Address_String myValidatorKey
  ReadFile Unmarshal feeModule oppyRollbackGap pubRollbackGap).

Lemma in_flight_rules : in_rules Nobody in_flight_at.
Proof. split; intros; [by eapply one_flight_perm|by apply one_flight_nobody|by intros q Hq|assumption..]. Qed.
Lemma out_flight_rules : out_rules Nobody out_flight_at.
Proof. split; intros; [by eapply one_flight_perm|by apply one_flight_nobody|by intros q Hq|assumption..]. Qed.

(** *** Deposits *)

Section Inbound.
#[local] Notation inv := (service_inv (W := W) (C := C) (J := J) (Msg := Msg) in_flight_at (fun _ _ => True) (fun _ => True)).
Definition in_owns (kd : kind) (g : token) : Prop := kd = KMint -> g = Busy.
#[local] Notation idle := (fun g => trades inv g [Outside]).
#[local] Notation looping := (keeps_thread inv in_owns idle free).

Lemma in_idle g : (forall rest n d, one_flight (g :: rest) n d -> one_flight (Outside :: rest) n d) -> idle g.
Proof. intros Hg b rest (H & ?). split; [by apply Hg|done]. Qed.

(** An action on the flow's variables and channel. *)
Lemma in_store Fin f (k : unit + string -> T) Lb g g' : Lb g ->
  (forall h rest, one_flight (g :: rest) (length (InboundReqChan h)) (inBoundProcessDone h) ->
    one_flight (g' :: rest) (length (InboundReqChan (f h))) (inBoundProcessDone (f h))) ->
  (forall r, keeps_thread inv in_owns Fin Lb (k r) g') -> keeps_thread inv in_owns Fin Lb (Do (store_in f) k) g.
Proof.
  intros Hl Hf Hk. split; [done|]. intros b rest b' r (H & Ho) [= <- _]. exists g'. split; [|done]. split; [by apply Hf|done].
Qed.

Lemma in_feed_ok s h : looping (feed_if_done_in s h) Outside.
Proof.
  assert (idle Outside) as H0 by (by apply in_idle). assert (idle Seen) as H1 by (apply in_idle; intros; by apply flight_idle).
  unfold feed_if_done_in. split; [done|]. intros b rest b' r (H & Ho) Hr. injection Hr as <- <-.
  destruct (inBoundProcessDone (br_in b)) eqn:Ed; cbn [negb]; [exists Seen|exists Outside; by split]. split.
  { split; [|done]. unfold in_flight_at in *. rewrite Ed in *. by apply flight_seen. }
  clear b rest H Ho Ed. apply thread_see; [done|]. intros [|]; [exact H1|]. destruct (slot1 s) as [pool|]; [|by apply thread_panics].
  match goal with |- looping (feed_inbound_thread _ ?k) _ => assert (forall g, g = Seen \/ g = Fed -> looping k g) as Hk end.
  { intros g Hg. eapply in_store; [done| |intros _].
    - intros f rest. cbn. by apply flight_unset.
    - eapply in_store; [done|intros f rest; exact id|intros _]. eapply in_store; [done|intros f rest; exact id|intros _]. exact H0. }
  unfold feed_inbound_thread.
  assert (forall D (m : M (MintState J) D) gs, keeps (fun b : BR => inv b gs) (mint_on _ m)) as Hm.
  { intros D m gs. by apply (any_mint_keeps _ in_flight_at). }
  assert (forall D (m : M J D) gs, keeps (fun b : BR => inv b gs) (on_jolt m)) as Hj.
  { intros D m gs. apply (parts_on_jolt (in_flight_at gs) (fun _ => True) (fun _ => True) (fun _ => True)). }
  apply thread_keep; [by intros gs b H|done|]. intros [[|]|e]; [|by apply Hk; left..].
  apply thread_keep; [intros; apply Hj|done|]. intros [acc|e]; [|by apply Hk; left].
  apply thread_keep; [intros; apply Hm|done|]. intros [[items|]|e]; [|by apply Hk; left..].
  eapply (in_store _ _ _ _ _ Fed); [done| |intros _; by apply Hk; right].
  intros f rest. cbn. rewrite length_app. apply flight_fed.
Qed.

Lemma in_receive_ok : looping (arrives ArrInbound) Outside.
Proof.
  assert (idle Outside) as H0 by (by apply in_idle).
  unfold on_arrival. split; [done|]. intros b rest b' r (H & Ho) Hm. unfold try, receive_in in Hm. unfold in_flight_at in H.
  destruct (InboundReqChan (br_in b)) as [|items chan] eqn:Ec; injection Hm as <- <-.
  - exists Outside. split; [|exact H0]. split; [|done]. unfold in_flight_at. by rewrite Ec.
  - exists Taken. split.
    { split; [|done]. unfold in_flight_at. cbn. by apply flight_taken. }
    exists Busy, Outside. split.
    { intros b1 rest1 (H1 & ?). split; [|done]. by apply flight_split. }
    split; [done|]. split; [|exact H0].
    apply (idle_mint Nobody in_owns (fun _ => True) in_flight_at in_flight_rules (fun _ _ => True) (out_rules_trivial Nobody)); [done..|].
    eapply in_store; [done| |intros _].
    + intros f rest1. cbn. apply flight_over.
    + apply (none_drops _ _ _ _ in_flight_rules (out_rules_trivial Nobody)).
Qed.

Lemma in_flight_arrivals e : looping (arrives e) Outside.
Proof.
  assert (idle Outside) as H0 by (by apply in_idle).
  apply (on_arrival_keeps attempts submits HexToHash GetConsAddress Address_String myValidatorKey ReadFile Unmarshal feeModule oppyRollbackGap
    pubRollbackGap in_flight_at (fun _ _ => True) (fun _ => True) Nobody Outside in_owns idle free in_flight_rules (out_rules_trivial Nobody)); try done.
  - intros k Hk. by apply (idle_put_in Nobody in_owns (fun _ => True) in_flight_at in_flight_rules (fun _ _ => True) (out_rules_trivial Nobody)).
  - intros ct k Hk. by apply (idle_put_out HexToHash Nobody in_owns (fun _ => True) in_flight_at in_flight_rules (fun _ _ => True) (out_rules_trivial Nobody)).
  - intros. apply in_feed_ok.
  - intros p ct h _. by apply (idle_feed_out HexToHash Nobody in_owns (fun _ => True) in_flight_at in_flight_rules).
  - exact in_receive_ok.
  - unfold on_arrival. apply thread_keep; [|done|].
    + intros gs b H. unfold receive_out. destruct (OutboundReqChan (br_out b)); exact H.
    + intros [[items|]|e0]; [|exact H0..]. exists Nobody, Outside. split; [|split; [done|split; [|exact H0]]].
      * intros b rest (H & ?). split; [by apply one_flight_nobody|done].
      * apply (idle_payout attempts submits Hsubmits HexToHash Nobody in_owns (fun _ => True) in_flight_at in_flight_rules (fun _ _ => True) (out_rules_trivial Nobody)); [done|done|].
        apply thread_keep; [|done|intros _; apply (none_drops _ _ _ _ in_flight_rules (out_rules_trivial Nobody))].
        intros gs. by apply (parts_store_out (in_flight_at gs) (fun _ => True) (fun _ => True) (fun _ => True)).
Qed.
End Inbound.

(** *** Payouts *)

Section Outbound.
#[local] Notation inv := (service_inv (W := W) (C := C) (J := J) (Msg := Msg) (fun _ _ => True) out_flight_at (fun _ => True)).
Definition out_owns (kd : kind) (g : token) : Prop := kd = KPayout -> g = Busy.
#[local] Notation idle := (fun g => trades inv g [Outside]).
#[local] Notation looping := (keeps_thread inv out_owns idle free).

Lemma out_idle g : (forall rest n d, one_flight (g :: rest) n d -> one_flight (Outside :: rest) n d) -> idle g.
Proof. intros Hg b rest (? & H & ?). split; [done|]. split; [by apply Hg|done]. Qed.

Lemma out_store Fin f (k : unit + string -> T) Lb g g' : Lb g ->
  (forall h rest, one_flight (g :: rest) (length (OutboundReqChan h)) (outBoundProcessDone h) ->
    one_flight (g' :: rest) (length (OutboundReqChan (f h))) (outBoundProcessDone (f h))) ->
  (forall r, keeps_thread inv out_owns Fin Lb (k r) g') -> keeps_thread inv out_owns Fin Lb (Do (store_out f) k) g.
Proof.
  intros Hl Hf Hk. split; [done|]. intros b rest b' r (? & H & ?) [= <- _]. exists g'. split; [|done]. split; [done|]. split; [by apply Hf|done].
Qed.

Lemma out_feed_ok p ct h : looping (feed_if_done_out HexToHash p ct h) Outside.
Proof.
  assert (idle Outside) as H0 by (by apply out_idle). assert (idle Seen) as H1 by (apply out_idle; intros; by apply flight_idle).
  unfold feed_if_done_out. split; [done|]. intros b rest b' r (Hi & H & Ho) Hr. injection Hr as <- <-.
  destruct (outBoundProcessDone (br_out b)) eqn:Ed; cbn [negb]; [exists Seen|exists Outside; by split]. split.
  { split; [done|]. split; [|done]. unfold out_flight_at in *. rewrite Ed in *. by apply flight_seen. }
  clear b rest Hi H Ho Ed.
  assert (forall D c (m : M (ChainInfo W C) D) gs, keeps (fun b : BR => inv b gs) (on_client c m)) as Hc.
  { intros D c m gs. apply (parts_on_client (fun _ => True) (out_flight_at gs) (fun _ => True) (fun _ => True)). }
  assert (forall D (m : M (ItemQueue OutBoundReq) D) gs, keeps (fun b : BR => inv b gs) (on_payouts m)) as Hm.
  { intros D m gs. by apply (any_payouts_keeps _ _ out_flight_at). }
  assert (looping (feed_outbound_thread p ct h) Seen) as Hfeed.
  { unfold feed_outbound_thread. apply thread_keep; [intros; apply Hm|done|]. intros [[items|]|e]; [|exact H1..].
    apply thread_keep; [intros; apply Hc|done|]. intros [batch|e]; [|exact H1].
    apply thread_keep; [by intros gs b H|done|]. intros [prev|e]; [|exact H1].
    eapply out_store; [done|intros f rest; exact id|intros _]. eapply out_store; [done|intros f rest; exact id|intros _].
    eapply (out_store _ _ _ _ _ Fed); [done| |intros _].
    - intros f rest. cbn. rewrite length_app. apply flight_fed.
    - eapply out_store; [done| |intros _; exact H0]. intros f rest. cbn. apply flight_unset. by right. }
  apply thread_see; [done|]. intros [|]; [exact H1|]. apply thread_see; [done|]. intros empty.
  match goal with |- looping (if _ then put_back_out _ _ ?t else _) _ => assert (looping t Seen) as Hk end.
  { apply thread_keep; [by intros gs b H|done|]. intros [prev|e]; [|exact H1].
    apply thread_see; [done|]. intros e. destruct (_ && _); [|exact H1]. apply thread_see; [done|]. intros size. apply thread_see; [done|]. intros first.
    destruct (_ && _); [|exact Hfeed]. eapply (out_store _ _ _ _ _ Seen); [done|intros f rest; exact id|intros _; exact H1]. }
  destruct empty; [|exact Hk].
  by apply (idle_put_out HexToHash Nobody out_owns (fun _ => True) _ (in_rules_trivial Nobody) out_flight_at out_flight_rules).
Qed.

Lemma out_receive_ok : looping (arrives ArrOutbound) Outside.
Proof.
  assert (idle Outside) as H0 by (by apply out_idle).
  unfold on_arrival. split; [done|]. intros b rest b' r (? & H & Ho) Hm. unfold try, receive_out in Hm. unfold out_flight_at in H.
  destruct (OutboundReqChan (br_out b)) as [|items chan] eqn:Ec; injection Hm as <- <-.
  - exists Outside. split; [|exact H0]. split; [done|]. split; [|done]. unfold out_flight_at. by rewrite Ec.
  - exists Taken. split.
    { split; [done|]. split; [|done]. unfold out_flight_at. cbn. by apply flight_taken. }
    exists Busy, Outside. split.
    { intros b1 rest1 (? & Hs & ?). split; [done|]. split; [|done]. by apply flight_split. }
    split; [done|]. split; [|exact H0].
    apply (idle_payout attempts submits Hsubmits HexToHash Nobody out_owns (fun _ => True) _ (in_rules_trivial Nobody) out_flight_at out_flight_rules); [done..|].
    eapply out_store; [done| |intros _].
    + intros f rest1. cbn. apply flight_over.
    + apply (none_drops _ _ _ _ (in_rules_trivial Nobody) out_flight_rules).
Qed.

Lemma out_flight_arrivals e : looping (arrives e) Outside.
Proof.
  assert (idle Outside) as H0 by (by apply out_idle).
  apply (on_arrival_keeps attempts submits HexToHash GetConsAddress Address_String myValidatorKey ReadFile Unmarshal feeModule oppyRollbackGap
    pubRollbackGap (fun _ _ => True) out_flight_at (fun _ => True) Nobody Outside out_owns idle free (in_rules_trivial Nobody) out_flight_rules); try done.
  - intros k Hk. by apply (idle_put_in Nobody out_owns (fun _ => True) _ (in_rules_trivial Nobody) out_flight_at out_flight_rules).
  - intros ct k Hk. by apply (idle_put_out HexToHash Nobody out_owns (fun _ => True) _ (in_rules_trivial Nobody) out_flight_at out_flight_rules).
  - intros. by apply (idle_feed_in out_owns (fun _ => True) out_flight_at).
  - intros. apply out_feed_ok.
  - unfold on_arrival. apply thread_keep; [|done|].
    + intros gs b H. unfold receive_in. destruct (InboundReqChan (br_in b)); exact H.
    + intros [[items|]|e0]; [|exact H0..]. exists Nobody, Outside. split; [|split; [done|split; [|exact H0]]].
      * intros b rest (? & H & ?). split; [done|]. split; [by apply one_flight_nobody|done].
      * apply (idle_mint Nobody out_owns (fun _ => True) _ (in_rules_trivial Nobody) out_flight_at out_flight_rules); [done|done|].
        apply thread_keep; [|done|intros _; apply (none_drops _ _ _ _ (in_rules_trivial Nobody) out_flight_rules)].
        intros gs. by apply (parts_store_in (fun _ => True) (out_flight_at gs) (fun _ => True) (fun _ => True)).
  - exact out_receive_ok.
Qed.
End Outbound.
End Flight.

(** From a state in which nothing runs and the flags agree with the channels. *)
Lemma flight_reached {St} (I : St -> list token -> Prop) (Owns : kind -> token -> Prop) kd (c : service kind St) n d :
  (forall g, Owns kd g -> g = Busy) -> (forall gs, I (mem c) gs -> one_flight gs n d) ->
  svc_ok I Owns Outside (fun _ => True) [] c ->
  (length (running_of kd (others c)) + n <= 1)%nat /\
  (loop c = Finished -> d = true -> running_of kd (others c) = [] /\ n = 0%nat).
Proof.
  intros Hg HI (gl & gls & Hl & Ho & H). rewrite app_nil_r in H. pose proof (running_tally I Owns kd _ _ Hg Ho) as Hr.
  assert (forall l, tally Busy (l ++ concat gls) = (tally Busy l + tally Busy (concat gls))%nat) as Happ
    by (intros l; unfold tally; by rewrite filter_app, length_app).
  split.
  - destruct (HI _ H) as (_ & H2 & _). rewrite Happ in H2. lia.
  - intros Hf ->. rewrite Hf in Hl. destruct Hl as (g & -> & Hidle). apply Hidle in H. destruct (HI _ H) as (H1 & _ & H3).
    specialize (H3 eq_refl). cbn [app] in *. rewrite !tally_cons in H1, H3. simpl in H1, H3. split; [apply length_zero_iff_nil|]; lia.
Qed.

(** ** Properties *)

Section Properties.
Context {W C J Msg : Type} `{EC : EthClient W C} `{TW : TssServer W} `{CN : CosmosNode J Msg} `{TJ : TssServer J} `{JS : JoltService J}.
Context `{JB : JoltBlocks J} `{JCn : JoltConnection J} `{KG : KeygenServer J Msg}.
Context `{G : EthSigner} `{S : SdkMath} `{N : SdkCoins} `{B : Bech32} `{E : Eth} `{K : Backoff} `{R : GoRuntime} `{GK : GoBackoff} `{GL : !GoBackoffLaws GK}.
Context `{AB : TokenAbi} `{JH : !JoltHandler} `{MC : MemoCodec} `{JN : !JoltNode}.
Context (attempts submits : nat) (HexToHash : string -> bytes).
Context (GetConsAddress : bytes -> bytes) (Address_String : bytes -> string) (myValidatorKey : string).
Context (ReadFile : outcome bytes) (Unmarshal : bytes -> outcome (list TokenItem)).
Context (feeModule : gmap string FeeModule) (oppyRollbackGap pubRollbackGap : Z).
#[local] Notation BR := (Bridge W C J Msg).
#[local] Notation svc_reaches := (svc_reaches (W := W) (C := C) (J := J) (Msg := Msg) attempts submits HexToHash GetConsAddress Address_String
  myValidatorKey ReadFile Unmarshal feeModule oppyRollbackGap pubRollbackGap).

(** At most one batch of the flow is on its channel ([waiting]) or with a
    goroutine that has not ended ([running]); between two events the flag
    says "done" only if there is none. *)
Definition one_batch (between done : bool) {A B} (running : list A) (waiting : list B) : Prop :=
  (length running + length waiting <= 1)%nat /\ (between = true -> done = true -> running = [] /\ waiting = []).

Definition between_events (c : service kind BR) : bool := match loop c with Finished => true | _ => false end.

(** C4 (one batch at a time, in any order of actions). Let the loop start with
    no more than one batch on each channel, and none where the flag says
    "done". Then however the actions of the loop and of the goroutines
    interleave, each flow has at most one batch that waits on its channel or
    whose goroutine has not ended; and whenever the loop waits for an event,
    a flag that says "done" means that there is none. *)
Theorem one_batch_at_a_time (b0 : BR) (c : service kind BR) :
  (0 < submits)%nat -> one_batch true (inBoundProcessDone (br_in b0)) (A := unit) [] (InboundReqChan (br_in b0)) ->
  one_batch true (outBoundProcessDone (br_out b0)) (A := unit) [] (OutboundReqChan (br_out b0)) ->
  svc_reaches b0 c ->
  one_batch (between_events c) (inBoundProcessDone (br_in (mem c))) (running_of KMint (others c)) (InboundReqChan (br_in (mem c))) /\
  one_batch (between_events c) (outBoundProcessDone (br_out (mem c))) (running_of KPayout (others c)) (OutboundReqChan (br_out (mem c))).
Proof.
  intros Hs Hin Hout Hc.
  assert (forall A (l : list A) d, one_batch true d (A := unit) [] l -> one_flight [Outside] (length l) d) as H0.
  { intros A l d [H1 H2]. cbn in H1. split; [done|]. split; [change (length l + 0 <= 1)%nat; lia|]. intros Hd. by destruct (H2 eq_refl Hd) as [_ ->]. }
  assert (forall A (l : list A) kd d,
    (length (running_of kd (others c)) + length l <= 1)%nat /\ (loop c = Finished -> d = true -> running_of kd (others c) = [] /\ length l = 0%nat) ->
    one_batch (between_events c) d (running_of kd (others c)) l) as Hend.
  { intros A l kd d [H1 H2]. split; [exact H1|]. unfold between_events. intros Hb Hd. destruct (loop c); try discriminate Hb.
    destruct (H2 eq_refl Hd) as [? ?%length_zero_iff_nil]. done. }
  split; apply Hend.
  - apply (flight_reached (service_inv in_flight_at (fun _ _ => True) (fun _ => True)) in_owns KMint).
    + intros g Hg. by apply Hg.
    + by intros gs [H _].
    + eapply (svc_sound _ (service_inv_perm _ _ _ _ in_flight_rules (out_rules_trivial Nobody))); [|exact Hc|].
      * intros e. by apply in_flight_arrivals.
      * apply svc_ok_start. split; [|done]. by apply H0.
  - apply (flight_reached (service_inv (fun _ _ => True) out_flight_at (fun _ => True)) out_owns KPayout).
    + intros g Hg. by apply Hg.
    + by intros gs (_ & H & _).
    + eapply (svc_sound _ (service_inv_perm _ _ _ _ (in_rules_trivial Nobody) out_flight_rules)); [|exact Hc|].
      * intros e. by apply out_flight_arrivals.
      * apply svc_ok_start. split; [done|]. split; [|done]. by apply H0.
Qed.

(** C5 (what waits on the channels, in any order of actions). Let the loop
    start from a well-typed state with nothing on the channels. However the
    loop and all goroutines interleave: each batch on the way to a round has
    one to [GroupSign] requests, with pairwise different indices in ascending
    order; those of a mint batch have one pool account and count its sequence
    numbers up one by one; those of a payout batch go to one chain, from one
    address, and count its nonces up one by one. *)
Theorem batches_on_the_channels `{LE : !EthLaws E} `{LR : !GoRuntimeLaws R} (b0 : BR) (c : service kind BR) :
  (0 < submits)%nat -> well_typed b0 -> InboundReqChan (br_in b0) = [] -> OutboundReqChan (br_out b0) = [] -> svc_reaches b0 c ->
  Forall mint_batch (InboundReqChan (br_in (mem c))) /\ Forall payout_batch (OutboundReqChan (br_out (mem c))).
Proof. intros Hs Hb Hi Ho Hc. by eapply (service_batches attempts submits Hs). Qed.
End Properties.

(** ** Witnesses *)

Section Witnesses.
#[local] Existing Instance confirming_ref.
#[local] Existing Instance Processing.tss_bool_ref.
#[local] Existing Instance cosmos_ref.
#[local] Existing Instance tss_cos_ref.
#[local] Existing Instance EventLoop.blocks_ref.
#[local] Existing Instance EventLoop.connection_ref.
#[local] Existing Instance EventLoop.keygen_ref.
#[local] Existing Instance eth_signer_ref.
#[local] Existing Instance sdk_math_ref.
#[local] Existing Instance sdk_coins_ref.
#[local] Existing Instance bech32_ref.
#[local] Existing Instance eth_ref.
#[local] Existing Instance backoff_ref.
#[local] Existing Instance go_backoff_ref.
#[local] Existing Instance go_runtime_ref.
#[local] Existing Instance abi_ref.
#[local] Existing Instance handler_ref.

#[local] Notation arrival_ref := (on_arrival (C := unit) (JS := jolt_ref true) (MC := memo_ref "JOLTIFY") (JN := node_ref "BSC")
  4 3 (fun _ => []) (fun b => b) hex_EncodeToString "" (Fail "no file") (fun _ => Fail "no file") ∅ 3 3).

#[local] Notation started := (start_service Lifecycle.paying_bridge).
(** In the middle of a payout round. *)
#[local] Notation halfway := (svc_sched arrival_ref (firstn 110 (PayoutThreads.start_schedule ++ PayoutThreads.schedule)%list) started).

Lemma one_batch_at_a_time_witness : length (running_of KPayout (others halfway)) = 1%nat /\
  one_batch (between_events halfway) (outBoundProcessDone (br_out (mem halfway))) (running_of KPayout (others halfway)) (OutboundReqChan (br_out (mem halfway))).
Proof.
  split; [vm_compute; reflexivity|].
  refine (proj2 (one_batch_at_a_time (JS := jolt_ref true) (MC := memo_ref "JOLTIFY") (JN := node_ref "BSC")
    4 3 (fun _ => []) (fun b => b) hex_EncodeToString "" (Fail "no file") (fun _ => Fail "no file") ∅ 3 3 Lifecycle.paying_bridge halfway _ _ _ _)).
  - apply Nat.lt_0_succ.
  - split; [apply Nat.le_0_l|split; reflexivity].
  - split; [apply Nat.le_0_l|split; reflexivity].
  - apply svc_sched_runs.
Defined.

(** The batch has been sent and not received. *)
#[local] Notation sent := (svc_sched arrival_ref (firstn 30 PayoutThreads.start_schedule) started).

Lemma batches_on_the_channels_witness : map (map Nonce) (OutboundReqChan (br_out (mem sent))) = [[3; 4]] /\
  Forall mint_batch (InboundReqChan (br_in (mem sent))) /\ Forall payout_batch (OutboundReqChan (br_out (mem sent))).
Proof.
  split; [vm_compute; reflexivity|].
  refine (batches_on_the_channels (JS := jolt_ref true) (MC := memo_ref "JOLTIFY") (JN := node_ref "BSC")
    4 3 (fun _ => []) (fun b => b) hex_EncodeToString "" (Fail "no file") (fun _ => Fail "no file") ∅ 3 3 Lifecycle.paying_bridge sent _ _ _ _ _).
  - apply Nat.lt_0_succ.
  - unfold well_typed, in_typed, out_typed, in_i32, in_i64, in_u64, queue_wf, mf_keyed. split_and!; try (vm_compute; congruence); try discriminate.
    refine (keeps_forM queue_wf _ _ (fun a => AddItem_keeps_wf a) empty_queue _). intros k' a' H. discriminate H.
  - reflexivity.
  - reflexivity.
  - apply svc_sched_runs.
Defined.
End Witnesses.
