(* ===== verification/Alone.v ===== *)
(** * The threads with nothing in between

    EventLoop.v runs each case of the loop from beginning to end; the threads
    of BridgeThreads.v do the same work action by action.  [solo] runs a
    thread with no other thread acting in between, the goroutines of a group
    one after the other.  It is one of the interleavings, and in it the
    thread of a case is the handler of EventLoop.v. *)

From Stdlib Require Import Ascii String.
From S2P Require Import Prelude GoLib Sdk Requests Fees ItemQueue TokenList Signature MoveFundQueue Pools Validators PubClient Keysign Goroutine Threads TxSend SendPrograms MoveFund Inbound Outbound CosTx Keygen Processing MintRound Flow JoltClient EventLoop Wellformed BridgeThreads.

#[local] Open Scope string_scope.
#[local] Open Scope Z_scope.
#[local] Open Scope go_scope.

(** ** Definitions *)

(** A goroutine of a group: only actions. *)
Fixpoint run_task {St Rp A} (p : go St Rp A) : M St A :=
  match p with
  | Return a => ret a
  | Act m k => let! r := try m in run_task (k r)
  | _ => panic
  end.

(** The thread from here to its end; the result is the threads it starts.
    The goroutines of a signing round wait for each other, so a round is not
    run in this way. *)
Fixpoint solo {Kd St} (t : thread Kd St) : M St (list (Kd * thread Kd St)) :=
  match t with
  | Finished => ret []
  | Do m k => let! r := try m in solo (k r)
  | WaitGroup l ts k => fun s =>
      match forM ts run_task (s, l) with
      | ((s', l'), Ret _) => solo (k l') s'
      | ((s', _), _) => (s', Panic)
      end
  | SignRound _ _ _ _ _ _ _ _ => panic
  | Spawn kd t k => let! new := solo k in ret ((kd, t) :: new)
  end.

(** What a handler leaves behind, when it starts [new]; its error is
    dropped. *)
Definition starting {St X} (new : list X) (m : M St unit) : M St (list X) := let! _ := try m in ret new.

(** ** Lemmas *)

Section Solo.
Context {Kd St Ev : Type} (handler : Ev -> thread Kd St).
#[local] Notation T := (thread Kd St).

Lemma run_task_returns {St' Rp} (p : go St' Rp unit) s s' i (ts : list (go St' Rp unit)) :
  run_task p s = (s', Ret tt) -> ts !! i = Some p -> rtc gstep (s, ts) (s', <[i := Return tt]> ts).
Proof.
  revert s ts. induction p as [[]|B m k IH|k IH|d k IH|k IH|k IH]; intros s ts H Hi; cbn [run_task] in H; try done.
  - injection H as <-. by rewrite list_insert_id.
  - unfold bind in H. destruct (try m s) as [s1 [r|e|]] eqn:Em; [|done..]. eapply rtc_l; [by eapply gstep_act|].
    assert (<[i := Return tt]> ts = <[i := Return tt]> (<[i := k r]> ts)) as -> by (by rewrite list_insert_insert_eq). eapply IH; [exact H|]. apply list_lookup_insert_eq. by eapply lookup_lt_Some.
Qed.

Lemma run_tasks_return {St' Rp} (todo : list (go St' Rp unit)) s s' d :
  forM todo run_task s = (s', Ret tt) -> rtc gstep (s, (replicate d (Return tt) ++ todo)%list) (s', replicate (d + length todo) (Return tt)).
Proof.
  revert s d. induction todo as [|p todo IH]; intros s d; cbn [forM length].
  - unfold ret. intros [= <-]. by rewrite app_nil_r, Nat.add_0_r.
  - intros (s1 & [] & H1 & H2)%bind_ret_inv. etrans; [eapply (run_task_returns p _ _ d); [exact H1|]|].
    + rewrite lookup_app_r, length_replicate by (by rewrite length_replicate). by rewrite Nat.sub_diag.
    + rewrite insert_app_r_alt, length_replicate, Nat.sub_diag by (by rewrite length_replicate). cbn [insert list_insert].
      specialize (IH s1 (d + 1)%nat H2). rewrite replicate_add, <- app_assoc in IH. cbn in IH.
      replace (d + Datatypes.S (length todo))%nat with (d + 1 + length todo)%nat by lia. exact IH.
Qed.

(** Steps of one thread. *)
Inductive tsteps : St -> T -> St -> T -> list (Kd * T) -> Prop :=
| tsteps_refl s t : tsteps s t s t []
| tsteps_step s t s1 t1 s' t' new1 new2 : tstep s t s1 t1 new1 -> tsteps s1 t1 s' t' new2 -> tsteps s t s' t' (new1 ++ new2)%list.

Lemma group_tsteps {L Rp} (k : L -> T) s' t' new (x x' : (St * L) * list (go (St * L) Rp unit)) : rtc gstep x x' ->
  tsteps x'.1.1 (WaitGroup x'.1.2 x'.2 k) s' t' new -> tsteps x.1.1 (WaitGroup x.1.2 x.2 k) s' t' new.
Proof.
  induction 1 as [|[[s l] ts] [[s1 l1] ts1] x'' H _ IH]; [done|]. intros Hend. apply (tsteps_step _ _ s1 (WaitGroup l1 ts1 k) _ _ [] new); [by constructor|].
  by apply IH.
Qed.

Lemma solo_tsteps (t : T) s s' new : solo t s = (s', Ret new) -> tsteps s t s' Finished new.
Proof.
  revert s s' new. induction t as [|B m k IH|L Rp l ts k IH|L Rp n sign l ps ch b c k IH|kd t _ k IH]; intros s s' new; cbn [solo].
  - intros [= <- <-]. constructor.
  - intros (s1 & r & H1 & H2)%bind_ret_inv. eapply (tsteps_step _ _ s1 (k r) _ _ [] new); [by constructor|]. by apply IH.
  - destruct (forM ts run_task (s, l)) as [[s1 l1] [[]|e|]] eqn:Ef; [|done..]. intros H.
    refine (group_tsteps k _ _ _ _ _ (run_tasks_return ts (s, l) (s1, l1) 0 Ef) _). cbn.
    eapply (tsteps_step _ _ s1 (k l1) _ _ [] new); [constructor; by apply Forall_replicate|]. by apply IH.
  - done.
  - intros (s1 & new1 & H1 & H2)%bind_ret_inv. unfold ret in H2. injection H2 as <- <-.
    eapply (tsteps_step _ _ s k _ _ [(kd, t)] new1); [constructor|]. by apply IH.
Qed.

(** They are steps of the service, by the loop or by another thread. *)
Lemma tsteps_loop s t s' t' new os : tsteps s t s' t' new -> rtc (svc_step handler) (mkSvc s t os) (mkSvc s' t' (os ++ new)%list).
Proof.
  intros H. revert os. induction H as [s t|s t s1 t1 s' t' new1 new2 H _ IH]; intros os; [by rewrite app_nil_r|].
  eapply rtc_l; [by apply svc_loop|]. rewrite app_assoc. apply IH.
Qed.

Lemma tsteps_other s t s' t' new i kd lp os : tsteps s t s' t' new -> os !! i = Some (kd, t) ->
  rtc (svc_step handler) (mkSvc s lp os) (mkSvc s' lp (<[i := (kd, t')]> os ++ new)%list).
Proof.
  intros H. revert os. induction H as [s t|s t s1 t1 s' t' new1 new2 H _ IH]; intros os Hi; [by rewrite app_nil_r, list_insert_id|].
  pose proof (lookup_lt_Some _ _ _ Hi) as Hlt. eapply rtc_l; [by eapply svc_other|].
  assert ((<[i := (kd, t')]> os ++ new1 ++ new2 = <[i := (kd, t')]> (<[i := (kd, t1)]> os ++ new1) ++ new2)%list) as ->.
  { by rewrite insert_app_l, list_insert_insert_eq, app_assoc by (by rewrite length_insert). }
  apply IH. rewrite lookup_app_l by (by rewrite length_insert). by apply list_lookup_insert_eq.
Qed.

Lemma solo_sure (t : T) s s' e : solo t s <> (s', Fail e).
Proof.
  revert s s' e. induction t as [|B m k IH|L Rp l ts k IH|L Rp n sign l ps ch b c k IH|kd t _ k IH]; intros s s' e; cbn [solo]; try by intros [=].
  - unfold bind. destruct (try m s) as [s1 [r|e'|]] eqn:Em; [apply IH|by apply try_not_fail in Em|by intros [=]].
  - destruct (forM ts run_task (s, l)) as [[s1 l1] [[]|e'|]]; [apply IH|by intros [=]..].
  - unfold bind. destruct (solo k s) as [s1 [r|e'|]] eqn:Ek; [by intros [=]|by apply IH in Ek|by intros [=]].
Qed.

(** *** Equations *)

Lemma bind_cong {A B} (m m' : M St A) (f g : A -> M St B) s :
  m s = m' s -> (forall a s', m' s = (s', Ret a) -> f a s' = g a s') -> bind m f s = bind m' g s.
Proof. unfold bind. intros ->. destruct (m' s) as [s1 [a|e|]]; intros H; [by apply H|done..]. Qed.

Lemma bind_then {A B D} (m : M St A) (f : A -> M St B) (g : B -> M St D) s : bind (bind m f) g s = bind m (fun a => bind (f a) g) s.
Proof. unfold bind. by destruct (m s) as [s1 [a|e|]]. Qed.

Lemma starting_bind {A X} (new : list X) (m : M St A) (f : A -> M St unit) s :
  starting new (bind m f) s = bind (try m) (fun r => match r with inl a => starting new (f a) | inr _ => ret new end) s.
Proof. unfold starting, bind, try. by destruct (m s) as [s1 [a|e|]]. Qed.

Lemma starting_try {A X} (new : list X) (m : M St A) (f : A + string -> M St unit) s :
  starting new (bind (try m) f) s = bind (try m) (fun r => starting new (f r)) s.
Proof. unfold starting, bind, try. by destruct (m s) as [s1 [a|e|]]. Qed.

Lemma starting_sure {A X} (new : list X) (m : M St A) (f : A -> M St unit) s : (forall e, (m s).2 <> Fail e) ->
  starting new (bind m f) s = bind m (fun a => starting new (f a)) s.
Proof. unfold starting, bind, try. destruct (m s) as [s1 [a|e|]]; intros H; [done|by destruct (H e)|done]. Qed.

Lemma starting_then {A B X} (new : list X) (m : M St A) (f : A -> M St B) (g : B -> M St unit) s :
  starting new (bind (bind m f) g) s = starting new (bind m (fun a => bind (f a) g)) s.
Proof. unfold starting. apply bind_cong; [|done]. unfold try. by rewrite bind_then. Qed.

(** Computations that do not end in an error. *)
Definition sure {A} (m : M St A) : Prop := forall s e, (m s).2 <> Fail e.

Lemma sure_ret {A} (a : A) : sure (ret a).
Proof. by intros s e [=]. Qed.
Lemma sure_panic {A} : sure (panic (A := A)).
Proof. by intros s e [=]. Qed.
Lemma sure_get : sure get.
Proof. by intros s e [=]. Qed.
Lemma sure_modify g : sure (modify g).
Proof. by intros s e [=]. Qed.
Lemma sure_try {A} (m : M St A) : sure (try m).
Proof. intros s e. unfold try. destruct (m s) as [s1 [a|e'|]]; by intros [=]. Qed.
Lemma sure_bind {A B} (m : M St A) (f : A -> M St B) : sure m -> (forall a, sure (f a)) -> sure (bind m f).
Proof. intros Hm Hf s e. unfold bind. specialize (Hm s). destruct (m s) as [s1 [a|e'|]]; [apply Hf|by destruct (Hm e')|by intros [=]]. Qed.
Lemma sure_forM {A} (l : list A) (f : A -> M St unit) : (forall a, sure (f a)) -> sure (forM l f).
Proof. intros Hf. induction l as [|a l IH]; cbn [forM]; [apply sure_ret|]. by apply sure_bind. Qed.

Lemma run_task_alone {St' Rp A} (resp : Rp) (p : go St' Rp A) s : only_acts p -> run_task p s = alone resp p s.
Proof.
  revert s. induction p as [a|B m k IH|k IH|d k IH|k IH|k IH]; intros s H; cbn in H; try done. cbn [run_task alone].
  unfold bind. destruct (try m s) as [s1 [r|e|]]; [by apply IH|done..].
Qed.
End Solo.

#[local] Hint Resolve sure_ret sure_panic sure_get sure_modify sure_try : sure.
#[local] Ltac sure_step :=
  match goal with
  | |- sure (bind _ _) => apply sure_bind; [|intros ?]
  | |- sure (forM _ _) => apply sure_forM; intros ?
  | |- sure (match ?x with _ => _ end) => destruct x
  | |- sure _ => solve [auto with sure]
  end.

(** *** The mint variables *)

Section Deposits.
Context {W C J Msg : Type} `{EC : EthClient W C} `{TW : TssServer W} `{CN : CosmosNode J Msg} `{TJ : TssServer J} `{JS : JoltService J}.
Context `{JB : JoltBlocks J} `{JCn : JoltConnection J} `{KG : KeygenServer J Msg}.
Context `{G : EthSigner} `{S : SdkMath} `{N : SdkCoins} `{B : Bech32} `{E : Eth} `{K : Backoff} `{KL : !BackoffLaws K} `{R : GoRuntime} `{LR : !GoRuntimeLaws R}.
Context `{GK : GoBackoff} `{GL : !GoBackoffLaws GK} `{AB : TokenAbi} `{JH : !JoltHandler} `{MC : MemoCodec} `{JN : !JoltNode}.
Context (ReadFile : outcome bytes) (Unmarshal : bytes -> outcome (list TokenItem)).
Context (feeModule : gmap string FeeModule) (oppyRollbackGap : Z).
#[local] Notation BR := (Bridge W C J Msg).
#[local] Notation T := (thread kind BR).

(** No action of a mint round writes inBoundWait. *)
Definition waits_on {A} (m : M (MintState J) A) : Prop := forall s, inBoundWait (m s).1 = inBoundWait s.

Lemma waits_on_node {A} (m : M J A) : waits_on (on_mnode m).
Proof. intros s. unfold on_mnode. by destruct (m _). Qed.
Lemma waits_on_queue {A} (m : M (ItemQueue InBoundReq) A) : waits_on (on_mq m).
Proof. intros s. unfold on_mq. by destruct (m _). Qed.
Lemma waits_on_failed g : waits_on (set_failedIn g).
Proof. done. Qed.
Lemma waits_on_read {A} (g : MintState J -> A) : waits_on (let! s := get in ret (g s)).
Proof. done. Qed.
Lemma waits_on_panic {A} : waits_on (panic (A := A)).
Proof. done. Qed.
Lemma waits_on_bind {A D} (m : M (MintState J) A) (f : A -> M (MintState J) D) : waits_on m -> (forall a, waits_on (f a)) -> waits_on (bind m f).
Proof. intros Hm Hf s. unfold bind. specialize (Hm s). destruct (m s) as [s1 [a|e|]]; [|done..]. by rewrite Hf. Qed.
Lemma waits_on_try {A} (m : M (MintState J) A) : waits_on m -> waits_on (try m).
Proof. intros Hm s. specialize (Hm s). unfold try. by destruct (m s) as [s1 [a|e|]]. Qed.
Lemma waits_on_forM {A} (l : list A) (f : A -> M (MintState J) unit) : (forall a, waits_on (f a)) -> waits_on (forM l f).
Proof. intros Hf. induction l as [|a l IH]; cbn [forM]; [done|]. by apply waits_on_bind. Qed.

Lemma mint_on_ret {A} (a : A) (b : BR) : mint_on _ (ret a) b = (b, Ret a).
Proof. by destruct b as [? ? ? ? []]. Qed.

Lemma mint_on_bind {A D} (m : M (MintState J) A) (f : A -> M (MintState J) D) (b : BR) : waits_on m ->
  mint_on _ (bind m f) b = bind (mint_on _ m) (fun a => mint_on _ (f a)) b.
Proof.
  intros Hm. unfold mint_on, on_in, Flow.on_mint, bind.
  specialize (Hm (mkMintState (br_jolt b) (in_q (br_in b)) (in_failed (br_in b)) (in_wait (br_in b)))).
  destruct (m _) as [[j q n w] [a|e|]]; cbn in *; [|done..]. rewrite Hm.
  destruct (f a _) as [[j2 q2 n2 w2] r]. cbn. done.
Qed.

Lemma mint_on_try {A} (m : M (MintState J) A) (b : BR) : try (mint_on _ m) b = mint_on _ (try m) b.
Proof. unfold mint_on, on_in, Flow.on_mint, try. by destruct (m _) as [[j q n w] [a|e|]]. Qed.

Lemma apart_eq {St St' L D} (on : forall B, M St B -> M St' B) (m : M St D) s (l : L) : apart on _ m (s, l) = (((on _ m s).1, l), (on _ m s).2).
Proof. unfold apart. cbn [fst snd]. by destruct (on _ m s). Qed.

(** A goroutine of a group, next to no local variables. *)
Lemma run_mint {A} (p : go (MintState J) unit A) (b : BR) (l : unit) : only_acts p -> acts (fun D m => waits_on m) p ->
  run_task (glift (apart mint_on) p) (b, l) = apart mint_on _ (alone tt p) (b, l).
Proof.
  revert b. induction p as [a|D m k IH|k IH|d k IH|k IH|k IH]; intros b Ha Hw; cbn in Ha; try done; cbn [glift run_task alone].
  - by rewrite apart_eq, mint_on_ret.
  - destruct Hw as [Hm Hk]. rewrite (apart_eq _ (let! r := _ in _)), mint_on_bind by (by apply waits_on_try). unfold bind.
    assert (try (apart mint_on _ m) (b, l) = (((mint_on _ (try m) b).1, l), (mint_on _ (try m) b).2)) as ->.
    { rewrite <- mint_on_try. unfold try. rewrite apart_eq. by destruct (mint_on _ m b) as [b1 [r|e|]]. }
    destruct (mint_on _ (try m) b) as [b1 [r|e|]]; cbn [fst snd]; [|done..]. rewrite IH; [|apply Ha|apply Hk]. by rewrite apart_eq.
Qed.

Lemma run_mints {X} (f : X -> go (MintState J) unit unit) (g : X -> M (MintState J) unit) xs (b : BR) (l : unit) :
  (forall x, only_acts (f x) /\ acts (fun D m => waits_on m) (f x)) -> (forall x, waits_on (g x)) -> (forall x s, alone tt (f x) s = g x s) ->
  forM (map (fun x => glift (apart (L := unit) mint_on) (f x)) xs) run_task (b, l) = apart mint_on _ (forM xs g) (b, l).
Proof.
  intros Hf Hg Hfg. revert b. induction xs as [|x xs IH]; intros b; cbn [map forM].
  - by rewrite apart_eq, mint_on_ret.
  - unfold bind at 1. destruct (Hf x) as [H1 H2]. rewrite (run_mint _ b l H1 H2), !apart_eq, (mint_on_bind (g x)) by auto.
    assert (mint_on _ (alone tt (f x)) b = mint_on _ (g x) b) as -> by (unfold mint_on, on_in, Flow.on_mint; by rewrite Hfg).
    unfold bind. destruct (mint_on _ (g x) b) as [b1 [[]|e|]]; cbn [fst snd]; [|done..]. by rewrite IH, apart_eq.
Qed.

Lemma mint_on_node {A} (m : M J A) (b : BR) : mint_on _ (on_mnode m) b = on_jolt m b.
Proof. unfold mint_on, on_in, Flow.on_mint, on_mnode, on_jolt. cbn. destruct (m _) as [j r]. cbn. by destruct (br_in b). Qed.

Lemma mint_try_node {A} (m : M J A) (b : BR) : mint_on _ (try (on_mnode m)) b = try (on_jolt m) b.
Proof. rewrite <- mint_on_try. unfold try. by rewrite mint_on_node. Qed.

Lemma mint_group_alone {X} (f : X -> go (MintState J) unit unit) (g : X -> M (MintState J) unit) xs (k : T) (b : BR) :
  (forall x, only_acts (f x) /\ acts (fun D m => waits_on m) (f x)) -> (forall x, waits_on (g x)) -> (forall x s, alone tt (f x) s = g x s) ->
  solo (WaitGroup tt (map (fun x => glift (apart mint_on) (f x)) xs) (fun _ => k)) b = bind (mint_on _ (forM xs g)) (fun _ => solo k) b.
Proof.
  intros Hf Hg Hfg. cbn [solo]. rewrite (run_mints f g xs b tt Hf Hg Hfg), apart_eq. unfold bind.
  destruct (mint_on _ (forM xs g) b) as [b1 [[]|e|]] eqn:Em; cbn [fst snd]; [done| |done]. exfalso.
  assert (forall s s', forM xs g s <> (s', Fail e)) as Hno.
  { clear Em. induction xs as [|x xs IH]; intros s s'; cbn [forM]; [by intros [=]|]. unfold bind. rewrite <- Hfg.
    destruct (alone tt (f x) s) as [s1 [[]|e'|]] eqn:Ea; [apply IH| |by intros [=]]. by apply alone_no_fail in Ea. }
  unfold mint_on, on_in, Flow.on_mint in Em. destruct (forM xs g _) as [s1 r] eqn:Ef. injection Em as _ ->. by apply Hno in Ef.
Qed.

Lemma bind_sure {St A D} (m : M St A) (f : A + string -> M St D) s : (forall e, (m s).2 <> Fail e) ->
  bind (try m) f s = bind m (fun a => f (inl a)) s.
Proof. unfold bind, try. destruct (m s) as [s1 [a|e|]]; intros H; [done|by destruct (H e)|done]. Qed.

Lemma DumpQueue_sure {A} (q : ItemQueue A) e : (DumpQueue q).2 <> Fail e.
Proof. unfold DumpQueue, bind, get. destruct (onHold q); by intros [=]. Qed.

Lemma mint_queue_sure {A} (m : M (ItemQueue InBoundReq) A) (b : BR) e : (m (in_q (br_in b))).2 <> Fail e -> (mint_on _ (on_mq m) b).2 <> Fail e.
Proof. unfold mint_on, on_in, Flow.on_mint, on_mq. cbn. by destruct (m _). Qed.

Lemma put_back_go_alone each (s : MintState J) : alone tt (put_back_go each) s =
  bind (try (on_mnode (Validators.CheckTxStatus issue_query (Hash_Hex (InBoundReq_Hash each)) 2)))
    (fun r => match r with inl _ => ret tt | inr _ => on_mq (AddItem each) end) s.
Proof using KL GL.
  unfold put_back_go. apply alone_bind_same; [apply JoltCheckTxStatus_alone; lia|]. intros [[]|e] s1; [done|].
  rewrite alone_bind. unfold bind. rewrite alone_act. unfold try, on_mq. by rewrite (AddItem_ret each (InBoundReq_Index each)).
Qed.

Lemma put_back_go_waits each : acts (fun D m => waits_on m) (put_back_go each).
Proof using GL.
  unfold put_back_go, JoltCheckTxStatus_go. rewrite retry_go_spec by lia. apply acts_bind.
  - apply acts_retry. split; [apply waits_on_node|done].
  - intros [?|?]; [exact Logic.I|]. split; [apply waits_on_queue|done].
Qed.

(** putOnHoldBlockInBoundBack, then the rest. *)
Lemma put_back_in_alone (k : T) (b : BR) : solo (put_back_in k) b = bind (mint_on _ putOnHoldBlockInBoundBack) (fun _ => solo k) b.
Proof using KL GL LR.
  unfold put_back_in, putOnHoldBlockInBoundBack. cbn [solo].
  rewrite (bind_cong (mint_on _ (bind _ _)) _ _ _ b (mint_on_bind _ _ _ (waits_on_try _ (waits_on_node _))) (fun a s' _ => eq_refl)), bind_then.
  apply bind_cong; [by rewrite mint_try_node|]. intros [[]|e] b1 _; [|unfold bind; by rewrite mint_on_ret].
  rewrite (bind_cong (mint_on _ (bind _ _)) _ _ _ b1 (mint_on_bind _ _ _ (waits_on_queue _)) (fun a s' _ => eq_refl)), bind_then. cbn [solo].
  rewrite bind_sure.
  - apply bind_cong; [done|]. intros l b2 _. apply mint_group_alone; [| |apply put_back_go_alone].
    + intros x. split; [apply put_back_go_only_acts|apply put_back_go_waits].
    + intros x. apply waits_on_bind; [apply waits_on_try, waits_on_node|]. intros [?|?]; [done|apply waits_on_queue].
  - intros e. apply mint_queue_sure, DumpQueue_sure.
Qed.

(** FeedTx, then the rest. *)
Lemma feed_inbound_alone pool (k : T) (b : BR) :
  solo (feed_inbound_thread (Msg := Msg) pool k) b = bind (on_in (try (feed_inbound (Msg := Msg) pool))) (fun _ => solo k) b.
Proof.
  destruct b as [e s j p [q ch rn n h w d fi pv] o v ca kg jb tl cur]. unfold feed_inbound_thread, feed_inbound, FeedTx_inbound.
  cbn [solo]. unfold bind, try, lift, on_in. cbn [br_jolt br_in].
  destruct (CheckWhetherSigner operator_address (Some pool)) as [[]|er|]; [|reflexivity..]. cbn [ocatch solo]. unfold bind, try, on_jolt. cbn [br_jolt negb].
  destruct (queryAccount _ j) as [j' [acc|er|]]; [|reflexivity..]. cbn [ocatch solo]. unfold mint_on, on_in, Flow.on_mint, on_mq, bind, try. cbn [br_jolt br_in Flow.in_q mint_q].
  destruct (InboundQueue.PopItem GroupSign q) as [q' [[items|]|er|]]; cbn [ocatch]; reflexivity.
Qed.

(** *** The section *)

Definition set_in (g : InFlow -> InFlow) (b : BR) : BR := set_flows (g (br_in b)) (br_out b) b.

Lemma solo_store_in g (k : T) (b : BR) : solo (do* store_in g in k) b = solo k (set_in g b).
Proof. reflexivity. Qed.
Lemma solo_look {A} (f : BR -> A) (k : A -> T) (b : BR) : solo (look f k) b = solo (k (f b)) b.
Proof. reflexivity. Qed.

Lemma on_in_bind {A D} (m : M (J * InFlow) A) (f : A -> M (J * InFlow) D) (b : BR) : on_in (bind m f) b = bind (on_in m) (fun a => on_in (f a)) b.
Proof. unfold on_in, bind. destruct (m _) as [[j fl] [a|e|]]; cbn; [|done..]. by destruct (f a _) as [[? ?] ?]. Qed.

Lemma starting_in_get (f : J * InFlow -> M (J * InFlow) unit) (b : BR) :
  starting (X := kind * T) [] (on_in (bind get f)) b = starting [] (on_in (f (br_jolt b, br_in b))) b.
Proof. reflexivity. Qed.
Lemma starting_in_flow g (f : unit -> M (J * InFlow) unit) (b : BR) :
  starting (X := kind * T) [] (on_in (bind (on_flow g) f)) b = starting [] (on_in (f tt)) (set_in g b).
Proof. reflexivity. Qed.
Lemma starting_in_end g (b : BR) : starting (X := kind * T) [] (on_in (on_flow g)) b = ret [] (set_in g b).
Proof. reflexivity. Qed.
Lemma starting_in_ret (b : BR) : starting (X := kind * T) [] (on_in (ret tt)) b = ret [] b.
Proof. by destruct b. Qed.

Lemma put_back_in_sure (b : BR) e : (mint_on _ putOnHoldBlockInBoundBack b).2 <> Fail e.
Proof using KL GL LR.
  intros He. pose proof (put_back_in_alone Finished b) as H. unfold bind in H. destruct (mint_on _ _ b) as [b1 r]. cbn in He. subst r.
  by apply solo_sure in H.
Qed.

Lemma starting_in_bind {A} (m : M (J * InFlow) A) f (b : BR) : (forall e, (on_in m b).2 <> Fail e) ->
  starting (X := kind * T) [] (on_in (bind m f)) b = bind (on_in m) (fun a => starting [] (on_in (f a))) b.
Proof.
  intros Hm. rewrite <- starting_sure by done. unfold starting. apply bind_cong; [|done]. unfold try. by rewrite on_in_bind.
Qed.

Lemma starting_in_put_back_end (b : BR) : starting (X := kind * T) [] (on_in (Flow.on_mint putOnHoldBlockInBoundBack)) b =
  bind (mint_on _ putOnHoldBlockInBoundBack) (fun _ => ret []) b.
Proof using KL GL LR.
  pose proof (put_back_in_sure b) as H. unfold starting, bind, try, mint_on in *. destruct (on_in _ b) as [b1 [[]|e|]]; [done|by destruct (H e)|done].
Qed.

Lemma on_in_keygen {A} (m : M (J * InFlow) A) (b b' : BR) r : on_in m b = (b', r) -> br_keygen b' = br_keygen b.
Proof. unfold on_in. destruct (m _) as [[j f] r']. by intros [= <- _]. Qed.

Lemma inbound_section_alone pools lh cur pb (b : BR) :
  solo (inbound_section_thread (Msg := Msg) pools lh cur pb) b =
  starting [] (on_in (inbound_section (Msg := Msg) (slot1 pools) (br_keygen b) lh cur pb)) b.
Proof using KL GL LR.
  unfold inbound_section_thread. rewrite solo_look. cbv zeta. unfold inbound_section. rewrite starting_in_get. cbn [snd].
  match goal with |- solo (if _ then _ else ?k) _ = starting _ (on_in (bind _ (fun _ => ?r))) _ =>
    assert (forall b1, br_keygen b1 = br_keygen b -> solo k b1 = starting [] (on_in r) b1) as Hk end.
  2: { destruct (5 <? in_failed (br_in b)).
    - rewrite !solo_store_in, starting_in_flow. rewrite Hk by done. reflexivity.
    - rewrite Hk by done. reflexivity. }
  intros b1 Hkg. rewrite solo_look, starting_in_get. cbn [snd]. destruct (lh <? Flow.inboundPauseHeight (br_in b1)).
  - destruct (lh =? _); [|by rewrite starting_in_ret]. by rewrite put_back_in_alone, starting_in_put_back_end.
  - rewrite solo_store_in, solo_look, starting_in_flow, starting_in_get. cbn [snd].
    assert (br_keygen (set_in (fun f => in_set_pause (Flow.inboundPauseHeight f) false f) b1) = br_keygen b) as Hkg2 by done.
    revert Hkg2. generalize (set_in (fun f => in_set_pause (Flow.inboundPauseHeight f) false f) b1). clear b1 Hkg. intros b2 Hkg.
    match goal with |- solo (if _ then _ else ?k) _ = starting _ (on_in (bind _ (fun _ => ?r))) _ =>
      assert (forall b1, br_keygen b1 = br_keygen b -> solo k b1 = starting [] (on_in r) b1) as Hk end.
    2: { destruct (IsEmpty (in_q (br_in b2))).
      - rewrite put_back_in_alone, starting_in_bind by apply put_back_in_sure. apply bind_cong; [done|]. intros [] b3 H3. apply Hk. rewrite <- Hkg. by eapply on_in_keygen.
      - by rewrite Hk. }
    clear b2 Hkg. intros b2 Hkg. rewrite !solo_look, starting_in_get. cbn [snd].
    destruct ((_ <=? _) && _); [|by rewrite starting_in_ret]. rewrite !solo_look. destruct ((_ <? _) && _); [done|].
    unfold feed_if_done_in. rewrite !solo_look. destruct (negb (inBoundProcessDone (br_in b2))); [by rewrite starting_in_ret|].
    rewrite solo_look, Hkg. destruct (br_keygen b); [by rewrite starting_in_ret|]. destruct (slot1 pools) as [pool|]; [|by destruct b2].
    rewrite feed_inbound_alone, starting_in_bind; [apply bind_cong; [done|]; by intros r b3 _|].
    intros e. unfold on_in, try. by destruct (feed_inbound _ _) as [[j f] [[]|e'|]].
Qed.

(** *** The block *)

Lemma submit_pool_sure (el : TssPoolMsg Msg) (j : J) e : (submit_pool el j).2 <> Fail e.
Proof. unfold submit_pool, bind. destruct (try _ j) as [j' [[[ok tx]|er]|er|]] eqn:Et; [by intros [=]..|by apply try_not_fail in Et|by intros [=]]. Qed.

Lemma check_pool_alone h (k : T) (b : BR) : solo (check_pool_thread (Msg := Msg) h k) b = bind (on_keygen (CheckAndUpdatePool h)) (fun _ => solo k) b.
Proof.
  destruct b as [e s j p fi fo v ca kg jb tl cur]. unfold check_pool_thread. rewrite solo_look. cbn [br_cache].
  unfold CheckAndUpdatePool, on_keygen, bind, get. cbn [br_jolt br_vals br_cache br_keygen keyGenCache].
  destruct ca as [|el ca]; [reflexivity|]. destruct (tp_blockHeight el <=? h); [|reflexivity]. cbn [solo]. unfold bind, try, on_jolt, on_knode. cbn [br_jolt kg_node].
  pose proof (submit_pool_sure el j) as Hs. destruct (submit_pool el j) as [j' [[]|er|]]; [reflexivity..|by destruct (Hs er)|reflexivity].
Qed.

Lemma CheckAndUpdatePool_sure h (b : BR) e : (on_keygen (CheckAndUpdatePool h) b).2 <> Fail e.
Proof.
  unfold CheckAndUpdatePool, on_keygen, bind, get. cbn [keyGenCache]. destruct (br_cache b) as [|el ca]; [by intros [=]|].
  destruct (tp_blockHeight el <=? h); [|by intros [=]]. unfold on_knode. cbn [kg_node].
  pose proof (submit_pool_sure el (br_jolt b)) as Hs. destruct (submit_pool el (br_jolt b)) as [j' [[]|er|]]; [by intros [=]..|by destruct (Hs er)|by intros [=]].
Qed.

Lemma on_keygen_pools {A} (m : M (KeygenState J Msg) A) (b b' : BR) r : on_keygen m b = (b', r) -> br_pools b' = br_pools b.
Proof. unfold on_keygen. destruct (m _). by intros [= <- _]. Qed.
Lemma on_jolt_pools {A} (m : M J A) (b b' : BR) r : try (on_jolt m) b = (b', r) -> br_pools b' = br_pools b.
Proof. unfold try, on_jolt. destruct (m _) as [j o]. by intros [= <- _]. Qed.

Lemma CheckOutBoundTx_sure {L} `{BL : BridgeTokenListI L} (tl : L) fm slots n tx : sure (CheckOutBoundTx tl fm slots n tx).
Proof. unfold CheckOutBoundTx, check_msg. repeat sure_step. Qed.

Lemma scan_sure n (el : bytes) :
  sure (let! b := get in on_payouts (W := W) (C := C) (J := J) (Msg := Msg) (CheckOutBoundTx (br_tokens b) feeModule (jc_pools (br_pools b)) n el)).
Proof.
  apply sure_bind; [apply sure_get|]. intros b b' e. unfold on_payouts. pose proof (CheckOutBoundTx_sure (br_tokens b) feeModule (jc_pools (br_pools b)) n el (out_q (br_out b')) e) as H.
  by destruct (CheckOutBoundTx _ _ _ _ _ _).
Qed.

Lemma do_all_alone {A} (f : A -> M BR unit) l (k : T) (b : BR) : (forall a, sure (f a)) -> solo (do_all f l k) b = bind (forM l f) (fun _ => solo k) b.
Proof.
  intros Hf. revert b. induction l as [|a l IH]; intros b; cbn [do_all forM]; [done|]. cbn [solo]. rewrite bind_then, bind_sure by apply Hf.
  apply bind_cong; [done|]. intros [] b1 _. apply IH.
Qed.

Lemma jolt_block_run h (b : BR) : solo (jolt_block_thread (Msg := Msg) ReadFile Unmarshal feeModule oppyRollbackGap h) b =
  starting [(KHealth, health_check_thread)]
    (jolt_block (Msg := Msg) ReadFile Unmarshal feeModule oppyRollbackGap h) b.
Proof using KL GL LR.
  unfold jolt_block_thread.
  match goal with |- solo (Spawn _ _ ?k) _ = starting _ ?m _ => assert (solo k b = starting [] m b) as H end.
  2: { match goal with |- solo (Spawn ?kd ?t ?k) _ = _ => change (solo (Spawn kd t k) b) with (bind (solo k) (fun new => ret ((kd, t) :: new)%list) b) end.
    unfold bind at 1. rewrite H. unfold starting, bind, ret. by destruct (try _ b) as [b1 [r|e|]]. }
  unfold jolt_block. rewrite starting_try. cbn [solo]. apply bind_cong; [done|]. intros [[]|e] b1 _; [|done].
  rewrite starting_try. cbn [solo]. apply bind_cong; [done|]. intros [lh|e] b2 _; [|done].
  rewrite check_pool_alone.
  match goal with |- _ = starting [] (bind get ?f) _ => change (starting [] (bind get f) b2) with (starting (X := kind * T) [] (f b2) b2) end. cbv beta zeta.
  unfold jolt_block_prefix. rewrite starting_then, starting_sure by (intros; apply CheckAndUpdatePool_sure).
  apply bind_cong; [done|]. intros [ok pk] b3 Hb3%on_keygen_pools. rewrite starting_then, starting_try. cbn [solo].
  apply bind_cong; [done|]. intros r b4 Hb4%on_jolt_pools. destruct r as [l|e]; [|done].
  destruct l as [|qc0 [|qc1 [|]]]; try done. rewrite solo_look, <- Hb3, <- Hb4. cbv zeta.
  clear Hb3 Hb4. generalize (jc_pools (br_pools b4)). intros pools. clear b1 b2 b3. rewrite starting_then, starting_bind. cbn [solo].
  apply bind_cong; [done|]. intros [[|]|e] b5 _; [|done..]. cbn [negb]. rewrite starting_then.
  match goal with |- _ = starting [] (bind _ ?g) _ => assert (forall pb b6,
    solo (do* set_CurrentHeight h in do* on_tokens (UpdateTokenList ReadFile Unmarshal h) in inbound_section_thread pools lh h pb) b6 =
    starting [] (g (Some pb)) b6) as Htail end.
  { intros pb b6. cbn [solo]. rewrite starting_then, starting_sure by done. rewrite bind_sure by done. apply bind_cong; [done|].
    intros [] b7 _. rewrite starting_then, starting_try. apply bind_cong; [done|]. intros r b8 _. apply inbound_section_alone. }
  destruct (oppyRollbackGap <? h); [|exact (Htail 0 b5)]. rewrite starting_then, starting_try. cbn [solo].
  apply bind_cong; [done|]. intros [txs|e] b6 _; [|done]. rewrite starting_then, starting_try. cbn [solo].
  apply bind_cong; [done|]. intros [[|]|e] b7 _; [|done..].
  rewrite do_all_alone by apply scan_sure. rewrite starting_then, starting_sure by (apply sure_forM, scan_sure).
  apply bind_cong; [done|]. intros [] b8 _. exact (Htail _ b8).
Qed.

(** *** The mint round *)

Lemma already_exists_sure index : sure (already_exists (W := J) index).
Proof. unfold already_exists, issue_query. apply sure_bind; [|intros; apply sure_ret]. intros j e. by destruct (queryGivenToeknIssueTx index j) as [j' [r|er|]]. Qed.

Lemma ask_each_alone items need (k : list InBoundReq -> T) (b : BR) :
  solo (ask_each (Msg := Msg) items need k) b = bind (on_jolt (not_yet_minted items)) (fun l => solo (k (need ++ l)%list)) b.
Proof.
  revert need b. induction items as [|item items IH]; intros need b; cbn [ask_each not_yet_minted].
  - unfold bind, on_jolt, ret. cbn. rewrite app_nil_r. by destruct b.
  - cbn [solo]. unfold bind, try. rewrite mint_on_node. unfold on_jolt at 1 2.
    pose proof (already_exists_sure (Hash_Hex (InBoundReq_Hash item)) (br_jolt b)) as Hs.
    destruct (already_exists _ (br_jolt b)) as [j [yes|e|]]; cbn [ocatch]; [|by destruct (Hs e)|done].
    rewrite IH. unfold bind, on_jolt. cbn [br_jolt br_eth br_bsc br_pools br_in br_out br_vals br_cache br_keygen br_jobs br_tokens CurrentHeight].
    destruct (not_yet_minted items j) as [j' [l|e|]]; [|done..]. unfold ret. destruct yes; [done|]. by rewrite <- app_assoc.
Qed.

Lemma not_yet_minted_sure items : sure (not_yet_minted (W := J) items).
Proof.
  induction items as [|item items IH]; cbn [not_yet_minted]; [apply sure_ret|]. apply sure_bind; [apply already_exists_sure|]. intros yes.
  apply sure_bind; [exact IH|]. intros l. apply sure_ret.
Qed.

Lemma on_jolt_sure {A} (m : M J A) : sure m -> sure (on_jolt (W := W) (C := C) (Msg := Msg) m).
Proof. intros Hm b e. unfold on_jolt. pose proof (Hm (br_jolt b) e) as H. by destruct (m _). Qed.

Lemma mint_go_waits itemsMap i : acts (fun D m => waits_on m) (mint_go itemsMap i).
Proof using GL.
  unfold mint_go, JoltCheckTxStatus_go. apply acts_bind; [split; [apply waits_on_node|done]|]. intros [?|?]; [|exact Logic.I].
  rewrite retry_go_spec by lia. apply acts_bind; [apply acts_retry; split; [apply waits_on_node|done]|]. intros [?|?]; [by split|].
  apply acts_bind; [by split|]. intros w. apply acts_bind; [by destruct w as [[]|]|]. intros _. split; [|done].
  destruct (itemsMap !! i); [apply waits_on_queue|apply waits_on_panic].
Qed.

Lemma check_minted_waits itemsMap i : waits_on (check_minted (W := J) itemsMap i).
Proof.
  unfold check_minted. apply waits_on_bind; [apply waits_on_try, waits_on_node|]. intros [?|?]; [|done].
  apply waits_on_bind; [apply waits_on_try, waits_on_node|]. intros [?|?]; [done|]. apply waits_on_bind; [done|]. intros w.
  apply waits_on_bind; [by destruct (inBoundWait w)|]. intros _. destruct (itemsMap !! i); [apply waits_on_queue|apply waits_on_panic].
Qed.

(** On-hold queueing of the whole batch. *)
Lemma hold_all_alone items (k : T) (b : BR) : solo (do_all (fun el => mint_on _ (on_mq (AddOnHoldQueue el))) items k) b =
  bind (mint_on _ (forM items (fun el => on_mq (AddOnHoldQueue el)))) (fun _ => solo k) b.
Proof.
  revert b. induction items as [|a l IH]; intros b; cbn [do_all forM].
  - unfold bind. by rewrite mint_on_ret.
  - rewrite (bind_cong (mint_on _ (bind _ _)) _ _ _ b (mint_on_bind _ _ _ (waits_on_queue _)) (fun a s' _ => eq_refl)), bind_then. cbn [solo].
    rewrite bind_sure by (intros e; by apply mint_queue_sure). apply bind_cong; [done|]. intros [] b1 _. apply IH.
Qed.

Lemma mint_round_alone items (b : BR) :
  solo (mint_thread (Msg := Msg) items) b = bind (mint_on _ (processInbound (Msg := Msg) items)) (fun _ => solo mint_over) b.
Proof using KL GL LR.
  unfold mint_thread, processInbound. cbv zeta. cbn [solo].
  rewrite (bind_cong (mint_on _ (bind _ _)) _ _ _ b (mint_on_bind _ _ _ (waits_on_try _ (waits_on_node _))) (fun a s' _ => eq_refl)), bind_then.
  apply bind_cong; [by rewrite mint_try_node|]. intros [[]|e] b1 _; [|unfold bind; by rewrite mint_on_ret].
  rewrite ask_each_alone. cbn [app].
  rewrite (bind_cong (mint_on _ (bind _ _)) _ _ _ b1 (mint_on_bind _ _ _ (waits_on_node _)) (fun a s' _ => eq_refl)), bind_then.
  apply bind_cong; [by rewrite mint_on_node|]. intros [|item0 need] b2 _; [reflexivity|].
  rewrite (bind_cong (mint_on _ (bind _ _)) _ _ _ b2 (mint_on_bind _ _ _ (waits_on_try _ (waits_on_node _))) (fun a s' _ => eq_refl)), bind_then.
  cbn [solo]. apply bind_cong; [by rewrite mint_try_node|]. intros [m|e] b3 _; [|apply hold_all_alone].
  apply mint_group_alone; [|apply check_minted_waits|apply mint_go_alone]. intros i. split; [apply mint_go_only_acts|apply mint_go_waits].
Qed.

Lemma mint_end_alone items (b : BR) : bind (mint_on _ (processInbound (Msg := Msg) items)) (fun _ => solo mint_over) b =
  starting [] (do! mint_on _ (processInbound (Msg := Msg) items) in store_in (in_set_done true)) b.
Proof using KL GL LR.
  rewrite starting_sure; [apply bind_cong; [done|]; by intros [] b1 _|]. intros e He.
  pose proof (mint_round_alone items b) as H. unfold bind in H. destruct (mint_on _ _ b) as [b1 r]. cbn in He. subst r. by apply solo_sure in H.
Qed.
End Deposits.

(** ** Properties *)

Section Properties.
Context {W C J Msg : Type} `{EC : EthClient W C} `{TW : TssServer W} `{CN : CosmosNode J Msg} `{TJ : TssServer J} `{JS : JoltService J}.
Context `{JB : JoltBlocks J} `{JCn : JoltConnection J} `{KG : KeygenServer J Msg}.
Context `{G : EthSigner} `{S : SdkMath} `{N : SdkCoins} `{B : Bech32} `{E : Eth} `{K : Backoff} `{KL : !BackoffLaws K} `{R : GoRuntime} `{LR : !GoRuntimeLaws R}.
Context `{GK : GoBackoff} `{GL : !GoBackoffLaws GK} `{AB : TokenAbi} `{JH : !JoltHandler} `{MC : MemoCodec} `{JN : !JoltNode}.
Context (attempts submits : nat) (HexToHash : string -> bytes).
Context (GetConsAddress : bytes -> bytes) (Address_String : bytes -> string) (myValidatorKey : string).
Context (ReadFile : outcome bytes) (Unmarshal : bytes -> outcome (list TokenItem)).
Context (feeModule : gmap string FeeModule) (oppyRollbackGap pubRollbackGap : Z).
#[local] Notation BR := (Bridge W C J Msg).
#[local] Notation on_arrival := (on_arrival (W := W) (C := C) (J := J) (Msg := Msg) attempts submits HexToHash GetConsAddress Address_String
  myValidatorKey ReadFile Unmarshal feeModule oppyRollbackGap pubRollbackGap).
#[local] Notation handle := (handle (W := W) (C := C) (J := J) (Msg := Msg) attempts submits HexToHash GetConsAddress Address_String
  myValidatorKey ReadFile Unmarshal feeModule oppyRollbackGap pubRollbackGap).

End Properties.

(** ** Witnesses *)

Section Witnesses.
#[local] Existing Instance eth_client_ref.
#[local] Existing Instance tss_ref.
#[local] Existing Instance cosmos_ref.
#[local] Existing Instance tss_cos_ref.
#[local] Existing Instance EventLoop.blocks_ref.
#[local] Existing Instance EventLoop.connection_ref.
#[local] Existing Instance EventLoop.keygen_ref.
#[local] Existing Instance eth_signer_ref.
#[local] Existing Instance sdk_math_ref.
#[local] Existing Instance sdk_coins_ref.
#[local] Existing Instance bech32_ref.
#[local] Existing Instance eth_ref.
#[local] Existing Instance backoff_ref.
#[local] Existing Instance go_backoff_ref.
#[local] Existing Instance go_runtime_ref.
#[local] Existing Instance abi_ref.
#[local] Existing Instance handler_ref.

#[local] Notation arrival_ref := (on_arrival (C := unit) (JS := jolt_ref true) (MC := memo_ref "JOLTIFY") (JN := node_ref "BSC")
  4 3 (fun _ => []) (fun b => b) hex_EncodeToString "" (Fail "no file") (fun _ => Fail "no file") ∅ 3 3).
#[local] Notation handle_ref := (handle (C := unit) (JS := jolt_ref true) (MC := memo_ref "JOLTIFY") (JN := node_ref "BSC")
  4 3 (fun _ => []) (fun b => b) hex_EncodeToString "" (Fail "no file") (fun _ => Fail "no file") ∅ 3 3).

End Witnesses.
