(* ===== verification/Intake.v ===== *)
(** * From the subscriptions to the loop: the event channels

    The nodes' subscriptions fill four channels (the heads of the two public
    chains, the blocks and the churn events of the joltify chain).  The loop
    of addEventLoop moves each event from there to a buffered queue, from
    which it takes it again to handle it; a goroutine that renews a client
    drains the old channel into the same queue before it puts the channel of
    the new subscription in its place (UpdateSubscription,
    UpdateSubscribe).  Here receiving, sending and replacing are single
    steps, in any order, and a send waits for room. *)

From Stdlib Require Import Ascii String.
From S2P Require Import Prelude GoLib Sdk Requests Fees ItemQueue TokenList Signature MoveFundQueue Pools Validators PubClient Keysign Goroutine Threads TxSend SendPrograms MoveFund Inbound Outbound CosTx Keygen Processing MintRound Flow JoltClient EventLoop Wellformed BridgeThreads.

#[local] Open Scope string_scope.
#[local] Open Scope Z_scope.
#[local] Open Scope go_scope.

(** ** Definitions *)

(** The subscriptions and the queues. *)
Inductive source := EthHeads | BscHeads | JoltBlocks | JoltChurns.
Inductive queue_name := HeadQueue | BlockQueue | ChurnQueue.

#[export] Instance source_eq_dec : EqDecision source.
Proof. solve_decision. Defined.
#[export] Instance queue_name_eq_dec : EqDecision queue_name.
Proof. solve_decision. Defined.

(** The two public chains share one queue. *)
Definition queue_of (s : source) : queue_name :=
  match s with EthHeads | BscHeads => HeadQueue | JoltBlocks => BlockQueue | JoltChurns => ChurnQueue end.

(** pubchain/types.go and cosbridge/types.go *)
Definition sbchannelsize : nat := 20000.
Definition channelSize : nat := 2000.
Definition capacity (q : queue_name) : nat := match q with HeadQueue => sbchannelsize | _ => channelSize end.

Section Intake.
Context {P : Type}.
#[local] Notation item := (source * P)%type.

(** A renewal of the client: [Unsubscribe], the new subscription with what
    waits in its channel, the event the draining loop has received. *)
Inductive renewal :=
| NoRenewal
| Unsubscribed
| Draining (fresh : list P) (in_hand : option P).

(** A subscription: the channel the loop receives from. *)
Record subscription := mkSub { waiting_in : list P; live : bool; renewing : renewal }.

(** The loop waits in its select statement, has received an event that it
    sends to its queue, or handles one. *)
Inductive loop_state := Selecting | Forwarding (e : item) | Handling.

(** [seen] and [handled]: all events delivered so far, and all taken from
    their queue so far, in order. *)
Record intake := mkIntake {
  subs_of : source -> subscription;
  queues : queue_name -> list item;
  loop_at : loop_state;
  seen : list item;
  handled : list item;
}.

Definition set_sub (s : source) (x : subscription) (i : intake) : intake :=
  mkIntake (fun s' => if decide (s' = s) then x else subs_of i s') (queues i) (loop_at i) (seen i) (handled i).
Definition set_queue (q : queue_name) (l : list item) (i : intake) : intake :=
  mkIntake (subs_of i) (fun q' => if decide (q' = q) then l else queues i q') (loop_at i) (seen i) (handled i).
Definition set_loop (l : loop_state) (i : intake) : intake := mkIntake (subs_of i) (queues i) l (seen i) (handled i).
Definition saw (e : item) (i : intake) : intake := mkIntake (subs_of i) (queues i) (loop_at i) (seen i ++ [e]) (handled i).
Definition took (e : item) (i : intake) : intake := mkIntake (subs_of i) (queues i) (loop_at i) (seen i) (handled i ++ [e]).

(** [ch <- e] on a buffered channel. *)
Definition room (i : intake) (q : queue_name) : Prop := (length (queues i q) < capacity q)%nat.
Definition send (e : item) (i : intake) : intake := set_queue (queue_of e.1) (queues i (queue_of e.1) ++ [e]) i.

Inductive istep : intake -> intake -> Prop :=
(** the node delivers an event *)
| i_deliver i s p l : subs_of i s = mkSub l true NoRenewal -> istep i (saw (s, p) (set_sub s (mkSub (l ++ [p]) true NoRenewal) i))
| i_deliver_new i s p l b f h : subs_of i s = mkSub l b (Draining f h) ->
    istep i (saw (s, p) (set_sub s (mkSub l b (Draining (f ++ [p]) h)) i))
(** [case head := <-pi.EthChain.SubChannelNow] and [pi.ChannelQueue <- &block] *)
| i_receive i s p l b r : loop_at i = Selecting -> subs_of i s = mkSub (p :: l) b r ->
    istep i (set_loop (Forwarding (s, p)) (set_sub s (mkSub l b r) i))
| i_forward i e : loop_at i = Forwarding e -> room i (queue_of e.1) -> istep i (set_loop Selecting (send e i))
(** [case blockHead := <-pi.ChannelQueue] up to the end of the case *)
| i_take i q e l : loop_at i = Selecting -> queues i q = e :: l -> istep i (set_loop Handling (took e (set_queue q l i)))
| i_handled i : loop_at i = Handling -> istep i (set_loop Selecting i)
(** another case of the select statement *)
| i_begin i : loop_at i = Selecting -> istep i (set_loop Handling i)
(** [renewEthClientWithLock], one at a time *)
| i_unsubscribe i s l b : subs_of i s = mkSub l b NoRenewal -> istep i (set_sub s (mkSub l false Unsubscribed) i)
| i_subscribe_fails i s l b : subs_of i s = mkSub l b Unsubscribed -> istep i (set_sub s (mkSub l b NoRenewal) i)
| i_subscribe i s l b : subs_of i s = mkSub l b Unsubscribed -> istep i (set_sub s (mkSub l b (Draining [] None)) i)
| i_drain i s p l b f : subs_of i s = mkSub (p :: l) b (Draining f None) -> istep i (set_sub s (mkSub l b (Draining f (Some p))) i)
| i_drain_send i s p l b f : subs_of i s = mkSub l b (Draining f (Some p)) -> room i (queue_of s) ->
    istep i (send (s, p) (set_sub s (mkSub l b (Draining f None)) i))
| i_replace i s b f : subs_of i s = mkSub [] b (Draining f None) -> istep i (set_sub s (mkSub f true NoRenewal) i).

(** All subscriptions made, nothing delivered. *)
Definition fresh_intake : intake := mkIntake (fun _ => mkSub [] true NoRenewal) (fun _ => []) Selecting [] [].
Definition intake_reaches (i : intake) : Prop := rtc istep fresh_intake i.

(** Where the events are. *)
Definition with_renewal (s : source) (r : renewal) : list item :=
  match r with Draining f h => (option_list (pair s <$> h) ++ map (pair s) f)%list | _ => [] end.
Definition with_sub (i : intake) (s : source) : list item :=
  (map (pair s) (waiting_in (subs_of i s)) ++ with_renewal s (renewing (subs_of i s)))%list.
Definition with_loop (i : intake) : list item := match loop_at i with Forwarding e => [e] | _ => [] end.
Definition all_sources : list source := [EthHeads; BscHeads; JoltBlocks; JoltChurns].
Definition all_queues : list queue_name := [HeadQueue; BlockQueue; ChurnQueue].
Definition in_queues (i : intake) : list item := concat (map (queues i) all_queues).
Definition in_subs (i : intake) : list item := concat (map (with_sub i) all_sources).
Definition under_way (i : intake) : list item := (in_queues i ++ with_loop i ++ in_subs i)%list.

(** The events of one source, in order. *)
Definition of_source (s : source) (l : list item) : list item := List.filter (fun e => bool_decide (e.1 = s)) l.

(** What somebody has received from the channel of [s] and not sent yet. *)
Definition in_hands (s : source) (i : intake) : list item :=
  (of_source s (with_loop i) ++ match renewing (subs_of i s) with Draining _ h => option_list (pair s <$> h) | _ => [] end)%list.
Definition fresh_of (s : source) (i : intake) : list item :=
  match renewing (subs_of i s) with Draining f _ => map (pair s) f | _ => [] end.

(** Steps between states in which the loop and the draining goroutine do not
    both have an event of [s]. *)
Definition apart_step (s : source) (i i' : intake) : Prop :=
  istep i i' /\ (length (in_hands s i) <= 1)%nat /\ (length (in_hands s i') <= 1)%nat.

(** Steps that neither begin nor end a case of the loop. *)
Definition channel_step (i i' : intake) : Prop := istep i i' /\ (loop_at i' = Handling <-> loop_at i = Handling).

(** The loop cannot send what it has received. *)
Definition self_blocked (i : intake) : Prop := exists e, loop_at i = Forwarding e /\ ~ room i (queue_of e.1).
End Intake.
Arguments renewal : clear implicits.
Arguments subscription : clear implicits.
Arguments intake : clear implicits.

(** *** The service behind the channels *)

(** What the channels carry: a header of a public chain, the data of an event
    of the joltify chain (of a new block, or of another type). *)
Inductive payload := Header (number : Z) | EventData (new_block : option Z).

(** The case of the select statement an event belongs to.  The type of a
    channel, and the query of the block subscription, leave no other
    payloads. *)
Definition arrival_of (e : source * payload) : option arrival :=
  match e with
  | (EthHeads, Header n) => Some (ArrPubHead (mkBlockHead n "ETH"))
  | (BscHeads, Header n) => Some (ArrPubHead (mkBlockHead n "BSC"))
  | (JoltBlocks, EventData (Some height)) => Some (ArrJoltBlock height)
  | (JoltChurns, EventData d) => Some (ArrValidators (bool_decide (is_Some d)))
  | _ => None
  end.

Section Process.
Context {St : Type} (handler : arrival -> thread kind St).

(** A step of the threads that is not an arrival. *)
Definition quiet_step : service kind St -> service kind St -> Prop := svc_step (fun e : Empty_set => match e with end).

Record process := mkProcess { channels : intake payload; svc : service kind St }.

(** One loop: its state in the channels and its thread in the service move
    together. *)
Inductive pstep : process -> process -> Prop :=
| p_threads i c c' : quiet_step c c' -> pstep (mkProcess i c) (mkProcess i c')
| p_channels i i' c : channel_step i i' -> pstep (mkProcess i c) (mkProcess i' c)
| p_take i q e l a s os : loop_at i = Selecting -> queues i q = e :: l -> arrival_of e = Some a ->
    pstep (mkProcess i (mkSvc s Finished os)) (mkProcess (set_loop Handling (took e (set_queue q l i))) (mkSvc s (handler a) os))
| p_other i a s os : loop_at i = Selecting -> a ∈ [ArrInbound; ArrOutbound; ArrTimeAfter] ->
    pstep (mkProcess i (mkSvc s Finished os)) (mkProcess (set_loop Handling i) (mkSvc s (handler a) os))
| p_done i s os : loop_at i = Handling -> pstep (mkProcess i (mkSvc s Finished os)) (mkProcess (set_loop Selecting i) (mkSvc s Finished os)).

(** addEventLoop on the state [s]. *)
Definition start_process (s : St) : process := mkProcess fresh_intake (mkSvc s Finished []).
Definition process_reaches (s : St) (x : process) : Prop := rtc pstep (start_process s) x.
End Process.
Arguments process : clear implicits.

(** The channels of [c] are those of the subscription [s]. *)
Definition sees {W C} (s : source) (c : ChainInfo W C) (i : intake payload) : Prop :=
  queue_of s = HeadQueue /\ arrival_of (s, Header 0) = Some (ArrPubHead (mkBlockHead 0 (ChainType c))) /\
  waiting_in (subs_of i s) = map Header (SubChannelNow c) /\ renewing (subs_of i s) = NoRenewal /\
  map arrival_of (of_source s (queues i HeadQueue)) = map (fun h => Some (ArrPubHead h)) (ChannelQueue c).

(** ** Lemmas *)

(** A sum over a list in which one summand changes. *)
Lemma concat_focus {A B} (f : A -> list B) (l : list A) (a : A) : NoDup l -> a ∈ l -> exists rest,
  forall g : A -> list B, (forall x, x <> a -> g x = f x) -> concat (map g l) ≡ₚ (g a ++ rest)%list.
Proof.
  intros Hnd Ha. apply list_elem_of_split in Ha as (l1 & l2 & ->). exists (concat (map f l1) ++ concat (map f l2))%list. intros g Hg.
  apply NoDup_app in Hnd as (_ & H1 & (H2 & _)%NoDup_cons).
  assert (forall l', a ∉ l' -> map g l' = map f l') as Hl.
  { intros l' Hn. apply map_ext_in. intros x Hx%list_elem_of_In. apply Hg. intros ->. by apply Hn. }
  rewrite map_app, concat_app. cbn. rewrite !Hl; [solve_Permutation|done|]. intros Hn. apply (H1 a Hn). left.
Qed.

Section IntakeLemmas.
Context {P : Type}.
#[local] Notation item := (source * P)%type.
#[local] Notation IN := (intake P).

Lemma source_in s : s ∈ all_sources.
Proof. destruct s; set_solver. Qed.
Lemma queue_in q : q ∈ all_queues.
Proof. destruct q; set_solver. Qed.
Lemma sources_NoDup : NoDup all_sources.
Proof. apply (bool_decide_unpack (NoDup all_sources)). vm_compute. exact Logic.I. Qed.
Lemma queues_NoDup : NoDup all_queues.
Proof. apply (bool_decide_unpack (NoDup all_queues)). vm_compute. exact Logic.I. Qed.

Lemma subs_of_set s x (i : IN) : subs_of (set_sub s x i) s = x.
Proof. cbn. by rewrite decide_True. Qed.
Lemma queues_set q l (i : IN) : queues (set_queue q l i) q = l.
Proof. cbn. by rewrite decide_True. Qed.

(** What changes when a subscription or a queue does. *)
Lemma in_subs_set (i : IN) s : exists rest,
  in_subs i ≡ₚ (map (pair s) (waiting_in (subs_of i s)) ++ with_renewal s (renewing (subs_of i s)) ++ rest)%list /\
  forall x, in_subs (set_sub s x i) ≡ₚ (map (pair s) (waiting_in x) ++ with_renewal s (renewing x) ++ rest)%list.
Proof.
  destruct (concat_focus (with_sub i) all_sources s sources_NoDup (source_in s)) as [rest Hr]. exists rest. split; [|intros x]; rewrite app_assoc.
  - by apply Hr.
  - unfold in_subs. rewrite (Hr (with_sub (set_sub s x i))); [unfold with_sub; by rewrite subs_of_set|]. intros s' Hs. unfold with_sub. cbn. by rewrite decide_False.
Qed.

Lemma in_queues_set (i : IN) q : exists rest,
  in_queues i ≡ₚ (queues i q ++ rest)%list /\ forall l, in_queues (set_queue q l i) ≡ₚ (l ++ rest)%list.
Proof.
  destruct (concat_focus (queues i) all_queues q queues_NoDup (queue_in q)) as [rest Hr]. exists rest. split; [by apply Hr|]. intros l.
  unfold in_queues. rewrite (Hr (queues (set_queue q l i))); [by rewrite queues_set|]. intros q' Hq. cbn. by rewrite decide_False.
Qed.

Definition conserved (i : IN) : Prop := seen i ≡ₚ (handled i ++ in_queues i ++ with_loop i ++ in_subs i)%list.

#[local] Arguments in_subs : simpl never.
#[local] Arguments in_queues : simpl never.

(** An event in a queue is one more there. *)
Lemma in_queues_send e (i : IN) : in_queues (send e i) ≡ₚ (e :: in_queues i).
Proof. destruct (in_queues_set i (queue_of e.1)) as (rest & -> & Hnew). unfold send. rewrite Hnew. solve_Permutation. Qed.

Lemma conserved_step (i i' : IN) : istep i i' -> conserved i -> conserved i'.
Proof.
  unfold conserved. intros H IH.
  destruct H as [i s p l H|i s p l b f h H|i s p l b r Hl H|i e Hl Hroom|i q e l Hl H|i Hl|i Hl|i s l b H|i s l b H|i s l b H|i s p l b f H|i s p l b f H Hroom|i s b f H];
    try (destruct (in_subs_set i s) as (rest & Hold & Hnew); rewrite H in Hold; rewrite Hold in IH; cbn in IH).
  - change (seen i ++ [(s, p)] ≡ₚ handled i ++ in_queues i ++ with_loop i ++ in_subs (set_sub s (mkSub (l ++ [p]) true NoRenewal) i))%list.
    rewrite Hnew, IH. cbn. rewrite map_app. cbn. solve_Permutation.
  - change (seen i ++ [(s, p)] ≡ₚ handled i ++ in_queues i ++ with_loop i ++ in_subs (set_sub s (mkSub l b (Draining (f ++ [p]) h)) i))%list.
    rewrite Hnew, IH. cbn. rewrite map_app. cbn. solve_Permutation.
  - change (seen i ≡ₚ handled i ++ in_queues i ++ [(s, p)] ++ in_subs (set_sub s (mkSub l b r) i))%list.
    rewrite Hnew, IH. unfold with_loop. rewrite Hl. cbn. solve_Permutation.
  - change (seen i ≡ₚ handled i ++ in_queues (send e i) ++ [] ++ in_subs i)%list.
    rewrite in_queues_send, IH. unfold with_loop. rewrite Hl. solve_Permutation.
  - destruct (in_queues_set i q) as (rest & Hold & Hnew). rewrite H in Hold.
    change (seen i ≡ₚ (handled i ++ [e]) ++ in_queues (set_queue q l i) ++ [] ++ in_subs i)%list.
    rewrite Hnew, IH, Hold. unfold with_loop. rewrite Hl. solve_Permutation.
  - change (seen i ≡ₚ handled i ++ in_queues i ++ [] ++ in_subs i)%list. rewrite IH. unfold with_loop. rewrite Hl. solve_Permutation.
  - change (seen i ≡ₚ handled i ++ in_queues i ++ [] ++ in_subs i)%list. rewrite IH. unfold with_loop. rewrite Hl. solve_Permutation.
  - change (seen i ≡ₚ handled i ++ in_queues i ++ with_loop i ++ in_subs (set_sub s (mkSub l false Unsubscribed) i))%list. by rewrite Hnew, IH.
  - change (seen i ≡ₚ handled i ++ in_queues i ++ with_loop i ++ in_subs (set_sub s (mkSub l b NoRenewal) i))%list. by rewrite Hnew, IH.
  - change (seen i ≡ₚ handled i ++ in_queues i ++ with_loop i ++ in_subs (set_sub s (mkSub l b (Draining [] None)) i))%list. by rewrite Hnew, IH.
  - change (seen i ≡ₚ handled i ++ in_queues i ++ with_loop i ++ in_subs (set_sub s (mkSub l b (Draining f (Some p))) i))%list.
    rewrite Hnew, IH. cbn. solve_Permutation.
  - change (seen i ≡ₚ handled i ++ in_queues (send (s, p) i) ++ with_loop i ++ in_subs (set_sub s (mkSub l b (Draining f None)) i))%list.
    rewrite Hnew, in_queues_send, IH. cbn. solve_Permutation.
  - change (seen i ≡ₚ handled i ++ in_queues i ++ with_loop i ++ in_subs (set_sub s (mkSub f true NoRenewal) i))%list. rewrite Hnew, IH. cbn. solve_Permutation.
Qed.

Lemma conserved_reached (i : IN) : intake_reaches i -> conserved i.
Proof.
  intros H. assert (conserved (fresh_intake (P := P))) as H0 by (unfold conserved; reflexivity). revert H0. unfold intake_reaches in H.
  induction H as [i|i i1 i2 H _ IH]; [done|]. intros H0. apply IH. by eapply conserved_step.
Qed.

(** *** The queues *)

(** Within their capacity, with events of their sources only. *)
Definition queues_ok (i : IN) : Prop := forall q, (length (queues i q) <= capacity q)%nat /\ Forall (fun e => queue_of e.1 = q) (queues i q).

Lemma queues_ok_send e (i : IN) : queues_ok i -> room i (queue_of e.1) -> queues_ok (send e i).
Proof.
  intros Hi Hroom q. unfold send. cbn. destruct (decide (q = queue_of e.1)) as [->|]; [|apply Hi]. destruct (Hi (queue_of e.1)) as [H1 H2]. split.
  - rewrite length_app. unfold room in Hroom. cbn. lia.
  - apply Forall_app_2; [done|]. by constructor.
Qed.

Lemma queues_ok_step (i i' : IN) : istep i i' -> queues_ok i -> queues_ok i'.
Proof.
  intros H Hi. destruct H as [i s p l H|i s p l b f h H|i s p l b r Hl H|i e Hl Hroom|i q e l Hl H|i Hl|i Hl|i s l b H|i s l b H|i s l b H|i s p l b f H|i s p l b f H Hroom|i s b f H];
    try exact Hi.
  - by apply queues_ok_send.
  - intros q'. cbn. destruct (decide (q' = q)) as [->|]; [|apply Hi]. destruct (Hi q) as [H1 H2]. rewrite H in H1, H2. cbn in H1.
    apply Forall_cons_1 in H2 as [_ H2]. split; [lia|done].
  - by apply queues_ok_send.
Qed.

Lemma queues_ok_fresh : queues_ok (fresh_intake (P := P)).
Proof. intros q. split; [apply Nat.le_0_l|constructor]. Qed.

Lemma queues_ok_reached (i : IN) : intake_reaches i -> queues_ok i.
Proof.
  intros H. generalize queues_ok_fresh. unfold intake_reaches in H.
  induction H as [i|i i1 i2 H _ IH]; [done|]. intros H0. apply IH. by eapply queues_ok_step.
Qed.

(** *** The order *)

Definition ordered (s : source) (i : IN) : Prop :=
  (of_source s (handled i) ++ of_source s (queues i (queue_of s)) ++ in_hands s i ++ map (pair s) (waiting_in (subs_of i s)) ++ fresh_of s i)%list =
  of_source s (seen i).

Lemma of_source_app s (l1 l2 : list item) : of_source s (l1 ++ l2) = (of_source s l1 ++ of_source s l2)%list.
Proof. apply List.filter_app. Qed.
Lemma of_source_in s (l : list P) : of_source s (map (pair s) l) = map (pair s) l.
Proof. induction l as [|p l IH]; [done|]. cbn. rewrite bool_decide_true by done. by f_equal. Qed.
Lemma of_source_other s s' (l : list P) : s' <> s -> of_source s (map (pair s') l) = [].
Proof. intros Hs. induction l as [|p l IH]; [done|]. cbn. by rewrite bool_decide_false by done. Qed.
Lemma of_source_one s (p : P) : of_source s [(s, p)] = [(s, p)].
Proof. exact (of_source_in s [p]). Qed.
Lemma of_source_not s (e : item) : e.1 <> s -> of_source s [e] = [].
Proof. destruct e as [s' p]. intros Hs. exact (of_source_other s s' [p] Hs). Qed.
Lemma of_source_none s q (l : list item) : q <> queue_of s -> Forall (fun e => queue_of e.1 = q) l -> of_source s l = [].
Proof. intros Hq. induction 1 as [|e l He _ IH]; [done|]. cbn. rewrite bool_decide_false; [done|]. intros <-. by apply Hq. Qed.

#[local] Arguments of_source : simpl never.

Lemma ordered_step s (i i' : IN) : apart_step s i i' -> queues_ok i -> ordered s i -> ordered s i'.
Proof.
  intros (H & Hb & Ha) Hok. unfold ordered, in_hands, fresh_of, with_loop in *.
  destruct H as [i s' p l H|i s' p l b f h H|i s' p l b r Hl H|i e Hl Hroom|i q e l Hl H|i Hl|i Hl|i s' l b H|i s' l b H|i s' l b H|i s' p l b f H|i s' p l b f H Hroom|i s' b f H];
    cbn in *; revert Hb Ha; try rewrite Hl.
  1,2,3,8,9,10,11,12,13: destruct (decide (s = s')) as [<-|Hs]; [rewrite H|]; cbn.
  all: rewrite ?of_source_app, ?of_source_one, ?of_source_not by (cbn; congruence); cbn.
  all: try (intros _ _ <-; cbn; rewrite ?map_app, ?app_nil_r, <- ?app_assoc; reflexivity).
  - (* receive *) intros _ Ha <-. cbn in Ha. destruct r as [| |f h]; try done. destruct h; [cbn in Ha; lia|done].
  - (* drain_send *) rewrite decide_True by done. rewrite of_source_app, of_source_one, length_app. cbn. intros Hb _ <-.
    destruct (of_source s _) as [|e l']; [|cbn in Hb; lia]. cbn. by rewrite <- !app_assoc.
  - intros _ _ <-. destruct (decide _) as [Hq|]; [|done]. rewrite of_source_app, of_source_not by done. by rewrite Hq, app_nil_r.
  - (* forward *) destruct (decide (e.1 = s)) as [<-|He].
    + rewrite decide_True by done. destruct e as [s p]. cbn. rewrite of_source_app, !of_source_one. cbn. intros Hb _ <-.
      destruct (renewing (subs_of i s)) as [| |f [h|]]; cbn in *; try lia; by rewrite <- ?app_assoc.
    + intros _ _ <-. rewrite of_source_not by done. destruct (decide _) as [Hq|]; [|done]. rewrite of_source_app, of_source_not by done. by rewrite Hq, app_nil_r.
  - (* take *) intros _ _ <-. destruct (decide (queue_of s = q)) as [<-|Hq].
    + rewrite H. change (e :: l) with ([e] ++ l)%list. by rewrite of_source_app, <- !app_assoc.
    + assert (of_source s [e] = []) as ->; [|by rewrite app_nil_r]. apply (of_source_none s q); [congruence|]. destruct (Hok q) as [_ Hf].
      rewrite H in Hf. apply Forall_cons_1 in Hf as [He _]. by constructor.
Qed.

Lemma ordered_reached s (i : IN) : rtc (apart_step s) fresh_intake i -> ordered s i.
Proof.
  intros H. assert (ordered s (fresh_intake (P := P))) as H0 by reflexivity. pose proof queues_ok_fresh as Hok. revert H0 Hok.
  induction H as [i|i i1 i2 H _ IH]; [done|]. intros H0 Hok. apply IH; [by eapply ordered_step|]. by eapply queues_ok_step; [apply H|].
Qed.

(** *** The full queue *)

Lemma self_blocked_step (i i' : IN) : istep i i' -> self_blocked i -> self_blocked i' /\ handled i' = handled i /\ loop_at i' = loop_at i.
Proof.
  intros H (e & He & Hroom). unfold self_blocked, room in *.
  destruct H as [i s p l H|i s p l b f h H|i s p l b r Hl H|i e' Hl Hr|i q e' l Hl H|i Hl|i Hl|i s l b H|i s l b H|i s l b H|i s p l b f H|i s p l b f H Hr|i s b f H];
    cbn in *; try congruence; try (by split; [exists e|]).
  { exfalso. apply Hroom. rewrite He in Hl. injection Hl as <-. exact Hr. }
  split; [|done]. exists e. split; [done|]. destruct (decide _) as [Hq|]; [|done]. rewrite Hq in Hroom. by unfold room in Hr.
Qed.

(** The loop moves one event of [s] from the subscription towards its queue. *)
Lemma receive_one (p : P) s (i : IN) : loop_at i = Selecting -> subs_of i s = mkSub [] true NoRenewal -> exists i1, rtc channel_step i i1 /\
  loop_at i1 = Forwarding (s, p) /\ subs_of i1 s = mkSub [] true NoRenewal /\ queues i1 = queues i.
Proof.
  intros Hl Hs. set (i1 := saw (s, p) (set_sub s (mkSub [p] true NoRenewal) i)). exists (set_loop (Forwarding (s, p)) (set_sub s (mkSub [] true NoRenewal) i1)).
  split; [|split; [done|split; [exact (subs_of_set s _ i1)|done]]].
  apply rtc_l with i1; [split; [by apply (i_deliver i s p [])|done]|]. apply rtc_once. split.
  - apply (i_receive i1 s p [] true NoRenewal); [done|]. exact (subs_of_set s (mkSub [p] true NoRenewal) i).
  - subst i1. cbn. by rewrite Hl.
Qed.

Lemma fill_queue (p : P) s n : (n <= capacity (queue_of s))%nat -> exists i : IN, rtc channel_step fresh_intake i /\ loop_at i = Selecting /\
  subs_of i s = mkSub [] true NoRenewal /\ length (queues i (queue_of s)) = n.
Proof.
  induction n as [|n IH]; intros Hn; [exists fresh_intake; split; [apply rtc_refl|done]|].
  destruct IH as (i & Hi & Hl & Hs & Hq); [lia|]. destruct (receive_one p s i Hl Hs) as (i1 & Hi1 & Hl1 & Hs1 & Hq1).
  exists (set_loop Selecting (send (s, p) i1)). split; [|split; [done|split; [exact Hs1|]]].
  - eapply rtc_r; [etrans; [exact Hi|exact Hi1]|]. split; [|cbn; by rewrite Hl1]. apply i_forward; [done|]. unfold room. cbn. rewrite Hq1, Hq. lia.
  - cbn. rewrite decide_True by done. rewrite length_app, Hq1, Hq. cbn. lia.
Qed.

Lemma reach_blocked (p : P) (s : source) : exists i : IN, rtc channel_step fresh_intake i /\ self_blocked i.
Proof.
  destruct (fill_queue p s (capacity (queue_of s)) (le_n _)) as (i & Hi & Hl & Hs & Hq).
  destruct (receive_one p s i Hl Hs) as (i1 & Hi1 & Hl1 & Hs1 & Hq1). exists i1. split; [by etrans|].
  exists (s, p). split; [done|]. unfold room. cbn. rewrite Hq1, Hq. apply Nat.lt_irrefl.
Qed.

(** *** A renewal with nothing in between *)

(** [i'] is [i] but for the subscription [s], which is [x], and [l] more in
    its queue. *)
Definition renewed (s : source) (x : subscription P) (l : list item) (i i' : IN) : Prop :=
  subs_of i' s = x /\ queues i' (queue_of s) = (queues i (queue_of s) ++ l)%list /\ (forall s', s' <> s -> subs_of i' s' = subs_of i s') /\
  (forall q, q <> queue_of s -> queues i' q = queues i q) /\ loop_at i' = loop_at i /\ seen i' = seen i /\ handled i' = handled i.

Lemma drain_alone s l b f (i : IN) : subs_of i s = mkSub l b (Draining f None) ->
  (length (queues i (queue_of s)) + length l <= capacity (queue_of s))%nat ->
  exists i', rtc istep i i' /\ renewed s (mkSub [] b (Draining f None)) (map (pair s) l) i i'.
Proof.
  revert i. induction l as [|p l IH]; intros i Hs Hroom; cbn in Hroom.
  - exists i. split; [apply rtc_refl|]. repeat split; try done. cbn. by rewrite app_nil_r.
  - set (i1 := set_sub s (mkSub l b (Draining f (Some p))) i). set (i2 := send (s, p) (set_sub s (mkSub l b (Draining f None)) i1)).
    destruct (IH i2) as (i' & Hi' & H1 & H2 & H3 & H4 & H5).
    + subst i2. cbn. by rewrite decide_True.
    + subst i2 i1. cbn. rewrite decide_True, length_app by done. cbn. lia.
    + exists i'. split.
      * eapply rtc_l; [by apply (i_drain i s p l b f)|]. eapply rtc_l; [|exact Hi']. apply (i_drain_send i1 s p l b f); [apply subs_of_set|].
        unfold room. cbn. lia.
      * split; [exact H1|]. split; [|split; [|split; [|exact H5]]].
        -- rewrite H2. subst i2 i1. cbn. rewrite decide_True by done. by rewrite <- app_assoc.
        -- intros s' Hs'. rewrite H3 by done. subst i2 i1. cbn. by rewrite !decide_False.
        -- intros q Hq. rewrite H4 by done. subst i2 i1. cbn. by rewrite decide_False.
Qed.

Lemma renewal_alone s l b (i : IN) : subs_of i s = mkSub l b NoRenewal ->
  (length (queues i (queue_of s)) + length l <= capacity (queue_of s))%nat ->
  exists i', rtc istep i i' /\ renewed s (mkSub [] true NoRenewal) (map (pair s) l) i i'.
Proof.
  intros Hs Hroom. set (i1 := set_sub s (mkSub l false Unsubscribed) i). set (i2 := set_sub s (mkSub l false (Draining [] None)) i1).
  destruct (drain_alone s l false [] i2) as (i3 & Hi3 & H1 & H2 & H3 & H4 & H5); [apply subs_of_set|exact Hroom|].
  exists (set_sub s (mkSub [] true NoRenewal) i3). split.
  - eapply rtc_l; [by apply (i_unsubscribe i s l b)|]. eapply rtc_l; [apply (i_subscribe i1 s l false), subs_of_set|].
    eapply rtc_r; [exact Hi3|]. by apply (i_replace i3 s false []).
  - split; [apply subs_of_set|]. split; [exact H2|]. split; [|split; [exact H4|exact H5]]. intros s' Hs'. cbn. rewrite decide_False by done.
    rewrite H3 by done. subst i2 i1. cbn. by rewrite !decide_False.
Qed.

(** The renewal fails. *)
Lemma renewal_failed s l b (i : IN) : subs_of i s = mkSub l b NoRenewal ->
  exists i', rtc istep i i' /\ renewed s (mkSub l false NoRenewal) [] i i'.
Proof.
  intros Hs. set (i1 := set_sub s (mkSub l false Unsubscribed) i). exists (set_sub s (mkSub l false NoRenewal) i1). split.
  - eapply rtc_l; [by apply (i_unsubscribe i s l b)|]. apply rtc_once. apply (i_subscribe_fails i1 s l false), subs_of_set.
  - split; [apply subs_of_set|]. repeat split; try done; [by rewrite app_nil_r|]. intros s' Hs'. cbn. by rewrite !decide_False.
Qed.
End IntakeLemmas.

(** *** The process *)

Section ProcessLemmas.
Context {St : Type} (handler : arrival -> thread kind St).
#[local] Notation pstep := (pstep handler).

Lemma quiet_handler c c' : quiet_step c c' -> svc_step handler c c'.
Proof. destruct 1; [done|by constructor|by econstructor]. Qed.

(** A thread that has come to its end stays there. *)
Lemma quiet_loop (c c' : service kind St) : quiet_step c c' -> loop c = Finished -> loop c' = Finished.
Proof. destruct 1 as [[] | s t s' t' new os H|]; cbn; [|done]. intros ->. inversion H. Qed.

(** The parts of a process each do their own steps. *)
Lemma pstep_parts x x' : pstep x x' ->
  rtc (svc_step handler) (svc x) (svc x') /\ rtc istep (channels x) (channels x').
Proof.
  destruct 1 as [i c c' H|i i' c [H _]|i q e l a s os Hl Hq Ha|i a s os Hl Ha|i s os Hl]; cbn; split; try apply rtc_refl; apply rtc_once.
  - by apply quiet_handler.
  - done.
  - apply svc_event.
  - by apply (i_take i q e l).
  - apply svc_event.
  - by apply i_begin.
  - by apply i_handled.
Qed.

Lemma pstep_loop x x' : pstep x x' ->
  (loop_at (channels x) <> Handling -> loop (svc x) = Finished) -> loop_at (channels x') <> Handling -> loop (svc x') = Finished.
Proof.
  destruct 1 as [i c c' H|i i' c [_ Hi]|i q e l a s os Hl Hq Ha|i a s os Hl Ha|i s os Hl]; cbn; try done.
  - intros Hf Hn. eapply quiet_loop; [exact H|by apply Hf].
  - intros Hf Hn. apply Hf. intros Heq. by apply Hn, Hi.
Qed.

Lemma process_parts s x : process_reaches handler s x ->
  rtc (svc_step handler) (mkSvc s Finished []) (svc x) /\ intake_reaches (channels x) /\
  (loop_at (channels x) <> Handling -> loop (svc x) = Finished).
Proof.
  unfold process_reaches. revert x. refine (rtc_ind_r _ _ _ _); [by repeat split; try apply rtc_refl|]. intros x x' _ H (H1 & H2 & H3).
  pose proof (pstep_parts _ _ H) as [Hs Hi]. split; [by etrans|]. split; [unfold intake_reaches in *; by etrans|]. by eapply pstep_loop.
Qed.

(** The loop that waits for room in its own queue. *)
Lemma blocked_pstep x x' : pstep x x' -> self_blocked (channels x) -> loop (svc x) = Finished ->
  self_blocked (channels x') /\ loop (svc x') = Finished /\ handled (channels x') = handled (channels x).
Proof.
  intros H Hb Hf. assert (loop_at (channels x) <> Selecting /\ loop_at (channels x) <> Handling) as [Hn1 Hn2].
  { destruct Hb as (e & -> & _). done. }
  destruct H as [i c c' H|i i' c [H Hi]|i q e l a s os Hl Hq Ha|i a s os Hl Ha|i s os Hl]; cbn in *; try done.
  - split; [done|]. split; [|done]. by eapply quiet_loop.
  - by destruct (self_blocked_step _ _ H Hb) as (Hb' & Hh & _).
Qed.

Lemma blocked_forever x x' : rtc pstep x x' -> self_blocked (channels x) -> loop (svc x) = Finished ->
  loop (svc x') = Finished /\ handled (channels x') = handled (channels x).
Proof.
  induction 1 as [x|x x1 x' H _ IH]; [done|]. intros Hb Hf. destruct (blocked_pstep _ _ H Hb Hf) as (Hb1 & Hf1 & <-). by apply IH.
Qed.

Lemma process_channels i i' (c : service kind St) : rtc channel_step i i' -> rtc pstep (mkProcess i c) (mkProcess i' c).
Proof. induction 1 as [i|i i1 i' H _ IH]; [apply rtc_refl|]. eapply rtc_l; [by apply p_channels|exact IH]. Qed.
End ProcessLemmas.

(** *** The client's view of its channels *)

Section ViewLemmas.
Context {W C : Type} `{EC : EthClient W C}.
#[local] Notation CI := (ChainInfo W C).

(** A renewal moves what waits on the subscription to the queue, or leaves
    both alone. *)
Lemma renew_channels cl (c c' : CI) r : renewEthClientWithLock cl c = (c', r) -> r <> Panic ->
  ChainType c' = ChainType c /\
  match r with
  | Ret _ => SubChannelNow c' = [] /\ ChannelQueue c' = (ChannelQueue c ++ map (fun b => mkBlockHead b (ChainType c)) (SubChannelNow c))%list
  | _ => SubChannelNow c' = SubChannelNow c /\ ChannelQueue c' = ChannelQueue c
  end.
Proof.
  unfold renewEthClientWithLock, UpdateSubscription, call, bind, modify, try, of_result, Lock, Unlock. cbn.
  destruct (SubscribeNewHead cl (node c)) as [w [[]|e|]]; cbn; intros [= <- <-] Hr; done.
Qed.

Lemma heads_of_source s (c : CI) (l : list Z) : queue_of s = HeadQueue -> arrival_of (s, Header 0) = Some (ArrPubHead (mkBlockHead 0 (ChainType c))) ->
  map arrival_of (map (pair s) (map Header l)) = map (fun h => Some (ArrPubHead h)) (map (fun b => mkBlockHead b (ChainType c)) l).
Proof.
  intros Hq Ha. rewrite !map_map. apply map_ext. intros n. destruct s; cbn in *; try done; by injection Ha as <-.
Qed.
End ViewLemmas.

(** ** Properties *)

Section Properties.
Context {St : Type} (handler : arrival -> thread kind St).

(** C6 (no event is lost). In every state that a process comes to, whatever
    the interleaving of the nodes, the loop, the renewals of the clients and
    the other threads, the events delivered so far are those handled so far
    and those still under way (waiting on a subscription, old or new, in the
    hands of the loop or of a draining goroutine, or in a queue), each as
    often as it was delivered. No queue exceeds the capacity of its channel,
    and the service behind the channels is in a state that its threads
    reach by themselves from the same start. *)
Theorem no_event_lost s x : process_reaches handler s x ->
  seen (channels x) ≡ₚ (handled (channels x) ++ under_way (channels x))%list /\
  (forall q, (length (queues (channels x) q) <= capacity q)%nat) /\
  rtc (svc_step handler) (mkSvc s Finished []) (svc x).
Proof.
  intros (Hs & Hi & _)%process_parts. split; [by apply conserved_reached|]. split; [|done]. intros q. by apply (queues_ok_reached _ Hi).
Qed.

(** Fact (the events of one subscription keep their order). As long as the
    loop and the draining goroutine do not both hold an event of the
    subscription, the handled events of it, those in the queue, those in
    hand, those waiting on the old and those on the new channel are together
    all events it has delivered, in order. *)
Theorem events_in_order {P} s (i : intake P) : rtc (apart_step s) fresh_intake i ->
  (of_source s (handled i) ++ of_source s (queues i (queue_of s)) ++ in_hands s i ++ map (pair s) (waiting_in (subs_of i s)) ++ fresh_of s i)%list =
    of_source s (seen i) /\
  of_source s (handled i) `prefix_of` of_source s (seen i).
Proof. intros H%ordered_reached. split; [exact H|]. rewrite <- H. by eexists. Qed.

(** C37 (a full queue stops the loop). The loop sends to buffered channels
    that only it receives from. From every start a process can come to a
    state in which the loop has received an event of the subscription and
    finds its queue full, waiting on itself; and from such a state on
    nothing that happens in the process makes it handle an event again or
    enter a case of its select statement. *)
Theorem loop_blocks_itself (b : St) (src : source) (p : payload) :
  (exists x, process_reaches handler b x /\ self_blocked (channels x) /\ loop (svc x) = Finished /\
     length (queues (channels x) (queue_of src)) = capacity (queue_of src)) /\
  (forall x x', process_reaches handler b x -> self_blocked (channels x) -> rtc (pstep handler) x x' ->
     loop (svc x') = Finished /\ handled (channels x') = handled (channels x)).
Proof.
  split.
  - destruct (fill_queue p src (capacity (queue_of src)) (le_n _)) as (i & Hi & Hl & Hs & Hq).
    destruct (receive_one p src i Hl Hs) as (i1 & Hi1 & Hl1 & Hs1 & Hq1).
    exists (mkProcess i1 (mkSvc b Finished [])). split; [apply process_channels; by etrans|]. cbn. split; [|split; [done|by rewrite Hq1]].
    exists (src, p). split; [done|]. unfold room. cbn. rewrite Hq1, Hq. apply Nat.lt_irrefl.
  - intros x x' (_ & _ & Hf)%process_parts Hb Hx. apply (blocked_forever handler _ _ Hx Hb), Hf. by destruct Hb as (e & -> & _).
Qed.

End Properties.

(** Fact (a head can be overtaken). Two heads of one subscription, the first of
    them in the hands of the loop when a renewal drains the second into the
    queue, are handled in the other order. *)
Theorem head_overtaken : exists i : intake Z, intake_reaches i /\
  seen i = [(EthHeads, 1); (EthHeads, 2)] /\ handled i = [(EthHeads, 2); (EthHeads, 1)] /\ under_way i = [].
Proof.
  eexists. split.
  - eapply rtc_l; [by apply (i_deliver _ EthHeads 1 [])|]. eapply rtc_l; [by apply (i_deliver _ EthHeads 2 [1])|].
    eapply rtc_l; [by apply (i_receive _ EthHeads 1 [2] true NoRenewal)|]. eapply rtc_l; [by apply (i_unsubscribe _ EthHeads [2] true)|].
    eapply rtc_l; [by apply (i_subscribe _ EthHeads [2] false)|]. eapply rtc_l; [by apply (i_drain _ EthHeads 2 [] false [])|].
    eapply rtc_l; [apply (i_drain_send _ EthHeads 2 [] false []); [done|apply Nat.lt_0_succ]|].
    eapply rtc_l; [by apply (i_replace _ EthHeads false [])|].
    eapply rtc_l; [apply (i_forward _ (EthHeads, 1)); [done|apply Nat.ltb_lt; vm_compute; reflexivity]|].
    eapply rtc_l; [by eapply (i_take _ HeadQueue (EthHeads, 2))|]. eapply rtc_l; [by apply i_handled|].
    eapply rtc_l; [by eapply (i_take _ HeadQueue (EthHeads, 1))|]. apply rtc_refl.
  - split; [reflexivity|]. by split.
Qed.

(** ** Witnesses *)

Section Witnesses.
#[local] Existing Instance eth_client_ref.
#[local] Existing Instance tss_ref.
#[local] Existing Instance cosmos_ref.
#[local] Existing Instance tss_cos_ref.
#[local] Existing Instance EventLoop.blocks_ref.
#[local] Existing Instance EventLoop.connection_ref.
#[local] Existing Instance EventLoop.keygen_ref.
#[local] Existing Instance eth_signer_ref.
#[local] Existing Instance sdk_math_ref.
#[local] Existing Instance sdk_coins_ref.
#[local] Existing Instance bech32_ref.
#[local] Existing Instance eth_ref.
#[local] Existing Instance backoff_ref.
#[local] Existing Instance go_backoff_ref.
#[local] Existing Instance go_runtime_ref.
#[local] Existing Instance abi_ref.
#[local] Existing Instance handler_ref.

#[local] Notation arrival_ref := (on_arrival (C := unit) (JS := jolt_ref true) (MC := memo_ref "JOLTIFY") (JN := node_ref "BSC")
  4 3 (fun _ => []) (fun b => b) hex_EncodeToString "" (Fail "no file") (fun _ => Fail "no file") ∅ 3 3).

Definition block_203 : source * payload := (JoltBlocks, EventData (Some 203)).

(** A block is delivered, received, sent to its queue and taken; a head of the
    other chain waits. *)
Lemma no_event_lost_witness : exists x, process_reaches arrival_ref (EventLoop.bridge0 [30] true) x /\
  handled (channels x) = [block_203] /\ under_way (channels x) = [(EthHeads, Header 8)] /\ loop (svc x) = arrival_ref (ArrJoltBlock 203) /\
  seen (channels x) ≡ₚ (handled (channels x) ++ under_way (channels x))%list.
Proof.
  pose (i1 := saw (EthHeads, Header 8) (set_sub EthHeads (mkSub [Header 8] true NoRenewal) fresh_intake)).
  pose (i2 := saw block_203 (set_sub JoltBlocks (mkSub [EventData (Some 203)] true NoRenewal) i1)).
  pose (i3 := set_loop (Forwarding block_203) (set_sub JoltBlocks (mkSub [] true NoRenewal) i2)). pose (i4 := set_loop Selecting (send block_203 i3)).
  assert (rtc channel_step fresh_intake i4) as Hi.
  { eapply rtc_l; [split; [by apply (i_deliver _ EthHeads (Header 8) [])|done]|]. eapply rtc_l; [split; [by apply (i_deliver i1 JoltBlocks (EventData (Some 203)) [])|done]|].
    eapply rtc_l; [split; [by apply (i_receive i2 JoltBlocks (EventData (Some 203)) [] true NoRenewal)|done]|].
    apply rtc_once. split; [|done]. apply (i_forward i3 block_203); [done|]. apply Nat.ltb_lt. vm_compute. reflexivity. }
  assert (process_reaches arrival_ref (EventLoop.bridge0 [30] true)
    (mkProcess (set_loop Handling (took block_203 (set_queue BlockQueue [] i4))) (mkSvc (EventLoop.bridge0 [30] true) (arrival_ref (ArrJoltBlock 203)) []))) as Hx.
  { eapply rtc_r; [by apply process_channels|]. by apply (p_take _ i4 BlockQueue block_203 []). }
  eexists. split; [exact Hx|]. split; [reflexivity|]. split; [reflexivity|]. split; [reflexivity|].
  exact (proj1 (no_event_lost arrival_ref _ _ Hx)).
Defined.

Lemma loop_blocks_itself_witness : exists x, process_reaches arrival_ref (EventLoop.bridge0 [30] true) x /\ self_blocked (channels x) /\
  forall x', rtc (pstep arrival_ref) x x' -> handled (channels x') = handled (channels x).
Proof.
  destruct (loop_blocks_itself arrival_ref (EventLoop.bridge0 [30] true) JoltBlocks (EventData (Some 203))) as [(x & Hx & Hb & _) Hall].
  exists x. split; [exact Hx|]. split; [exact Hb|]. intros x' H. exact (proj2 (Hall x x' Hx Hb H)).
Defined.

(** A block in the hands of the loop. *)
Lemma events_in_order_witness : exists i : intake Z, rtc (apart_step JoltBlocks) fresh_intake i /\
  in_hands JoltBlocks i = [(JoltBlocks, 1)] /\
  (of_source JoltBlocks (handled i) ++ of_source JoltBlocks (queues i BlockQueue) ++ in_hands JoltBlocks i ++
     map (pair JoltBlocks) (waiting_in (subs_of i JoltBlocks)) ++ fresh_of JoltBlocks i)%list = of_source JoltBlocks (seen i).
Proof.
  pose (i1 := saw (JoltBlocks, 1) (set_sub JoltBlocks (mkSub [1] true NoRenewal) fresh_intake)).
  pose (i2 := set_loop (Forwarding (JoltBlocks, 1)) (set_sub JoltBlocks (mkSub [] true NoRenewal) i1)).
  assert (rtc (apart_step JoltBlocks) fresh_intake i2) as Hi.
  { eapply rtc_l; [split; [by apply (i_deliver _ JoltBlocks 1 [])|split; apply Nat.leb_le; vm_compute; reflexivity]|].
    apply rtc_once. split; [by apply (i_receive i1 JoltBlocks 1 [] true NoRenewal)|split; apply Nat.leb_le; vm_compute; reflexivity]. }
  exists i2. split; [exact Hi|]. split; [reflexivity|]. exact (proj1 (events_in_order JoltBlocks i2 Hi)).
Defined.

End Witnesses.
