(* ===== verification/Ops.v ===== *)
(** * The operator's side: bridge/http.go and monitor/metric.go

    The HTTP end points and the three Prometheus gauges.  The router and the
    registry are the libraries'; what the program hands them is modelled, as
    is the starting of the server, whose first goroutine may or may not have
    reported an error when [Start] returns. *)

From Stdlib Require Import Ascii String.
From S2P Require Import Prelude GoLib.

#[local] Open Scope string_scope.
#[local] Open Scope Z_scope.
#[local] Open Scope go_scope.

(** ** Definitions *)

(** *** monitor/metric.go

    A gauge is registered under its full name; the names in use and the
    values set are the state of the process. *)
Record Registry := mkRegistry {
  registered : gset string;
  gauges : gmap string Z;
}.

(** [prometheus.BuildFQName]. *)
Definition BuildFQName (namespace subsystem name : string) : string :=
  namespace ++ "_" ++ subsystem ++ "_" ++ name.

Record Metric := mkMetric {
  inboundTxNum : string;
  outboundTxNum : string;
  status : string;
}.

Definition NewMetric : Metric :=
  mkMetric (BuildFQName "Oppy" "bridge" "inbound_tx") (BuildFQName "Oppy" "bridge" "outbound_tx")
    (BuildFQName "Oppy" "bridge" "bridge_status").

(** A name that is in use panics. *)
Definition MustRegister (name : string) : M Registry unit := fun r =>
  if decide (name ∈ registered r) then (r, Panic)
  else (mkRegistry ({[ name ]} ∪ registered r) (gauges r), Ret tt).

Definition Set_ (name : string) (v : Z) : M Registry unit := modify (fun r => mkRegistry (registered r) (<[name := v]> (gauges r))).

Definition Enable (m : Metric) : M Registry unit :=
  do! MustRegister (inboundTxNum m) in
  do! MustRegister (outboundTxNum m) in
  MustRegister (status m).

Definition UpdateInboundTxNum (m : Metric) (num : Z) : M Registry unit := Set_ (inboundTxNum m) num.
Definition UpdateOutboundTxNum (m : Metric) (num : Z) : M Registry unit := Set_ (outboundTxNum m) num.

(** [now] is the current time in seconds. *)
Definition UpdateStatus (m : Metric) (now : Z) : M Registry unit := Set_ (status m) now.

(** bridge_service.go [updateHealthCheck]; [health] is what
    [CheckPubChainHealthWithLock] answers. *)
Definition updateHealthCheck (health : outcome unit) (m : Metric) (now : Z) : M Registry unit :=
  match health with
  | Panic => panic
  | Fail _ => ret tt
  | Ret _ => UpdateStatus m now
  end.

(** *** bridge/http.go *)

(** A handler gets the writer: what was written and whether writing fails. *)
Record Writer := mkWriter { written : bytes; write_err : option string }.

Definition Write (b : bytes) : M Writer unit := fun w =>
  match write_err w with
  | Some e => (w, Fail e)
  | None => (mkWriter (written w ++ b)%list None, Ret tt)
  end.

Record Route := mkRoute {
  route_path : string;
  route_methods : list string;          (* [] accepts every method *)
  route_handler : M Writer unit;
}.

(** [http.Server] as it is configured; times are in seconds. *)
Record Server := mkServer {
  Addr : string;
  Handler : list Route;
  ReadHeaderTimeout : Z;
}.

Record CosHTTPServer := mkCosHTTPServer { http_s : option Server; http_peerID : bytes }.

(** The error is logged. *)
Definition getP2pIDHandler (peerID : bytes) : M Writer unit :=
  do! try (Write peerID) in ret tt.

(** The middleware writes a log line before the handler. *)
Definition logMiddleware (handler : M Writer unit) : M Writer unit := handler.

(** [router.Use] wraps the handlers of all routes. *)
Definition bridgeNewHandler (promhttp : M Writer unit) (peerID : bytes) : list Route :=
  map (fun r => mkRoute (route_path r) (route_methods r) (logMiddleware (route_handler r)))
    [mkRoute "/p2pid" ["GET"] (getP2pIDHandler peerID); mkRoute "/metrics" [] promhttp].

Definition NewCosHttpServer (promhttp : M Writer unit) (tssAddr : string) (peerID : bytes) : CosHTTPServer :=
  mkCosHTTPServer (Some (mkServer tssAddr (bridgeNewHandler promhttp peerID) 30)) peerID.

(** What [ListenAndServe] reports while the caller is still in [Start];
    [None]: nothing yet. *)
Definition globalErr (listen : option string) : option string :=
  match listen with
  | Some e => if bool_decide (e = "http: Server closed") then None else Some e
  | None => None
  end.

(** [listen] is read at the return, so an error that comes later is not
    reported. *)
Definition Start (t : CosHTTPServer) (listen : option string) : outcome unit :=
  match http_s t with
  | None => Fail "invalid http server instance"
  | Some _ => match globalErr listen with Some e => Fail e | None => Ret tt end
  end.

(** The second goroutine of [Start], once the context is done: the error of
    the shutdown is logged, and the caller's wait group counts down. *)
Definition http_quit {W} (Shutdown : M W unit) : M (W * Z) unit :=
  do! try (fun '(w, n) => let '(w, r) := Shutdown w in ((w, n), r)) in
  modify (fun '(w, n) => (w, n - 1)).

(** ** Lemmas *)

(** The three gauges have three names, so enabling them once works and twice
    panics. *)
Lemma Enable_once r :
  registered r = ∅ -> exists r', Enable NewMetric r = (r', Ret tt) /\ (Enable NewMetric r').2 = Panic /\ gauges r' = gauges r.
Proof.
  destruct r as [names g]. cbn [registered]. intros ->. unfold Enable, NewMetric, BuildFQName. cbn [inboundTxNum outboundTxNum status].
  unfold bind, MustRegister. cbn [registered gauges].
  rewrite decide_False by set_solver. cbn [registered gauges]. rewrite decide_False by set_solver. cbn [registered gauges].
  rewrite decide_False by set_solver.
  eexists. split; [reflexivity|]. cbn [registered gauges]. split; [|done]. by rewrite decide_True by set_solver.
Qed.

(** The gauges are independent of each other. *)
Lemma Update_independent r a b t :
  let r' := ((do! UpdateInboundTxNum NewMetric a in do! UpdateOutboundTxNum NewMetric b in UpdateStatus NewMetric t) r).1 in
  gauges r' !! "Oppy_bridge_inbound_tx" = Some a /\ gauges r' !! "Oppy_bridge_outbound_tx" = Some b /\
  gauges r' !! "Oppy_bridge_bridge_status" = Some t.
Proof.
  cbn [UpdateInboundTxNum UpdateOutboundTxNum UpdateStatus Set_ bind modify fst gauges]. unfold bind, modify. cbn.
  split_and!; [by rewrite !lookup_insert_ne, lookup_insert_eq by done|by rewrite lookup_insert_ne, lookup_insert_eq by done|by rewrite lookup_insert_eq].
Qed.

(** Whatever the shutdown of the server reports, the service does not wait for
    it any longer. *)
Lemma http_quit_counts {W} (Shutdown : M W unit) w n : (Shutdown w).2 <> Panic ->
  http_quit Shutdown (w, n) = (((Shutdown w).1, n - 1), Ret tt).
Proof. unfold http_quit, bind, try, modify. by destruct (Shutdown w) as [w' [[]|e|]]. Qed.

(** A server the constructor made reports an error only if its listener had
    failed by the time [Start] returned. *)
Lemma Start_ret promhttp addr peerID : Start (NewCosHttpServer promhttp addr peerID) None = Ret tt.
Proof. done. Qed.
