(* ===== verification/Startup.v ===== *)
(** * Start-up and shutdown: NewBridgeService of bridge/bridge_service.go,
    NewChainInstance of pubchain/types.go, NewJoltifyBridge of
    cosbridge/types.go

    The service as a whole: what it reads and dials before the event loop,
    the opening of [addEventLoop], the loop under any sequence of events, and
    what it saves after the interrupt.  A log.Fatal ends the process without
    the deferred calls; an early return runs them. *)

From Stdlib Require Import Ascii String.
From S2P Require Import Prelude GoLib Sdk Requests Fees ItemQueue TokenList Signature MoveFundQueue Pools Validators PubClient Keysign Config TxSend TssClient MoveFund Inbound Outbound CosTx Keygen Storage Processing Flow JoltClient EventLoop Wellformed Ops.

#[local] Open Scope string_scope.
#[local] Open Scope Z_scope.
#[local] Open Scope go_scope.

(** ** Definitions *)

(** *** The two instances *)

Definition OppyContractAddressBSC : string := "0x94277968dff216265313657425d9d7577ad32dd1".
Definition OppyContractAddressETH : string := "0x2BCD5745eBf28f367A0De2cF3C6fEBfE42B21338".

(** [ethclient.Client.ChainID]. *)
Class EthNetwork (W C : Type) := { client_ChainID : C -> M W Z }.

Section Chains.
Context {W C : Type} `{EC : EthClient W C} `{EN : !EthNetwork W C} `{S : SdkMath}.

(** Locks free, channels empty; the contract's address is set by the caller. *)
Definition NewChainInfo (wsAddress chainType : string) : M W (ChainInfo W C) := fun w =>
  match Dial wsAddress w with
  | (w, Panic) => (w, Panic)
  | (w, Fail _) => (w, Fail "fail to dial the network")
  | (w, Ret client) =>
      match client_ChainID client w with
      | (w, Panic) => (w, Panic)
      | (w, Fail e) => (w, Fail e)
      | (w, Ret chainID) => (w, Ret (mkChainInfo w client wsAddress "" chainType (Some chainID) 0 false 0 [] []))
      end
  end.

Definition with_contract (a : string) (c : ChainInfo W C) : ChainInfo W C :=
  mkChainInfo (node c) (Client c) (WsAddr c) a (ChainType c) (PubClient.ChainID c)
    (readers c) (writer c) (resets c) (SubChannelNow c) (ChannelQueue c).

(** The fields of [pubchain.Instance] that are not shared with the joltify
    side. *)
Record Instance := mkInstance {
  BSCChain : ChainInfo W C;
  EthChain : ChainInfo W C;
  pub_lastTwoPools : Slots;
  RetryInboundReq : ItemQueue InBoundReq;
  pub_moveFundReq : gmap string MoveFundItem;
  pub_FeeModule : gmap string FeeModule;
}.

(** Both chains' clients; [abi_JSON] is the parser's answer on the contract's
    interface. *)
Definition NewChainInstance (abi_JSON : outcome unit) (wsBSC wsETH : string) : M (W * W) Instance := fun '(wb, we) =>
  match NewChainInfo wsBSC "BSC" wb with
  | (wb, Panic) => ((wb, we), Panic)
  | (wb, Fail _) => ((wb, we), Fail "invalid eth client")
  | (wb, Ret bsc) =>
      match NewChainInfo wsETH "ETH" we with
      | (we, Panic) => ((wb, we), Panic)
      | (we, Fail _) => ((wb, we), Fail "invalid eth client")
      | (we, Ret eth) =>
          ((wb, we), match abi_JSON with
            | Panic => Panic
            | Fail e => Fail ("fail to get the tokenABI with err " ++ e)
            | Ret _ => Ret (mkInstance (with_contract OppyContractAddressBSC bsc) (with_contract OppyContractAddressETH eth)
                empty_slots empty_queue ∅ InitFeeModule)
            end)
      end
  end.
End Chains.
Arguments Instance W C {S}. Arguments mkInstance {W C S}. Arguments BSCChain {W C S}. Arguments EthChain {W C S}.
Arguments pub_lastTwoPools {W C S}. Arguments RetryInboundReq {W C S}. Arguments pub_moveFundReq {W C S}. Arguments pub_FeeModule {W C S}.

(** The connection of the joltify side: dialled, started, not subscribed. *)
Definition new_connection {W G S E : Type} `{R : JoltRpc W G S E} : M (JoltClient W G S E) unit :=
  let! g := on_rpc (fun _ => grpc_Dial) in
  let! client := on_rpc (fun _ => ws_New) in
  do! on_rpc (fun _ => ws_Start client) in
  modify (fun c => mkJoltClient (rpc c) g client nil_chan nil_chan [] [] false false).

(** The other fields of [JoltChainInstance]. *)
Record JoltInstance `{SdkMath} (Msg : Type) := mkJoltInstance {
  jolt_lastTwoPools : Slots;
  keyGenCache : list (TssPoolMsg Msg);
  RetryOutboundReq : ItemQueue OutBoundReq;
  jolt_FeeModule : gmap string FeeModule;
}.
Arguments mkJoltInstance {_ Msg}. Arguments jolt_lastTwoPools {_ Msg}. Arguments keyGenCache {_ Msg}.
Arguments RetryOutboundReq {_ Msg}. Arguments jolt_FeeModule {_ Msg}.

Definition NewJoltifyBridge {J Msg : Type} `{S : SdkMath} `{JCn : JoltConnection J} : M J (JoltInstance Msg) :=
  do! on_connection new_connection in
  ret (mkJoltInstance empty_slots [] empty_queue InitFeeModule).

(** *** The service *)

(** How [NewBridgeService] ends: the process exits, the function returns
    early, it is still waiting for goroutines (or for the node, at the start),
    or it has saved the state. *)
Inductive ending :=
| Fatal (reason : string)
| Quit
| Waiting
| Done.

Definition readPassword (IsTerminal : bool) (os_Open : outcome unit) (ReadPassword : outcome bytes) : outcome bytes :=
  if IsTerminal then ReadPassword
  else match os_Open with
    | Ret _ => ReadPassword
    | Fail e => Fail ("error allocating terminal: " ++ e)
    | Panic => Panic
    end.

(** The flows before the first block, at height [h]. *)
Definition initial_in (q : ItemQueue InBoundReq) (h : Z) : InFlow := mkInFlow q [] [] 0 0 false true true h.
Definition initial_out (q : ItemQueue OutBoundReq) (h : Z) : OutFlow :=
  mkOutFlow q [] [] 0 (mkPerChain 0 0) false true true (mkPerChain h h).

(** The world: the two public chains, the joltify node with the signing
    server, the files, the metrics. *)
Record Service (W J : Type) := mkService {
  sv_bsc : W;
  sv_eth : W;
  sv_jolt : J;
  sv_files : gmap string bytes;
  sv_metrics : Registry;
}.
Arguments mkService {W J}. Arguments sv_bsc {W J}. Arguments sv_eth {W J}. Arguments sv_jolt {W J}. Arguments sv_files {W J}. Arguments sv_metrics {W J}.

Section Service.
Context {W C J Msg TS : Type} `{EC : EthClient W C} `{TW : TssServer W} `{CN : CosmosNode J Msg} `{TJ : TssServer J} `{JS : JoltService J}.
Context `{JB : JoltBlocks J} `{JCn : JoltConnection J} `{KG : KeygenServer J Msg}.
Context `{G : EthSigner} `{S : SdkMath} `{N : SdkCoins} `{B : Bech32} `{E : Eth} `{K : Backoff} `{R : GoRuntime}.
Context `{AB : TokenAbi} `{JH : !JoltHandler} `{MC : MemoCodec} `{JN : !JoltNode}.
Context `{EN : !EthNetwork W C} `{MA : MultiAddr} `{TL : !TssLib J TS} `{JT : JoltStatus J} `{FS : FileSystem}.
Context `{JO : JsonCodec OutBoundReq} `{JI : JsonCodec InBoundReq} `{JM : JsonCodec MoveFundItem}.
Context (attempts submits polls : nat) (HexToHash : string -> bytes).
Context (GetConsAddress : bytes -> bytes) (Address_String : bytes -> string).
Context (ConsAddressFromBech32 : string -> outcome bytes) (UnpackAny : bytes -> outcome bytes).
(** The files that are only read, and their decoders. *)
Context (os_ReadFile : string -> outcome bytes) (Unmarshal_tokens : bytes -> outcome (list TokenItem)) (Unmarshal_key : bytes -> outcome CosPrivKey).
(** The terminal, standard input, the key ring, the contract's interface. *)
Context (IsTerminal : bool) (os_Open : outcome unit) (ReadPassword : outcome bytes) (Stdin_Read : outcome Z).
Context (ImportPrivKey : string -> bytes -> bytes -> outcome unit) (abi_JSON : outcome unit).
(** The metrics' page, and what the HTTP listener reported by the return of
    its start. *)
Context (promhttp : M Writer unit) (listen : option string).
Context (tssServer_Stop : M conn_W unit) (config : Config).
#[local] Notation BR := (Bridge W C J Msg).
#[local] Notation SV := (Service W J).

Definition on_node_of_jolt {A} (m : M J A) : M SV A := fun s =>
  let '(j, r) := m (sv_jolt s) in (mkService (sv_bsc s) (sv_eth s) j (sv_files s) (sv_metrics s), r).
Definition on_metrics {A} (m : M Registry A) : M SV A := fun s =>
  let '(x, r) := m (sv_metrics s) in (mkService (sv_bsc s) (sv_eth s) (sv_jolt s) (sv_files s) x, r).
Definition on_nodes {A} (m : M (W * W) A) : M SV A := fun s =>
  let '((b, e), r) := m (sv_bsc s, sv_eth s) in (mkService b e (sv_jolt s) (sv_files s) (sv_metrics s), r).

(** [if err != nil { ... }] with an end of the function in the block. *)
Definition orelse {A X} (m : M SV A) (e : ending) (k : A -> M SV (ending + X)) : M SV (ending + X) :=
  let! r := try m in
  match r with inl a => k a | inr _ => ret (inl e) end.

Definition token_file : outcome bytes := os_ReadFile (path_Join (HomeDir config) (TokenListPath config)).

(** Up to the import of the operator's key. *)
Definition until_import : M SV (ending + (JoltInstance Msg * TokenList * BridgeTssServer TS)) :=
  orelse (lift (readPassword IsTerminal os_Open ReadPassword)) (Fatal "fail to read the password") (fun pass =>
  orelse (lift Stdin_Read) Quit (fun n =>
  if 32 <? n then ret (inl (Fatal "the passcode is too long")) else
  do! (if EnableMonitor config then on_metrics (Enable NewMetric) else ret tt) in
  orelse (lift (NewTokenList token_file Unmarshal_tokens (TokenListUpdateGap config))) Quit (fun tl =>
  let! started := on_node_of_jolt (StartTssServer os_ReadFile Unmarshal_key path_Join (HomeDir config) (Tss config)) in
  match started with
  | (Some tss, _, None) =>
      orelse (on_node_of_jolt NewJoltifyBridge) (Fatal "fail to create the invoice oppy_bridge") (fun jolt =>
      orelse (lift (os_ReadFile (path_Join (HomeDir config) (KeyringAddress config)))) (Fatal "error in read keyring file") (fun dat =>
      orelse (lift (ImportPrivKey "operator" dat pass)) Quit (fun _ =>
      ret (inr (jolt, tl, tss)))))
  | _ => ret (inl (Fatal "fail to start the tss"))
  end))).

(** [oppyBridge.InitValidators]: the node's own validator key and the set. *)
Definition init_validators : M J (option (string * ValidatorSet)) := fun j =>
  let '(s, r) := InitValidators ConsAddressFromBech32 UnpackAny Address_String polls (HTTPAddress (CosChain config))
    (mkInitState j "" ("", NewValidator)) in
  (init_node s, match r with
    | Ret (Some _) => Ret (Some (init_vals s))
    | Ret None => Ret None
    | Fail e => Fail e
    | Panic => Panic
    end).

Definition restore_files : M SV Saved := fun s =>
  let '(saved, r) := restore (HomeDir config) (sv_files s) (mkSaved empty_queue empty_queue ∅) in
  (s, match r with Ret _ => Ret saved | Fail e => Fail e | Panic => Panic end).

(** The state the event loop is given, and the node's validator key. *)
Record Started := mkStarted { st_bridge : BR; st_key : string }.

Definition assemble (pub : Instance W C) (jolt : JoltInstance Msg) (j : J) (vals : ValidatorSet) (tl : TokenList) (saved : Saved) : BR :=
  mkBridge (EthChain pub) (BSCChain pub) j (mkPoolState (pub_lastTwoPools pub) (jolt_lastTwoPools jolt) (s_mf saved))
    (initial_in (s_in saved) 0) (initial_out (s_out saved) 0) vals (keyGenCache jolt) false [] tl 0.

(** From the deferred [TerminateBridge] to [addEventLoop]. *)
Definition after_import (jolt : JoltInstance Msg) (tl : TokenList) (tss : BridgeTssServer TS) : M SV (ending + Started) :=
  orelse (on_node_of_jolt init_validators) Quit (fun vals =>
  match vals with
  | None => ret (inl Waiting)
  | Some (key, vals) =>
      let! peerID := lift (GetTssNodeID tss) in
      orelse (lift (Start (NewCosHttpServer promhttp (HTTPAddr (Tss config)) (bytes_of_string peerID)) listen)) Quit (fun _ =>
      orelse (on_nodes (NewChainInstance abi_JSON (WsAddressBSC (PubChain config)) (WsAddressETH (PubChain config)))) Quit (fun pub =>
      let! saved := restore_files in
      let! s := get in
      ret (inr (mkStarted (assemble pub jolt (sv_jolt s) vals tl saved) key))))
  end).

(** The opening of [addEventLoop]: whether the loop was started; an error is
    printed and nothing else. *)
Definition start_loop : M BR bool :=
  let! err := try (on_jolt (on_connection AddSubscribe)) in
  match err with
  | inr _ => ret false
  | inl _ =>
      let! err := try (on_client "ETH" StartSubscription) in
      match err with
      | inr _ => ret false
      | inl _ =>
          let! err := try (on_client "BSC" StartSubscription) in
          match err with
          | inr _ => ret false
          | inl _ =>
              let! blockHeight := try (on_jolt (on_connection GetLastBlockHeightWithLock)) in
              match blockHeight with
              | inr _ => ret false
              | inl h => do! modify (fun b => set_flows (initial_in (in_q (br_in b)) h) (initial_out (out_q (br_out b)) h) b) in ret true
              end
          end
      end
  end.

(** One turn of the loop; errors are logged. *)
Definition turn (key : string) (e : event) : M BR unit :=
  do! try (handle attempts submits HexToHash GetConsAddress Address_String key token_file Unmarshal_tokens InitFeeModule
    (cos_RollbackGap (CosChain config)) (pub_RollbackGap (PubChain config)) e) in
  ret tt.

(** The loop until the interrupt. *)
Definition run_loop (key : string) (evs : list event) : M BR unit :=
  let! looping := start_loop in
  if looping then forM evs (turn key) else ret tt.

(** What [wg.Wait] waits for. *)
Definition quiet (b : BR) : bool :=
  match in_running (br_in b), out_running (br_out b), br_jobs b with
  | [], [], [] => true
  | _, _, _ => false
  end.

Definition saved_of (b : BR) : Saved := mkSaved (out_q (br_out b)) (in_q (br_in b)) (moveFundReq (br_pools b)).

Definition run_service (st : Started) (evs : list event) : M SV BR := fun s =>
  let '(b, r) := run_loop (st_key st) evs (st_bridge st) in
  (mkService (node (br_bsc b)) (node (br_eth b)) (br_jolt b) (sv_files s) (sv_metrics s), match r with
    | Ret _ => Ret b
    | Fail e => Fail e
    | Panic => Panic
    end).

Definition save_state (b : BR) : M SV unit := fun s =>
  let '(files, r) := shutdown (HomeDir config) (saved_of b) (sv_files s) in
  (mkService (sv_bsc s) (sv_eth s) (sv_jolt s) files (sv_metrics s), r).

(** [defer oppyBridge.TerminateBridge()], whose error is dropped; a function
    that waits has not returned. *)
Definition with_terminate (m : M SV ending) : M SV ending := fun s =>
  match m s with
  | (s, Ret Waiting) => (s, Ret Waiting)
  | (s, r) =>
      match on_node_of_jolt (on_connection (TerminateBridge tssServer_Stop)) s with
      | (s, Panic) => (s, Panic)
      | (s, _) => (s, r)
      end
  end.

(** The service under the events [evs], up to the interrupt and the end. *)
Definition NewBridgeService (evs : list event) : M SV ending :=
  let! r := until_import in
  match r with
  | inl e => ret e
  | inr (jolt, tl, tss) =>
      with_terminate (
        let! r := after_import jolt tl tss in
        match r with
        | inl e => ret e
        | inr st =>
            let! b := run_service st evs in
            if quiet b then do! save_state b in ret Done else ret Waiting
        end)
  end.

(** The start succeeded and the loop has gone through [evs] to [b]. *)
Definition ran (evs : list event) (s : SV) (b : BR) : Prop :=
  exists s1 s2 jolt tl tss st, until_import s = (s1, Ret (inr (jolt, tl, tss))) /\
    after_import jolt tl tss s1 = (s2, Ret (inr st)) /\ run_loop (st_key st) evs (st_bridge st) = (b, Ret tt).

(** Well-formed maps, at most one batch in flight each way. *)
Definition bridge_ok (b : BR) : Prop := bridge_wf b /\ in_one (br_in b) /\ out_one (br_out b).

(** ** Lemmas *)

Lemma AddAll_keeps_wf {A} `{I : Indexed A} (l : list A) : keeps queue_wf (AddAll l).
Proof. unfold AddAll. keep. Qed.

Lemma load_move_funds_keyed o q : mf_keyed q -> mf_keyed (load_move_funds o q).
Proof.
  unfold load_move_funds. generalize (default [] o). intros l. revert q. induction l as [|it l IH]; intros q; [done|].
  intros Hq. cbn [fold_left]. apply IH. by apply AddMoveFundItem_keeps_keyed.
Qed.

(** Whatever is in the files, what is loaded from them is well-formed. *)
Lemma restore_wf folder files : let saved := (restore folder files (mkSaved empty_queue empty_queue ∅)).1 in
  queue_wf (s_out saved) /\ queue_wf (s_in saved) /\ mf_keyed (s_mf saved).
Proof.
  assert (@queue_wf _ OutBoundReq_Indexed empty_queue) as Ho by apply wf_empty.
  assert (@queue_wf _ InBoundReq_Indexed empty_queue) as Hi by apply wf_empty.
  assert (mf_keyed ∅) as Hm by (intros k it; by rewrite lookup_empty).
  unfold restore. destruct (LoadOutBoundState _ _) as [f1 [[items e]|e|]]; [|done..].
  cbn [s_out s_in s_mf]. pose proof (AddAll_keeps_wf (default [] items) empty_queue Ho) as Ho'.
  assert (queue_wf (load_queue items empty_queue).1) as H1 by (by destruct items). clear Ho'.
  destruct (load_queue items empty_queue) as [qo [[]|e1|]]; [|done..]. cbn [fst] in H1.
  destruct (LoadInBoundState _ _) as [f2 [[itemsIn e2]|e2|]]; [|done..].
  pose proof (AddAll_keeps_wf (default [] itemsIn) empty_queue Hi) as Hi'.
  assert (queue_wf (load_queue itemsIn empty_queue).1) as H2 by (by destruct itemsIn). clear Hi'.
  destruct (load_queue itemsIn empty_queue) as [qi [[]|e3|]]; [|done..]. cbn [fst] in H2.
  destruct (LoadPendingItems _ _) as [f3 [[pub e4]|e4|]]; [|done..].
  split_and!; [done|done|]. by apply load_move_funds_keyed.
Qed.

Lemma after_import_ok jolt tl tss s s' st : after_import jolt tl tss s = (s', Ret (inr st)) -> bridge_ok (st_bridge st).
Proof.
  unfold after_import, orelse. intros (s1 & v & _ & H)%bind_ret_inv. destruct v as [[[key vals]|]|e]; [|unfold ret in H; simplify_eq..].
  apply bind_ret_inv in H as (s2 & peer & _ & H). apply bind_ret_inv in H as (s3 & h & _ & H).
  destruct h as [[]|e]; [|unfold ret in H; simplify_eq]. apply bind_ret_inv in H as (s4 & pub & _ & H).
  destruct pub as [pub|e]; [|unfold ret in H; simplify_eq]. apply bind_ret_inv in H as (s5 & saved & Hs & H).
  unfold bind, get, ret in H. simplify_eq. unfold restore_files in Hs.
  destruct (restore_wf (HomeDir config) (sv_files s4)) as (Ho & Hi & Hm). destruct (restore _ _ _) as [sv r].
  destruct r; simplify_eq. split; [by split_and!|split]; (split; [by intros _|cbn; lia]).
Qed.

Lemma start_loop_ok : keeps bridge_ok start_loop.
Proof.
  assert (keeps bridge_wf start_loop) as Hw.
  { apply keeps_bridge_wf. unfold start_loop. repeat first [keep_step|apply parts_on_jolt|apply parts_on_client|by apply keeps_modify]. }
  intros b (H1 & H2). split; [by apply Hw|]. revert b H1 H2. clear Hw.
  enough (keeps (flows (Msg := Msg) in_one out_one) start_loop) as Hf by (intros b _; apply Hf).
  unfold start_loop. repeat first [keep_step|apply keeps_on_jolt|apply keeps_on_client|apply keeps_modify].
  intros b [H1 H2]. by split; (split; [by intros _|cbn; lia]).
Qed.

Lemma turn_ok key e : keeps bridge_ok (turn key e).
Proof.
  intros b [Hw Hf]. unfold turn, bind, try, ret.
  pose proof (handle_wf attempts submits HexToHash GetConsAddress Address_String key token_file Unmarshal_tokens InitFeeModule
    (cos_RollbackGap (CosChain config)) (pub_RollbackGap (PubChain config)) e b Hw) as H1.
  pose proof (handle_keeps attempts submits HexToHash GetConsAddress Address_String key token_file Unmarshal_tokens InitFeeModule
    (cos_RollbackGap (CosChain config)) (pub_RollbackGap (PubChain config)) in_one out_one in_one_flags out_one_flags inbound_section_one
    take_inbound_one finish_inbound_one (outbound_section_one HexToHash) take_outbound_one (finish_outbound_one attempts submits HexToHash)
    e b Hf) as H2.
  destruct (handle _ _ _ _ _ _ _ _ _ _ _ e b) as [b' [[]|e'|]]; by split.
Qed.

Lemma run_loop_ok key evs : keeps bridge_ok (run_loop key evs).
Proof.
  unfold run_loop. apply keeps_bind; [apply start_loop_ok|]. intros looping. destruct looping; [|apply keeps_ret].
  apply keeps_forM. intros e. apply turn_ok.
Qed.

Lemma AddAll_inv {A} `{I : Indexed A} (l : list A) q q' : AddAll l q = (q', Ret tt) -> exists ks, Forall2 (fun k a => Index a = Ret k) ks l.
Proof.
  revert q. induction l as [|a l IH]; intros q; [exists []; constructor|].
  unfold AddAll. cbn [forM]. intros (q1 & [] & H1 & H)%bind_ret_inv. destruct (IH _ H) as [ks Hks].
  unfold AddItem, bind, lift in H1. destruct (Index a) as [k|e|] eqn:Ek; [|done..]. exists (k :: ks). by constructor.
Qed.

Lemma flush_inv {A} `{I : Indexed A} `{R' : GoRuntime} (q q' : ItemQueue A) l : flush q = (q', Ret l) ->
  exists ks, Forall2 (fun k a => Index a = Ret k) ks (onHold q).
Proof.
  unfold flush. intros (q1 & l1 & H1 & H)%bind_ret_inv. rewrite DumpQueue_ret in H1. simplify_eq.
  apply bind_ret_inv in H as (q2 & [] & H2 & _). by apply AddAll_inv in H2.
Qed.

(** Nothing before the end writes the state files. *)
Definition files_are (files : gmap string bytes) (s : SV) : Prop := sv_files s = files.

Lemma keeps_on_node_of_jolt f {A} (m : M J A) : keeps (files_are f) (on_node_of_jolt m).
Proof. intros s H. unfold on_node_of_jolt. by destruct (m _). Qed.
Lemma keeps_on_metrics f {A} (m : M Registry A) : keeps (files_are f) (on_metrics m).
Proof. intros s H. unfold on_metrics. by destruct (m _). Qed.
Lemma keeps_on_nodes f {A} (m : M (W * W) A) : keeps (files_are f) (on_nodes m).
Proof. intros s H. unfold on_nodes. by destruct (m _) as [[]]. Qed.
Lemma keeps_restore_files f : keeps (files_are f) restore_files.
Proof. intros s H. unfold restore_files. by destruct (restore _ _ _). Qed.
Lemma keeps_run_service f st evs : keeps (files_are f) (run_service st evs).
Proof. intros s H. unfold run_service. by destruct (run_loop _ _ _). Qed.
#[local] Hint Resolve keeps_on_node_of_jolt keeps_on_metrics keeps_on_nodes keeps_restore_files keeps_run_service : keeps.

Lemma until_import_files f : keeps (files_are f) until_import.
Proof. unfold until_import, orelse. keep. Qed.
Lemma after_import_files f jolt tl tss : keeps (files_are f) (after_import jolt tl tss).
Proof. unfold after_import, orelse. keep. Qed.

Lemma with_terminate_inv (m : M SV ending) s s' e : with_terminate m s = (s', Ret e) ->
  exists s1, m s = (s1, Ret e) /\ sv_files s' = sv_files s1.
Proof.
  unfold with_terminate. destruct (m s) as [s1 r] eqn:Em. intros H.
  assert (forall s2 r2, on_node_of_jolt (on_connection (TerminateBridge tssServer_Stop)) s1 = (s2, r2) -> sv_files s2 = sv_files s1) as Hf.
  { intros s2 r2 H2. pose proof (keeps_on_node_of_jolt (sv_files s1) (on_connection (TerminateBridge tssServer_Stop)) s1 eq_refl) as H3.
    rewrite H2 in H3. exact H3. }
  exists s1. destruct r as [[]|e'|]; try (destruct (on_node_of_jolt _ s1) as [s2 [[]|e2|]] eqn:E2); simplify_eq; split; auto; by eapply Hf.
Qed.

(** The service under any events: either it ended before the loop or the loop
    came to a state [b], and only the saving of [b] has written files. *)
Lemma NewBridgeService_inv evs s s' e : NewBridgeService evs s = (s', Ret e) ->
  (e <> Done /\ sv_files s' = sv_files s) \/
  exists b s1 s2, ran evs s b /\ quiet b = true /\ e = Done /\ sv_files s1 = sv_files s /\
    save_state b s1 = (s2, Ret tt) /\ sv_files s' = sv_files s2.
Proof.
  unfold NewBridgeService. intros (s1 & r & H1 & H)%bind_ret_inv.
  pose proof (until_import_files (sv_files s) s eq_refl) as F1. rewrite H1 in F1. unfold files_are in F1. cbn [fst] in F1.
  destruct r as [e1|[[jolt tl] tss]].
  { unfold ret in H. simplify_eq. left. split; [|done]. intros ->. clear -H1. unfold until_import, orelse in H1.
    repeat match type of H1 with
    | bind _ _ _ = _ => apply bind_ret_inv in H1 as (? & ? & ? & H1)
    | (match ?x with _ => _ end) _ = _ => destruct x
    | ret _ _ = _ => unfold ret in H1; by simplify_eq
    end. }
  apply with_terminate_inv in H as (s2 & H & F2). apply bind_ret_inv in H as (s3 & r & H3 & H).
  pose proof (after_import_files (sv_files s) jolt tl tss s1 F1) as F3. rewrite H3 in F3. unfold files_are in F3. cbn [fst] in F3.
  destruct r as [e1|st].
  { unfold ret in H. simplify_eq. left. split; [|congruence]. intros ->. clear -H3. unfold after_import, orelse in H3.
    repeat match type of H3 with
    | bind _ _ _ = _ => apply bind_ret_inv in H3 as (? & ? & ? & H3)
    | (match ?x with _ => _ end) _ = _ => destruct x
    | ret _ _ = _ => unfold ret in H3; by simplify_eq
    end. }
  apply bind_ret_inv in H as (s4 & b & H4 & H).
  pose proof (keeps_run_service (sv_files s) st evs s3 F3) as F4. rewrite H4 in F4. unfold files_are in F4. cbn [fst] in F4.
  destruct (quiet b) eqn:Eq.
  - right. apply bind_ret_inv in H as (s5 & [] & H5 & H). unfold ret in H. simplify_eq.
    exists b, s4, s2. split_and!; try done. unfold run_service in H4. destruct (run_loop _ _ _) as [b' [[]|e'|]] eqn:El; simplify_eq.
    exists s1, s3, jolt, tl, tss, st. done.
  - left. unfold ret in H. simplify_eq. split; [done|congruence].
Qed.

(** What the loop's opening leaves alone unless it succeeds. *)
Definition same_work (b b' : BR) : Prop :=
  br_in b' = br_in b /\ br_out b' = br_out b /\ br_pools b' = br_pools b /\ br_jobs b' = br_jobs b.

Lemma same_work_on_jolt b {A} (m : M J A) : keeps (same_work b) (on_jolt m).
Proof. intros b' H. unfold on_jolt. by destruct (m _). Qed.
Lemma same_work_on_client b ct {A} (m : M (ChainInfo W C) A) : keeps (same_work b) (on_client ct m).
Proof. intros b' H. unfold on_client. destruct (chain_of ct b'); [|done]. by destruct (m _). Qed.

(** One guarded call of the opening. *)
Lemma guarded_false {A} (m : M BR A) (k : A -> M BR bool) b b1 b' :
  keeps (same_work b) m -> (forall a b1, same_work b b1 -> k a b1 = (b', Ret false) -> same_work b b') -> same_work b b1 ->
  (let! r := try m in match r with inl a => k a | inr _ => ret false end) b1 = (b', Ret false) -> same_work b b'.
Proof.
  intros Hm Hk H1 (b2 & r & H2 & H)%bind_ret_inv. apply try_ret_inv in H2.
  specialize (Hm b1 H1). destruct r as [a|e]; rewrite H2 in Hm; cbn [fst] in Hm; [exact (Hk a b2 Hm H)|].
  unfold ret in H. by simplify_eq.
Qed.

Lemma start_loop_false b b' : start_loop b = (b', Ret false) -> same_work b b'.
Proof.
  unfold start_loop. apply guarded_false; [apply same_work_on_jolt| |by split_and!]. intros [] b1 H1.
  apply guarded_false; [apply same_work_on_client| |done]. intros [] b2 H2.
  apply guarded_false; [apply same_work_on_client| |done]. intros [] b3 H3.
  apply guarded_false; [apply same_work_on_jolt| |done]. intros h b4 H4 H.
  unfold bind, modify, ret in H. simplify_eq.
Qed.

(** ** Properties *)

(** Fact (every state of the service is well-formed). Whatever the state files
    contain and whatever events come in whatever order, from the actual start
    of the service on: every waiting request is kept under its own index and
    every fund movement under its own height and chain, there is at most one
    inbound and one outbound batch between feeding and the end of its
    goroutine, and a "done" flag means that there is none. *)
Theorem service_state_ok jolt tl tss s s' st evs b r :
  after_import jolt tl tss s = (s', Ret (inr st)) -> run_loop (st_key st) evs (st_bridge st) = (b, r) -> bridge_ok b.
Proof. intros H1%after_import_ok H2. pose proof (run_loop_ok (st_key st) evs _ H1) as H. by rewrite H2 in H. Qed.

(** Fact (a failed start of the loop is silent). When [addEventLoop] could not
    subscribe or read the height, no event is ever handled, yet the service
    waits for the interrupt and then ends regularly, saving what it loaded. *)
Theorem silent_start st evs s b : start_loop (st_bridge st) = (b, Ret false) ->
  run_service st evs s = (mkService (node (br_bsc b)) (node (br_eth b)) (br_jolt b) (sv_files s) (sv_metrics s), Ret b) /\
  saved_of b = saved_of (st_bridge st) /\ (quiet (st_bridge st) = true -> quiet b = true).
Proof.
  intros H. pose proof (start_loop_false _ _ H) as (Hi & Ho & Hp & Hj). split.
  - unfold run_service, run_loop. by rewrite (bind_ret_run _ _ _ _ _ H).
  - unfold saved_of, quiet. by rewrite Hi, Ho, Hp, Hj.
Qed.

(** C19 (only a regular end writes the state). A start that fails at any step,
    and a service that is still waiting for a goroutine, leave the state files
    as they were: what an earlier run saved can be loaded again. *)
Theorem only_done_saves evs s s' e : NewBridgeService evs s = (s', Ret e) -> e <> Done -> sv_files s' = sv_files s.
Proof. intros [[_ H]|(b & s1 & s2 & _ & _ & -> & _)]%NewBridgeService_inv He; done. Qed.

End Service.

(** *** cmd/bridge_service.go

    [cfg] is what the flags give, [SetLogLevel] the answer of the logger of
    the signing library; the process ends with the service. *)
Definition main {SV : Type} `{MultiAddr} (cfg : outcome Config) (SetLogLevel : outcome unit) (NewBridgeService : Config -> M SV ending)
    : M (SdkConfig * SV) (option ending) := fun '(sdk, s) =>
  match SetupBech32Prefix sdk, cfg with
  | (sdk, Ret _), Ret cfg =>
      if Version cfg then ((sdk, s), Ret None)
      else match SetLogLevel with
        | Ret _ => let '(s, r) := NewBridgeService cfg s in ((sdk, s), omap Some r)
        | _ => ((sdk, s), Panic)
        end
  | (sdk, Ret _), Fail e => ((sdk, s), Fail e)
  | (sdk, _), _ => ((sdk, s), Panic)
  end.

(** ** Witnesses *)

Section Witnesses.
#[local] Existing Instance eth_client_ref.
#[local] Existing Instance tss_ref.
#[local] Existing Instance cosmos_ref.
#[local] Existing Instance tss_cos_ref.
#[local] Existing Instance EventLoop.blocks_ref.
#[local] Existing Instance EventLoop.connection_ref.
#[local] Existing Instance EventLoop.keygen_ref.
#[local] Existing Instance eth_signer_ref.
#[local] Existing Instance sdk_math_ref.
#[local] Existing Instance sdk_coins_ref.
#[local] Existing Instance bech32_ref.
#[local] Existing Instance eth_ref.
#[local] Existing Instance backoff_ref.
#[local] Existing Instance go_runtime_ref.
#[local] Existing Instance abi_ref.
#[local] Existing Instance handler_ref.
#[local] Existing Instance Config.multiaddr_ref.
#[local] Existing Instance Storage.fs_ref.

#[local] Instance network_ref : EthNetwork ref_world unit := {| client_ChainID := fun _ => ret 56 |}.
#[local] Instance tss_lib_cos : TssLib cos_world unit := {|
  NewTss := fun _ _ _ _ _ _ _ w => (w, (Some tt, None));
  ts_Keygen := fun _ _ => ret (mkKeygenResponse true "k07");
  ts_KeySign := fun _ _ => fail "no quorum";
  ts_GetLocalPeerID := fun _ => "peer";
  ts_Stop := fun _ => ret tt;
|}.
#[local] Instance status_ref : JoltStatus cos_world := {|
  GetSyncing := ret false;
  GetNetwork := ret "joltify-1";
  rest_GetRequest := fun _ => ret [];
  Unmarshal_info := fun _ => Ret "own key";
  QueryTipValidator := ret (7, []);
|}.

#[local] Definition deposit : InBoundReq := NewAccountInboundReq [Byte.x01] [] (mkCoin "abnb" 3) [Byte.x02] 10.
#[local] Instance codec_out : JsonCodec OutBoundReq := Storage.table_codec [].
#[local] Instance codec_in : JsonCodec InBoundReq := Storage.table_codec [deposit].
#[local] Instance codec_mf : JsonCodec MoveFundItem := Storage.table_codec [].

#[local] Definition config_ref : Config :=
  mkConfig (mkCosChainConfig "g" "w" "/websocket" "h" 1) (mkPubChainConfig "wb" "we" 1) (mkTssConfig 1 2 3 4 "r" 6668 [] "" "")
    "keyring.key" "home" "tokenlist.json" false 30 true.

(** A deposit is on disk. *)
#[local] Definition service0 : Service ref_world cos_world :=
  mkService ([3], []) ([3], []) ([30], []) {[ "home/inboundtx.dat" := [Byte.x5b] ]} (mkRegistry ∅ ∅).

#[local] Definition tokens_ref : list TokenItem := [mkTokenItem "0xaa" "abnb" 18 "BSC"].
#[local] Definition key_ref : CosPrivKey := mkCosPrivKey "a" (mkKeyField "t" "") (mkKeyField "t" "AQI=").

#[local] Notation service_ref pass evs s := (NewBridgeService (C := unit) (Msg := string) (TS := unit) (JS := jolt_ref true) (MC := memo_ref "JOLTIFY") (JN := node_ref "BSC")
  4 3 2 (fun _ => []) (fun b => b) hex_EncodeToString (fun _ => Ret []) Ret (fun _ => Ret []) (fun _ => Ret tokens_ref) (fun _ => Ret key_ref)
  true (Ret tt) pass (Ret 32) (fun _ _ _ => Ret tt) (Ret tt) (ret tt) None (ret tt) config_ref evs s).

#[local] Notation after_ref s := (after_import (C := unit) (Msg := string) (TS := unit) 2 hex_EncodeToString (fun _ => Ret []) Ret
  (Ret tt) (ret tt) None config_ref (mkJoltInstance empty_slots [] empty_queue InitFeeModule) (mkTokenList ∅ ∅ 30) (mkBridgeTssServer (Some tt)) s).
#[local] Notation loop_ref key evs br := (run_loop (C := unit) (JS := jolt_ref true) (MC := memo_ref "JOLTIFY") (JN := node_ref "BSC")
  4 3 (fun _ => []) (fun b => b) hex_EncodeToString (fun _ => Ret []) (fun _ => Ret tokens_ref) config_ref key evs br).

Lemma service_state_ok_witness : exists s' st b r, after_ref service0 = (s', Ret (inr st)) /\
  loop_ref (st_key st) [EvHealthCheck; EvJoltBlock 203] (st_bridge st) = (b, r) /\ bridge_ok b.
Proof.
  destruct (after_ref service0) as [s' r] eqn:E1.
  assert (match r with Ret (inr _) => true | _ => false end = true) as Hr.
  { apply (f_equal (fun x => match snd x with Ret (inr _) => true | _ => false end)) in E1. cbn [snd] in E1. rewrite <- E1. vm_compute. reflexivity. }
  destruct r as [[e|st]|e|]; try discriminate Hr.
  destruct (loop_ref (st_key st) [EvHealthCheck; EvJoltBlock 203] (st_bridge st)) as [b r] eqn:E2.
  exists s', st, b, r. split; [reflexivity|]. split; [exact E2|]. eapply service_state_ok; [exact E1|exact E2].
Defined.

Lemma only_done_saves_witness : exists s', service_ref (Fail "no terminal") [] service0 = (s', Ret (Fatal "fail to read the password")) /\
  sv_files s' = {[ "home/inboundtx.dat" := [Byte.x5b] ]}.
Proof.
  destruct (service_ref (Fail "no terminal") [] service0) as [s' r] eqn:E1.
  assert (r = Ret (Fatal "fail to read the password")) as ->.
  { apply (f_equal snd) in E1. cbn [snd] in E1. rewrite <- E1. vm_compute. reflexivity. }
  exists s'. split; [reflexivity|]. eapply only_done_saves in E1; [exact E1|discriminate].
Defined.

End Witnesses.
