(* ===== verification/Restarts.v ===== *)
(** * One life of the service after the other

    The start of Startup.v, the running service of BridgeThreads.v with its
    goroutines in any order, the interrupt, what is saved, and the next start
    on the same files, any number of times. *)

From Stdlib Require Import Ascii String.
From S2P Require Import Prelude GoLib Sdk Requests Fees ItemQueue TokenList Signature MoveFundQueue Pools Validators PubClient Keysign Goroutine Threads Config TxSend TssClient MoveFund Inbound Outbound CosTx Keygen Storage Processing Flow JoltClient EventLoop Wellformed Lifecycle BridgeThreads ServiceTypes Following DepositThreads PayoutThreads Ops Startup.

#[local] Open Scope string_scope.
#[local] Open Scope Z_scope.
#[local] Open Scope go_scope.

(** ** Definitions *)

Section Lives.
Context {W C J Msg TS : Type} `{EC : EthClient W C} `{TW : TssServer W} `{CN : CosmosNode J Msg} `{TJ : TssServer J} `{JS : JoltService J}.
Context `{JB : JoltBlocks J} `{JCn : JoltConnection J} `{KG : KeygenServer J Msg}.
Context `{G : EthSigner} `{S : SdkMath} `{N : SdkCoins} `{B : Bech32} `{E : Eth} `{K : Backoff} `{R : GoRuntime} `{GK : GoBackoff}.
Context `{AB : TokenAbi} `{JH : !JoltHandler} `{MC : MemoCodec} `{JN : !JoltNode}.
Context `{EN : !EthNetwork W C} `{MA : MultiAddr} `{TL : !TssLib J TS} `{JT : JoltStatus J} `{FS : FileSystem}.
Context `{JO : JsonCodec OutBoundReq} `{JI : JsonCodec InBoundReq} `{JM : JsonCodec MoveFundItem}.
Context (attempts submits polls : nat) (HexToHash : string -> bytes).
Context (GetConsAddress : bytes -> bytes) (Address_String : bytes -> string).
Context (ConsAddressFromBech32 : string -> outcome bytes) (UnpackAny : bytes -> outcome bytes).
Context (os_ReadFile : string -> outcome bytes) (Unmarshal_tokens : bytes -> outcome (list TokenItem)) (Unmarshal_key : bytes -> outcome CosPrivKey).
Context (IsTerminal : bool) (os_Open : outcome unit) (ReadPassword : outcome bytes) (Stdin_Read : outcome Z).
Context (ImportPrivKey : string -> bytes -> bytes -> outcome unit) (abi_JSON : outcome unit).
Context (promhttp : M Writer unit) (listen : option string) (config : Config).
#[local] Notation BR := (Bridge W C J Msg).
#[local] Notation SV := (Service W J).
#[local] Notation ST := (Started (W := W) (C := C) (J := J) (Msg := Msg)).

(** A start on these files that comes to [addEventLoop]. *)
Definition begins (files : gmap string bytes) (st : ST) : Prop :=
  exists (s1 s2 s3 : SV) jolt tl tss, sv_files s1 = files /\
    until_import (TS := TS) os_ReadFile Unmarshal_tokens Unmarshal_key IsTerminal os_Open ReadPassword Stdin_Read ImportPrivKey config s1 = (s2, Ret (inr (jolt, tl, tss))) /\
    after_import polls Address_String ConsAddressFromBech32 UnpackAny abi_JSON promhttp listen config jolt tl tss s2 = (s3, Ret (inr st)).

(** What the loop does with an event. *)
Definition loop_handler (key : string) : arrival -> thread kind BR :=
  on_arrival attempts submits HexToHash GetConsAddress Address_String key (token_file os_ReadFile config) Unmarshal_tokens InitFeeModule
    (cos_RollbackGap (CosChain config)) (pub_RollbackGap (PubChain config)).

(** The steps of a service whose loop could be started, or could not. *)
Definition serves (key : string) (looping : bool) (c c' : service kind BR) : Prop :=
  looping = true /\ svc_step (loop_handler key) c c'.

(** The running service comes by [c]. *)
Definition comes_by (st : ST) (looping : bool) (c : service kind BR) : Prop :=
  exists b0, start_loop (st_bridge st) = (b0, Ret looping) /\ rtc (serves (st_key st) looping) (start_service b0) c.

(** Everything that waits can be written. *)
Definition can_save (b : BR) : Prop := exists qo lo qi li bo bi bm,
  flush (out_q (br_out b)) = (qo, Ret lo) /\ flush (in_q (br_in b)) = (qi, Ret li) /\
  Marshal lo = Ret bo /\ Marshal li = Ret bi /\ Marshal (ExportMoveFundItems (moveFundReq (br_pools b))) = Ret bm.

(** The service started as [st] comes by [c1]; when the interrupt arrives and
    all goroutines have ended, it is in [c] with no batch on a channel, and
    saves its state; the next start on the files finds [st']. *)
Definition restarts_from (st : ST) (c1 : service kind BR) (st' : ST) : Prop :=
  exists looping c s s', comes_by st looping c1 /\ rtc (serves (st_key st) looping) c1 c /\ at_rest c /\
    InboundReqChan (br_in (mem c)) = [] /\ OutboundReqChan (br_out (mem c)) = [] /\ can_save (mem c) /\
    save_state config (mem c) s = (s', Ret tt) /\ begins (sv_files s') st'.

Definition restarts (st st' : ST) : Prop := exists c1, restarts_from st c1 st'.
End Lives.

(** ** Lemmas *)

(** A queue whose requests on hold went back to the map keeps what it kept. *)
Lemma kept_flushed {A} `{I : Indexed A} (mine settled : A -> Prop) ks (q : ItemQueue A) chan :
  (forall x y k, mine x -> Index x = Ret k -> Index y = Ret k -> mine y) -> `{GoRuntime} ->
  queue_wf q -> Forall2 (fun k a => Index a = Ret k) ks (onHold q) -> chan = [] -> item_kept mine settled q chan ->
  item_kept mine settled (mkQueue (insert_all (zip ks (onHold q)) (pending q)) []) [].
Proof.
  intros Hm HR Hq Hks -> (x & Hx & Hw). destruct (flush_ret ks q Hq Hks) as [_ Hq'].
  assert (forall k, Index x = Ret k -> is_Some (insert_all (zip ks (onHold q)) (pending q) !! k) ->
    item_kept mine settled (mkQueue (insert_all (zip ks (onHold q)) (pending q)) []) []) as Hin.
  { intros k Hk [y Hy]. exists y. split; [|left; left; by exists k]. eapply Hm; [exact Hx|exact Hk|]. by apply (Hq' k y). }
  destruct Hw as [[[k Hk]|Hh]|[(l & ?%not_elem_of_nil & _)|Hs]]; [|..|exists x; tauto].
  - apply (Hin k); [by apply Hq|]. apply insert_all_is_Some. right. by exists x.
  - apply list_elem_of_lookup in Hh as [i Hi]. destruct (Forall2_lookup_r _ _ _ _ _ Hks Hi) as (k & Hk & Hxk).
    apply (Hin k Hxk). apply insert_all_is_Some. left. rewrite fst_zip by (by rewrite (Forall2_length _ _ _ Hks)).
    by eapply list_elem_of_lookup_2.
  - done.
Qed.

(** A flow that starts keeps what was loaded. *)
Lemma kept_queue {A} `{I : Indexed A} (mine settled : A -> Prop) (q q' : ItemQueue A) chan chan' :
  q' = q -> chan' = chan -> item_kept mine settled q chan -> item_kept mine settled q' chan'.
Proof. by intros -> ->. Qed.

Section Lives.
Context {W C J Msg TS : Type} `{EC : EthClient W C} `{TW : TssServer W} `{CN : CosmosNode J Msg} `{TJ : TssServer J} `{JS : JoltService J}.
Context `{JB : JoltBlocks J} `{JCn : JoltConnection J} `{KG : KeygenServer J Msg}.
Context `{G : EthSigner} `{LG : !EthSignerLaws G} `{S : SdkMath} `{N : SdkCoins} `{B : Bech32} `{E : Eth} `{LE : !EthLaws E}.
Context `{K : Backoff} `{R : GoRuntime} `{LR : !GoRuntimeLaws R} `{GK : GoBackoff} `{GL : !GoBackoffLaws GK}.
Context `{AB : TokenAbi} `{JH : !JoltHandler} `{MC : MemoCodec} `{JN : !JoltNode}.
Context `{EN : !EthNetwork W C} `{MA : MultiAddr} `{TL : !TssLib J TS} `{JT : JoltStatus J} `{FS : FileSystem}.
Context `{JO : JsonCodec OutBoundReq} `{JI : JsonCodec InBoundReq} `{JM : JsonCodec MoveFundItem}.
Context (attempts submits polls : nat) (HexToHash : string -> bytes).
Context (GetConsAddress : bytes -> bytes) (Address_String : bytes -> string).
Context (ConsAddressFromBech32 : string -> outcome bytes) (UnpackAny : bytes -> outcome bytes).
Context (os_ReadFile : string -> outcome bytes) (Unmarshal_tokens : bytes -> outcome (list TokenItem)) (Unmarshal_key : bytes -> outcome CosPrivKey).
Context (IsTerminal : bool) (os_Open : outcome unit) (ReadPassword : outcome bytes) (Stdin_Read : outcome Z).
Context (ImportPrivKey : string -> bytes -> bytes -> outcome unit) (abi_JSON : outcome unit).
Context (promhttp : M Writer unit) (listen : option string) (config : Config).
#[local] Notation BR := (Bridge W C J Msg).
#[local] Notation SV := (Service W J).
#[local] Notation ST := (Started (W := W) (C := C) (J := J) (Msg := Msg)).
#[local] Notation begins := (begins (W := W) (C := C) (J := J) (Msg := Msg) (TS := TS) polls Address_String ConsAddressFromBech32 UnpackAny os_ReadFile Unmarshal_tokens Unmarshal_key
  IsTerminal os_Open ReadPassword Stdin_Read ImportPrivKey abi_JSON promhttp listen config).
#[local] Notation comes_by := (comes_by (W := W) (C := C) (J := J) (Msg := Msg) attempts submits HexToHash GetConsAddress Address_String os_ReadFile Unmarshal_tokens config).
#[local] Notation serves := (serves (W := W) (C := C) (J := J) (Msg := Msg) attempts submits HexToHash GetConsAddress Address_String os_ReadFile Unmarshal_tokens config).
#[local] Notation handler := (loop_handler (W := W) (C := C) (J := J) (Msg := Msg) attempts submits HexToHash GetConsAddress Address_String os_ReadFile Unmarshal_tokens config).

(** What a start has loaded, and what is empty. *)
Lemma begins_loads files (st : ST) : begins files st -> exists saved,
  restore (HomeDir config) files (mkSaved empty_queue empty_queue ∅) = (saved, Ret tt) /\
  saved_of (st_bridge st) = saved /\ br_in (st_bridge st) = initial_in (s_in saved) 0 /\ br_out (st_bridge st) = initial_out (s_out saved) 0 /\
  jc_pools (br_pools (st_bridge st)) = empty_slots.
Proof.
  intros (s1 & s2 & s3 & jolt & tl & tss & Hf & H1 & H2).
  assert (jolt_lastTwoPools jolt = empty_slots) as Hj.
  { clear H2. unfold until_import, orelse in H1.
    repeat match type of H1 with
    | bind _ _ _ = _ => apply bind_ret_inv in H1 as (? & ? & ? & H1)
    | (match ?x with _ => _ end) _ = _ => destruct x
    | ret _ _ = _ => unfold ret in H1; simplify_eq
    end.
    all: repeat match goal with
    | H : try (on_node_of_jolt NewJoltifyBridge) _ = (_, Ret (inl _)) |- _ => apply try_ret_inv in H; unfold on_node_of_jolt in H
    end.
    all: match goal with H : (let '(_, _) := NewJoltifyBridge ?j in _) = _ |- _ => destruct (NewJoltifyBridge j) as [j' r'] eqn:En; simplify_eq end.
    all: unfold NewJoltifyBridge in En; apply bind_ret_inv in En as (? & [] & _ & En); unfold ret in En; by simplify_eq. }
  assert (sv_files s2 = files) as Hf2.
  { pose proof (until_import_files (Msg := Msg) (TS := TS) os_ReadFile Unmarshal_tokens Unmarshal_key IsTerminal os_Open ReadPassword Stdin_Read ImportPrivKey config files s1 Hf) as Hk.
    unfold files_are in Hk. by rewrite H1 in Hk. }
  clear H1. unfold after_import, orelse in H2. apply bind_ret_inv in H2 as (s4 & v & E1 & H).
  destruct v as [[[key vals]|]|e]; [|unfold ret in H; simplify_eq..].
  apply bind_ret_inv in H as (s5 & peer & E2 & H). apply bind_ret_inv in H as (s6 & h & E3 & H).
  destruct h as [[]|e]; [|unfold ret in H; simplify_eq]. apply bind_ret_inv in H as (s7 & pub & E4 & H).
  destruct pub as [pub|e]; [|unfold ret in H; simplify_eq]. apply bind_ret_inv in H as (s8 & saved & E5 & H).
  unfold bind, get, ret in H. simplify_eq. exists saved. unfold restore_files in E5.
  assert (sv_files s7 = sv_files s2) as Hf7.
  { apply try_ret_inv in E1, E4. unfold on_node_of_jolt in E1. unfold on_nodes in E4. unfold lift, try in E2, E3.
    destruct (init_validators _ _ _ _ _ _) as [j1 r1]. destruct (NewChainInstance _ _ _ _) as [[w1 w2] r2].
    simplify_eq. done. }
  rewrite Hf7, Hf2 in E5. destruct (restore _ _ _) as [sv r] eqn:Er. destruct r as [[]|e|]; simplify_eq. split; [done|].
  cbn. rewrite Hj. by destruct saved.
Qed.

(** The opening of the loop leaves the queues alone. *)
Definition same_queues (b b' : BR) : Prop :=
  in_q (br_in b') = in_q (br_in b) /\ out_q (br_out b') = out_q (br_out b) /\ br_pools b' = br_pools b /\
  InboundReqChan (br_in b') = [] /\ OutboundReqChan (br_out b') = [] /\
  (in_i32 (in_failed (br_in b')) /\ in_i64 (inboundPauseHeight (br_in b'))) /\
  in_i32 (out_failed (br_out b')) /\ in_u64 (at_BSC (outboundPauseHeight (br_out b'))) /\ in_u64 (at_ETH (outboundPauseHeight (br_out b'))).

Lemma start_loop_queues b : keeps (same_queues b) start_loop.
Proof.
  assert (forall A (m : M J A), keeps (same_queues b) (on_jolt m)) as Hj by (intros A m b' H; unfold on_jolt; by destruct (m _)).
  assert (forall A ct (m : M (ChainInfo W C) A), keeps (same_queues b) (on_client ct m)) as Hc.
  { intros A ct m b' H. unfold on_client. destruct (chain_of ct b'); [|done]. by destruct (m _). }
  unfold start_loop. repeat first [keep_step|apply Hj|apply Hc]. apply keeps_modify. intros b' (H1 & H2 & H3 & _). by split_and!.
Qed.

(** The state the loop starts with. *)
Lemma comes_by_start files st looping c : begins files st -> comes_by st looping c -> exists b0,
  rtc (serves (st_key st) looping) (start_service b0) c /\ same_queues (st_bridge st) b0 /\ jc_pools (br_pools b0) = empty_slots /\ well_typed b0 /\
  InboundReqChan (br_in b0) = [] /\ OutboundReqChan (br_out b0) = [].
Proof.
  intros Hst (b0 & Hb0 & Hc). destruct (begins_loads _ _ Hst) as (saved & Hre & Hs & Hi & Ho & Hp).
  assert (same_queues (st_bridge st) b0) as Hq.
  { pose proof (start_loop_queues (st_bridge st) (st_bridge st)) as Hk. rewrite Hb0 in Hk. apply Hk. unfold same_queues. rewrite Hi, Ho. by split_and!. }
  exists b0. split; [done|]. split; [done|]. destruct Hq as (Hqi & Hqo & Hqp & Hci & Hco & (Hf & Hh) & Hf' & Hh' & Hh''). split; [congruence|]. split; [|done].
  pose proof (restore_wf (HomeDir config) files) as Hwf. rewrite Hre in Hwf. destruct Hwf as (Ho' & Hi' & Hm'). cbn [fst] in *.
  rewrite <- Hs in Ho', Hi', Hm'. cbn [s_in s_out s_mf saved_of] in *. unfold well_typed, in_typed, out_typed. rewrite Hqi, Hqo, Hqp. done.
Qed.

(** Steps of a service that serves are steps of the service. *)
Lemma serves_steps key looping c c' : rtc (serves key looping) c c' -> rtc (svc_step (handler key)) c c'.
Proof. apply rtc_subrel. by intros x y [_ H]. Qed.

Context (LO : JsonCodecLaws OutBoundReq JO) (LI : JsonCodecLaws InBoundReq JI) (LM : JsonCodecLaws MoveFundItem JM).
Context (Hfolder : (1 <= String.length (HomeDir config))%nat) (Hwrite : forall f, WriteFile_ok f = true).
Context (Hjoin : forall f g, path_Join (HomeDir config) f = path_Join (HomeDir config) g -> f = g).

(** What the next start finds. *)
Lemma saved_and_loaded (b : BR) (s s' : SV) (st' : ST) : well_typed b -> can_save b -> save_state config b s = (s', Ret tt) ->
  begins (sv_files s') st' -> exists kso ksi,
  Forall2 (fun k a => Index a = Ret k) kso (onHold (out_q (br_out b))) /\ Forall2 (fun k a => Index a = Ret k) ksi (onHold (in_q (br_in b))) /\
  saved_of (st_bridge st') = mkSaved (mkQueue (insert_all (zip kso (onHold (out_q (br_out b)))) (pending (out_q (br_out b)))) [])
    (mkQueue (insert_all (zip ksi (onHold (in_q (br_in b)))) (pending (in_q (br_in b)))) []) (moveFundReq (br_pools b)) /\
  br_in (st_bridge st') = initial_in (s_in (saved_of (st_bridge st'))) 0 /\ br_out (st_bridge st') = initial_out (s_out (saved_of (st_bridge st'))) 0.
Proof using LE LR LO LI LM Hfolder Hwrite Hjoin.
  intros ((Hi & _) & (Ho & _) & Hm) (qo & lo & qi & li & bo & bi & bm & Hfo & Hfi & Hbo & Hbi & Hbm) Hs Hb.
  destruct (flush_inv _ _ _ Hfo) as [kso Hko]. destruct (flush_inv _ _ _ Hfi) as [ksi Hki]. exists kso, ksi. split; [done|]. split; [done|].
  destruct (flush_ret kso _ Ho Hko) as [Hro _]. destruct (flush_ret ksi _ Hi Hki) as [Hri _].
  rewrite Hro in Hfo. rewrite Hri in Hfi. injection Hfo as <- <-. injection Hfi as <- <-.
  assert (Forall2 (fun k a => InBoundReq_Index a = k) ksi (onHold (in_q (br_in b)))) as Hki'.
  { eapply Forall2_impl; [exact Hki|]. intros k a H. by injection H. }
  destruct (restart_preserves (HomeDir config) (saved_of b) (sv_files s) kso ksi bo bi bm) as (files' & Hsh & Hre); try done.
  unfold save_state in Hs. rewrite Hsh in Hs. simplify_eq. cbn [sv_files] in Hb.
  destruct (begins_loads _ _ Hb) as (saved & Hre' & Hsv & Hii & Hoo & _). rewrite Hre in Hre'. injection Hre' as <-. by rewrite Hsv.
Qed.

Context (Hsubmits : (0 < submits)%nat) (Hdial : forall w : J, exists w', DialGrpc w = (w', Ret tt)).
Context (Hnonce : forall (cl : C) a w e, (PendingNonceAt cl a w).2 <> Fail e).
#[local] Notation restarts_from := (restarts_from (TS := TS) attempts submits polls HexToHash GetConsAddress Address_String ConsAddressFromBech32 UnpackAny
  os_ReadFile Unmarshal_tokens Unmarshal_key IsTerminal os_Open ReadPassword Stdin_Read ImportPrivKey abi_JSON promhttp listen config).
#[local] Notation restarts := (restarts (TS := TS) attempts submits polls HexToHash GetConsAddress Address_String ConsAddressFromBech32 UnpackAny
  os_ReadFile Unmarshal_tokens Unmarshal_key IsTerminal os_Open ReadPassword Stdin_Read ImportPrivKey abi_JSON promhttp listen config).

(** From a moment in one life to the start of the next. *)
Lemma next_life files (st : ST) (c1 : service kind BR) st' : begins files st -> restarts_from st c1 st' ->
  (exists files', begins files' st') /\
  (forall a, deposit_kept (J := J) a (br_in (mem c1)) -> deposit_kept (J := J) a (br_in (st_bridge st'))) /\
  (forall k, payout_kept (W := W) (C := C) (J := J) HexToHash k (br_out (mem c1)) -> payout_kept (W := W) (C := C) (J := J) HexToHash k (br_out (st_bridge st'))).
Proof using All.
  intros Hst (looping & c & s & s' & Hc1 & Hc & Hr & Hci & Hco & Hcan & Hs & Hb). split; [by eexists|].
  destruct (comes_by_start _ _ _ _ Hst Hc1) as (b0 & H1%serves_steps & _ & Hp & Ht & Hi0 & Ho0). apply serves_steps in Hc.
  assert (well_typed (mem c)) as Htc.
  { eapply (service_typed attempts submits Hsubmits); [exact Ht|exact Hi0|exact Ho0|]. exact (transitivity (R := rtc _) H1 Hc). }
  destruct (saved_and_loaded _ _ _ _ Htc Hcan Hs Hb) as (kso & ksi & Hko & Hki & Hsv & Hii & Hoo). rewrite Hsv in Hii, Hoo.
  destruct Ht as ((Hti & _) & (Hto & _) & _). destruct Htc as ((Hqi & _) & (Hqo & _) & _). split.
  - intros a Ha. unfold deposit_kept. rewrite Hii. cbn. apply (kept_flushed _ _ _ _ (InboundReqChan (br_in (mem c)))); try done.
    + intros x y k Hx Hxk Hyk. by eapply (dep_mine_index a x y k).
    + eapply (deposit_rests a Hdial attempts submits Hsubmits); [exact Hti|exact H1|exact Hc|exact Hr|exact Ha].
  - intros k Hk. unfold payout_kept. rewrite Hoo. cbn. apply (kept_flushed _ _ _ _ (OutboundReqChan (br_out (mem c)))); try done.
    + intros x y j Hx Hxk Hyk. by eapply (pay_mine_index k x y j).
    + eapply (payout_rests HexToHash k attempts submits Hsubmits Hnonce); [|exact Hto|exact H1|exact Hc|exact Hr|exact Hk].
      intros p. rewrite Hp. by intros [Hp'|Hp'].
Qed.

(** From a start over the next one. *)
Lemma over_next files (st st' : ST) : begins files st -> restarts st st' ->
  (exists files', begins files' st') /\
  (forall a, deposit_kept (J := J) a (br_in (st_bridge st)) -> deposit_kept (J := J) a (br_in (st_bridge st'))) /\
  (forall k, payout_kept (W := W) (C := C) (J := J) HexToHash k (br_out (st_bridge st)) -> payout_kept (W := W) (C := C) (J := J) HexToHash k (br_out (st_bridge st'))).
Proof using All.
  intros Hst (c1 & looping & c & s & s' & Hc1 & Hc & Hrest). pose proof Hc1 as (b0 & Hb0 & Hb).
  destruct (next_life files st (start_service b0) st' Hst) as (H1 & H2 & H3).
  { exists looping, c, s, s'. split; [by exists b0|]. split; [exact (transitivity (R := rtc _) Hb Hc)|exact Hrest]. }
  destruct (begins_loads _ _ Hst) as (saved & _ & _ & Hi & Ho & _).
  assert (same_queues (st_bridge st) b0) as (Hqi & Hqo & _ & Hci & Hco & _).
  { pose proof (start_loop_queues (st_bridge st) (st_bridge st)) as Hk. rewrite Hb0 in Hk. apply Hk. unfold same_queues. rewrite Hi, Ho. by split_and!. }
  split; [done|]. split.
  - intros a Ha. apply H2. revert Ha. cbn. apply kept_queue; [done|]. by rewrite Hci, Hi.
  - intros k Hk. apply H3. revert Hk. cbn. apply kept_queue; [done|]. by rewrite Hco, Ho.
Qed.

(** From a start over any number of starts. *)
Lemma over_all files (st st' : ST) : begins files st -> rtc restarts st st' ->
  (forall a, deposit_kept (J := J) a (br_in (st_bridge st)) -> deposit_kept (J := J) a (br_in (st_bridge st'))) /\
  (forall k, payout_kept (W := W) (C := C) (J := J) HexToHash k (br_out (st_bridge st)) -> payout_kept (W := W) (C := C) (J := J) HexToHash k (br_out (st_bridge st'))).
Proof using All.
  intros Hst H. revert files Hst. induction H as [st|st st1 st' H _ IH]; intros files Hst; [done|].
  destruct (over_next _ _ _ Hst H) as ([files1 H1] & H2 & H3). destruct (IH _ H1) as [H4 H5]. split; auto.
Qed.
End Lives.

(** ** Properties *)

Section Properties.
Context {W C J Msg TS : Type} `{EC : EthClient W C} `{TW : TssServer W} `{CN : CosmosNode J Msg} `{TJ : TssServer J} `{JS : JoltService J}.
Context `{JB : JoltBlocks J} `{JCn : JoltConnection J} `{KG : KeygenServer J Msg}.
Context `{G : EthSigner} `{LG : !EthSignerLaws G} `{S : SdkMath} `{N : SdkCoins} `{B : Bech32} `{E : Eth} `{LE : !EthLaws E}.
Context `{K : Backoff} `{R : GoRuntime} `{LR : !GoRuntimeLaws R} `{GK : GoBackoff} `{GL : !GoBackoffLaws GK}.
Context `{AB : TokenAbi} `{JH : !JoltHandler} `{MC : MemoCodec} `{JN : !JoltNode}.
Context `{EN : !EthNetwork W C} `{MA : MultiAddr} `{TL : !TssLib J TS} `{JT : JoltStatus J} `{FS : FileSystem}.
Context `{JO : JsonCodec OutBoundReq} `{JI : JsonCodec InBoundReq} `{JM : JsonCodec MoveFundItem}.
Context (attempts submits polls : nat) (HexToHash : string -> bytes).
Context (GetConsAddress : bytes -> bytes) (Address_String : bytes -> string).
Context (ConsAddressFromBech32 : string -> outcome bytes) (UnpackAny : bytes -> outcome bytes).
Context (os_ReadFile : string -> outcome bytes) (Unmarshal_tokens : bytes -> outcome (list TokenItem)) (Unmarshal_key : bytes -> outcome CosPrivKey).
Context (IsTerminal : bool) (os_Open : outcome unit) (ReadPassword : outcome bytes) (Stdin_Read : outcome Z).
Context (ImportPrivKey : string -> bytes -> bytes -> outcome unit) (abi_JSON : outcome unit).
Context (promhttp : M Writer unit) (listen : option string) (config : Config).
#[local] Notation BR := (Bridge W C J Msg).
#[local] Notation ST := (Started (W := W) (C := C) (J := J) (Msg := Msg)).
#[local] Notation begins := (begins (W := W) (C := C) (J := J) (Msg := Msg) (TS := TS) polls Address_String ConsAddressFromBech32 UnpackAny os_ReadFile Unmarshal_tokens Unmarshal_key
  IsTerminal os_Open ReadPassword Stdin_Read ImportPrivKey abi_JSON promhttp listen config).
#[local] Notation comes_by := (comes_by (W := W) (C := C) (J := J) (Msg := Msg) attempts submits HexToHash GetConsAddress Address_String os_ReadFile Unmarshal_tokens config).
#[local] Notation restarts_from := (restarts_from (TS := TS) attempts submits polls HexToHash GetConsAddress Address_String ConsAddressFromBech32 UnpackAny
  os_ReadFile Unmarshal_tokens Unmarshal_key IsTerminal os_Open ReadPassword Stdin_Read ImportPrivKey abi_JSON promhttp listen config).
#[local] Notation restarts := (restarts (TS := TS) attempts submits polls HexToHash GetConsAddress Address_String ConsAddressFromBech32 UnpackAny
  os_ReadFile Unmarshal_tokens Unmarshal_key IsTerminal os_Open ReadPassword Stdin_Read ImportPrivKey abi_JSON promhttp listen config).


(** C17 (the state of the service is well-typed at every moment). From every
    start that comes to the event loop, whatever the state files contain,
    whatever events come and however the loop and all goroutines interleave:
    every waiting request is kept under its own index and every fund movement
    under its own height and chain, the failure counters are within int32,
    the pause heights within int64 and uint64. *)
Theorem service_always_typed files (st : ST) looping (c : service kind BR) :
  (0 < submits)%nat -> begins files st -> comes_by st looping c -> well_typed (mem c).
Proof.
  intros Hs Hst Hc. destruct (comes_by_start attempts submits polls HexToHash GetConsAddress Address_String ConsAddressFromBech32 UnpackAny os_ReadFile
    Unmarshal_tokens Unmarshal_key IsTerminal os_Open ReadPassword Stdin_Read ImportPrivKey abi_JSON promhttp listen config _ _ _ _ Hst Hc)
    as (b0 & H%serves_steps & _ & _ & Ht & Hi & Ho). by eapply (service_typed attempts submits Hs).
Qed.
End Properties.

(** ** Witnesses *)

Section Witnesses.
#[local] Existing Instance confirming_ref.
#[local] Existing Instance Processing.tss_bool_ref.
#[local] Existing Instance cosmos_ref.
#[local] Existing Instance tss_cos_ref.
#[local] Existing Instance EventLoop.blocks_ref.
#[local] Existing Instance EventLoop.connection_ref.
#[local] Existing Instance EventLoop.keygen_ref.
#[local] Existing Instance eth_signer_ref.
#[local] Existing Instance sdk_math_ref.
#[local] Existing Instance sdk_coins_ref.
#[local] Existing Instance bech32_ref.
#[local] Existing Instance eth_ref.
#[local] Existing Instance backoff_ref.
#[local] Existing Instance go_backoff_ref.
#[local] Existing Instance go_runtime_ref.
#[local] Existing Instance abi_ref.
#[local] Existing Instance handler_ref.
#[local] Existing Instance Config.multiaddr_ref.
#[local] Existing Instance Storage.fs_ref.
#[local] Existing Instance Startup.tss_lib_cos.
#[local] Existing Instance Startup.status_ref.
#[local] Existing Instance Startup.codec_out.
#[local] Existing Instance Startup.codec_in.
#[local] Existing Instance Startup.codec_mf.

#[local] Instance network_bool : EthNetwork bool unit := {| client_ChainID := fun _ => ret 56 |}.

(** A deposit is on disk. *)
#[local] Definition service0 : Service bool cos_world :=
  mkService true true ([30], []) {[ "home/inboundtx.dat" := [Byte.x5b] ]} (mkRegistry ∅ ∅).

#[local] Notation SV := (Service bool cos_world).
#[local] Notation ST := (Started (W := bool) (C := unit) (J := cos_world) (Msg := string)).

(** A start, run. *)
#[local] Definition start_on (s : SV) : option ST :=
  match until_import (TS := unit) (fun _ => Ret []) (fun _ => Ret Startup.tokens_ref) (fun _ => Ret Startup.key_ref) true (Ret tt) (Ret []) (Ret 32)
      (fun _ _ _ => Ret tt) Startup.config_ref s with
  | (s, Ret (inr (jolt, tl, tss))) =>
      match after_import 2 hex_EncodeToString (fun _ => Ret []) Ret (Ret tt) (ret tt) None Startup.config_ref jolt tl tss s with
      | (_, Ret (inr st)) => Some st
      | _ => None
      end
  | _ => None
  end.

#[local] Notation begins_ref := (begins (C := unit) (Msg := string) (TS := unit) 2 hex_EncodeToString (fun _ => Ret []) Ret (fun _ => Ret []) (fun _ => Ret Startup.tokens_ref)
  (fun _ => Ret Startup.key_ref) true (Ret tt) (Ret []) (Ret 32) (fun _ _ _ => Ret tt) (Ret tt) (ret tt) None Startup.config_ref).
#[local] Notation handler_ref := (loop_handler (C := unit) (JS := jolt_ref true) (MC := memo_ref "JOLTIFY") (JN := node_ref "BSC")
  4 3 (fun _ => []) (fun b => b) hex_EncodeToString (fun _ => Ret []) (fun _ => Ret Startup.tokens_ref) Startup.config_ref).

Lemma start_on_begins s st : start_on s = Some st -> begins_ref (sv_files s) st.
Proof.
  unfold start_on. destruct (until_import _ _ _ _ _ _ _ _ _ s) as [s2 [[e|[[jolt tl] tss]]|e|]] eqn:E1; try discriminate.
  destruct (after_import _ _ _ _ _ _ _ _ _ _ _ s2) as [s3 [[e|st']|e|]] eqn:E2; try discriminate. intros [= <-].
  exists s, s2, s3, jolt, tl, tss. done.
Qed.

#[local] Definition started0 : ST := default (mkStarted Lifecycle.paying_bridge "") (start_on service0).
#[local] Definition life0 := start_service (fst (start_loop (st_bridge started0))).
(** The first block has begun when the deposit is looked at. *)
#[local] Notation midway := (svc_sched (handler_ref (st_key started0)) (PickEvent (ArrJoltBlock 203) :: repeat (PickLoop None) 4) life0).
#[local] Notation ended := (svc_sched (handler_ref (st_key started0)) (repeat (PickLoop None) 40 ++ repeat (PickOther 0 None) 4)%list midway).
#[local] Notation saved := (fst (save_state Startup.config_ref (mem ended) service0)).
#[local] Definition started1 : ST := default started0 (start_on saved).

Lemma service_always_typed_witness : rests midway = false /\ well_typed (mem midway).
Proof.
  split; [vm_compute; reflexivity|].
  refine (service_always_typed (TS := unit) (JS := jolt_ref true) (MC := memo_ref "JOLTIFY") (JN := node_ref "BSC")
    4 3 2 (fun _ => []) (fun b => b) hex_EncodeToString (fun _ => Ret []) Ret (fun _ => Ret []) (fun _ => Ret Startup.tokens_ref)
    (fun _ => Ret Startup.key_ref) true (Ret tt) (Ret []) (Ret 32) (fun _ _ _ => Ret tt) (Ret tt) (ret tt) None Startup.config_ref
    (sv_files service0) started0 true midway _ _ _).
  - apply Nat.lt_0_succ.
  - apply start_on_begins. vm_compute. reflexivity.
  - exists (fst (start_loop (st_bridge started0))). split; [vm_compute; reflexivity|].
    refine (rtc_subrel _ _ _ _ _ (svc_sched_runs _ _ _)). intros x y H. by split.
Defined.

End Witnesses.
